(* ===== verification/_CoqProject ===== *)
-Q . S2P
Prelude.v
Isa.v
Formats.v
DecoderSpec.v
Alu.v
Regfile.v
Config.v
Pipe.v
Memory.v
FlatMem.v
TreePlru.v
Geometry.v
Cache.v
CacheLaws.v
CacheTiming.v
PrefetchStats.v
MemoryLive.v
MemoryTimed.v
BranchPredictor.v
Stages.v
Tracer.v
Elf.v
Core.v
CoreStep.v
IsaSpec.v
Serial.v
CoreInv.v
SerialFacts.v
CoreTotal.v
Refine.v
Shadow.v
Correct.v
Safe.v
Progress.v
Termination.v
Build.v
Program.v
TwoPhase.v
Simulator.v
Statistics.v
CycleStack.v
DataTiming.v
Timing.v
PrefetchRuns.v
Trace.v
CycleTrace.v
ElfBoot.v
Report.v
BenchRun.v
BenchSpec.v
