(* ===== verification/Prelude.v ===== *)
(** * cpu-sim: a verified model of the RV32I pipeline simulator

    The program is a cycle-level simulator, in C++17, of a five-stage in-order
    RV32I pipeline with forwarding, a load-use interlock, optional L1 caches
    with tree pseudo-LRU replacement and sequential prefetch, an optional branch
    predictor, a tracer, an ELF loader and a command-line runner.  This library
    models every part of it that computes something and proves that the whole
    simulates the RV32I instruction set: for a program that is safe (below) the
    tool returns, with the registers, the memory, the commit log, the exit code
    and the instruction count of the instruction-by-instruction execution.

    ** Conventions

    A C++ integer of width w is a [Z] with its wrap-around written out ([u8],
    [u32], [u64], [s32] below).  A method is a function from the object's record
    (and whatever it reaches by reference) to the new record.  [option] is the
    effect of the simulator: [None] is a failed assertion, an index outside a
    vector, a null pointer followed or an undefined shift; every guarantee that
    a function returns [Some] is a guarantee that none of these happens.
    C++ exceptions of the ELF loader are [Throw] values of [outcome], which carry
    the memories as the throwing call leaves them.

    ** The program's parts and their files

    - Instruction set ([isa/rv32i/]): [Isa] (fields, immediates, [decode],
      [op_name]); [Formats] and [DecoderSpec] specify it by the six formats, the
      mask/match table and an encoder.
    - ALU, register file, configuration and counters, latches: [Alu], [Regfile],
      [Config], [Pipe].
    - Memory.  [Memory]: the abstract class [IMemory] as a typeclass, and its
      contract [MemoryLaws], by which the data path of a memory is that of a byte
      array [ram] and its timing path never changes it.  [MemoryLive] is a second
      contract: requests are answered within [worst] cycles.  [FlatMem]
      implements both; [Cache] (with [TreePlru], [Geometry]) implements both over
      any memory that does ([CacheLaws], [CacheTiming]), so caches stack.
      [MemoryTimed] is a third contract, that the timing is a function of the
      requests alone; flat memories and data caches keep it, a cache that
      prefetches or reports to the counters does not.
    - Predictor: [BranchPredictor], specified as a map from word addresses.
    - Stages, forwarding and hazard units: [Stages]; [TwoPhase] has the abstract
      class [Stage] and the seven units as instances of it over the core.
    - Core: [Core], the record of all stages; [Core_tick] evaluates the five
      stages, peeks at WB, then latches (partly when MEM stalls), as
      [Core::tick] does.  A core is generic in its two memories; [Port] is the
      choice (flat or cached) the constructor makes from a [SimConfig].
    - [Tracer] (both formats), [Elf] (loader on a list of bytes), [Report]
      (register dump and report), [BenchRun] ([main] of the runner: options,
      configuration, run, exit code).

    ** Specification and refinement

    [IsaSpec] is the RV32I machine ([isa_step]), written independently of the
    simulator except for [decode], which it shares; [DecoderSpec] specifies
    [decode] by the opcode table and the encoder.
    [Serial] composes the stage functions without overlap and shows that one
    serial step is one [isa_step].  [CoreStep] reduces [Core_tick] to a relation
    [cycle] on the registered state (a stalled and a full constructor);
    [CoreInv] is the well-formedness invariant; [Refine] is the simulation
    between a core and the serial machine ([tracks]: the state in front of each
    stage, as long as that stage is on the right path); [Shadow] says what is
    behind the last instruction; [Correct] lifts it to runs.  [CoreTotal] and
    [Safe] show that ticks succeed, [Progress] and [Termination] that runs end,
    [Statistics] that the branch counters are exact, [Build] that the constructor
    and the program loader produce a core these theorems apply to.

    ** The theorems

    - [Simulator], [Program]: total correctness of [Core_run] against the RV32I
      machine, refinement for any memories and predictor, absence of faults,
      independence of results from the configuration, cost per instruction,
      invariant of a tick, precise data memory.
    - [ElfBoot], [BenchSpec]: the same from an ELF file and from an argument
      vector, the exit codes, the trace file, the rejected inputs.
    - [Trace], [CycleTrace], [Tracer]: the commit log and the cycle log.
    - [CacheTiming], [PrefetchStats], [MemoryLive], [TreePlru],
      [BranchPredictor], [FlatMem]: transparency and cost of caches, prefetch
      accounting, replacement order, training.
    - [DecoderSpec], [Alu], [Regfile], [Elf]: functional correctness and round
      trips of the leaf components.
    - [Timing]: the exact cycle count over any data memory and data cache, from
      a cost model of the RV32I execution and a replay of its data accesses
      ([DataTiming]); the instruction memory must answer at once, since the
      front end also fetches instructions the program never executes.
      [CycleStack] has no such condition: it divides the cycles of any run among
      instructions, data waits, redirects, interlocks and fetch waits, without
      saying beforehand how many there are of each.
    - [Statistics], [PrefetchRuns]: the branch counters and the prefetch counters
      of a run.
    - [TwoPhase]: the clock.  [evaluate] calls commute and so do [latch] calls,
      up to a listed dependency relation, and [evaluate] changes nothing visible
      but the memory a store writes.
    - Some theorems are about what the code does where its comments say
      otherwise: the access behind an EBREAK is still performed
      ([halting_cycle_performs_access]), a prefetch drops a dirty line
      ([prefetch_overwrites_dirty_line]), unreadable program headers are skipped
      ([truncated_headers_accepted]), an unrecognised word is logged as a
      register write ([illegal_logged_with_write]), ECALL and EBREAK are
      recognised with operand fields RV32I fixes to zero
      ([decode_matches_table]).  Next to them are concrete
      runs ([store_after_ebreak_executes], [stalls_coincide],
      [hazard_latched_late]).

    ** Hypotheses

    [config_ok] lists the geometries the constructors' assertions accept (and
    latencies below 2^31).  [safe_program] asks, of every state the RV32I
    execution goes through, that the instruction can execute (its access lies in
    the memory), that the four words after it are in the instruction memory (the
    front end runs that far ahead; with a predictor, also behind the target of a
    branch), and that the word behind the instruction that ends the program is
    neither a memory access nor a jump ([inert]), because the simulator starts
    it.  [safe_check] decides this for programs that halt.
    [aligned_run] asks for word-aligned PCs when the predictor is on, because its
    entries do not distinguish the two halves of a word.

    ** Fuel and bounds

    [Core_run] takes fuel for its loop: the cycle limit is enough
    ([Core_run_terminates]), and [cycle_bound cfg n] cycles are enough for a
    program of n instructions ([Core_run_computes_isa]): five stages and the
    longest waits of the two memories for each instruction.  The other loops
    (ways of a set, tree levels, segment bytes, program headers) recurse on the
    number of iterations the C++ loop makes.  Counters are 64-bit; the bound on
    the cycle limit keeps them from wrapping.

    ** Not modelled

    The records [StallSignals] and [FlushSignals] of latch.h (nothing in the
    source uses them), messages on standard error, the printed form of
    floating-point and wall-clock figures (a parameter of the report,
    [Figures]), the messages of the exceptions, allocation failure.  The tests,
    benchmark programs, shell scripts and build files are not part of the
    simulator.  [strtoul] and the conversions of [snprintf] are given their
    C-standard meaning in the C locale.

    This file is the shared prelude: fixed-width integers, lists as vectors, the
    record-update notation, and the tactics [zdm], [words], [bool_cases] and
    [inv_binds]. *)

From stdpp Require Export prelude strings.
From Stdlib Require Export ZArith Lia.
From Stdlib Require Import Znumtheory.

#[global] Open Scope Z_scope.

(** ** Fixed-width integers

    A value of type [uintN_t] is a [Z] in [[0, 2^N)]; a value of type
    [intN_t] is a [Z] in [[-2^(N-1), 2^(N-1))].  [uN] is the conversion to
    the unsigned type (reduction modulo [2^N]); [sN] is the conversion to the
    signed type (two's complement, the behaviour of every compiler the
    project supports and of C++20). *)

Definition u8 (z : Z) : Z := z mod 2 ^ 8.
Definition u16 (z : Z) : Z := z mod 2 ^ 16.
Definition u32 (z : Z) : Z := z mod 2 ^ 32.
Definition u64 (z : Z) : Z := z mod 2 ^ 64.

Definition to_signed (n z : Z) : Z :=
  let u := z mod 2 ^ n in if u <? 2 ^ (n - 1) then u else u - 2 ^ n.

Definition s8 (z : Z) : Z := to_signed 8 z.
Definition s16 (z : Z) : Z := to_signed 16 z.
Definition s32 (z : Z) : Z := to_signed 32 z.

Definition is_u8 (z : Z) : Prop := 0 <= z < 2 ^ 8.
Definition is_u32 (z : Z) : Prop := 0 <= z < 2 ^ 32.
Definition is_s32 (z : Z) : Prop := - 2 ^ 31 <= z < 2 ^ 31.

(** [++c] on an [uint64_t] counter. *)
Definition incr64 (c : Z) : Z := u64 (c + 1).

(** [v && (v & (v - 1)) == 0] of the C++ sources' power-of-two assertions. *)
Definition pow2_check (v : Z) : bool :=
  negb (v =? 0) && (Z.land v (u32 (v - 1)) =? 0).

(** ** Tactics *)

(** Evaluate the powers of two with a literal exponent. *)
Ltac eval_pow n :=
  lazymatch n with
  | Z0 => idtac
  | Zpos _ => idtac
  end;
  let v := eval vm_compute in (2 ^ n) in change (2 ^ n) with v in *.
Ltac pow_consts :=
  repeat match goal with
  | |- context [2 ^ ?n] => eval_pow n
  | _ : context [2 ^ ?n] |- _ => eval_pow n
  end.

(** Linear arithmetic after replacing [/] and [mod] by their defining
    equations. *)
Ltac zdm := pow_consts; Z.to_euclidean_division_equations; lia.

Ltac unfold_words :=
  unfold u8, u16, u32, u64, s8, s16, s32, to_signed, is_u8, is_u32, is_s32 in *.

(** Case analysis on every boolean comparison of the goal and hypotheses. *)
Ltac bool_cases :=
  repeat match goal with
  | |- context [?a <? ?b] => destruct (Z.ltb_spec a b)
  | |- context [?a <=? ?b] => destruct (Z.leb_spec a b)
  | |- context [?a =? ?b] => destruct (Z.eqb_spec a b)
  | H : context [?a <? ?b] |- _ => destruct (Z.ltb_spec a b)
  | H : context [?a <=? ?b] |- _ => destruct (Z.leb_spec a b)
  | H : context [?a =? ?b] |- _ => destruct (Z.eqb_spec a b)
  end.

(** Word arithmetic: unfold the conversions, split the comparisons, solve. *)
Ltac words := unfold_words; bool_cases; zdm.

(** Reduce a hypothesis [x ← m; k = Some r] to the success of its parts. *)
Ltac inv_bind H :=
  match type of H with
  | mbind _ ?m = Some _ =>
      let E := fresh "E" in
      destruct m eqn:E; [cbn in H | discriminate H]
  end.
Ltac inv_binds :=
  repeat match goal with
  | H : mbind _ ?m = Some _ |- _ => inv_bind H
  | H : Some _ = Some _ |- _ => injection H as H; subst
  | H : (_, _) = (_, _) |- _ => injection H as; subst
  | p : _ * _ |- _ => destruct p; cbn in *
  end.

(** ** Conversions *)

Lemma u32_range z : 0 <= u32 z < 2 ^ 32.
Proof. unfold_words; apply Z.mod_pos_bound; lia. Qed.

Lemma u32_id z : 0 <= z < 2 ^ 32 -> u32 z = z.
Proof. apply Z.mod_small. Qed.

Lemma u32_u32 z : u32 (u32 z) = u32 z.
Proof. apply u32_id, u32_range. Qed.

Lemma u8_range z : 0 <= u8 z < 2 ^ 8.
Proof. unfold_words; apply Z.mod_pos_bound; lia. Qed.

Lemma u16_range z : 0 <= u16 z < 2 ^ 16.
Proof. unfold_words; apply Z.mod_pos_bound; lia. Qed.

Lemma u64_range z : 0 <= u64 z < 2 ^ 64.
Proof. unfold_words; apply Z.mod_pos_bound; lia. Qed.

Lemma s32_range z : - 2 ^ 31 <= s32 z < 2 ^ 31.
Proof. words. Qed.

Lemma u32_s32 z : u32 (s32 z) = u32 z.
Proof. words. Qed.

Lemma s32_u32 z : s32 (u32 z) = s32 z.
Proof. unfold s32, to_signed, u32. rewrite Zmod_mod. reflexivity. Qed.

Lemma s32_id z : - 2 ^ 31 <= z < 2 ^ 31 -> s32 z = z.
Proof. words. Qed.

Lemma u32_add_l a b : u32 (u32 a + b) = u32 (a + b).
Proof. apply Zplus_mod_idemp_l. Qed.

Lemma u32_add_r a b : u32 (a + u32 b) = u32 (a + b).
Proof. apply Zplus_mod_idemp_r. Qed.

Lemma u32_sub_l a b : u32 (u32 a - b) = u32 (a - b).
Proof. apply Zminus_mod_idemp_l. Qed.

Lemma u32_sub_r a b : u32 (a - u32 b) = u32 (a - b).
Proof. apply Zminus_mod_idemp_r. Qed.

Create HintDb words.
Create Rewrite HintDb word_simpl.
#[export] Hint Resolve u32_range u8_range u16_range u64_range s32_range : words.
#[export] Hint Rewrite u32_u32 u32_s32 s32_u32 u32_add_l u32_add_r
  u32_sub_l u32_sub_r : word_simpl.

(** ** Bit fields *)

(** A shift right followed by a mask of [n] ones is a div/mod slice. *)
Lemma slice_div_mod w s n :
  0 <= s -> 0 <= n ->
  Z.land (Z.shiftr w s) (Z.ones n) = (w / 2 ^ s) mod 2 ^ n.
Proof. intros. rewrite Z.land_ones, Z.shiftr_div_pow2 by lia. reflexivity. Qed.

Lemma land_mask w n m : 0 <= n -> m = Z.ones n -> Z.land w m = w mod 2 ^ n.
Proof. intros ? ->. apply Z.land_ones. lia. Qed.

(** A mask bounds the result. *)
Lemma land_le a b : 0 <= b -> 0 <= Z.land a b <= b.
Proof.
  intros Hb. rewrite Z.land_comm. split; [apply Z.land_nonneg; lia|].
  assert (Hz : Z.ldiff (Z.land b a) b = 0).
  { apply Z.bits_inj'; intros i Hi. rewrite Z.ldiff_spec, Z.land_spec, Z.bits_0.
    by destruct (Z.testbit b i), (Z.testbit a i). }
  pose proof (Z.sub_nocarry_ldiff b (Z.land b a) Hz).
  assert (0 <= Z.ldiff b (Z.land b a)) by (apply Z.ldiff_nonneg; lia). lia.
Qed.

(** Numbers with no common bit: [&] is 0, [|] and [^] are additions. *)
Lemma land_disjoint a b n :
  0 <= n -> 0 <= a < 2 ^ n -> Z.land a (b * 2 ^ n) = 0.
Proof.
  intros Hn Ha. apply Z.bits_inj'; intros i Hi. rewrite Z.land_spec, Z.bits_0.
  destruct (Z.ltb_spec i n).
  - rewrite Z.mul_pow2_bits_low by lia. apply andb_false_r.
  - rewrite <- (Z.mod_small a (2 ^ n)) by lia.
    rewrite Z.mod_pow2_bits_high by lia. reflexivity.
Qed.

Lemma lxor_disjoint a b n :
  0 <= n -> 0 <= a < 2 ^ n -> Z.lxor a (b * 2 ^ n) = a + b * 2 ^ n.
Proof. intros. symmetry. apply Z.add_nocarry_lxor, land_disjoint; lia. Qed.

(** [a | b << n] is an addition when [a] fits in [n] bits. *)
Lemma lor_shiftl_add a b n :
  0 <= n -> 0 <= a < 2 ^ n -> Z.lor a (Z.shiftl b n) = a + b * 2 ^ n.
Proof.
  intros Hn Ha. rewrite Z.shiftl_mul_pow2 by lia.
  rewrite <- Z.lxor_lor by (apply land_disjoint; lia).
  apply lxor_disjoint; lia.
Qed.

Lemma lor_shiftl_add_r a b n :
  0 <= n -> 0 <= a < 2 ^ n -> Z.lor (Z.shiftl b n) a = b * 2 ^ n + a.
Proof. intros. rewrite Z.lor_comm, lor_shiftl_add by lia. lia. Qed.

(** ** Record update

    [r <| field := v |>] for the assignments [this->field = v].  A record type
    declares its [Eta] expansion once; the setter of a field replaces the
    field's projection in it. *)

Class Eta (R : Type) := eta : R -> R.
Class Setter {R E : Type} (field : R -> E) := setter : E -> R -> R.
Arguments setter {R E} field {_} _ _.

Ltac solve_setter R E field :=
  let e := constr:(_ : Eta R) in
  exact (fun (v : E) (r : R) => ltac:(
    let b := eval hnf in (e r) in
    let g := eval cbv beta in (field r) in
    lazymatch b with
    | context C [g] => let b' := context C [v] in exact b'
    end)).
#[export] Hint Extern 1 (@Setter ?R ?E ?field) => solve_setter R E field : typeclass_instances.

Declare Scope update_scope.
Notation "r <| f := v |>" := (setter f v r)
  (at level 1, left associativity, f global, v at level 99, format "r  <| f  :=  v |>")
  : update_scope.
Global Open Scope update_scope.

(** ** Vectors indexed by an unsigned integer

    [std::vector::operator[]] and [std::array::operator[]] outside the bounds
    is undefined behaviour; the model faults ([None]). *)

Definition vget {A} (l : list A) (i : Z) : option A :=
  if i <? 0 then None else l !! Z.to_nat i.

Definition vset {A} (l : list A) (i : Z) (x : A) : option (list A) :=
  if (i <? 0) || (Z.of_nat (length l) <=? i) then None
  else Some (<[Z.to_nat i := x]> l).

(** [assert(b)]: an assertion failure aborts the program. *)
Definition assert_ (b : bool) : option unit := if b then Some tt else None.

Section Vectors.
Context {A : Type}.
Implicit Types (l : list A) (i j : Z) (x : A).

Lemma vget_is_Some l i : 0 <= i < Z.of_nat (length l) -> is_Some (vget l i).
Proof.
  intros H. unfold vget. destruct (Z.ltb_spec i 0); [lia|].
  apply lookup_lt_is_Some. lia.
Qed.

Lemma vget_Some_range l i x : vget l i = Some x -> 0 <= i < Z.of_nat (length l).
Proof.
  unfold vget. destruct (Z.ltb_spec i 0); [discriminate|].
  intros Hl%lookup_lt_Some. lia.
Qed.

Lemma vset_Some l i x :
  0 <= i < Z.of_nat (length l) -> vset l i x = Some (<[Z.to_nat i := x]> l).
Proof. intros H. unfold vset. bool_cases; (lia || reflexivity). Qed.

Lemma vset_Some_range l i x l' :
  vset l i x = Some l' ->
  0 <= i < Z.of_nat (length l) /\ l' = <[Z.to_nat i := x]> l.
Proof.
  unfold vset. bool_cases; cbn; try discriminate.
  intros [= <-]. split; [lia | reflexivity].
Qed.

Lemma vset_length l i x l' : vset l i x = Some l' -> length l' = length l.
Proof. intros [_ ->]%vset_Some_range. apply length_insert. Qed.

Lemma vget_vset_eq l i x l' : vset l i x = Some l' -> vget l' i = Some x.
Proof.
  intros [Hr ->]%vset_Some_range. unfold vget.
  destruct (Z.ltb_spec i 0); [lia|]. apply list_lookup_insert_eq. lia.
Qed.

Lemma vget_vset_ne l i j x l' :
  vset l i x = Some l' -> i <> j -> vget l' j = vget l j.
Proof.
  intros [Hr ->]%vset_Some_range Hne. unfold vget.
  destruct (Z.ltb_spec j 0); [reflexivity|].
  apply list_lookup_insert_ne. lia.
Qed.

Lemma vget_None l i : Z.of_nat (length l) <= i -> vget l i = None.
Proof.
  intros H. unfold vget. destruct (i <? 0); [done|]. apply lookup_ge_None_2. lia.
Qed.

Lemma vget_Forall (P : A -> Prop) l i x : Forall P l -> vget l i = Some x -> P x.
Proof.
  unfold vget. destruct (i <? 0); [done|]. intros. by eapply Forall_lookup_1.
Qed.

Lemma vset_is_Some l i x :
  0 <= i < Z.of_nat (length l) -> exists l', vset l i x = Some l'.
Proof. intros H. eexists. by apply vset_Some. Qed.

Lemma vset_Forall (P : A -> Prop) l i x l' :
  Forall P l -> P x -> vset l i x = Some l' -> Forall P l'.
Proof. intros ? ? [_ ->]%vset_Some_range. by apply Forall_insert. Qed.

(** Reading a window one element at a time. *)
Lemma window_cons l o n :
  0 <= o -> o + Z.of_nat (S n) <= Z.of_nat (length l) ->
  exists b, vget l o = Some b /\
    take (S n) (drop (Z.to_nat o) l) = b :: take n (drop (Z.to_nat (o + 1)) l).
Proof.
  intros Ho Hl. destruct (vget_is_Some l o ltac:(lia)) as [b Hb]. exists b.
  split; [done|]. unfold vget in Hb. destruct (Z.ltb_spec o 0); [lia|].
  rewrite (drop_S _ _ _ Hb). cbn. replace (Z.to_nat (o + 1)) with (S (Z.to_nat o)) by lia.
  done.
Qed.
End Vectors.
