(* ===== verification/Isa.v ===== *)
(** * RV32I: opcodes, bit-field extraction and the decoder

    Models [include/cpusim/isa/rv32i/{defs,encoding,decoder}.h] and
    [src/isa/rv32i/decoder.cpp].  The decoder's specification and the proofs
    about it are in [DecoderSpec.v]. *)

From S2P Require Import Prelude.

(** ** defs.h: opcodes, funct3, funct7, funct12 *)

Definition OPC_LUI      : Z := 0x37.
Definition OPC_AUIPC    : Z := 0x17.
Definition OPC_JAL      : Z := 0x6f.
Definition OPC_JALR     : Z := 0x67.
Definition OPC_BRANCH   : Z := 0x63.
Definition OPC_LOAD     : Z := 0x03.
Definition OPC_STORE    : Z := 0x23.
Definition OPC_OP_IMM   : Z := 0x13.
Definition OPC_OP       : Z := 0x33.
Definition OPC_MISC_MEM : Z := 0x0f.
Definition OPC_SYSTEM   : Z := 0x73.

Definition F3_BEQ  : Z := 0.
Definition F3_BNE  : Z := 1.
Definition F3_BLT  : Z := 4.
Definition F3_BGE  : Z := 5.
Definition F3_BLTU : Z := 6.
Definition F3_BGEU : Z := 7.

Definition F3_LB  : Z := 0.
Definition F3_LH  : Z := 1.
Definition F3_LW  : Z := 2.
Definition F3_LBU : Z := 4.
Definition F3_LHU : Z := 5.

Definition F3_SB : Z := 0.
Definition F3_SH : Z := 1.
Definition F3_SW : Z := 2.

Definition F3_ADD_SUB : Z := 0.
Definition F3_SLL     : Z := 1.
Definition F3_SLT     : Z := 2.
Definition F3_SLTU    : Z := 3.
Definition F3_XOR     : Z := 4.
Definition F3_SRL_SRA : Z := 5.
Definition F3_OR      : Z := 6.
Definition F3_AND     : Z := 7.

Definition F7_BASE : Z := 0.
Definition F7_ALT  : Z := 0x20.

Definition F12_ECALL  : Z := 0.
Definition F12_EBREAK : Z := 1.

(** ** encoding.h: field and immediate extraction *)

Definition opcode  (w : Z) : Z := Z.land w 0x7f.
Definition rd      (w : Z) : Z := Z.land (Z.shiftr w 7) 0x1f.
Definition funct3  (w : Z) : Z := Z.land (Z.shiftr w 12) 0x07.
Definition rs1     (w : Z) : Z := Z.land (Z.shiftr w 15) 0x1f.
Definition rs2     (w : Z) : Z := Z.land (Z.shiftr w 20) 0x1f.
Definition funct7  (w : Z) : Z := Z.land (Z.shiftr w 25) 0x7f.
Definition funct12 (w : Z) : Z := Z.shiftr w 20.

(** [1u << (bits - 1)], then [(int32_t)((val ^ sign) - sign)]. *)
Definition sext (val bits : Z) : Z :=
  let sign := u32 (Z.shiftl 1 (bits - 1)) in
  s32 (u32 (Z.lxor val sign - sign)).

Definition imm_i (w : Z) : Z := sext (Z.shiftr w 20) 12.

Definition imm_s (w : Z) : Z :=
  let imm := Z.lor (u32 (Z.shiftl (Z.shiftr w 25) 5))
                   (Z.land (Z.shiftr w 7) 0x1f) in
  sext imm 12.

Definition imm_b (w : Z) : Z :=
  let imm := Z.lor (Z.lor (Z.lor
      (u32 (Z.shiftl (Z.shiftr w 31) 12))
      (u32 (Z.shiftl (Z.land (Z.shiftr w 7) 0x1) 11)))
      (u32 (Z.shiftl (Z.land (Z.shiftr w 25) 0x3f) 5)))
      (u32 (Z.shiftl (Z.land (Z.shiftr w 8) 0xf) 1)) in
  sext imm 13.

Definition imm_u (w : Z) : Z := s32 (Z.land w 0xfffff000).

Definition imm_j (w : Z) : Z :=
  let imm := Z.lor (Z.lor (Z.lor
      (u32 (Z.shiftl (Z.shiftr w 31) 20))
      (u32 (Z.shiftl (Z.land (Z.shiftr w 12) 0xff) 12)))
      (u32 (Z.shiftl (Z.land (Z.shiftr w 20) 0x1) 11)))
      (u32 (Z.shiftl (Z.land (Z.shiftr w 21) 0x3ff) 1)) in
  sext imm 21.

(** ** decoder.h: operations and decoded instructions *)

Inductive Op :=
  | ADD | SUB
  | SLL | SRL | SRA
  | SLT | SLTU
  | AND | OR | XOR
  | ADDI
  | SLLI | SRLI | SRAI
  | SLTI | SLTIU
  | ANDI | ORI | XORI
  | LB | LH | LW | LBU | LHU
  | SB | SH | SW
  | BEQ | BNE
  | BLT | BGE
  | BLTU | BGEU
  | JAL | JALR
  | LUI | AUIPC
  | ECALL | EBREAK | FENCE
  | ILLEGAL.

#[export] Instance Op_eq_dec : EqDecision Op.
Proof. solve_decision. Defined.

(** [==] on [enum class Op]. *)
Definition op_eqb (a b : Op) : bool := bool_decide (a = b).

Record Instruction := mkInstruction {
  i_raw : Z;
  i_pc  : Z;
  i_op  : Op;
  i_rd  : Z;
  i_rs1 : Z;
  i_rs2 : Z;
  i_imm : Z;
}.

#[export] Instance Instruction_eq_dec : EqDecision Instruction.
Proof. solve_decision. Defined.

(** ** decoder.cpp: [decode]

    The nested [switch] of the source, in its order; a [break] before
    [insn.op] is assigned leaves [Op::ILLEGAL], the value stored first. *)
Definition decode (raw pc : Z) : Instruction :=
  let opc := opcode raw in
  let f3  := funct3 raw in
  let f7  := funct7 raw in
  let insn_rd  := u8 (rd raw) in
  let insn_rs1 := u8 (rs1 raw) in
  let insn_rs2 := u8 (rs2 raw) in
  let mk op d s1 s2 imm := mkInstruction raw pc op d s1 s2 imm in
  if opc =? OPC_LUI then mk LUI insn_rd 0 0 (imm_u raw)
  else if opc =? OPC_AUIPC then mk AUIPC insn_rd 0 0 (imm_u raw)
  else if opc =? OPC_JAL then mk JAL insn_rd 0 0 (imm_j raw)
  else if opc =? OPC_JALR then
    if negb (f3 =? 0) then mk ILLEGAL insn_rd insn_rs1 insn_rs2 0
    else mk JALR insn_rd insn_rs1 0 (imm_i raw)
  else if opc =? OPC_BRANCH then
    let op :=
      if f3 =? F3_BEQ then BEQ
      else if f3 =? F3_BNE then BNE
      else if f3 =? F3_BLT then BLT
      else if f3 =? F3_BGE then BGE
      else if f3 =? F3_BLTU then BLTU
      else if f3 =? F3_BGEU then BGEU
      else ILLEGAL in
    mk op 0 insn_rs1 insn_rs2 (imm_b raw)
  else if opc =? OPC_LOAD then
    let op :=
      if f3 =? F3_LB then LB
      else if f3 =? F3_LH then LH
      else if f3 =? F3_LW then LW
      else if f3 =? F3_LBU then LBU
      else if f3 =? F3_LHU then LHU
      else ILLEGAL in
    mk op insn_rd insn_rs1 0 (imm_i raw)
  else if opc =? OPC_STORE then
    let op :=
      if f3 =? F3_SB then SB
      else if f3 =? F3_SH then SH
      else if f3 =? F3_SW then SW
      else ILLEGAL in
    mk op 0 insn_rs1 insn_rs2 (imm_s raw)
  else if opc =? OPC_OP_IMM then
    let '(op, imm) :=
      if f3 =? F3_ADD_SUB then (ADDI, imm_i raw)
      else if f3 =? F3_SLT then (SLTI, imm_i raw)
      else if f3 =? F3_SLTU then (SLTIU, imm_i raw)
      else if f3 =? F3_XOR then (XORI, imm_i raw)
      else if f3 =? F3_OR then (ORI, imm_i raw)
      else if f3 =? F3_AND then (ANDI, imm_i raw)
      else if f3 =? F3_SLL then
        if f7 =? F7_BASE then (SLLI, Z.land (imm_i raw) 0x1f)
        else (ILLEGAL, imm_i raw)
      else if f3 =? F3_SRL_SRA then
        if f7 =? F7_BASE then (SRLI, Z.land (imm_i raw) 0x1f)
        else if f7 =? F7_ALT then (SRAI, Z.land (imm_i raw) 0x1f)
        else (ILLEGAL, imm_i raw)
      else (ILLEGAL, imm_i raw) in
    mk op insn_rd insn_rs1 0 imm
  else if opc =? OPC_OP then
    let op :=
      if f3 =? F3_ADD_SUB then
        if f7 =? F7_BASE then ADD else if f7 =? F7_ALT then SUB else ILLEGAL
      else if f3 =? F3_SLL then if f7 =? F7_BASE then SLL else ILLEGAL
      else if f3 =? F3_SLT then if f7 =? F7_BASE then SLT else ILLEGAL
      else if f3 =? F3_SLTU then if f7 =? F7_BASE then SLTU else ILLEGAL
      else if f3 =? F3_XOR then if f7 =? F7_BASE then XOR else ILLEGAL
      else if f3 =? F3_SRL_SRA then
        if f7 =? F7_BASE then SRL else if f7 =? F7_ALT then SRA else ILLEGAL
      else if f3 =? F3_OR then if f7 =? F7_BASE then OR else ILLEGAL
      else if f3 =? F3_AND then if f7 =? F7_BASE then AND else ILLEGAL
      else ILLEGAL in
    mk op insn_rd insn_rs1 insn_rs2 0
  else if opc =? OPC_MISC_MEM then
    if negb (f3 =? 0) then mk ILLEGAL insn_rd insn_rs1 insn_rs2 0
    else mk FENCE 0 0 0 0
  else if opc =? OPC_SYSTEM then
    if negb (f3 =? 0) then mk ILLEGAL insn_rd insn_rs1 insn_rs2 0
    else
      let op :=
        if funct12 raw =? F12_ECALL then ECALL
        else if funct12 raw =? F12_EBREAK then EBREAK
        else ILLEGAL in
      mk op 0 0 0 0
  else mk ILLEGAL insn_rd insn_rs1 insn_rs2 0.

Definition op_name (op : Op) : string :=
  match op with
  | ADD => "add" | SUB => "sub"
  | SLL => "sll" | SRL => "srl"
  | SRA => "sra" | SLT => "slt"
  | SLTU => "sltu" | AND => "and"
  | OR => "or" | XOR => "xor"
  | ADDI => "addi" | SLLI => "slli"
  | SRLI => "srli" | SRAI => "srai"
  | SLTI => "slti" | SLTIU => "sltiu"
  | ANDI => "andi" | ORI => "ori"
  | XORI => "xori"
  | LB => "lb" | LH => "lh"
  | LW => "lw" | LBU => "lbu"
  | LHU => "lhu"
  | SB => "sb" | SH => "sh"
  | SW => "sw"
  | BEQ => "beq" | BNE => "bne"
  | BLT => "blt" | BGE => "bge"
  | BLTU => "bltu" | BGEU => "bgeu"
  | JAL => "jal" | JALR => "jalr"
  | LUI => "lui" | AUIPC => "auipc"
  | ECALL => "ecall" | EBREAK => "ebreak"
  | FENCE => "fence"
  | ILLEGAL => "ILLEGAL"
  end%string.
