(* ===== verification/Formats.v ===== *)
(** * The RV32I instruction formats

    Arithmetic (div/mod) reading of the bit-field and immediate extractors of
    [Isa.v], the six formats as sums of weighted fields, and the two lemmas per
    format that make extraction and assembly inverse of each other. *)

From S2P Require Import Prelude Isa.

(** ** Arithmetic reading of the bit fields *)

Lemma opcode_div w : opcode w = w mod 2 ^ 7.
Proof. exact (land_mask w 7 0x7f ltac:(lia) eq_refl). Qed.
Lemma rd_div w : rd w = (w / 2 ^ 7) mod 2 ^ 5.
Proof. exact (slice_div_mod w 7 5 ltac:(lia) ltac:(lia)). Qed.
Lemma funct3_div w : funct3 w = (w / 2 ^ 12) mod 2 ^ 3.
Proof. exact (slice_div_mod w 12 3 ltac:(lia) ltac:(lia)). Qed.
Lemma rs1_div w : rs1 w = (w / 2 ^ 15) mod 2 ^ 5.
Proof. exact (slice_div_mod w 15 5 ltac:(lia) ltac:(lia)). Qed.
Lemma rs2_div w : rs2 w = (w / 2 ^ 20) mod 2 ^ 5.
Proof. exact (slice_div_mod w 20 5 ltac:(lia) ltac:(lia)). Qed.
Lemma funct7_div w : funct7 w = (w / 2 ^ 25) mod 2 ^ 7.
Proof. exact (slice_div_mod w 25 7 ltac:(lia) ltac:(lia)). Qed.
Lemma funct12_div w : funct12 w = w / 2 ^ 20.
Proof. apply Z.shiftr_div_pow2. lia. Qed.

Create Rewrite HintDb fields.
#[export] Hint Rewrite opcode_div rd_div funct3_div rs1_div rs2_div funct7_div
  funct12_div : fields.

Lemma reg_fields_range w :
  0 <= rd w < 32 /\ 0 <= rs1 w < 32 /\ 0 <= rs2 w < 32.
Proof. autorewrite with fields. zdm. Qed.

(** ** Sign extension and immediates *)

(** The two's-complement value of the [n] low bits. *)
Definition signed_of (n v : Z) : Z := if v <? 2 ^ (n - 1) then v else v - 2 ^ n.

Lemma lxor_top v n :
  0 <= n -> 0 <= v < 2 ^ (n + 1) ->
  Z.lxor v (2 ^ n) = if v <? 2 ^ n then v + 2 ^ n else v - 2 ^ n.
Proof.
  intros Hn Hv.
  assert (Hdis : forall u, 0 <= u < 2 ^ n -> Z.lxor u (2 ^ n) = u + 2 ^ n).
  { intros u Hu. pose proof (lxor_disjoint u 1 n ltac:(lia) Hu) as E.
    rewrite Z.mul_1_l in E. exact E. }
  rewrite Z.pow_add_r in Hv by lia.
  destruct (Z.ltb_spec v (2 ^ n)); [auto with lia|].
  replace v with (Z.lxor (v - 2 ^ n) (2 ^ n)) at 1 by (rewrite Hdis; lia).
  rewrite Z.lxor_assoc, Z.lxor_nilpotent, Z.lxor_0_r. reflexivity.
Qed.

Lemma sext_spec v n :
  1 <= n <= 31 -> 0 <= v < 2 ^ n -> sext v n = signed_of n v.
Proof.
  intros Hn Hv. unfold sext, signed_of.
  assert (Hp : 0 < 2 ^ (n - 1) <= 2 ^ 30)
    by (split; [apply Z.pow_pos_nonneg; lia | apply Z.pow_le_mono_r; lia]).
  assert (Hd : 2 ^ n = 2 * 2 ^ (n - 1))
    by (rewrite <- Z.pow_succ_r by lia; f_equal; lia).
  rewrite Z.shiftl_1_l, (u32_id (2 ^ (n - 1))) by lia.
  rewrite lxor_top by (rewrite ?Z.sub_add; lia).
  autorewrite with word_simpl.
  destruct (Z.ltb_spec v (2 ^ (n - 1))); rewrite s32_id; lia.
Qed.

Lemma lor_mult a b n :
  0 <= n -> a mod 2 ^ n = 0 -> 0 <= b < 2 ^ n -> Z.lor a b = a + b.
Proof.
  intros Hn Ha Hb.
  replace a with (Z.shiftl (a / 2 ^ n) n).
  - rewrite lor_shiftl_add_r by lia. rewrite Z.shiftl_mul_pow2; lia.
  - rewrite Z.shiftl_mul_pow2 by lia.
    pose proof (Z_div_mod_eq_full a (2 ^ n)). lia.
Qed.

(** Discharge [lor_mult]'s side conditions on shifted slices. *)
Ltac lor_to_add :=
  rewrite ?Z.shiftl_mul_pow2, ?Z.shiftr_div_pow2 by lia;
  repeat match goal with
  | |- context [u32 ?z] => rewrite (u32_id z) by zdm
  end.

Lemma imm_i_spec w : is_u32 w -> imm_i w = signed_of 12 (w / 2 ^ 20).
Proof.
  intros Hw. unfold imm_i. rewrite Z.shiftr_div_pow2 by lia.
  apply sext_spec; [lia | words].
Qed.

Lemma imm_s_spec w :
  is_u32 w ->
  imm_s w = signed_of 12 (w / 2 ^ 25 * 2 ^ 5 + (w / 2 ^ 7) mod 2 ^ 5).
Proof.
  intros Hw. unfold imm_s, is_u32 in *.
  rewrite (land_mask _ 5 0x1f) by (lia || reflexivity). lor_to_add.
  rewrite (lor_mult _ _ 5) by zdm.
  apply sext_spec; [lia | zdm].
Qed.

Lemma imm_b_spec w :
  is_u32 w ->
  imm_b w = signed_of 13 (w / 2 ^ 31 * 2 ^ 12 + (w / 2 ^ 7) mod 2 * 2 ^ 11
                          + (w / 2 ^ 25) mod 2 ^ 6 * 2 ^ 5
                          + (w / 2 ^ 8) mod 2 ^ 4 * 2).
Proof.
  intros Hw. unfold imm_b, is_u32 in *.
  rewrite (land_mask _ 1 0x1), (land_mask _ 6 0x3f), (land_mask _ 4 0xf)
    by (lia || reflexivity). lor_to_add.
  rewrite (lor_mult (_ * 2 ^ 12) _ 12) by zdm.
  rewrite (lor_mult (_ + _) _ 11) by zdm.
  rewrite (lor_mult (_ + _) _ 5) by zdm.
  apply sext_spec; [lia | zdm].
Qed.

Lemma imm_j_spec w :
  is_u32 w ->
  imm_j w = signed_of 21 (w / 2 ^ 31 * 2 ^ 20 + (w / 2 ^ 12) mod 2 ^ 8 * 2 ^ 12
                          + (w / 2 ^ 20) mod 2 * 2 ^ 11
                          + (w / 2 ^ 21) mod 2 ^ 10 * 2).
Proof.
  intros Hw. unfold imm_j, is_u32 in *.
  rewrite (land_mask _ 8 0xff), (land_mask _ 1 0x1), (land_mask _ 10 0x3ff)
    by (lia || reflexivity). lor_to_add.
  rewrite (lor_mult (_ * 2 ^ 20) _ 20) by zdm.
  rewrite (lor_mult (_ + _) _ 12) by zdm.
  rewrite (lor_mult (_ + _) _ 11) by zdm.
  apply sext_spec; [lia | zdm].
Qed.

Lemma imm_u_spec w : is_u32 w -> imm_u w = signed_of 32 (w / 2 ^ 12 * 2 ^ 12).
Proof.
  intros Hw. unfold imm_u.
  assert (E : Z.land w 0xfffff000 = w / 2 ^ 12 * 2 ^ 12).
  { change 0xfffff000 with (Z.shiftl (Z.ones 20) 12).
    transitivity (Z.shiftl (Z.land (Z.shiftr w 12) (Z.ones 20)) 12).
    - apply Z.bits_inj'; intros i Hi. rewrite Z.land_spec.
      rewrite !Z.shiftl_spec by lia. destruct (Z.ltb_spec i 12).
      + rewrite !(Z.testbit_neg_r _ (i - 12)) by lia. apply andb_false_r.
      + rewrite Z.land_spec, Z.shiftr_spec by lia.
        replace (i - 12 + 12) with i by lia. reflexivity.
    - rewrite slice_div_mod, Z.shiftl_mul_pow2 by lia. words. }
  rewrite E. unfold s32, to_signed, signed_of. rewrite Z.mod_small by words.
  reflexivity.
Qed.

Create Rewrite HintDb imms.
#[export] Hint Rewrite imm_i_spec imm_s_spec imm_b_spec imm_j_spec imm_u_spec
  using assumption : imms.

Lemma imm_ranges w :
  is_u32 w ->
  - 2 ^ 11 <= imm_i w < 2 ^ 11 /\ - 2 ^ 11 <= imm_s w < 2 ^ 11 /\
  - 2 ^ 12 <= imm_b w < 2 ^ 12 /\ - 2 ^ 20 <= imm_j w < 2 ^ 20 /\
  - 2 ^ 31 <= imm_u w < 2 ^ 31.
Proof.
  intros Hw. autorewrite with imms. unfold signed_of, is_u32 in *.
  repeat split; bool_cases; zdm.
Qed.

(** ** The instruction formats *)

Definition enc_R (opc d f3 s1 s2 f7 : Z) : Z :=
  opc + d * 2 ^ 7 + f3 * 2 ^ 12 + s1 * 2 ^ 15 + s2 * 2 ^ 20 + f7 * 2 ^ 25.
Definition enc_I (opc d f3 s1 imm : Z) : Z :=
  opc + d * 2 ^ 7 + f3 * 2 ^ 12 + s1 * 2 ^ 15 + imm mod 2 ^ 12 * 2 ^ 20.
Definition enc_S (opc f3 s1 s2 imm : Z) : Z :=
  opc + imm mod 2 ^ 5 * 2 ^ 7 + f3 * 2 ^ 12 + s1 * 2 ^ 15 + s2 * 2 ^ 20
  + (imm / 2 ^ 5) mod 2 ^ 7 * 2 ^ 25.
Definition enc_B (opc f3 s1 s2 imm : Z) : Z :=
  opc + (imm / 2 ^ 11) mod 2 * 2 ^ 7 + (imm / 2) mod 2 ^ 4 * 2 ^ 8
  + f3 * 2 ^ 12 + s1 * 2 ^ 15 + s2 * 2 ^ 20
  + (imm / 2 ^ 5) mod 2 ^ 6 * 2 ^ 25 + (imm / 2 ^ 12) mod 2 * 2 ^ 31.
Definition enc_U (opc d imm : Z) : Z :=
  opc + d * 2 ^ 7 + (imm / 2 ^ 12) mod 2 ^ 20 * 2 ^ 12.
Definition enc_J (opc d imm : Z) : Z :=
  opc + d * 2 ^ 7 + (imm / 2 ^ 12) mod 2 ^ 8 * 2 ^ 12
  + (imm / 2 ^ 11) mod 2 * 2 ^ 20 + (imm / 2) mod 2 ^ 10 * 2 ^ 21
  + (imm / 2 ^ 20) mod 2 * 2 ^ 31.

(** Each format is the inverse of field extraction. *)
Section FormatsOfWord.
Context (w : Z) (Hw : is_u32 w).

Lemma enc_R_fields :
  enc_R (opcode w) (rd w) (funct3 w) (rs1 w) (rs2 w) (funct7 w) = w.
Proof using Hw. unfold enc_R, is_u32 in *. autorewrite with fields. zdm. Qed.

Lemma enc_I_fields : enc_I (opcode w) (rd w) (funct3 w) (rs1 w) (imm_i w) = w.
Proof using Hw.
  unfold enc_I. rewrite imm_i_spec by done. unfold signed_of, is_u32 in *.
  autorewrite with fields. bool_cases; zdm.
Qed.

Lemma enc_S_fields :
  enc_S (opcode w) (funct3 w) (rs1 w) (rs2 w) (imm_s w) = w.
Proof using Hw.
  unfold enc_S. rewrite imm_s_spec by done. unfold signed_of, is_u32 in *.
  autorewrite with fields. bool_cases; zdm.
Qed.

Lemma enc_U_fields : enc_U (opcode w) (rd w) (imm_u w) = w.
Proof using Hw.
  unfold enc_U. rewrite imm_u_spec by done. unfold signed_of, is_u32 in *.
  autorewrite with fields. bool_cases; zdm.
Qed.

Lemma enc_B_fields :
  enc_B (opcode w) (funct3 w) (rs1 w) (rs2 w) (imm_b w) = w.
Proof using Hw.
  unfold enc_B. rewrite imm_b_spec by done. unfold signed_of, is_u32 in *.
  autorewrite with fields. bool_cases; zdm.
Qed.

Lemma enc_J_fields : enc_J (opcode w) (rd w) (imm_j w) = w.
Proof using Hw.
  unfold enc_J. rewrite imm_j_spec by done. unfold signed_of, is_u32 in *.
  autorewrite with fields. bool_cases; zdm.
Qed.

Lemma imm_i_shamt : Z.land (imm_i w) 0x1f = rs2 w.
Proof using Hw.
  rewrite (land_mask _ 5), imm_i_spec by (done || lia).
  unfold signed_of, is_u32 in *. autorewrite with fields. bool_cases; zdm.
Qed.
End FormatsOfWord.

(** The scattered fields of a branch or jump offset, each in its range. *)
Lemma split_imm_b imm (a := (imm / 2) mod 2 ^ 4) (b := (imm / 2 ^ 5) mod 2 ^ 6)
    (c := (imm / 2 ^ 11) mod 2) (t := (imm / 2 ^ 12) mod 2) :
  - 2 ^ 12 <= imm < 2 ^ 12 -> imm mod 2 = 0 ->
  0 <= a < 2 ^ 4 /\ 0 <= b < 2 ^ 6 /\ 0 <= c < 2 /\ 0 <= t < 2 /\
  imm = a * 2 + b * 2 ^ 5 + c * 2 ^ 11 - t * 2 ^ 12.
Proof. subst a b c t. intros. zdm. Qed.

Lemma split_imm_j imm (a := (imm / 2) mod 2 ^ 10) (b := (imm / 2 ^ 11) mod 2)
    (c := (imm / 2 ^ 12) mod 2 ^ 8) (t := (imm / 2 ^ 20) mod 2) :
  - 2 ^ 20 <= imm < 2 ^ 20 -> imm mod 2 = 0 ->
  0 <= a < 2 ^ 10 /\ 0 <= b < 2 /\ 0 <= c < 2 ^ 8 /\ 0 <= t < 2 /\
  imm = a * 2 + b * 2 ^ 11 + c * 2 ^ 12 - t * 2 ^ 20.
Proof. subst a b c t. intros. zdm. Qed.

(** ... and field extraction is the inverse of each format. *)
Section WordOfFormat.
Context (opc d f3 s1 s2 f7 : Z).
Context (Ho : 0 <= opc < 128) (Hd : 0 <= d < 32) (Hf3 : 0 <= f3 < 8)
  (H1 : 0 <= s1 < 32) (H2 : 0 <= s2 < 32) (H7 : 0 <= f7 < 128).

Lemma fields_enc_R (w := enc_R opc d f3 s1 s2 f7) :
  is_u32 w /\ opcode w = opc /\ rd w = d /\ funct3 w = f3 /\ rs1 w = s1 /\
  rs2 w = s2 /\ funct7 w = f7.
Proof using All.
  subst w. unfold enc_R, is_u32. autorewrite with fields. repeat split; zdm.
Qed.

Lemma fields_enc_I imm (w := enc_I opc d f3 s1 imm) :
  - 2 ^ 11 <= imm < 2 ^ 11 ->
  is_u32 w /\ opcode w = opc /\ rd w = d /\ funct3 w = f3 /\ rs1 w = s1 /\
  imm_i w = imm /\ funct12 w = imm mod 2 ^ 12.
Proof using All.
  intros Hi. assert (is_u32 w) by (subst w; unfold enc_I, is_u32; zdm).
  rewrite imm_i_spec by done. subst w. unfold enc_I, signed_of.
  autorewrite with fields. repeat split; try done; bool_cases; zdm.
Qed.

Lemma fields_enc_S imm (w := enc_S opc f3 s1 s2 imm) :
  - 2 ^ 11 <= imm < 2 ^ 11 ->
  is_u32 w /\ opcode w = opc /\ funct3 w = f3 /\ rs1 w = s1 /\ rs2 w = s2 /\
  imm_s w = imm.
Proof using All.
  intros Hi. assert (is_u32 w) by (subst w; unfold enc_S, is_u32; zdm).
  rewrite imm_s_spec by done. subst w. unfold enc_S, signed_of.
  autorewrite with fields. repeat split; try done; bool_cases; zdm.
Qed.

Lemma fields_enc_U imm (w := enc_U opc d imm) :
  - 2 ^ 31 <= imm < 2 ^ 31 -> imm mod 2 ^ 12 = 0 ->
  is_u32 w /\ opcode w = opc /\ rd w = d /\ imm_u w = imm.
Proof using All.
  intros Hi Hm. assert (is_u32 w) by (subst w; unfold enc_U, is_u32; zdm).
  rewrite imm_u_spec by done. subst w. unfold enc_U, signed_of.
  autorewrite with fields. repeat split; try done; bool_cases; zdm.
Qed.

Lemma fields_enc_B imm (w := enc_B opc f3 s1 s2 imm) :
  - 2 ^ 12 <= imm < 2 ^ 12 -> imm mod 2 = 0 ->
  is_u32 w /\ opcode w = opc /\ funct3 w = f3 /\ rs1 w = s1 /\ rs2 w = s2 /\
  imm_b w = imm.
Proof using All.
  intros Hi Hm. subst w. unfold enc_B.
  destruct (split_imm_b imm Hi Hm) as (? & ? & ? & ? & E).
  rewrite E at 5. revert E; generalize dependent ((imm / 2) mod 2 ^ 4).
  generalize dependent ((imm / 2 ^ 5) mod 2 ^ 6).
  generalize dependent ((imm / 2 ^ 11) mod 2).
  generalize dependent ((imm / 2 ^ 12) mod 2). intros t ? c ? b ? a ? E.
  match goal with |- is_u32 ?e /\ _ => remember e as w eqn:Ew end.
  assert (Hw : is_u32 w) by (unfold is_u32; zdm).
  assert (Ht : w / 2 ^ 31 = t) by zdm.
  assert (Hc : (w / 2 ^ 7) mod 2 = c) by zdm.
  assert (Hb : (w / 2 ^ 25) mod 2 ^ 6 = b) by zdm.
  assert (Ha : (w / 2 ^ 8) mod 2 ^ 4 = a) by zdm.
  rewrite imm_b_spec, Ht, Hc, Hb, Ha by done. autorewrite with fields.
  split_and!; [done | clear Ht Hc Hb Ha E .. | ]; [zdm .. | ].
  clear Ew Ht Hc Hb Ha. unfold signed_of. bool_cases; lia.
Qed.

Lemma fields_enc_J imm (w := enc_J opc d imm) :
  - 2 ^ 20 <= imm < 2 ^ 20 -> imm mod 2 = 0 ->
  is_u32 w /\ opcode w = opc /\ rd w = d /\ imm_j w = imm.
Proof using All.
  intros Hi Hm. subst w. unfold enc_J.
  destruct (split_imm_j imm Hi Hm) as (? & ? & ? & ? & E).
  rewrite E at 5. revert E; generalize dependent ((imm / 2) mod 2 ^ 10).
  generalize dependent ((imm / 2 ^ 11) mod 2).
  generalize dependent ((imm / 2 ^ 12) mod 2 ^ 8).
  generalize dependent ((imm / 2 ^ 20) mod 2). intros t ? c ? b ? a ? E.
  match goal with |- is_u32 ?e /\ _ => remember e as w eqn:Ew end.
  assert (Hw : is_u32 w) by (unfold is_u32; zdm).
  assert (Ht : w / 2 ^ 31 = t) by zdm.
  assert (Hc : (w / 2 ^ 12) mod 2 ^ 8 = c) by zdm.
  assert (Hb : (w / 2 ^ 20) mod 2 = b) by zdm.
  assert (Ha : (w / 2 ^ 21) mod 2 ^ 10 = a) by zdm.
  rewrite imm_j_spec, Ht, Hc, Hb, Ha by done. autorewrite with fields.
  split_and!; [done | clear Ht Hc Hb Ha E .. | ]; [zdm .. | ].
  clear Ew Ht Hc Hb Ha. unfold signed_of. bool_cases; lia.
Qed.
End WordOfFormat.
