(* ===== verification/DecoderSpec.v ===== *)
(** * The decoder against the RV32I encoding tables

    Two independent specifications of [decode]: the mask/match table of the
    RISC-V opcode listing, which decides the operation, and an encoder built
    from the six instruction formats, of which [decode] is the inverse. *)

From S2P Require Import Prelude Isa Formats.

(** ** The opcode table

    An entry fixes the opcode and possibly funct3 and funct7, or the whole word
    (ECALL and EBREAK have no operands, so their rd and rs1 fields are fixed to
    zero); the instruction word matches when its bits under [mask] equal
    [mtch]. *)

Inductive pat :=
  | POpc (o : Z)
  | PF3 (o f3 : Z)
  | PF7 (o f3 f7 : Z)
  | PWord (o f12 : Z).

Definition mask (p : pat) : Z :=
  match p with
  | POpc _ => 0x7f | PF3 _ _ => 0x707f
  | PF7 _ _ _ => 0xfe00707f | PWord _ _ => 0xffffffff
  end.

Definition mtch (p : pat) : Z :=
  match p with
  | POpc o => o | PF3 o f3 => o + f3 * 2 ^ 12
  | PF7 o f3 f7 => o + f3 * 2 ^ 12 + f7 * 2 ^ 25
  | PWord o f12 => o + f12 * 2 ^ 20
  end.

Definition matches (raw : Z) (p : pat) : bool := Z.land raw (mask p) =? mtch p.

(** The RV32I rows of the opcode listing. *)
Definition opcode_table : list (pat * Op) := [
  (POpc 0x37, LUI); (POpc 0x17, AUIPC); (POpc 0x6f, JAL); (PF3 0x67 0, JALR);
  (PF3 0x63 0, BEQ); (PF3 0x63 1, BNE); (PF3 0x63 4, BLT);
  (PF3 0x63 5, BGE); (PF3 0x63 6, BLTU); (PF3 0x63 7, BGEU);
  (PF3 0x03 0, LB); (PF3 0x03 1, LH); (PF3 0x03 2, LW);
  (PF3 0x03 4, LBU); (PF3 0x03 5, LHU);
  (PF3 0x23 0, SB); (PF3 0x23 1, SH); (PF3 0x23 2, SW);
  (PF3 0x13 0, ADDI); (PF3 0x13 2, SLTI); (PF3 0x13 3, SLTIU);
  (PF3 0x13 4, XORI); (PF3 0x13 6, ORI); (PF3 0x13 7, ANDI);
  (PF7 0x13 1 0, SLLI); (PF7 0x13 5 0, SRLI); (PF7 0x13 5 0x20, SRAI);
  (PF7 0x33 0 0, ADD); (PF7 0x33 0 0x20, SUB); (PF7 0x33 1 0, SLL);
  (PF7 0x33 2 0, SLT); (PF7 0x33 3 0, SLTU); (PF7 0x33 4 0, XOR);
  (PF7 0x33 5 0, SRL); (PF7 0x33 5 0x20, SRA); (PF7 0x33 6 0, OR);
  (PF7 0x33 7 0, AND);
  (PF3 0x0f 0, FENCE); (PWord 0x73 0, ECALL); (PWord 0x73 1, EBREAK)
].

Fixpoint first_match (test : pat -> bool) (t : list (pat * Op)) : Op :=
  match t with
  | [] => ILLEGAL
  | (p, op) :: t => if test p then op else first_match test t
  end.

Definition table_op (raw : Z) : Op := first_match (matches raw) opcode_table.

(** Matching as field tests. *)
Definition field_test (raw : Z) (p : pat) : bool :=
  match p with
  | POpc o => opcode raw =? o
  | PF3 o f3 => (opcode raw =? o) && (funct3 raw =? f3)
  | PF7 o f3 f7 => (opcode raw =? o) && (funct3 raw =? f3) && (funct7 raw =? f7)
  | PWord o f12 =>
      (opcode raw =? o) && (funct3 raw =? 0) && (funct12 raw =? f12) && (rd raw =? 0) && (rs1 raw =? 0)
  end.

Definition pat_ok (p : pat) : Prop :=
  match p with
  | POpc o => 0 <= o < 128
  | PF3 o f3 => 0 <= o < 128 /\ 0 <= f3 < 8
  | PF7 o f3 f7 => 0 <= o < 128 /\ 0 <= f3 < 8 /\ 0 <= f7 < 128
  | PWord o f12 => 0 <= o < 128 /\ 0 <= f12 < 4096
  end.

Lemma land_low_high w k b n :
  0 <= k <= n ->
  Z.land w (Z.ones k + b * 2 ^ n) = w mod 2 ^ k + Z.land (w / 2 ^ n) b * 2 ^ n.
Proof.
  intros Hk.
  assert (Hp : 0 < 2 ^ k <= 2 ^ n)
    by (split; [apply Z.pow_pos_nonneg | apply Z.pow_le_mono_r]; lia).
  rewrite <- (lor_shiftl_add (Z.ones k)) by (rewrite ?Z.ones_equiv; lia).
  rewrite Z.land_lor_distr_r, Z.land_ones by lia.
  replace (Z.land w (Z.shiftl b n)) with (Z.shiftl (Z.land (w / 2 ^ n) b) n).
  - apply lor_shiftl_add; [lia|]. pose proof (Z.mod_pos_bound w (2 ^ k)). lia.
  - rewrite <- Z.shiftr_div_pow2, Z.shiftl_land by lia.
    apply Z.bits_inj'; intros i Hi. rewrite !Z.land_spec, !Z.shiftl_spec by lia.
    destruct (Z.ltb_spec i n).
    + rewrite !(Z.testbit_neg_r _ (i - n)) by lia. by rewrite !andb_false_r.
    + rewrite Z.shiftr_spec by lia. do 2 f_equal; lia.
Qed.

Lemma matches_fields raw p :
  is_u32 raw -> pat_ok p -> matches raw p = field_test raw p.
Proof.
  intros Hw Hp. unfold is_u32 in Hw. unfold matches, field_test.
  autorewrite with fields. destruct p; cbn [mask mtch pat_ok] in *.
  - rewrite (land_mask _ 7) by (lia || reflexivity). reflexivity.
  - change 0x707f with (Z.ones 7 + Z.ones 3 * 2 ^ 12).
    rewrite land_low_high, Z.land_ones by lia. bool_cases; zdm.
  - change 0xfe00707f with (Z.ones 7 + (Z.ones 3 + Z.ones 7 * 2 ^ 13) * 2 ^ 12).
    rewrite !land_low_high, Z.land_ones by lia. bool_cases; zdm.
  - change 0xffffffff with (Z.ones 32). rewrite Z.land_ones by lia. bool_cases; zdm.
Qed.

Lemma first_match_fields raw t :
  is_u32 raw -> Forall (fun e => pat_ok (fst e)) t ->
  first_match (matches raw) t = first_match (field_test raw) t.
Proof.
  intros Hw. induction 1 as [|[p op] t Hp _ IH]; [done|]. cbn in *.
  by rewrite (matches_fields raw p Hw Hp), IH.
Qed.

Lemma opcode_table_ok : Forall (fun e => pat_ok (fst e)) opcode_table.
Proof. unfold opcode_table. repeat constructor; cbn; lia. Qed.

(** Evaluate the comparisons of two literals and simplify. *)
Ltac eval_eqb :=
  repeat match goal with
  | |- context [?a =? ?b] =>
      lazymatch a with Z0 => idtac | Zpos _ => idtac end;
      lazymatch b with Z0 => idtac | Zpos _ => idtac end;
      let v := eval vm_compute in (a =? b) in change (a =? b) with v
  end;
  cbv beta iota delta [andb negb].

(** Case split on the equality of a field with the constants the goal tests,
    one field at a time. *)
Ltac split_field x :=
  repeat match goal with
  | |- context [x =? ?c] =>
      destruct (Z.eqb_spec x c); [subst x; eval_eqb | ]
  end.

Ltac unfold_encodings :=
  unfold OPC_LUI, OPC_AUIPC, OPC_JAL, OPC_JALR, OPC_BRANCH, OPC_LOAD, OPC_STORE,
    OPC_OP_IMM, OPC_OP, OPC_MISC_MEM, OPC_SYSTEM, F3_BEQ, F3_BNE, F3_BLT, F3_BGE,
    F3_BLTU, F3_BGEU, F3_LB, F3_LH, F3_LW, F3_LBU, F3_LHU, F3_SB, F3_SH, F3_SW,
    F3_ADD_SUB, F3_SLL, F3_SLT, F3_SLTU, F3_XOR, F3_SRL_SRA, F3_OR, F3_AND,
    F7_BASE, F7_ALT, F12_ECALL, F12_EBREAK in *.

(** The words the decoder takes for ECALL or EBREAK although their rd or rs1
    field is not zero; RV32I reserves them. *)
Definition lax_system (raw : Z) : bool :=
  ((Z.land raw 0xfff0707f =? 0x73) || (Z.land raw 0xfff0707f =? 0x00100073)) &&
  negb (Z.land raw 0x000f8f80 =? 0).

Definition lax_fields (raw : Z) : bool :=
  (opcode raw =? 0x73) && (funct3 raw =? 0) && ((funct12 raw =? 0) || (funct12 raw =? 1)) &&
  negb ((rd raw =? 0) && (rs1 raw =? 0)).

Lemma system_word raw k :
  is_u32 raw -> 0 <= k < 4096 ->
  (Z.land raw 0xfff0707f =? 0x73 + k * 2 ^ 20) =
    (opcode raw =? 0x73) && (funct3 raw =? 0) && (funct12 raw =? k).
Proof.
  intros Hw Hk. unfold is_u32 in Hw. autorewrite with fields.
  change 0xfff0707f with (Z.ones 7 + (Z.ones 3 + Z.ones 12 * 2 ^ 8) * 2 ^ 12).
  rewrite !land_low_high, Z.land_ones by lia. bool_cases; zdm.
Qed.

Lemma operand_fields raw :
  is_u32 raw -> (Z.land raw 0x000f8f80 =? 0) = (rd raw =? 0) && (rs1 raw =? 0).
Proof.
  intros Hw. unfold is_u32 in Hw. autorewrite with fields.
  change 0x000f8f80 with (Z.ones 0 + (Z.ones 5 + Z.ones 5 * 2 ^ 8) * 2 ^ 7).
  rewrite !land_low_high, Z.land_ones by lia. bool_cases; zdm.
Qed.

Lemma lax_system_fields raw : is_u32 raw -> lax_system raw = lax_fields raw.
Proof.
  intros Hw. unfold lax_system, lax_fields. rewrite operand_fields by done.
  change 0x73 with (0x73 + 0 * 2 ^ 20) at 1. change 0x00100073 with (0x73 + 1 * 2 ^ 20).
  rewrite !system_word by (done || lia). by destruct (opcode raw =? 0x73), (funct3 raw =? 0).
Qed.

(** Decoder and table as functions of the fields. *)
Ltac split_fields raw :=
  generalize (rd raw =? 0) (rs1 raw =? 0) (opcode raw) (funct3 raw) (funct7 raw) (funct12 raw);
  intros rd0 rs0 opc f3 f7 f12;
  split_field opc; split_field f3; split_field f7; split_field f12; destruct rd0, rs0.

Lemma decode_op_fields raw pc :
  i_op (decode raw pc) =
    if lax_fields raw then (if funct12 raw =? 1 then EBREAK else ECALL)
    else first_match (field_test raw) opcode_table.
Proof.
  unfold decode, lax_fields, opcode_table. cbn [first_match field_test].
  unfold_encodings.
  generalize (imm_i raw) (imm_s raw) (imm_b raw) (imm_u raw) (imm_j raw).
  generalize (u8 (rd raw)) (u8 (rs1 raw)) (u8 (rs2 raw)).
  intros ? ? ? ? ? ? ? ?. split_fields raw; reflexivity.
Qed.

Lemma lax_unmatched raw : lax_fields raw = true -> first_match (field_test raw) opcode_table = ILLEGAL.
Proof.
  unfold lax_fields, opcode_table. cbn [first_match field_test]. split_fields raw; (reflexivity || discriminate).
Qed.

(** C27: the decoder classifies every 32-bit word as the first matching row of
    the RV32I opcode table (mask and match constants of the ISA manual), and as
    ILLEGAL when no row matches, with one exception: a SYSTEM word that is ECALL
    or EBREAK but for a nonzero rd or rs1 field matches no row, and is decoded as
    that ECALL or EBREAK. *)
Theorem decode_matches_table raw pc :
  is_u32 raw ->
  if lax_system raw then
    table_op raw = ILLEGAL /\ i_op (decode raw pc) = (if funct12 raw =? 1 then EBREAK else ECALL)
  else i_op (decode raw pc) = table_op raw.
Proof.
  intros Hw. unfold table_op. rewrite (first_match_fields _ _ Hw opcode_table_ok), lax_system_fields by done.
  rewrite decode_op_fields. destruct (lax_fields raw) eqn:E; [|done]. split; [by apply lax_unmatched|done].
Qed.

(** An ADD, and EBREAK with x1 in its rd field. *)
Lemma decode_matches_table_witness :
  i_op (decode 0x00A58533 0) = ADD /\ table_op 0x001000F3 = ILLEGAL /\ i_op (decode 0x001000F3 0) = EBREAK.
Proof.
  pose proof (decode_matches_table 0x00A58533 0 ltac:(unfold is_u32; lia)) as H1.
  pose proof (decode_matches_table 0x001000F3 0 ltac:(unfold is_u32; lia)) as H2.
  split; [exact H1|exact H2].
Defined.

(** ** The encoder *)

Definition encode (op : Op) (d s1 s2 imm : Z) : Z :=
  match op with
  | ADD => enc_R 0x33 d 0 s1 s2 0 | SUB => enc_R 0x33 d 0 s1 s2 0x20
  | SLL => enc_R 0x33 d 1 s1 s2 0 | SLT => enc_R 0x33 d 2 s1 s2 0
  | SLTU => enc_R 0x33 d 3 s1 s2 0 | XOR => enc_R 0x33 d 4 s1 s2 0
  | SRL => enc_R 0x33 d 5 s1 s2 0 | SRA => enc_R 0x33 d 5 s1 s2 0x20
  | OR => enc_R 0x33 d 6 s1 s2 0 | AND => enc_R 0x33 d 7 s1 s2 0
  | ADDI => enc_I 0x13 d 0 s1 imm | SLTI => enc_I 0x13 d 2 s1 imm
  | SLTIU => enc_I 0x13 d 3 s1 imm | XORI => enc_I 0x13 d 4 s1 imm
  | ORI => enc_I 0x13 d 6 s1 imm | ANDI => enc_I 0x13 d 7 s1 imm
  | SLLI => enc_R 0x13 d 1 s1 imm 0 | SRLI => enc_R 0x13 d 5 s1 imm 0
  | SRAI => enc_R 0x13 d 5 s1 imm 0x20
  | LB => enc_I 0x03 d 0 s1 imm | LH => enc_I 0x03 d 1 s1 imm
  | LW => enc_I 0x03 d 2 s1 imm | LBU => enc_I 0x03 d 4 s1 imm
  | LHU => enc_I 0x03 d 5 s1 imm
  | SB => enc_S 0x23 0 s1 s2 imm | SH => enc_S 0x23 1 s1 s2 imm
  | SW => enc_S 0x23 2 s1 s2 imm
  | BEQ => enc_B 0x63 0 s1 s2 imm | BNE => enc_B 0x63 1 s1 s2 imm
  | BLT => enc_B 0x63 4 s1 s2 imm | BGE => enc_B 0x63 5 s1 s2 imm
  | BLTU => enc_B 0x63 6 s1 s2 imm | BGEU => enc_B 0x63 7 s1 s2 imm
  | JAL => enc_J 0x6f d imm | JALR => enc_I 0x67 d 0 s1 imm
  | LUI => enc_U 0x37 d imm | AUIPC => enc_U 0x17 d imm
  | ECALL => enc_I 0x73 0 0 0 0 | EBREAK => enc_I 0x73 0 0 0 1
  | FENCE => enc_I 0x0f 0 0 0 0
  | ILLEGAL => 0
  end.

(** The operands a format can express; unused ones are 0. *)
Definition operands_ok (op : Op) (d s1 s2 imm : Z) : Prop :=
  0 <= d < 32 /\ 0 <= s1 < 32 /\ 0 <= s2 < 32 /\
  match op with
  | ADD | SUB | SLL | SLT | SLTU | XOR | SRL | SRA | OR | AND => imm = 0
  | ADDI | SLTI | SLTIU | XORI | ORI | ANDI | LB | LH | LW | LBU | LHU | JALR =>
      s2 = 0 /\ - 2 ^ 11 <= imm < 2 ^ 11
  | SLLI | SRLI | SRAI => s2 = 0 /\ 0 <= imm < 32
  | SB | SH | SW => d = 0 /\ - 2 ^ 11 <= imm < 2 ^ 11
  | BEQ | BNE | BLT | BGE | BLTU | BGEU =>
      d = 0 /\ - 2 ^ 12 <= imm < 2 ^ 12 /\ imm mod 2 = 0
  | JAL => s1 = 0 /\ s2 = 0 /\ - 2 ^ 20 <= imm < 2 ^ 20 /\ imm mod 2 = 0
  | LUI | AUIPC => s1 = 0 /\ s2 = 0 /\ - 2 ^ 31 <= imm < 2 ^ 31 /\ imm mod 2 ^ 12 = 0
  | ECALL | EBREAK | FENCE => d = 0 /\ s1 = 0 /\ s2 = 0 /\ imm = 0
  | ILLEGAL => False
  end.

(** ** Round trips *)

Lemma u8_reg d : 0 <= d < 32 -> u8 d = d.
Proof. words. Qed.

(** Reduce [decode] on a word whose fields are known. *)
Ltac decode_fields :=
  unfold decode; unfold_encodings;
  repeat match goal with
  | H : opcode ?w = _ |- context [opcode ?w] => rewrite H
  | H : funct3 ?w = _ |- context [funct3 ?w] => rewrite H
  | H : funct7 ?w = _ |- context [funct7 ?w] => rewrite H
  | H : funct12 ?w = _ |- context [funct12 ?w] => rewrite H
  | H : rd ?w = _ |- context [rd ?w] => rewrite H
  | H : rs1 ?w = _ |- context [rs1 ?w] => rewrite H
  | H : rs2 ?w = _ |- context [rs2 ?w] => rewrite H
  | H : imm_i ?w = _ |- context [imm_i ?w] => rewrite H
  | H : imm_s ?w = _ |- context [imm_s ?w] => rewrite H
  | H : imm_b ?w = _ |- context [imm_b ?w] => rewrite H
  | H : imm_u ?w = _ |- context [imm_u ?w] => rewrite H
  | H : imm_j ?w = _ |- context [imm_j ?w] => rewrite H
  end;
  eval_eqb; rewrite ?u8_reg by lia.

(** Use a format lemma at the immediate [i], discharging its range premises. *)
Ltac intro_fields L i :=
  let H := fresh in
  pose proof L as H; repeat specialize (H ltac:(lia));
  try specialize (H i); cbv zeta in H; repeat specialize (H ltac:(lia));
  destruct_and? H.

(** for every operation and every operand its format can express, [decode]
    of the encoded word returns exactly that operation, register numbers and
    immediate, with the word and the PC attached. *)
Lemma decode_encode op d s1 s2 imm pc :
  operands_ok op d s1 s2 imm ->
  decode (encode op d s1 s2 imm) pc =
  mkInstruction (encode op d s1 s2 imm) pc op d s1 s2 imm.
Proof.
  intros (Hd & H1 & H2 & Hop).
  destruct op; cbn [encode]; try done; destruct_and?; subst;
    match goal with
    | |- context [enc_R ?o ?d ?f ?a ?b ?g] => intro_fields (fields_enc_R o d f a b g) 0
    | |- context [enc_I ?o ?d ?f ?a ?i] => intro_fields (fields_enc_I o d f a 0 0) i
    | |- context [enc_S ?o ?f ?a ?b ?i] => intro_fields (fields_enc_S o 0 f a b 0) i
    | |- context [enc_B ?o ?f ?a ?b ?i] => intro_fields (fields_enc_B o 0 f a b 0) i
    | |- context [enc_U ?o ?d ?i] => intro_fields (fields_enc_U o d 0 0 0 0) i
    | |- context [enc_J ?o ?d ?i] => intro_fields (fields_enc_J o d 0 0 0 0) i
    end;
    change (0 mod 2 ^ 12) with 0 in *; change (1 mod 2 ^ 12) with 1 in *;
    decode_fields; rewrite ?imm_i_shamt by done; congruence.
Qed.

(** The operations whose encoding has no ignored field. *)
Definition exact_op (op : Op) : bool :=
  match op with ILLEGAL | FENCE | ECALL | EBREAK => false | _ => true end.

Definition encode_insn (i : Instruction) : Z :=
  encode (i_op i) (i_rd i) (i_rs1 i) (i_rs2 i) (i_imm i).

(** Every word that decodes to an operation without ignored fields is the
    encoding of its decoded form, so [decode] loses no bit of it and two words
    with the same decoded form are equal. *)
Lemma encode_decode raw pc :
  is_u32 raw -> exact_op (i_op (decode raw pc)) = true ->
  encode_insn (decode raw pc) = raw.
Proof.
  intros Hw.
  pose proof (reg_fields_range raw) as (? & ? & ?).
  pose proof (enc_R_fields raw Hw) as HR. pose proof (enc_I_fields raw Hw) as HI.
  pose proof (enc_S_fields raw Hw) as HS. pose proof (enc_B_fields raw Hw) as HB.
  pose proof (enc_U_fields raw Hw) as HU. pose proof (enc_J_fields raw Hw) as HJ.
  pattern (decode raw pc). unfold decode. unfold_encodings. rewrite !imm_i_shamt, !u8_reg by done.
  revert HR HI HS HB HU HJ.
  generalize (opcode raw) (funct3 raw) (funct7 raw) (funct12 raw).
  intros opc f3 f7 f12 HR HI HS HB HU HJ.
  split_field opc; split_field f3; split_field f7; split_field f12;
    cbv beta iota delta [encode_insn encode exact_op i_op i_rd i_rs1 i_rs2 i_imm];
    intros; congruence.
Qed.

(** C28: [decode] and the encoder are inverse to each other.  An operation with
    operands its format can express is recovered from its encoding, field by
    field, at every PC; and every word that decodes to an operation without
    ignored fields is the encoding of its decoded form, so [decode] loses no bit
    of it and two words with the same decoded form are equal. *)
Theorem decode_encode_inverse pc :
  (forall op d s1 s2 imm, operands_ok op d s1 s2 imm ->
     decode (encode op d s1 s2 imm) pc = mkInstruction (encode op d s1 s2 imm) pc op d s1 s2 imm) /\
  (forall raw, is_u32 raw -> exact_op (i_op (decode raw pc)) = true -> encode_insn (decode raw pc) = raw).
Proof. split; intros; [by apply decode_encode|by apply encode_decode]. Qed.

Lemma decode_encode_inverse_witness :
  decode (encode BLT 0 5 6 (-8)) 0x80000010 = mkInstruction 0xFE62CCE3 0x80000010 BLT 0 5 6 (-8) /\
  encode_insn (decode 0xFE62CCE3 0x80000010) = 0xFE62CCE3.
Proof.
  destruct (decode_encode_inverse 0x80000010) as [He Hd]. split.
  - rewrite (He BLT 0 5 6 (-8)); [reflexivity|]. unfold operands_ok. split_and!; (lia || reflexivity).
  - apply Hd; [unfold is_u32; lia | reflexivity].
Defined.

(** ECALL and EBREAK are recognised with any rd and rs1; the ISA requires
    both to be zero. *)
Example system_ignores_rd_rs1 :
  i_op (decode 0x001000F3 0) = EBREAK /\ i_op (decode 0x00008073 0) = ECALL.
Proof. by vm_compute. Qed.

(** ** Well-formedness of decoded instructions *)

Definition insn_wf (i : Instruction) : Prop :=
  0 <= i_rd i < 32 /\ 0 <= i_rs1 i < 32 /\ 0 <= i_rs2 i < 32 /\ is_s32 (i_imm i).

(** Operations with a destination register. *)
Definition writes_rd (op : Op) : bool :=
  match op with
  | SB | SH | SW | BEQ | BNE | BLT | BGE | BLTU | BGEU
  | ECALL | EBREAK | FENCE | ILLEGAL => false
  | _ => true
  end.

(** What every path through [decode] guarantees. *)
Definition decode_post (raw pc : Z) (i : Instruction) : Prop :=
  i_raw i = raw /\ i_pc i = pc /\ insn_wf i /\
  (i_rs1 i = 0 \/ i_rs1 i = rs1 raw) /\ (i_rs2 i = 0 \/ i_rs2 i = rs2 raw) /\
  (writes_rd (i_op i) = false -> i_op i <> ILLEGAL -> i_rd i = 0).

Lemma decode_post_ok raw pc : is_u32 raw -> decode_post raw pc (decode raw pc).
Proof.
  intros Hw. pose proof (imm_ranges raw Hw) as (Hi & Hs & Hb & Hj & Hu).
  pose proof (reg_fields_range raw) as (? & ? & ?).
  unfold decode. unfold_encodings. rewrite !imm_i_shamt, !u8_reg by done.
  generalize (opcode raw) (funct3 raw) (funct7 raw) (funct12 raw).
  intros opc f3 f7 f12.
  split_field opc; split_field f3; split_field f7; split_field f12;
    unfold decode_post, insn_wf, is_s32; cbn; split_and!; (done || lia || tauto).
Qed.

Lemma imm_aligned w : is_u32 w -> imm_b w mod 2 = 0 /\ imm_j w mod 2 = 0 /\ imm_u w mod 2 ^ 12 = 0.
Proof.
  intros Hw. autorewrite with imms. unfold signed_of, is_u32 in *.
  repeat split; bool_cases; zdm.
Qed.

(** C29: the decoder is well typed.  Whatever the word, the decoded instruction
    carries the word and its PC and register numbers below 32; unless the word
    is unrecognised, every field its operation does not use is zero and its
    immediate is one its format can express: even branch and jump offsets,
    shift amounts below 32, upper immediates with twelve zero bits. *)
Theorem decode_well_typed raw pc :
  is_u32 raw ->
  let i := decode raw pc in
  i_raw i = raw /\ i_pc i = pc /\ insn_wf i /\
  (i_op i <> ILLEGAL -> operands_ok (i_op i) (i_rd i) (i_rs1 i) (i_rs2 i) (i_imm i)).
Proof.
  intros Hw i. destruct (decode_post_ok raw pc Hw) as (Hr & Hp & Hwf & _). fold i in Hr, Hp, Hwf.
  split_and!; try done. intros Hi. destruct Hwf as (Hd & H1 & H2 & _).
  split_and!; try done; try lia. revert Hi. clear Hr Hp Hd H1 H2. subst i.
  pose proof (imm_ranges raw Hw) as (Hi & Hs & Hb & Hj & Hu).
  pose proof (imm_aligned raw Hw) as (Ab & Aj & Au).
  pose proof (reg_fields_range raw) as (? & ? & ?).
  unfold decode. unfold_encodings. rewrite !imm_i_shamt, !u8_reg by done.
  generalize (opcode raw) (funct3 raw) (funct7 raw) (funct12 raw).
  intros opc f3 f7 f12.
  split_field opc; split_field f3; split_field f7; split_field f12;
    cbn; intros; split_and?; (done || lia || tauto).
Qed.

Lemma decode_well_typed_witness :
  i_op (decode 0xFE62CCE3 0) <> ILLEGAL /\ operands_ok BLT 0 5 6 (-8).
Proof.
  assert (E : decode 0xFE62CCE3 0 = mkInstruction 0xFE62CCE3 0 BLT 0 5 6 (-8)) by (vm_compute; reflexivity).
  destruct (decode_well_typed 0xFE62CCE3 0) as (_ & _ & _ & Hx); [unfold is_u32; lia|].
  rewrite E in *. split; [discriminate|]. apply Hx. discriminate.
Defined.
