(* ===== verification/Alu.v ===== *)
(** * ALU and branch comparator

    Models [include/cpusim/uarch/alu.h] and [src/uarch/alu.cpp], with an
    arithmetic specification of each operation on unsigned and signed values
    and the agreement of the comparator with the ALU. *)

From S2P Require Import Prelude Isa.

Inductive AluOp :=
  | ALU_ADD | ALU_SUB | ALU_AND | ALU_OR | ALU_XOR
  | ALU_SLL | ALU_SRL | ALU_SRA | ALU_SLT | ALU_SLTU | ALU_PASS_B.

Definition alu_exec (op : AluOp) (a b : Z) : Z :=
  match op with
  | ALU_ADD => u32 (a + b)
  | ALU_SUB => u32 (a - b)
  | ALU_AND => Z.land a b
  | ALU_OR => Z.lor a b
  | ALU_XOR => Z.lxor a b
  | ALU_SLL => u32 (Z.shiftl a (Z.land b 0x1f))
  | ALU_SRL => Z.shiftr a (Z.land b 0x1f)
  | ALU_SRA => u32 (Z.shiftr (s32 a) (Z.land b 0x1f))
  | ALU_SLT => if s32 a <? s32 b then 1 else 0
  | ALU_SLTU => if a <? b then 1 else 0
  | ALU_PASS_B => b
  end.

Definition alu_op_for (op : Op) : AluOp :=
  match op with
  | ADD | ADDI => ALU_ADD
  | SUB => ALU_SUB
  | AND | ANDI => ALU_AND
  | OR | ORI => ALU_OR
  | XOR | XORI => ALU_XOR
  | SLL | SLLI => ALU_SLL
  | SRL | SRLI => ALU_SRL
  | SRA | SRAI => ALU_SRA
  | SLT | SLTI => ALU_SLT
  | SLTU | SLTIU => ALU_SLTU
  | LUI => ALU_PASS_B
  | LB | LH | LW | LBU | LHU | SB | SH | SW | JALR | AUIPC => ALU_ADD
  | _ => ALU_ADD
  end.

Definition branch_taken (op : Op) (rs1 rs2 : Z) : bool :=
  match op with
  | BEQ => rs1 =? rs2
  | BNE => negb (rs1 =? rs2)
  | BLT => s32 rs1 <? s32 rs2
  | BGE => s32 rs2 <=? s32 rs1
  | BLTU => rs1 <? rs2
  | BGEU => rs2 <=? rs1
  | _ => false
  end.

(** ** Specification *)

(** The value an operation must produce, on the integers.  The bitwise
    operations are specified bit by bit ([alu_bitwise]). *)
Definition alu_value (op : AluOp) (a b : Z) : option Z :=
  match op with
  | ALU_ADD => Some ((a + b) mod 2 ^ 32)
  | ALU_SUB => Some ((a - b) mod 2 ^ 32)
  | ALU_SLL => Some ((a * 2 ^ (b mod 32)) mod 2 ^ 32)
  | ALU_SRL => Some (a / 2 ^ (b mod 32))
  | ALU_SRA => Some ((s32 a / 2 ^ (b mod 32)) mod 2 ^ 32)
  | ALU_SLT => Some (Z.b2z (s32 a <? s32 b))
  | ALU_SLTU => Some (Z.b2z (a <? b))
  | ALU_PASS_B => Some b
  | ALU_AND | ALU_OR | ALU_XOR => None
  end.

Definition alu_bit (op : AluOp) : option (bool -> bool -> bool) :=
  match op with
  | ALU_AND => Some andb | ALU_OR => Some orb | ALU_XOR => Some xorb
  | _ => None
  end.

Lemma shamt_range b : 0 <= Z.land b 0x1f < 32.
Proof. rewrite (land_mask _ 5) by (lia || reflexivity). zdm. Qed.

Lemma is_u32_bits z : 0 <= z -> (forall i, 32 <= i -> Z.testbit z i = false) -> is_u32 z.
Proof.
  intros Hz Hb. split; [done|].
  destruct (Z.ltb_spec z (2 ^ 32)) as [|Hge]; [done|].
  assert (Hl : 32 <= Z.log2 z) by (apply Z.log2_le_pow2; lia).
  pose proof (Z.bit_log2 z ltac:(lia)) as Ht. rewrite Hb in Ht; done.
Qed.

Lemma u32_bits z i : is_u32 z -> 32 <= i -> Z.testbit z i = false.
Proof.
  intros Hz Hi. rewrite <- (Z.mod_small z (2 ^ 32)) by exact Hz.
  apply Z.mod_pow2_bits_high. lia.
Qed.

Lemma alu_exec_range op a b : is_u32 a -> is_u32 b -> is_u32 (alu_exec op a b).
Proof.
  intros Ha Hb. pose proof (shamt_range b) as Hs.
  destruct op; cbn; try apply u32_range; try done.
  - apply is_u32_bits; [apply Z.land_nonneg; left; apply Ha|].
    intros i Hi. by rewrite Z.land_spec, (u32_bits a).
  - apply is_u32_bits; [apply Z.lor_nonneg; split; [apply Ha|apply Hb]|].
    intros i Hi. by rewrite Z.lor_spec, (u32_bits a), (u32_bits b).
  - apply is_u32_bits; [apply Z.lxor_nonneg; split; intros; [apply Hb|apply Ha]|].
    intros i Hi. by rewrite Z.lxor_spec, (u32_bits a), (u32_bits b).
  - rewrite Z.shiftr_div_pow2 by lia. unfold is_u32 in *.
    assert (0 < 2 ^ Z.land b 0x1f) by (apply Z.pow_pos_nonneg; lia).
    split; [apply Z.div_pos; lia | apply Z.div_lt_upper_bound; nia].
  - destruct (_ <? _); words.
  - destruct (_ <? _); words.
Qed.

(** C34: on 32-bit words, [alu_exec] stays in range and computes the
    mathematical value of each operation: wrapping addition, subtraction and
    left shift, logical and arithmetic right shift by the low five bits,
    signed and unsigned comparison; the logical operations act bit by bit. *)
Theorem alu_exec_correct op a b :
  is_u32 a -> is_u32 b ->
  is_u32 (alu_exec op a b) /\
  (forall v, alu_value op a b = Some v -> alu_exec op a b = v) /\
  (forall f i, alu_bit op = Some f -> 0 <= i ->
     Z.testbit (alu_exec op a b) i = f (Z.testbit a i) (Z.testbit b i)).
Proof.
  intros Ha Hb. split; [by apply alu_exec_range|].
  pose proof (shamt_range b) as Hs.
  rewrite (land_mask _ 5) in Hs by (lia || reflexivity).
  split.
  - intros v. destruct op; cbn; intros [= <-];
      rewrite ?(land_mask _ 5 0x1f), ?Z.shiftl_mul_pow2, ?Z.shiftr_div_pow2
        by (lia || reflexivity); try reflexivity; by destruct (_ <? _).
  - intros f i. destruct op; cbn; intros [= <-] Hi;
      [apply Z.land_spec | apply Z.lor_spec | apply Z.lxor_spec].
Qed.

Lemma alu_exec_correct_witness : alu_exec ALU_SRA 0xFFFFFFF0 0x22 = 0xFFFFFFFC.
Proof.
  apply (alu_exec_correct ALU_SRA 0xFFFFFFF0 0x22); [unfold is_u32; lia..|reflexivity].
Defined.

(** The branch comparator agrees with the ALU: equality is a zero
    difference, and the ordered branches are SLT and SLTU. *)
Lemma comparator_agrees_with_alu a b :
  is_u32 a -> is_u32 b ->
  branch_taken BEQ a b = (alu_exec ALU_SUB a b =? 0) /\
  branch_taken BNE a b = negb (alu_exec ALU_SUB a b =? 0) /\
  branch_taken BLT a b = (alu_exec ALU_SLT a b =? 1) /\
  branch_taken BGE a b = (alu_exec ALU_SLT a b =? 0) /\
  branch_taken BLTU a b = (alu_exec ALU_SLTU a b =? 1) /\
  branch_taken BGEU a b = (alu_exec ALU_SLTU a b =? 0).
Proof.
  intros Ha Hb. cbn.
  assert (E : (u32 (a - b) =? 0) = (a =? b)) by words.
  rewrite E. split_and!; try done; bool_cases; lia.
Qed.
