(* ===== verification/Regfile.v ===== *)
(** * Register file

    Models [include/cpusim/regfile.h]: 32 registers, x0 hardwired to zero by
    never being written; an out-of-range index trips the assertion. *)

From S2P Require Import Prelude.

Definition kNumRegs : Z := 32.

Record RegFile := mkRegFile { regs_ : list Z }.

Definition RegFile_new : RegFile := mkRegFile (replicate 32 0).

Definition RegFile_read (rf : RegFile) (idx : Z) : option Z :=
  _ ← assert_ (idx <? kNumRegs);
  vget (regs_ rf) idx.

Definition RegFile_write (rf : RegFile) (idx value : Z) : option RegFile :=
  _ ← assert_ (idx <? kNumRegs);
  if idx =? 0 then Some rf
  else regs ← vset (regs_ rf) idx value; Some (mkRegFile regs).

Definition RegFile_reset (rf : RegFile) : RegFile :=
  mkRegFile (replicate (List.length (regs_ rf)) 0).

Definition RegFile_eqb (a b : RegFile) : bool := bool_decide (regs_ a = regs_ b).

Definition abi_names : list string :=
  [ "zero"; "ra";  "sp";  "gp";  "tp";  "t0";  "t1";  "t2";
    "s0";   "s1";  "a0";  "a1";  "a2";  "a3";  "a4";  "a5";
    "a6";   "a7";  "s2";  "s3";  "s4";  "s5";  "s6";  "s7";
    "s8";   "s9";  "s10"; "s11"; "t3";  "t4";  "t5";  "t6" ]%string.

Definition abi_name (idx : Z) : option string :=
  _ ← assert_ (idx <? 32); vget abi_names idx.

(** ** Invariant and laws *)

Lemma abi_name_Some i : 0 <= i < 32 -> is_Some (abi_name i).
Proof.
  intros Hi. unfold abi_name, assert_. destruct (Z.ltb_spec i 32); [cbn|lia].
  apply vget_is_Some. cbn. lia.
Qed.

Record RegFile_wf (rf : RegFile) : Prop := mkRegFile_wf {
  wf_len : length (regs_ rf) = 32%nat;
  wf_x0 : vget (regs_ rf) 0 = Some 0;
  wf_u32 : Forall is_u32 (regs_ rf);
}.

Lemma RegFile_new_wf : RegFile_wf RegFile_new.
Proof. split; [done | done | by apply Forall_replicate]. Qed.

Section Laws.
Context (rf : RegFile) (Hwf : RegFile_wf rf).

Lemma RegFile_read_Some i : 0 <= i < 32 -> exists v, RegFile_read rf i = Some v /\ is_u32 v.
Proof using Hwf.
  intros Hi. unfold RegFile_read, kNumRegs, assert_.
  destruct (Z.ltb_spec i 32); [cbn | lia].
  destruct (vget_is_Some (regs_ rf) i) as [v Hv]; [rewrite (wf_len _ Hwf); lia|].
  exists v. split; [done|]. unfold vget in Hv.
  destruct (i <? 0); [done|]. eapply Forall_lookup_1; [apply Hwf | done].
Qed.

Lemma RegFile_write_Some i v :
  0 <= i < 32 -> is_u32 v ->
  exists rf', RegFile_write rf i v = Some rf' /\ RegFile_wf rf' /\
    forall j, 0 <= j < 32 ->
      RegFile_read rf' j = if (i =? j) && negb (j =? 0) then Some v else RegFile_read rf j.
Proof using Hwf.
  intros Hi Hv. unfold RegFile_write, kNumRegs, assert_.
  destruct (Z.ltb_spec i 32); [cbn | lia].
  destruct (Z.eqb_spec i 0) as [->|Hne].
  - exists rf. split_and!; [done|done|]. intros j Hj.
    destruct (Z.eqb_spec 0 j) as [<-|]; done.
  - pose proof (wf_len _ Hwf) as Hl.
    destruct (vset (regs_ rf) i v) as [l'|] eqn:E;
      [|rewrite vset_Some in E by lia; done].
    exists (mkRegFile l'). cbn. split_and!; [done| |].
    + destruct (vset_Some_range _ _ _ _ E) as [_ ->]. split; cbn.
      * by rewrite length_insert.
      * rewrite <- (wf_x0 _ Hwf). unfold vget. cbn.
        apply list_lookup_insert_ne. lia.
      * apply Forall_insert; [apply Hwf | done].
    + intros j Hj. unfold RegFile_read, kNumRegs, assert_. cbn.
      destruct (Z.ltb_spec j 32); [cbn | lia].
      destruct (Z.eqb_spec i j) as [<-|Hij]; cbn.
      * destruct (Z.eqb_spec i 0); [lia|]. by eapply vget_vset_eq.
      * by eapply vget_vset_ne.
Qed.
End Laws.

(** X0 always reads 0; a write to another register is read back, changes
    no other register, and keeps the register file well formed. *)
Lemma RegFile_correct rf i v :
  RegFile_wf rf -> 0 <= i < 32 -> is_u32 v ->
  RegFile_read rf 0 = Some 0 /\
  exists rf', RegFile_write rf i v = Some rf' /\ RegFile_wf rf' /\
    RegFile_read rf' 0 = Some 0 /\
    (i <> 0 -> RegFile_read rf' i = Some v) /\
    (forall j, 0 <= j < 32 -> j <> i -> RegFile_read rf' j = RegFile_read rf j).
Proof.
  intros Hwf Hi Hv. destruct (RegFile_write_Some rf Hwf i v Hi Hv) as (rf' & E & Hwf' & Hr).
  assert (H0 : RegFile_read rf 0 = Some 0) by apply (wf_x0 _ Hwf).
  split; [done|]. exists rf'. split_and!; try done.
  - rewrite Hr by lia. by rewrite andb_false_r.
  - intros Hne. rewrite Hr, Z.eqb_refl by lia. destruct (Z.eqb_spec i 0); done.
  - intros j Hj Hne. rewrite Hr by lia. destruct (Z.eqb_spec i j); [lia | done].
Qed.
