(* ===== verification/Config.v ===== *)
(** * Simulator configuration and statistics

    Models [include/cpusim/sim/sim_config.h] and
    [include/cpusim/sim/sim_stats.h]. *)

From S2P Require Import Prelude.

Record SimConfig := mkSimConfig {
  ram_base_addr : Z;
  ram_size_bytes : Z;
  dmem_latency_cycles : Z;
  dcache_enabled : bool;
  dcache_line_bytes : Z;
  dcache_sets : Z;
  dcache_hit_latency_cycles : Z;
  dcache_ways : Z;
  imem_latency_cycles : Z;
  icache_enabled : bool;
  icache_line_bytes : Z;
  icache_sets : Z;
  icache_hit_latency_cycles : Z;
  icache_ways : Z;
  icache_prefetch_enabled : bool;
  icache_prefetch_degree : Z;
  bpred_enabled : bool;
  bpred_bht_entries : Z;
  bpred_btb_entries : Z;
}.

(** The default member initialisers. *)
Definition SimConfig_default : SimConfig := {|
  ram_base_addr := 0x80000000;
  ram_size_bytes := 0x10000;
  dmem_latency_cycles := 1;
  dcache_enabled := false;
  dcache_line_bytes := 32;
  dcache_sets := 64;
  dcache_hit_latency_cycles := 1;
  dcache_ways := 1;
  imem_latency_cycles := 1;
  icache_enabled := false;
  icache_line_bytes := 32;
  icache_sets := 64;
  icache_hit_latency_cycles := 1;
  icache_ways := 1;
  icache_prefetch_enabled := false;
  icache_prefetch_degree := 1;
  bpred_enabled := false;
  bpred_bht_entries := 256;
  bpred_btb_entries := 64;
|}.

(** [SimStats]: the counters every component of a [Core] shares.  The cache
    reaches them through a pointer, the model by threading the record. *)
Record SimStats := mkSimStats {
  cycles : Z;
  instructions : Z;
  branch_correct : Z;
  branch_mispredicts : Z;
  icache_prefetch_useful : Z;
  icache_prefetch_useless : Z;
}.

Definition SimStats_new : SimStats := mkSimStats 0 0 0 0 0 0.

(** The increments of the sources ([++stats_->field]). *)
Definition stats_cycle (s : SimStats) : SimStats :=
  mkSimStats (incr64 (cycles s)) (instructions s) (branch_correct s)
    (branch_mispredicts s) (icache_prefetch_useful s) (icache_prefetch_useless s).
Definition stats_instruction (s : SimStats) : SimStats :=
  mkSimStats (cycles s) (incr64 (instructions s)) (branch_correct s)
    (branch_mispredicts s) (icache_prefetch_useful s) (icache_prefetch_useless s).
Definition stats_branch_correct (s : SimStats) : SimStats :=
  mkSimStats (cycles s) (instructions s) (incr64 (branch_correct s))
    (branch_mispredicts s) (icache_prefetch_useful s) (icache_prefetch_useless s).
Definition stats_branch_mispredict (s : SimStats) : SimStats :=
  mkSimStats (cycles s) (instructions s) (branch_correct s)
    (incr64 (branch_mispredicts s)) (icache_prefetch_useful s) (icache_prefetch_useless s).
Definition stats_prefetch_useful (s : SimStats) : SimStats :=
  mkSimStats (cycles s) (instructions s) (branch_correct s)
    (branch_mispredicts s) (incr64 (icache_prefetch_useful s)) (icache_prefetch_useless s).
Definition stats_prefetch_useless (s : SimStats) : SimStats :=
  mkSimStats (cycles s) (instructions s) (branch_correct s)
    (branch_mispredicts s) (icache_prefetch_useful s) (incr64 (icache_prefetch_useless s)).

(** The counters a memory unit may not touch. *)
Definition core_counters (s : SimStats) : Z * Z * Z * Z :=
  (cycles s, instructions s, branch_correct s, branch_mispredicts s).
