(* ===== verification/Pipe.v ===== *)
(** * Pipeline registers

    Models [include/cpusim/uarch/latch.h] and [uarch/pipeline/pipe_regs.h]. *)

From S2P Require Import Prelude Isa.

(** [T{}]: the value-initialised payload, a bubble. *)
Class Bubble (T : Type) := bubble : T.

(** ** latch.h *)

Record Latch (T : Type) := mkLatch { reg_ : T; shadow_ : T }.
Arguments mkLatch {T} _ _.
Arguments reg_ {T} _.
Arguments shadow_ {T} _.

Section LatchOps.
Context {T : Type} `{Bubble T}.

Definition Latch_new : Latch T := mkLatch bubble bubble.
Definition Latch_read (l : Latch T) : T := reg_ l.
Definition Latch_write (l : Latch T) (val : T) : Latch T := mkLatch (reg_ l) val.
Definition Latch_latch (l : Latch T) : Latch T := mkLatch (shadow_ l) (shadow_ l).
Definition Latch_flush (l : Latch T) : Latch T := mkLatch bubble bubble.
Definition Latch_reset (l : Latch T) : Latch T := mkLatch bubble bubble.

(** A cycle of the two-phase protocol: the register changes only at the
    clock edge, to the value written, to a bubble, or not at all. *)
Inductive edge := Commit | Stall | Flush.
Definition clock (e : edge) (l : Latch T) : Latch T :=
  match e with Commit => Latch_latch l | Stall => l | Flush => Latch_flush l end.

Lemma Latch_two_phase l v e :
  Latch_read (Latch_write l v) = Latch_read l /\
  Latch_read (clock e (Latch_write l v)) =
    match e with Commit => v | Stall => Latch_read l | Flush => bubble end.
Proof. by destruct e. Qed.
End LatchOps.

(** ** pipe_regs.h *)

Record IfId := mkIfId {
  if_pc : Z;
  if_raw : Z;
  if_valid : bool;
  if_predicted_taken : bool;
}.

Record IdEx := mkIdEx {
  ie_pc : Z;
  ie_raw : Z;
  ie_op : Op;
  ie_rd : Z;
  ie_rs1 : Z;
  ie_rs2 : Z;
  ie_imm : Z;
  ie_rs1_val : Z;
  ie_rs2_val : Z;
  ie_valid : bool;
  ie_predicted_taken : bool;
}.

Record ExMem := mkExMem {
  em_pc : Z;
  em_raw : Z;
  em_op : Op;
  em_rd : Z;
  em_alu_out : Z;
  em_rs2_val : Z;
  em_branch_taken : bool;
  em_branch_target : Z;
  em_valid : bool;
}.

Record MemWb := mkMemWb {
  mw_pc : Z;
  mw_raw : Z;
  mw_op : Op;
  mw_rd : Z;
  mw_wb_val : Z;
  mw_mem_addr : Z;
  mw_mem_val : Z;
  mw_is_store : bool;
  mw_valid : bool;
}.

#[export] Instance IfId_bubble : Bubble IfId := mkIfId 0 0 false false.
#[export] Instance IdEx_bubble : Bubble IdEx :=
  mkIdEx 0 0 ILLEGAL 0 0 0 0 0 0 false false.
#[export] Instance ExMem_bubble : Bubble ExMem :=
  mkExMem 0 0 ILLEGAL 0 0 0 false 0 false.
#[export] Instance MemWb_bubble : Bubble MemWb :=
  mkMemWb 0 0 ILLEGAL 0 0 0 0 false false.
