(* ===== verification/Memory.v ===== *)
(** * The memory interface

    [include/cpusim/memory/mem_interface.h] as a typeclass, and the contract
    its implementations promise to the pipeline: the data path is that of a
    byte array ([ram]), whatever the timing path does. *)

From S2P Require Import Prelude Config.

(** ** The interface

    [ready] and [tick] take the statistics record because a cache reports its
    prefetch outcomes through a pointer to it.  [None] is an assertion failure
    or an out-of-bounds access. *)
Class IMemory (M : Type) := {
  load_word : M -> Z -> option Z;
  load_half : M -> Z -> option Z;
  load_byte : M -> Z -> option Z;
  store_word : M -> Z -> Z -> option M;
  store_half : M -> Z -> Z -> option M;
  store_byte : M -> Z -> Z -> option M;
  ready : M -> SimStats -> Z -> bool -> option (bool * M * SimStats);
  tick : M -> SimStats -> option (M * SimStats);
}.

(** ** Byte-addressed little-endian memory (the specification) *)

Record ram := mkRam { ram_base : Z; ram_bytes : list Z }.

Definition ram_wf (r : ram) : Prop :=
  is_u32 (ram_base r) /\ Forall is_u8 (ram_bytes r).

(** The value of a little-endian byte sequence, and the bytes of a value. *)
Fixpoint le_value (bs : list Z) : Z :=
  match bs with [] => 0 | b :: bs => b + 2 ^ 8 * le_value bs end.

Fixpoint le_bytes (n : nat) (v : Z) : list Z :=
  match n with O => [] | S n => v mod 2 ^ 8 :: le_bytes n (v / 2 ^ 8) end.

(** [l] with [bs] written at position [o]. *)
Definition splice (o : nat) (bs l : list Z) : list Z :=
  take o l ++ bs ++ drop (o + length bs) l.

(** [n] bytes from [addr]; the whole range must be backed. *)
Definition ram_load (n : nat) (r : ram) (addr : Z) : option Z :=
  let o := addr - ram_base r in
  if (0 <=? o) && (o + Z.of_nat n <=? Z.of_nat (length (ram_bytes r)))
  then Some (le_value (take n (drop (Z.to_nat o) (ram_bytes r))))
  else None.

Definition ram_store (n : nat) (r : ram) (addr v : Z) : option ram :=
  let o := addr - ram_base r in
  if (0 <=? o) && (o + Z.of_nat n <=? Z.of_nat (length (ram_bytes r)))
  then Some (mkRam (ram_base r) (splice (Z.to_nat o) (le_bytes n v) (ram_bytes r)))
  else None.

Lemma le_bytes_length n v : length (le_bytes n v) = n.
Proof. revert v; induction n; cbn; auto. Qed.

Lemma le_bytes_u8 n v : Forall is_u8 (le_bytes n v).
Proof.
  revert v; induction n as [|n IH]; intros v; cbn [le_bytes]; constructor; [|done].
  apply u8_range.
Qed.

Lemma le_value_bytes n v : le_value (le_bytes n v) = v mod 2 ^ (8 * Z.of_nat n).
Proof.
  revert v; induction n as [|n IH]; intros v; cbn [le_bytes le_value].
  { by rewrite Z.mod_1_r. }
  rewrite IH. replace (8 * Z.of_nat (S n)) with (8 + 8 * Z.of_nat n) by lia.
  rewrite Z.pow_add_r, Z.rem_mul_r by lia. lia.
Qed.

Lemma le_value_range bs :
  Forall is_u8 bs -> 0 <= le_value bs < 2 ^ (8 * Z.of_nat (length bs)).
Proof.
  induction 1 as [|b bs Hb _ IH]; cbn [le_value length]; [lia|].
  replace (8 * Z.of_nat (S (length bs))) with (8 + 8 * Z.of_nat (length bs)) by lia.
  rewrite Z.pow_add_r by lia. unfold is_u8 in Hb. lia.
Qed.

Lemma splice_length o bs l : (o + length bs <= length l)%nat -> length (splice o bs l) = length l.
Proof. intros. unfold splice. rewrite !length_app, length_take, length_drop. lia. Qed.

(** Writing byte after byte. *)
Lemma splice_cons o b bs l :
  (o < length l)%nat -> splice o (b :: bs) l = splice (S o) bs (<[o := b]> l).
Proof.
  intros Ho. unfold splice.
  rewrite (take_S_r _ o b) by (apply list_lookup_insert_eq; lia).
  rewrite take_insert_ge, drop_insert_lt by lia.
  rewrite <- app_assoc. cbn [length app]. by replace (o + S (length bs))%nat with (S o + length bs)%nat by lia.
Qed.

Lemma splice_nil o l : splice o [] l = l.
Proof. unfold splice. cbn. by rewrite Nat.add_0_r, take_drop. Qed.

Lemma splice_Forall (P : Z -> Prop) o bs l :
  Forall P l -> Forall P bs -> Forall P (splice o bs l).
Proof.
  intros. repeat apply Forall_app_2; [by apply Forall_take | done | by apply Forall_drop].
Qed.

(** A sequence of vector stores at consecutive indices. *)
Fixpoint vset_all (l : list Z) (o : Z) (bs : list Z) : option (list Z) :=
  match bs with
  | [] => Some l
  | b :: bs => l ← vset l o b; vset_all l (o + 1) bs
  end.

Lemma vset_all_Some l o bs :
  0 <= o -> o + Z.of_nat (length bs) <= Z.of_nat (length l) ->
  vset_all l o bs = Some (splice (Z.to_nat o) bs l).
Proof.
  revert l o. induction bs as [|b bs IH]; intros l o Ho Hl; cbn [vset_all length] in *.
  { by rewrite splice_nil. }
  rewrite vset_Some by lia. cbn. rewrite IH by (rewrite ?length_insert; lia).
  rewrite splice_cons by lia. do 2 f_equal. lia.
Qed.

Lemma vset_all_None l o bs :
  bs <> [] -> 0 <= o -> Z.of_nat (length l) < o + Z.of_nat (length bs) ->
  vset_all l o bs = None.
Proof.
  revert l o. induction bs as [|b bs IH]; intros l o Hne Ho Hl; cbn [vset_all length] in *; [done|].
  destruct (vset l o b) as [l'|] eqn:E; [cbn|done].
  destruct (vset_Some_range _ _ _ _ E) as [Hr ->].
  apply IH; [|lia|rewrite length_insert; lia]. intros ->. cbn in Hl. lia.
Qed.

Section RamLaws.
Context (r : ram) (Hwf : ram_wf r).

Lemma ram_load_range n a v :
  ram_load n r a = Some v -> 0 <= v < 2 ^ (8 * Z.of_nat n).
Proof using Hwf.
  unfold ram_load. bool_cases; cbn; try done. intros [= <-].
  set (bs := take n (drop _ _)).
  assert (Hl : length bs = n)
    by (subst bs; rewrite length_take, length_drop; lia).
  pose proof (le_value_range bs) as Hr. rewrite Hl in Hr. apply Hr. subst bs.
  apply Forall_take, Forall_drop, Hwf.
Qed.

Lemma ram_store_wf n a v r' : ram_store n r a v = Some r' -> ram_wf r'.
Proof using Hwf.
  unfold ram_store. bool_cases; cbn; try done. intros [= <-].
  split; cbn; [apply Hwf|]. apply splice_Forall; [apply Hwf | apply le_bytes_u8].
Qed.
End RamLaws.

(** Store then load: the value comes back modulo the width. *)
Lemma ram_load_store_same n r a v r' :
  ram_store n r a v = Some r' -> ram_load n r' a = Some (v mod 2 ^ (8 * Z.of_nat n)).
Proof.
  unfold ram_store. bool_cases; cbn; try done. intros [= <-].
  unfold ram_load. cbn. rewrite splice_length by (rewrite le_bytes_length; lia).
  bool_cases; cbn; try lia. f_equal. rewrite <- le_value_bytes. f_equal.
  unfold splice.
  rewrite drop_app_ge by (rewrite length_take; lia).
  rewrite length_take, Nat.min_l, Nat.sub_diag, drop_0 by lia.
  by rewrite take_app_length' by (symmetry; apply le_bytes_length).
Qed.

Lemma ram_load_store_other n k r a b v r' :
  ram_store n r a v = Some r' ->
  b + Z.of_nat k <= a \/ a + Z.of_nat n <= b ->
  ram_load k r' b = ram_load k r b.
Proof.
  unfold ram_store. bool_cases; cbn; try done. intros [= <-] Hd.
  unfold ram_load. cbn. rewrite splice_length by (rewrite le_bytes_length; lia).
  bool_cases; cbn; try done. do 2 f_equal. unfold splice. rewrite le_bytes_length.
  apply list_eq. intros i.
  destruct (decide (i < k)%nat); [|by rewrite !lookup_take_ge by lia].
  rewrite !lookup_take_lt, !lookup_drop by lia.
  destruct Hd.
  - rewrite lookup_app_l by (rewrite length_take; lia).
    by rewrite lookup_take_lt by lia.
  - rewrite lookup_app_r by (rewrite length_take; lia).
    rewrite lookup_app_r by (rewrite length_take, le_bytes_length; lia).
    rewrite lookup_drop, length_take, le_bytes_length. f_equal. lia.
Qed.

(** ** The contract

    [mem_inv] is the implementation's own invariant, [mem_ram] the bytes a
    load can return.  The timing calls never fault, keep both, and leave the
    pipeline's counters alone. *)
Class MemoryLaws (M : Type) `{IMemory M} := {
  mem_inv : M -> Prop;
  mem_ram : M -> ram;
  mem_ram_wf m : mem_inv m -> ram_wf (mem_ram m);
  load_word_ram m a :
    mem_inv m -> is_u32 a -> load_word m a = ram_load 4 (mem_ram m) a;
  load_half_ram m a :
    mem_inv m -> is_u32 a -> load_half m a = ram_load 2 (mem_ram m) a;
  load_byte_ram m a :
    mem_inv m -> is_u32 a -> load_byte m a = ram_load 1 (mem_ram m) a;
  store_word_ram m a v :
    mem_inv m -> is_u32 a -> mem_ram <$> store_word m a v = ram_store 4 (mem_ram m) a v;
  store_half_ram m a v :
    mem_inv m -> is_u32 a -> mem_ram <$> store_half m a v = ram_store 2 (mem_ram m) a v;
  store_byte_ram m a v :
    mem_inv m -> is_u32 a -> is_u8 v ->
    mem_ram <$> store_byte m a v = ram_store 1 (mem_ram m) a v;
  store_inv m a v m' :
    mem_inv m -> is_u32 a ->
    store_word m a v = Some m' \/ store_half m a v = Some m' \/
      (is_u8 v /\ store_byte m a v = Some m') ->
    mem_inv m';
  ready_ok m st a w :
    mem_inv m -> is_u32 a ->
    exists b m' st', ready m st a w = Some (b, m', st') /\
      mem_inv m' /\ mem_ram m' = mem_ram m /\ core_counters st' = core_counters st;
  tick_ok m st :
    mem_inv m ->
    exists m' st', tick m st = Some (m', st') /\
      mem_inv m' /\ mem_ram m' = mem_ram m /\ core_counters st' = core_counters st;
}.

(** ** Serving an access

    The client's loop: ask [ready], then [tick], until served.  The result is
    the number of cycles the access takes, and the state after the serving
    cycle. *)
Fixpoint serve {M} `{IMemory M} (fuel : nat) (m : M) (st : SimStats) (a : Z) (w : bool)
    : option (nat * M * SimStats) :=
  match fuel with
  | O => None
  | S fuel =>
      '(b, m, st) ← ready m st a w;
      '(m, st) ← tick m st;
      if b : bool then Some (1%nat, m, st)
      else '(n, m, st) ← serve fuel m st a w; Some (S n, m, st)
  end.

(** A sequence of accesses, each started when the previous one is served. *)
Fixpoint serve_all {M} `{IMemory M} (fuel : nat) (m : M) (st : SimStats)
    (accesses : list (Z * bool)) : option (nat * M * SimStats) :=
  match accesses with
  | [] => Some (0%nat, m, st)
  | (a, w) :: rest =>
      '(n, m, st) ← serve fuel m st a w;
      '(k, m, st) ← serve_all fuel m st rest;
      Some ((n + k)%nat, m, st)
  end.

(** ** Transparency

    Arbitrary sequences of interface calls: the timing calls are invisible to
    the data path. *)
Inductive mem_op :=
  | OpReady (a : Z) (w : bool)
  | OpTick
  | OpStoreWord (a v : Z)
  | OpStoreHalf (a v : Z)
  | OpStoreByte (a v : Z).

Definition op_wf (o : mem_op) : Prop :=
  match o with
  | OpReady a _ | OpStoreWord a _ | OpStoreHalf a _ => is_u32 a
  | OpStoreByte a v => is_u32 a /\ is_u8 v
  | OpTick => True
  end.

Definition run_op {M} `{IMemory M} (m : M) (st : SimStats) (o : mem_op) : option (M * SimStats) :=
  match o with
  | OpReady a w => '(_, m, st) ← ready m st a w; Some (m, st)
  | OpTick => tick m st
  | OpStoreWord a v => m ← store_word m a v; Some (m, st)
  | OpStoreHalf a v => m ← store_half m a v; Some (m, st)
  | OpStoreByte a v => m ← store_byte m a v; Some (m, st)
  end.

Fixpoint run_ops {M} `{IMemory M} (m : M) (st : SimStats) (os : list mem_op)
    : option (M * SimStats) :=
  match os with
  | [] => Some (m, st)
  | o :: os => '(m, st) ← run_op m st o; run_ops m st os
  end.

Definition ram_op (r : ram) (o : mem_op) : option ram :=
  match o with
  | OpReady _ _ | OpTick => Some r
  | OpStoreWord a v => ram_store 4 r a v
  | OpStoreHalf a v => ram_store 2 r a v
  | OpStoreByte a v => ram_store 1 r a v
  end.

Fixpoint ram_ops (r : ram) (os : list mem_op) : option ram :=
  match os with [] => Some r | o :: os => r ← ram_op r o; ram_ops r os end.

Section Transparency.
Context {M : Type} `{MemoryLaws M}.

Lemma store_ok (m : M) r' (r : option M) (inv : forall m', r = Some m' -> mem_inv m') :
  mem_ram <$> r = Some r' -> exists m', r = Some m' /\ mem_ram m' = r' /\ mem_inv m'.
Proof using Type. destruct r as [m'|]; [|done]. intros [= <-]. exists m'. auto. Qed.

Lemma run_op_ok m st o r' :
  mem_inv m -> op_wf o -> ram_op (mem_ram m) o = Some r' ->
  exists m' st', run_op m st o = Some (m', st') /\ mem_inv m' /\ mem_ram m' = r' /\
    core_counters st' = core_counters st.
Proof using Type.
  intros Hm Ho. destruct o as [a w| |a v|a v|a v]; cbn [ram_op run_op].
  - intros [= <-]. destruct (ready_ok m st a w Hm Ho) as (b & m' & st' & -> & ? & ? & ?).
    cbn. by exists m', st'.
  - intros [= <-]. destruct (tick_ok m st Hm) as (m' & st' & -> & ? & ? & ?). by exists m', st'.
  - rewrite <- store_word_ram by done. intros E.
    destruct (store_ok m r' (store_word m a v)) as (m' & -> & ? & ?); [|done|].
    { intros m' Em. eapply store_inv; [exact Hm|exact Ho|by eauto]. }
    cbn. by exists m', st.
  - rewrite <- store_half_ram by done. intros E.
    destruct (store_ok m r' (store_half m a v)) as (m' & -> & ? & ?); [|done|].
    { intros m' Em. eapply store_inv; [exact Hm|exact Ho|by eauto]. }
    cbn. by exists m', st.
  - destruct Ho as [Ha Hv]. rewrite <- store_byte_ram by done. intros E.
    destruct (store_ok m r' (store_byte m a v)) as (m' & -> & ? & ?); [|done|].
    { intros m' Em. eapply store_inv; [exact Hm|exact Ha|]. right; right. by split. }
    cbn. by exists m', st.
Qed.

Lemma run_ops_ok m st os r' :
  mem_inv m -> Forall op_wf os -> ram_ops (mem_ram m) os = Some r' ->
  exists m' st', run_ops m st os = Some (m', st') /\ mem_inv m' /\ mem_ram m' = r' /\
    core_counters st' = core_counters st.
Proof using Type.
  intros Hm Hos. revert m st Hm. induction Hos as [|o os Ho _ IH]; intros m st Hm; cbn.
  { intros [= <-]. by exists m, st. }
  intros E. inv_bind E. destruct (run_op_ok m st o _ Hm Ho E0) as (m1 & st1 & -> & Hm1 & Hr1 & Hs1).
  cbn. rewrite <- Hr1 in E. destruct (IH m1 st1 Hm1 E) as (m2 & st2 & -> & ? & ? & ?).
  exists m2, st2. split_and!; try done. congruence.
Qed.

Lemma run_op_fault m st o :
  mem_inv m -> op_wf o -> ram_op (mem_ram m) o = None -> run_op m st o = None.
Proof using Type.
  intros Hm Ho. destruct o as [a w| |a v|a v|a v]; cbn [ram_op run_op]; try done.
  - rewrite <- store_word_ram by done. by destruct (store_word m a v).
  - rewrite <- store_half_ram by done. by destruct (store_half m a v).
  - destruct Ho as [Ha Hv]. rewrite <- store_byte_ram by done. by destruct (store_byte m a v).
Qed.

Lemma run_ops_fault m st os :
  mem_inv m -> Forall op_wf os -> ram_ops (mem_ram m) os = None -> run_ops m st os = None.
Proof using Type.
  intros Hm Hos. revert m st Hm. induction Hos as [|o os Ho _ IH]; intros m st Hm; cbn; [done|].
  destruct (ram_op (mem_ram m) o) as [r|] eqn:E.
  - destruct (run_op_ok m st o _ Hm Ho E) as (m1 & st1 & -> & Hm1 & <- & _). by apply IH.
  - intros _. by rewrite (run_op_fault m st o).
Qed.
End Transparency.
