(* ===== verification/FlatMem.v ===== *)
(** * Flat memory

    Models [include/cpusim/memory/flat_mem.h] and [src/memory/flat_mem.cpp]:
    the byte vector that holds all data, and a one-request timer. *)

From S2P Require Import Prelude Config Memory.

Record FlatMem := mkFlatMem {
  fm_base_ : Z;
  fm_mem_ : list Z;
  fm_latency_ : Z;
  fm_serving_ : bool;
  fm_remaining_ : Z;
}.

Definition fm_with_mem (m : FlatMem) (bytes : list Z) : FlatMem :=
  mkFlatMem (fm_base_ m) bytes (fm_latency_ m) (fm_serving_ m) (fm_remaining_ m).

Definition fm_with_timer (m : FlatMem) (serving : bool) (remaining : Z) : FlatMem :=
  mkFlatMem (fm_base_ m) (fm_mem_ m) (fm_latency_ m) serving remaining.

Definition FlatMem_new (base size_bytes latency : Z) : FlatMem :=
  mkFlatMem base (replicate (Z.to_nat size_bytes) 0)
    (if latency =? 0 then 1 else latency) false 0.

(** [size_t FlatMem::offset(uint32_t)]: the assertion checks the first byte
    of the access only. *)
Definition FlatMem_offset (m : FlatMem) (addr : Z) : option Z :=
  _ ← assert_ ((fm_base_ m <=? addr) &&
               (u32 (addr - fm_base_ m) <? Z.of_nat (length (fm_mem_ m))));
  Some (u32 (addr - fm_base_ m)).

Definition FlatMem_load_byte (m : FlatMem) (addr : Z) : option Z :=
  o ← FlatMem_offset m addr;
  vget (fm_mem_ m) o.

Definition FlatMem_load_half (m : FlatMem) (addr : Z) : option Z :=
  o ← FlatMem_offset m addr;
  b0 ← vget (fm_mem_ m) o;
  b1 ← vget (fm_mem_ m) (o + 1);
  Some (u16 (Z.lor b0 (Z.shiftl b1 8))).

Definition FlatMem_load_word (m : FlatMem) (addr : Z) : option Z :=
  o ← FlatMem_offset m addr;
  b0 ← vget (fm_mem_ m) o;
  b1 ← vget (fm_mem_ m) (o + 1);
  b2 ← vget (fm_mem_ m) (o + 2);
  b3 ← vget (fm_mem_ m) (o + 3);
  Some (Z.lor (Z.lor (Z.lor b0 (u32 (Z.shiftl b1 8))) (u32 (Z.shiftl b2 16)))
          (u32 (Z.shiftl b3 24))).

Definition FlatMem_store_byte (m : FlatMem) (addr val : Z) : option FlatMem :=
  o ← FlatMem_offset m addr;
  l ← vset (fm_mem_ m) o val;
  Some (fm_with_mem m l).

Definition FlatMem_store_half (m : FlatMem) (addr val : Z) : option FlatMem :=
  o ← FlatMem_offset m addr;
  l ← vset (fm_mem_ m) o (Z.land val 0xff);
  l ← vset l (o + 1) (Z.land (Z.shiftr val 8) 0xff);
  Some (fm_with_mem m l).

Definition FlatMem_store_word (m : FlatMem) (addr val : Z) : option FlatMem :=
  o ← FlatMem_offset m addr;
  l ← vset (fm_mem_ m) o (Z.land val 0xff);
  l ← vset l (o + 1) (Z.land (Z.shiftr val 8) 0xff);
  l ← vset l (o + 2) (Z.land (Z.shiftr val 16) 0xff);
  l ← vset l (o + 3) (Z.land (Z.shiftr val 24) 0xff);
  Some (fm_with_mem m l).

Definition FlatMem_ready (m : FlatMem) (addr : Z) (is_write : bool) : bool * FlatMem :=
  let m := if negb (fm_serving_ m)
           then fm_with_timer m true (s32 (fm_latency_ m) - 1)
           else m in
  (fm_remaining_ m =? 0, m).

Definition FlatMem_tick (m : FlatMem) : FlatMem :=
  if negb (fm_serving_ m) then m
  else if 0 <? fm_remaining_ m
  then fm_with_timer m (fm_serving_ m) (fm_remaining_ m - 1)
  else fm_with_timer m false (fm_remaining_ m).

Definition FlatMem_write_bytes (m : FlatMem) (addr : Z) (data : list Z) : option FlatMem :=
  o ← FlatMem_offset m addr;
  _ ← assert_ (o + Z.of_nat (length data) <=? Z.of_nat (length (fm_mem_ m)));
  Some (fm_with_mem m (take (Z.to_nat o) (fm_mem_ m) ++ data
          ++ drop (Z.to_nat o + length data) (fm_mem_ m))).

#[export] Instance FlatMem_IMemory : IMemory FlatMem := {
  load_word := FlatMem_load_word;
  load_half := FlatMem_load_half;
  load_byte := FlatMem_load_byte;
  store_word := FlatMem_store_word;
  store_half := FlatMem_store_half;
  store_byte := FlatMem_store_byte;
  ready m st a w := let '(b, m) := FlatMem_ready m a w in Some (b, m, st);
  tick m st := Some (FlatMem_tick m, st);
}.

(** ** Data path *)

Definition FlatMem_ram (m : FlatMem) : ram := mkRam (fm_base_ m) (fm_mem_ m).

(** The timer counts down from the latency, which fits in an [int]. *)
Record FlatMem_inv (m : FlatMem) : Prop := mkFlatMem_inv {
  fm_ram_wf : ram_wf (FlatMem_ram m);
  fm_latency_range : 1 <= fm_latency_ m < 2 ^ 31;
  fm_timer_range : fm_serving_ m = true -> 0 <= fm_remaining_ m < fm_latency_ m;
}.

(** The offset check, in terms of the byte range. *)
Lemma FlatMem_offset_spec m a :
  FlatMem_inv m -> is_u32 a ->
  FlatMem_offset m a =
    if (0 <=? a - fm_base_ m) && (a - fm_base_ m <? Z.of_nat (length (fm_mem_ m)))
    then Some (a - fm_base_ m) else None.
Proof.
  intros [[Hb _] _ _] Ha. cbn in Hb. unfold FlatMem_offset, assert_.
  destruct (Z.leb_spec (fm_base_ m) a) as [Hle|Hlt]; cbn.
  - rewrite u32_id by (unfold is_u32 in *; lia). destruct (Z.leb_spec 0 (a - fm_base_ m)); [|lia].
    by destruct (_ <? _).
  - by destruct (Z.leb_spec 0 (a - fm_base_ m)); [lia|].
Qed.

(** Split a window of bytes into its elements, with their lookups. *)
Ltac open_window H l :=
  repeat match goal with
  | |- context [take (S ?n) (drop (Z.to_nat ?p) l)] =>
      let b := fresh "b" in let E := fresh "E" in let W := fresh "W" in
      destruct (window_cons l p n ltac:(lia) ltac:(lia)) as (b & E & W);
      rewrite W; clear W; pose proof (vget_Forall _ _ _ _ H E)
  end;
  rewrite take_0; cbn [le_value].

Lemma shiftl_u8 b n :
  is_u8 b -> 0 <= n <= 24 -> u32 (Z.shiftl b n) = Z.shiftl b n.
Proof.
  intros Hb Hn. rewrite Z.shiftl_mul_pow2 by lia. apply u32_id. unfold is_u8 in Hb.
  assert (2 ^ n <= 2 ^ 24) by (apply Z.pow_le_mono_r; lia).
  assert (0 < 2 ^ n) by (apply Z.pow_pos_nonneg; lia). nia.
Qed.

Section DataPath.
Context (m : FlatMem) (a : Z) (Hinv : FlatMem_inv m) (Ha : is_u32 a).

Lemma FlatMem_bytes_u8 : Forall is_u8 (fm_mem_ m).
Proof using Hinv. apply (fm_ram_wf _ Hinv). Qed.

(** Both sides fail together, or read the same window. *)
Ltac load_cases :=
  unfold ram_load; rewrite FlatMem_offset_spec by done;
  cbn [FlatMem_ram ram_base ram_bytes];
  generalize FlatMem_bytes_u8; generalize (fm_mem_ m) (a - fm_base_ m);
  intros l o Hl; bool_cases; cbn [andb mbind option_bind]; try (done || lia).

Lemma FlatMem_load_byte_ram : FlatMem_load_byte m a = ram_load 1 (FlatMem_ram m) a.
Proof using All.
  unfold FlatMem_load_byte. load_cases.
  open_window Hl l. rewrite E. f_equal. lia.
Qed.

Lemma FlatMem_load_half_ram : FlatMem_load_half m a = ram_load 2 (FlatMem_ram m) a.
Proof using All.
  unfold FlatMem_load_half. load_cases.
  - open_window Hl l. rewrite E, E0. cbn. unfold is_u8 in *.
    rewrite lor_shiftl_add by lia. unfold u16. rewrite Z.mod_small by lia.
    f_equal. lia.
  - rewrite (vget_None l (o + 1)) by lia. by destruct (vget l o).
Qed.

Lemma FlatMem_load_word_ram : FlatMem_load_word m a = ram_load 4 (FlatMem_ram m) a.
Proof using All.
  unfold FlatMem_load_word. load_cases.
  - open_window Hl l. replace (o + 1 + 1) with (o + 2) in * by lia.
    replace (o + 2 + 1) with (o + 3) in * by lia. rewrite E, E0, E1, E2. cbn.
    rewrite !shiftl_u8 by (done || lia). unfold is_u8 in *.
    rewrite (lor_shiftl_add b b0 8), (lor_shiftl_add _ b1 16),
      (lor_shiftl_add _ b2 24) by lia. f_equal. lia.
  - rewrite (vget_None l (o + 3)) by lia.
    by destruct (vget l o), (vget l (o + 1)), (vget l (o + 2)).
Qed.

(** The three stores, as one write of a little-endian byte sequence. *)
Definition store_bytes (n : nat) (v : Z) : option FlatMem :=
  o ← FlatMem_offset m a;
  l ← vset_all (fm_mem_ m) o (le_bytes n v);
  Some (fm_with_mem m l).

Lemma store_bytes_ram n v :
  (0 < n)%nat -> FlatMem_ram <$> store_bytes n v = ram_store n (FlatMem_ram m) a v.
Proof using All.
  intros Hn. unfold store_bytes, ram_store. rewrite FlatMem_offset_spec by done.
  cbn [FlatMem_ram ram_base ram_bytes].
  pose proof (le_bytes_length n v) as Hlen.
  generalize (a - fm_base_ m). intros o.
  bool_cases; cbn [andb mbind option_bind]; try (done || lia).
  - by rewrite vset_all_Some by (rewrite ?Hlen; lia).
  - assert (le_bytes n v <> []) by (intros E; rewrite E in Hlen; cbn in Hlen; lia).
    by rewrite vset_all_None by (done || rewrite ?Hlen; lia).
Qed.

Lemma FlatMem_store_byte_bytes v :
  is_u8 v -> FlatMem_store_byte m a v = store_bytes 1 v.
Proof using Type.
  intros Hv. unfold FlatMem_store_byte, store_bytes.
  destruct (FlatMem_offset m a) as [o|]; [cbn|done].
  rewrite (Z.mod_small v) by exact Hv. by destruct (vset _ _ _).
Qed.

Lemma FlatMem_store_half_bytes v : FlatMem_store_half m a v = store_bytes 2 v.
Proof using Type.
  unfold FlatMem_store_half, store_bytes.
  destruct (FlatMem_offset m a) as [o|]; [cbn [mbind option_bind le_bytes]|done].
  rewrite !(land_mask _ 8 0xff), !Z.shiftr_div_pow2 by (lia || reflexivity).
  cbn [vset_all]. destruct (vset _ o _) as [l|]; [cbn|done].
  by destruct (vset _ _ _).
Qed.

Lemma FlatMem_store_word_bytes v : FlatMem_store_word m a v = store_bytes 4 v.
Proof using Type.
  unfold FlatMem_store_word, store_bytes.
  destruct (FlatMem_offset m a) as [o|]; [cbn [mbind option_bind le_bytes]|done].
  rewrite !(land_mask _ 8 0xff), !Z.shiftr_div_pow2, !Z.div_div by (lia || reflexivity).
  cbn [vset_all]. replace (o + 1 + 1) with (o + 2) by lia.
  replace (o + 2 + 1) with (o + 3) by lia.
  destruct (vset _ o _) as [l|]; [cbn|done].
  destruct (vset _ (o + 1) _) as [l'|]; [cbn|done].
  destruct (vset _ (o + 2) _) as [l''|]; [cbn|done].
  by destruct (vset _ _ _).
Qed.

Lemma store_bytes_inv n v m' :
  (0 < n)%nat -> store_bytes n v = Some m' -> FlatMem_inv m'.
Proof using All.
  intros Hn E. pose proof (store_bytes_ram n v Hn) as Er. rewrite E in Er.
  unfold store_bytes in E. inv_binds. destruct Hinv as [Hw Hl Ht].
  split; [|done|done]. eapply ram_store_wf; [exact Hw | symmetry; exact Er].
Qed.
End DataPath.

(** The timing calls touch only the timer. *)
Lemma FlatMem_ready_inv m a w :
  FlatMem_inv m ->
  FlatMem_inv (FlatMem_ready m a w).2 /\ FlatMem_ram (FlatMem_ready m a w).2 = FlatMem_ram m.
Proof.
  intros [Hw Hl Ht]. unfold FlatMem_ready. destruct (fm_serving_ m) eqn:Es; cbn.
  { split; [by split; rewrite ?Es|done]. }
  split; [|done]. split; cbn; [done|done|]. intros _. rewrite s32_id by lia. lia.
Qed.

Lemma FlatMem_tick_inv m :
  FlatMem_inv m ->
  FlatMem_inv (FlatMem_tick m) /\ FlatMem_ram (FlatMem_tick m) = FlatMem_ram m.
Proof.
  intros [Hw Hl Ht]. unfold FlatMem_tick. destruct (fm_serving_ m) eqn:Es; cbn.
  2:{ split; [by split; rewrite ?Es|done]. }
  specialize (Ht eq_refl).
  destruct (Z.ltb_spec 0 (fm_remaining_ m)); cbn; (split; [split; cbn|done]); (done || lia).
Qed.

#[export, refine] Instance FlatMem_laws : MemoryLaws FlatMem := {
  mem_inv := FlatMem_inv;
  mem_ram := FlatMem_ram;
  mem_ram_wf := fm_ram_wf;
  load_word_ram := FlatMem_load_word_ram;
  load_half_ram := FlatMem_load_half_ram;
  load_byte_ram := FlatMem_load_byte_ram;
  store_word_ram := _;
  store_half_ram := _;
  store_byte_ram := _;
  store_inv := _;
  ready_ok := _;
  tick_ok := _;
}.
Proof.
  - intros m a v Hm Ha. cbn [store_word FlatMem_IMemory].
    rewrite FlatMem_store_word_bytes. apply store_bytes_ram; (done || lia).
  - intros m a v Hm Ha. cbn [store_half FlatMem_IMemory].
    rewrite FlatMem_store_half_bytes. apply store_bytes_ram; (done || lia).
  - intros m a v Hm Ha Hv. cbn [store_byte FlatMem_IMemory].
    rewrite FlatMem_store_byte_bytes by done. apply store_bytes_ram; (done || lia).
  - intros m a v m' Hm Ha.
    cbn [store_word store_half store_byte FlatMem_IMemory].
    rewrite FlatMem_store_word_bytes, FlatMem_store_half_bytes.
    intros [E|[E|[Hv E]]]; [| |rewrite FlatMem_store_byte_bytes in E by done];
      (eapply (store_bytes_inv m a Hm Ha); [|exact E]; lia).
  - intros m st a w Hm _. destruct (FlatMem_ready_inv m a w Hm).
    exists (FlatMem_ready m a w).1, (FlatMem_ready m a w).2, st.
    cbn [ready FlatMem_IMemory]. by rewrite (surjective_pairing (FlatMem_ready m a w)).
  - intros m st Hm. destruct (FlatMem_tick_inv m Hm). by exists (FlatMem_tick m), st.
Defined.

(** ** Timing *)

(** One round of the protocol on a started request. *)
Lemma FlatMem_round m a w (n : nat) :
  fm_serving_ m = true -> fm_remaining_ m = Z.of_nat n ->
  FlatMem_ready m a w = (Nat.eqb n 0, m) /\
  FlatMem_tick m = match n with
                   | O => fm_with_timer m false 0
                   | S k => fm_with_timer m true (Z.of_nat k)
                   end.
Proof.
  intros Hs Hr. unfold FlatMem_ready, FlatMem_tick. rewrite Hs. cbn [negb]. rewrite Hr.
  destruct n as [|k]; (split; [done|]); [done|].
  replace (Z.of_nat (S k) - 1) with (Z.of_nat k) by lia. done.
Qed.

Lemma FlatMem_serve_waiting m st a w (n : nat) :
  fm_serving_ m = true -> fm_remaining_ m = Z.of_nat n ->
  forall fuel, (n < fuel)%nat ->
  serve fuel m st a w = Some (S n, fm_with_timer m false 0, st).
Proof.
  revert m. induction n as [|n IH]; intros m Hs Hr [|fuel] Hf; try lia;
    destruct (FlatMem_round m a w _ Hs Hr) as [Er Et];
    cbn [serve ready tick FlatMem_IMemory]; rewrite Er; cbn [mbind option_bind];
    rewrite Et; [done|].
  cbn [Nat.eqb]. by rewrite IH by (done || lia).
Qed.

(** An idle flat memory serves any access in exactly [latency] cycles of
    the ready/tick protocol and is idle again afterwards, its bytes and the
    statistics untouched. *)
Lemma FlatMem_latency m st a w fuel :
  FlatMem_inv m -> fm_serving_ m = false -> (Z.to_nat (fm_latency_ m) <= fuel)%nat ->
  serve fuel m st a w =
    Some (Z.to_nat (fm_latency_ m), fm_with_timer m false 0, st).
Proof.
  intros [_ Hl _] Hs Hf.
  set (m1 := fm_with_timer m true (fm_latency_ m - 1)).
  assert (E : serve fuel m st a w = serve fuel m1 st a w).
  { destruct fuel; [done|]. cbn [serve ready FlatMem_IMemory]. unfold FlatMem_ready.
    rewrite Hs. cbn [negb]. by rewrite s32_id by lia. }
  rewrite E, (FlatMem_serve_waiting m1 st a w (Z.to_nat (fm_latency_ m - 1)));
    [|done|cbn; lia|lia].
  replace (S (Z.to_nat (fm_latency_ m - 1))) with (Z.to_nat (fm_latency_ m)) by lia. done.
Qed.
