(* ===== verification/TreePlru.v ===== *)
(** * Replacement policies

    Models [include/cpusim/memory/eviction_policy.h] (as a typeclass),
    [include/cpusim/memory/tree_plru.h] and [src/memory/tree_plru.cpp].  The
    bit vector of a set is refined by a binary tree ([ptree]) on which the
    policy's behaviour is stated. *)

From S2P Require Import Prelude.

(** ** eviction_policy.h *)

Class EvictionPolicy (P : Type) := {
  victim : P -> Z -> option Z;
  touch : P -> Z -> Z -> option P;
}.

(** What the cache relies on: on [sets] sets of [ways] ways the calls succeed,
    the victim is a way, and a set's victim is unaffected by the others. *)
Class EvictionLaws (P : Type) `{EvictionPolicy P} := {
  policy_inv : Z -> Z -> P -> Prop;
  victim_ok sets ways p s :
    policy_inv sets ways p -> 0 <= s < sets ->
    exists w, victim p s = Some w /\ 0 <= w < ways;
  touch_ok sets ways p s w :
    policy_inv sets ways p -> 0 <= s < sets -> 0 <= w < ways ->
    exists p', touch p s w = Some p' /\ policy_inv sets ways p';
  touch_victim_other sets ways p s s' w p' :
    policy_inv sets ways p -> 0 <= s < sets -> 0 <= s' < sets -> 0 <= w < ways -> s <> s' ->
    touch p s w = Some p' -> victim p' s' = victim p s';
  touch_victim_ne sets ways p s w p' :
    policy_inv sets ways p -> 0 <= s < sets -> 0 <= w < ways -> 1 < ways ->
    touch p s w = Some p' -> victim p' s <> Some w;
}.

(** ** tree_plru.cpp *)

Record TreePlru := mkTreePlru { plru_ways_ : Z; plru_bits_ : list Z }.

Definition TreePlru_new (sets ways : Z) : option TreePlru :=
  _ ← assert_ (pow2_check ways);
  Some (mkTreePlru ways (replicate (Z.to_nat (sets * ways)) 0)).

(** The loops run at most 32 times: the 32-bit index doubles (or halves) at
    each iteration. *)
Definition plru_fuel : nat := 33.

(** [while (i < ways_) i = 2 * i + bits_[base + i];] *)
Fixpoint victim_loop (fuel : nat) (ways : Z) (bits : list Z) (base i : Z) : option Z :=
  match fuel with
  | O => None
  | S fuel =>
      if i <? ways
      then b ← vget bits (base + i); victim_loop fuel ways bits base (u32 (2 * i + b))
      else Some i
  end.

Definition TreePlru_victim (p : TreePlru) (set : Z) : option Z :=
  let base := set * plru_ways_ p in
  i ← victim_loop plru_fuel (plru_ways_ p) (plru_bits_ p) base 1;
  Some (i - plru_ways_ p).

(** [while (i > 1) { parent = i / 2; bits_[base + parent] = ...; i = parent; }] *)
Fixpoint touch_loop (fuel : nat) (base : Z) (bits : list Z) (i : Z) : option (list Z) :=
  match fuel with
  | O => None
  | S fuel =>
      if 1 <? i then
        let parent := i / 2 in
        bits ← vset bits (base + parent) (if i =? 2 * parent then 1 else 0);
        touch_loop fuel base bits parent
      else Some bits
  end.

Definition TreePlru_touch (p : TreePlru) (set way : Z) : option TreePlru :=
  let base := set * plru_ways_ p in
  bits ← touch_loop plru_fuel base (plru_bits_ p) (u32 (way + plru_ways_ p));
  Some (mkTreePlru (plru_ways_ p) bits).

#[export] Instance TreePlru_EvictionPolicy : EvictionPolicy TreePlru := {
  victim := TreePlru_victim;
  touch := TreePlru_touch;
}.

(** ** The policy on trees *)

Inductive ptree := PLeaf | PNode (b : bool) (l r : ptree).

Fixpoint height (t : ptree) : nat :=
  match t with PLeaf => 0%nat | PNode _ l _ => S (height l) end.

Fixpoint perfect (d : nat) (t : ptree) : Prop :=
  match d, t with
  | O, PLeaf => True
  | S d, PNode _ l r => perfect d l /\ perfect d r
  | _, _ => False
  end.

(** Follow the bits from the root. *)
Fixpoint tree_victim (t : ptree) : Z :=
  match t with
  | PLeaf => 0
  | PNode b l r => if b then 2 ^ Z.of_nat (height l) + tree_victim r else tree_victim l
  end.

(** Point every node of the path away from leaf [w]. *)
Fixpoint tree_touch (t : ptree) (w : Z) : ptree :=
  match t with
  | PLeaf => PLeaf
  | PNode b l r =>
      let h := 2 ^ Z.of_nat (height l) in
      if w <? h then PNode true (tree_touch l w) r
      else PNode false l (tree_touch r (w - h))
  end.

Lemma perfect_height d t : perfect d t -> height t = d.
Proof.
  revert t; induction d as [|d IH]; intros [|b l r]; cbn; try done.
  intros [Hl _]. by rewrite (IH l).
Qed.

Lemma tree_victim_range d t : perfect d t -> 0 <= tree_victim t < 2 ^ Z.of_nat d.
Proof.
  revert t; induction d as [|d IH]; intros [|b l r] Ht; try done.
  destruct Ht as [Hl Hr]. cbn [tree_victim]. rewrite (perfect_height d l) by done.
  rewrite Nat2Z.inj_succ, Z.pow_succ_r by lia.
  pose proof (IH l Hl). pose proof (IH r Hr). destruct b; lia.
Qed.

Lemma tree_touch_perfect d t w : perfect d t -> perfect d (tree_touch t w).
Proof.
  revert t w; induction d as [|d IH]; intros [|b l r] w Ht; try done.
  destruct Ht as [Hl Hr]. cbn. destruct (w <? _); cbn; auto.
Qed.

Lemma tree_touch_victim_ne d t w :
  perfect (S d) t -> 0 <= w < 2 ^ Z.of_nat (S d) -> tree_victim (tree_touch t w) <> w.
Proof.
  intros Ht Hw. destruct t as [|b l r]; [done|]. destruct Ht as [Hl Hr]. cbn [tree_touch].
  rewrite (perfect_height d l) by done. destruct (Z.ltb_spec w (2 ^ Z.of_nat d)); cbn [tree_victim].
  - pose proof (tree_victim_range d r Hr). rewrite (perfect_height d) by by apply tree_touch_perfect.
    lia.
  - pose proof (tree_victim_range d l Hl). lia.
Qed.

(** *** Successive evictions *)

Definition tree_evict (t : ptree) : ptree := tree_touch t (tree_victim t).

Fixpoint tree_evictions (n : nat) (t : ptree) : list Z :=
  match n with O => [] | S n => tree_victim t :: tree_evictions n (tree_evict t) end.

(** An eviction alternates between the two subtrees. *)
Lemma tree_evict_node d b l r :
  perfect d l -> perfect d r ->
  tree_evict (PNode b l r) =
    if b then PNode false l (tree_evict r) else PNode true (tree_evict l) r.
Proof.
  intros Hl Hr. unfold tree_evict. cbn [tree_victim tree_touch].
  rewrite (perfect_height d l) by done.
  pose proof (tree_victim_range d l Hl). pose proof (tree_victim_range d r Hr).
  destruct b.
  - destruct (Z.ltb_spec (2 ^ Z.of_nat d + tree_victim r) (2 ^ Z.of_nat d)); [lia|].
    do 2 f_equal. lia.
  - by destruct (Z.ltb_spec (tree_victim l) (2 ^ Z.of_nat d)); [|lia].
Qed.

Lemma tree_evict_perfect d t : perfect d t -> perfect d (tree_evict t).
Proof. apply tree_touch_perfect. Qed.

Lemma tree_evictions_double n d b l r :
  perfect d l -> perfect d r ->
  tree_evictions (n + n) (PNode b l r) ≡ₚ
    tree_evictions n l ++ ((fun w => 2 ^ Z.of_nat d + w) <$> tree_evictions n r).
Proof.
  revert l r. induction n as [|n IH]; intros l r Hl Hr; [done|].
  replace (S n + S n)%nat with (S (S (n + n))) by lia. cbn [tree_evictions].
  rewrite (tree_evict_node d) by done.
  destruct b; cbn [tree_victim]; rewrite (tree_evict_node d) by auto using tree_evict_perfect;
    rewrite IH by auto using tree_evict_perfect; rewrite fmap_cons.
  - rewrite (perfect_height d l) by done. cbn. rewrite <- Permutation_middle.
    apply Permutation_swap.
  - rewrite (perfect_height d) by by apply tree_evict_perfect. cbn.
    by rewrite <- Permutation_middle.
Qed.

(** As many evictions as leaves visit every leaf once. *)
Lemma tree_evictions_cycle d t :
  perfect d t -> tree_evictions (2 ^ d) t ≡ₚ seqZ 0 (2 ^ Z.of_nat d).
Proof.
  revert t; induction d as [|d IH]; intros [|b l r] Ht; try done.
  destruct Ht as [Hl Hr].
  replace (2 ^ S d)%nat with (2 ^ d + 2 ^ d)%nat by (cbn; lia).
  rewrite (tree_evictions_double _ d) by done. rewrite (IH l), (IH r) by done.
  rewrite Nat2Z.inj_succ, Z.pow_succ_r by lia.
  replace (2 * 2 ^ Z.of_nat d) with (2 ^ Z.of_nat d + 2 ^ Z.of_nat d) by lia.
  rewrite seqZ_app by lia. f_equiv. rewrite fmap_add_seqZ.
  by rewrite Z.add_0_l, Z.add_0_r.
Qed.

(** ** The bit vector as a tree *)

Definition plru_bit (bits : list Z) (j : Z) : bool :=
  match vget bits j with Some b => negb (b =? 0) | None => false end.

(** The subtree of depth [d] at node [n] of the 1-based heap starting at
    [base]: node [n] has children [2n] and [2n+1]. *)
Fixpoint heap_tree (bits : list Z) (base : Z) (d : nat) (n : Z) : ptree :=
  match d with
  | O => PLeaf
  | S d => PNode (plru_bit bits (base + n))
             (heap_tree bits base d (2 * n)) (heap_tree bits base d (2 * n + 1))
  end.

Definition is_bit (b : Z) : Prop := b = 0 \/ b = 1.

Lemma heap_tree_perfect bits base d n : perfect d (heap_tree bits base d n).
Proof. revert n; induction d; intros n; cbn; auto. Qed.

Lemma heap_tree_height bits base d n : height (heap_tree bits base d n) = d.
Proof. apply perfect_height, heap_tree_perfect. Qed.

Lemma pow2_S d : 2 ^ Z.of_nat (S d) = 2 * 2 ^ Z.of_nat d.
Proof. rewrite Nat2Z.inj_succ, Z.pow_succ_r; lia. Qed.

Lemma pow2_pos d : 0 < 2 ^ Z.of_nat d.
Proof. apply Z.pow_pos_nonneg; lia. Qed.

(** The descent from node [n] of height [d] stops at the leaf of its subtree
    that [tree_victim] designates. *)
Lemma victim_loop_spec bits base ways d n fuel :
  Forall is_bit bits -> 0 <= base -> base + ways <= Z.of_nat (length bits) ->
  0 < ways <= 2 ^ 31 -> ways <= n * 2 ^ Z.of_nat d ->
  (n + 1) * 2 ^ Z.of_nat d <= 2 * ways -> 1 <= n -> (d < fuel)%nat ->
  victim_loop fuel ways bits base n =
    Some (n * 2 ^ Z.of_nat d + tree_victim (heap_tree bits base d n)).
Proof.
  intros Hb H0 Hlen Hw. revert n fuel.
  induction d as [|d IH]; intros n [|fuel] Hlo Hhi Hn Hf; try lia; cbn [victim_loop heap_tree].
  { destruct (Z.ltb_spec n ways); [lia|]. cbn. f_equal. lia. }
  rewrite pow2_S in *. pose proof (pow2_pos d).
  destruct (Z.ltb_spec n ways); [|nia].
  destruct (vget_is_Some bits (base + n) ltac:(lia)) as [b Eb]. rewrite Eb. cbn [mbind option_bind].
  assert (Hbit : is_bit b) by (by eapply vget_Forall).
  cbn [tree_victim]. unfold plru_bit. rewrite Eb, heap_tree_height.
  rewrite u32_id by (destruct Hbit; lia).
  destruct Hbit as [->| ->]; rewrite IH by nia; cbn [Z.eqb negb]; f_equal.
  - rewrite Z.add_0_r. lia.
  - lia.
Qed.

(** [x] lies in the subtree of depth [d] at [n], leaves excluded. *)
Definition inner (d : nat) (n x : Z) : Prop :=
  exists e, (e < d)%nat /\ x / 2 ^ Z.of_nat e = n.

Lemma inner_self d n : inner (S d) n n.
Proof. exists 0%nat. split; [lia|]. apply Z.div_1_r. Qed.

Lemma div_pow2_S x e : x / 2 ^ Z.of_nat (S e) = x / 2 ^ Z.of_nat e / 2.
Proof. pose proof (pow2_pos e). rewrite pow2_S, Z.mul_comm, Z.div_div by lia. done. Qed.

Lemma inner_child d n c x : c / 2 = n -> inner d c x -> inner (S d) n x.
Proof.
  intros Hc (e & He & Hx). exists (S e). split; [lia|]. by rewrite div_pow2_S, Hx.
Qed.

Lemma inner_ge d n x : 1 <= n -> inner d n x -> n <= x.
Proof.
  intros Hn (e & _ & <-). apply Z.div_le_upper_bound; [apply pow2_pos|].
  pose proof (pow2_pos e).
  destruct (Z.leb_spec 0 x); [nia|].
  assert (x / 2 ^ Z.of_nat e < 0) by (apply Z.div_lt_upper_bound; lia). lia.
Qed.

(** Distinct nodes of one level have disjoint subtrees. *)
Lemma inner_disjoint d n m x :
  1 <= n -> 1 <= m -> n <> m -> n < 2 * m -> m < 2 * n -> inner d n x -> inner d m x -> False.
Proof.
  intros Hn Hm Hne H1 H2 (e & _ & He) (f & _ & Hf).
  assert (Hlt : forall p q a b, x / 2 ^ Z.of_nat p = a -> x / 2 ^ Z.of_nat q = b ->
    (p < q)%nat -> 1 <= a -> b <= a / 2).
  { intros p q a b <- <- Hpq Ha. replace q with (p + S (q - p - 1))%nat by lia.
    generalize (q - p - 1)%nat as k. intros k.
    rewrite Nat2Z.inj_add, Z.pow_add_r, <- Z.div_div by (pose proof (pow2_pos p); lia).
    rewrite div_pow2_S. apply Z.div_le_mono; [lia|].
    apply Z.div_le_upper_bound; [apply pow2_pos|]. pose proof (pow2_pos k). nia. }
  destruct (Nat.lt_trichotomy e f) as [L|[->|L]].
  - pose proof (Hlt _ _ _ _ He Hf L Hn). zdm.
  - lia.
  - pose proof (Hlt _ _ _ _ Hf He L Hm). zdm.
Qed.

(** A subtree depends on its inner nodes only. *)
Lemma heap_tree_ext bits bits' base d n :
  (forall x, inner d n x -> vget bits' (base + x) = vget bits (base + x)) ->
  heap_tree bits' base d n = heap_tree bits base d n.
Proof.
  revert n. induction d as [|d IH]; intros n Hx; [done|]. cbn [heap_tree].
  rewrite !IH.
  - unfold plru_bit. by rewrite Hx by apply inner_self.
  - intros x Hi. apply Hx. eapply inner_child; [|done]. zdm.
  - intros x Hi. apply Hx. eapply inner_child; [|done]. zdm.
Qed.


(** *** The update of a path *)

Definition ancestor (i x : Z) : Prop := 1 <= x /\ exists e : nat, x = i / 2 ^ Z.of_nat (S e).

Lemma ancestor_le i x : ancestor i x -> 2 * x <= i.
Proof.
  intros (H & e & ->). pose proof (pow2_pos e). rewrite div_pow2_S in *.
  assert (i / 2 ^ Z.of_nat e <= i).
  { apply Z.div_le_upper_bound; [done|]. destruct (Z.leb_spec 0 i); [nia|].
    assert (i / 2 ^ Z.of_nat e < 0) by (apply Z.div_lt_upper_bound; lia). zdm. }
  zdm.
Qed.

Lemma ancestor_half i x : ancestor (i / 2) x -> ancestor i x.
Proof.
  intros (H & e & ->). split; [done|]. exists (S e).
  rewrite !div_pow2_S, !Z.div_div by (pose proof (pow2_pos e); lia). f_equal. lia.
Qed.

(** The value the loop leaves at the [S e]-th ancestor of the leaf. *)
Definition away (i : Z) (e : nat) : Z :=
  if i / 2 ^ Z.of_nat e =? 2 * (i / 2 ^ Z.of_nat (S e)) then 1 else 0.

Lemma away_half i e : away (i / 2) e = away i (S e).
Proof.
  unfold away. rewrite !div_pow2_S, !Z.div_div by (pose proof (pow2_pos e); lia).
  by rewrite (Z.mul_comm 2 (2 ^ Z.of_nat e)).
Qed.

Lemma is_bit_if (b : bool) : is_bit (if b then 1 else 0).
Proof. destruct b; [by right|by left]. Qed.

Lemma touch_loop_spec fuel base bits i :
  Forall is_bit bits -> 0 <= base -> 1 <= i < 2 ^ Z.of_nat fuel ->
  2 * base + i < 2 * Z.of_nat (length bits) ->
  exists bits', touch_loop fuel base bits i = Some bits' /\
    length bits' = length bits /\ Forall is_bit bits' /\
    (forall e, 1 <= i / 2 ^ Z.of_nat (S e) ->
       vget bits' (base + i / 2 ^ Z.of_nat (S e)) = Some (away i e)) /\
    (forall z, (forall x, ancestor i x -> z <> base + x) -> vget bits' z = vget bits z).
Proof.
  intros Hbits H0. revert bits i Hbits. induction fuel as [|fuel IH]; intros bits i Hbits Hi Hlen;
    [cbn in *; lia|].
  rewrite pow2_S in Hi. cbn [touch_loop]. destruct (Z.ltb_spec 1 i) as [H1|H1].
  2:{ exists bits. split_and!; try done. intros e He. exfalso.
      assert (i = 1) as -> by lia. rewrite div_pow2_S in He. pose proof (pow2_pos e).
      assert (1 / 2 ^ Z.of_nat e <= 1) by (apply Z.div_le_upper_bound; lia). zdm. }
  set (v := if i =? 2 * (i / 2) then 1 else 0).
  assert (Hp : 1 <= i / 2 /\ 2 * (i / 2) <= i) by zdm.
  destruct (vset_is_Some bits (base + i / 2) v ltac:(lia)) as [bits1 E1]. rewrite E1.
  cbn [mbind option_bind].
  pose proof (vset_length _ _ _ _ E1) as Hl1.
  destruct (IH bits1 (i / 2)) as (bits' & -> & Hl & Hb & Hanc & Hframe).
  { eapply vset_Forall; [exact Hbits| |exact E1]. apply is_bit_if. }
  { zdm. }
  { rewrite Hl1. lia. }
  exists bits'. split_and!; try done; [congruence| |].
  - intros [|e] He.
    + rewrite Hframe.
      * change (2 ^ Z.of_nat 1) with 2. rewrite (vget_vset_eq _ _ _ _ E1). unfold v, away.
        by rewrite Z.div_1_r.
      * intros x Hx. apply ancestor_le in Hx. change (2 ^ Z.of_nat 1) with 2. lia.
    + specialize (Hanc e). rewrite away_half in Hanc.
      replace (i / 2 / 2 ^ Z.of_nat (S e)) with (i / 2 ^ Z.of_nat (S (S e))) in Hanc; [by apply Hanc|].
      rewrite (pow2_S (S e)), Z.div_div by (pose proof (pow2_pos (S e)); lia). done.
  - intros z Hz. rewrite Hframe.
    + apply (vget_vset_ne _ _ _ _ _ E1). apply not_eq_sym, Hz. split; [lia|]. exists 0%nat. done.
    + intros x Hx. apply Hz. by apply ancestor_half.
Qed.

Lemma inner_mono d d' n x : (d <= d')%nat -> inner d n x -> inner d' n x.
Proof. intros Hd (e & He & Hx). exists e. split; [lia|done]. Qed.

(** The path of leaf [i] misses the sibling of each of its nodes. *)
Lemma inner_ancestor d n m i x :
  1 <= n -> 1 <= m -> n <> m -> n < 2 * m -> m < 2 * n ->
  i / 2 ^ Z.of_nat d = m -> inner d n x -> ancestor i x -> False.
Proof.
  intros Hn Hm Hne H1 H2 Hi (e & He & Hx) (_ & f & Hf).
  apply (inner_disjoint (S (S f + e + d)) n m i); try done.
  - exists (S f + e)%nat. split; [lia|].
    rewrite Nat2Z.inj_add, Z.pow_add_r, <- Z.div_div
      by (pose proof (pow2_pos (S f)); pose proof (pow2_pos e); lia).
    by rewrite <- Hf.
  - exists d. split; [lia|done].
Qed.

(** The loop performs [tree_touch] on the subtree containing the leaf. *)
Lemma heap_tree_touch bits bits' base i d m :
  (forall e, 1 <= i / 2 ^ Z.of_nat (S e) ->
     vget bits' (base + i / 2 ^ Z.of_nat (S e)) = Some (away i e)) ->
  (forall z, (forall x, ancestor i x -> z <> base + x) -> vget bits' z = vget bits z) ->
  1 <= m -> i / 2 ^ Z.of_nat d = m ->
  heap_tree bits' base d m = tree_touch (heap_tree bits base d m) (i - m * 2 ^ Z.of_nat d).
Proof.
  intros Hanc Hframe. revert m. induction d as [|d IH]; intros m Hm Hi; [done|].
  cbn [heap_tree tree_touch]. rewrite heap_tree_height.
  assert (Hroot : plru_bit bits' (base + m) = (i / 2 ^ Z.of_nat d =? 2 * m)).
  { specialize (Hanc d). rewrite Hi in Hanc. unfold plru_bit. rewrite Hanc by done.
    unfold away. rewrite Hi. by destruct (i / 2 ^ Z.of_nat d =? 2 * m). }
  assert (Hext : forall c, 1 <= c -> c <> i / 2 ^ Z.of_nat d -> c / 2 = m ->
    heap_tree bits' base d c = heap_tree bits base d c).
  { intros c Hc Hne Hcm. apply heap_tree_ext. intros x Hx. apply Hframe. intros y Hy Exy.
    assert (x = y) as <- by lia. rewrite div_pow2_S in Hi.
    by apply (inner_ancestor d c (i / 2 ^ Z.of_nat d) i x); try done; zdm. }
  rewrite Hroot, pow2_S. rewrite div_pow2_S in Hi.
  pose proof (pow2_pos d).
  pose proof (Z.div_mod i (2 ^ Z.of_nat d) ltac:(lia)) as Hdm.
  pose proof (Z.mod_pos_bound i (2 ^ Z.of_nat d) ltac:(lia)) as Hmod.
  destruct (Z.eqb_spec (i / 2 ^ Z.of_nat d) (2 * m)) as [E|E].
  - destruct (Z.ltb_spec (i - m * (2 * 2 ^ Z.of_nat d)) (2 ^ Z.of_nat d)); [|nia].
    rewrite (IH (2 * m)) by lia. rewrite (Hext (2 * m + 1)) by zdm.
    do 2 f_equal. lia.
  - assert (E' : i / 2 ^ Z.of_nat d = 2 * m + 1) by zdm.
    destruct (Z.ltb_spec (i - m * (2 * 2 ^ Z.of_nat d)) (2 ^ Z.of_nat d)); [nia|].
    rewrite (Hext (2 * m)) by zdm. rewrite (IH (2 * m + 1)) by lia.
    f_equal. f_equal. lia.
Qed.

(** *** Sets of a policy object *)

(** [sets * ways] bits, [ways] a power of two a 32-bit index can double. *)
Definition plru_inv (sets ways : Z) (p : TreePlru) : Prop :=
  plru_ways_ p = ways /\
  (exists k : nat, (k <= 31)%nat /\ ways = 2 ^ Z.of_nat k) /\
  Z.of_nat (length (plru_bits_ p)) = sets * ways /\ Forall is_bit (plru_bits_ p).

(** The tree of a set; its leaves are the set's ways. *)
Definition set_tree (p : TreePlru) (set : Z) : ptree :=
  heap_tree (plru_bits_ p) (set * plru_ways_ p) (Z.to_nat (Z.log2 (plru_ways_ p))) 1.

Lemma plru_inv_new sets k :
  0 <= sets -> (k <= 31)%nat -> exists p,
    TreePlru_new sets (2 ^ Z.of_nat k) = Some p /\ plru_inv sets (2 ^ Z.of_nat k) p.
Proof.
  intros Hs Hk. pose proof (pow2_pos k). unfold TreePlru_new, assert_.
  replace (pow2_check (2 ^ Z.of_nat k)) with true.
  2:{ symmetry. assert (Hall : forallb (fun k => pow2_check (2 ^ Z.of_nat k)) (seq 0 32) = true)
        by (vm_compute; reflexivity).
      rewrite forallb_forall in Hall. apply Hall. apply in_seq. lia. }
  eexists. split; [reflexivity|]. unfold plru_inv; cbn. split_and!; eauto.
  - rewrite length_replicate. lia.
  - apply Forall_replicate. by left.
Qed.

Section SetTree.
Context (sets ways : Z) (p : TreePlru) (Hp : plru_inv sets ways p).

Lemma plru_depth :
  exists k : nat, (k <= 31)%nat /\ ways = 2 ^ Z.of_nat k /\ 1 <= ways <= 2 ^ 31 /\
forall s, set_tree p s = heap_tree (plru_bits_ p) (s * ways) k 1.
Proof.
  destruct Hp as (Hw & (k & Hk & E) & _). exists k. split_and!; try done.
  - pose proof (pow2_pos k). lia.
  - rewrite E. apply Z.pow_le_mono_r; lia.
  - intros s. unfold set_tree. rewrite Hw, E, Z.log2_pow2 by lia. by rewrite Nat2Z.id.
Qed.

Lemma plru_victim s : 0 <= s < sets -> TreePlru_victim p s = Some (tree_victim (set_tree p s)).
Proof.
  intros Hs. destruct plru_depth as (k & Hk & E & Hr & Ht). destruct Hp as (Hw & _ & Hl & Hb).
  unfold TreePlru_victim. rewrite Ht, Hw.
  rewrite (victim_loop_spec _ _ _ k) by (try done; unfold plru_fuel; try lia; nia).
  cbn. f_equal. lia.
Qed.

Lemma plru_victim_range s : 0 <= s < sets -> 0 <= tree_victim (set_tree p s) < ways.
Proof.
  intros Hs. destruct plru_depth as (k & Hk & -> & Hr & Ht). rewrite Ht.
  apply tree_victim_range, heap_tree_perfect.
Qed.

Lemma plru_touch s w :
  0 <= s < sets -> 0 <= w < ways ->
  exists p', TreePlru_touch p s w = Some p' /\ plru_inv sets ways p' /\
set_tree p' s = tree_touch (set_tree p s) w /\
forall s', 0 <= s' < sets -> s' <> s -> set_tree p' s' = set_tree p s'.
Proof.
  intros Hs Hww. destruct plru_depth as (k & Hk & E & Hr & Ht).
  destruct Hp as (Hw & Hpow & Hl & Hb). unfold TreePlru_touch. rewrite Hw.
  rewrite u32_id by lia.
  destruct (touch_loop_spec plru_fuel (s * ways) (plru_bits_ p) (w + ways))
    as (bits' & -> & Hl' & Hb' & Hanc & Hframe); [done|nia|split; [lia|]|nia|].
  { change (2 ^ Z.of_nat plru_fuel) with (2 ^ 33). lia. }
  cbn. eexists. split; [reflexivity|].
  assert (Hinv : plru_inv sets ways (mkTreePlru ways bits')).
  { split_and!; try done. cbn. lia. }
  split; [done|]. unfold set_tree. cbn. rewrite Hw. rewrite E, Z.log2_pow2, Nat2Z.id by lia.
  rewrite <- E. split.
  - rewrite (heap_tree_touch _ _ _ _ _ 1 Hanc Hframe) by
      (try lia; rewrite <- E; symmetry; apply (Z.div_unique_pos _ _ _ w); lia).
    f_equal. lia.
  - intros s' Hs' Hne. apply heap_tree_ext. intros x Hx.
    assert (1 <= x < ways).
    { split; [by eapply inner_ge|]. destruct Hx as (e & He & Hx). pose proof (pow2_pos e).
      pose proof (Z.div_mod x (2 ^ Z.of_nat e) ltac:(lia)).
      pose proof (Z.mod_pos_bound x (2 ^ Z.of_nat e) ltac:(lia)).
      rewrite Hx in *. assert (2 ^ Z.of_nat (S e) <= ways)
        by (rewrite E; apply Z.pow_le_mono_r; lia).
      rewrite pow2_S in *. lia. }
    apply Hframe. intros y Hy. pose proof (ancestor_le _ _ Hy). destruct Hy as [Hy _]. nia.
Qed.
End SetTree.

#[export, refine] Instance TreePlru_EvictionLaws : EvictionLaws TreePlru := {
  policy_inv := plru_inv;
}.
Proof.
  - intros sets ways p s Hp Hs. exists (tree_victim (set_tree p s)).
    split; [by eapply plru_victim|by eapply plru_victim_range].
  - intros sets ways p s w Hp Hs Hw.
    destruct (plru_touch _ _ _ Hp s w Hs Hw) as (p' & ? & ? & _). by exists p'.
  - intros sets ways p s s' w p' Hp Hs Hs' Hw Hne Et.
    destruct (plru_touch _ _ _ Hp s w Hs Hw) as (p'' & E & Hp'' & _ & Hother).
    cbn [victim touch TreePlru_EvictionPolicy] in *. rewrite Et in E. injection E as <-.
    rewrite !(plru_victim sets ways) by done. by rewrite Hother.
  - intros sets ways p s w p' Hp Hs Hw H1 Et.
    destruct (plru_touch _ _ _ Hp s w Hs Hw) as (p'' & E & Hp'' & Htree & _).
    cbn [victim touch TreePlru_EvictionPolicy] in *. rewrite Et in E. injection E as <-.
    rewrite (plru_victim sets ways) by done. rewrite Htree. intros [= Hv]. revert Hv.
    destruct (plru_depth _ _ _ Hp) as ([|k] & Hk & -> & Hr & Ht).
    { cbn in *. lia. }
    rewrite Ht. apply (tree_touch_victim_ne k); [apply heap_tree_perfect|done].
Defined.

(** [n] successive replacements in set [s]: choose the victim, use its way. *)
Fixpoint evictions {P} `{EvictionPolicy P} (n : nat) (p : P) (s : Z) : option (list Z * P) :=
  match n with
  | O => Some ([], p)
  | S n =>
      w ← victim p s;
      p ← touch p s w;
      '(ws, p) ← evictions n p s;
      Some (w :: ws, p)
  end.

Lemma evictions_tree sets ways n p s :
  plru_inv sets ways p -> 0 <= s < sets ->
  exists p', evictions n p s = Some (tree_evictions n (set_tree p s), p') /\
    plru_inv sets ways p'.
Proof.
  revert p. induction n as [|n IH]; intros p Hp Hs; [by exists p|].
  cbn [evictions victim touch TreePlru_EvictionPolicy tree_evictions].
  rewrite (plru_victim sets ways) by done. cbn [mbind option_bind].
  destruct (plru_touch _ _ _ Hp s (tree_victim (set_tree p s)) Hs) as (p1 & -> & Hp1 & Ht & _).
  { by eapply plru_victim_range. }
  cbn [mbind option_bind]. destruct (IH p1 Hp1 Hs) as (p2 & -> & Hp2). cbn.
  exists p2. by rewrite Ht.
Qed.

(** C32: on a policy object of [sets] sets of [ways] ways (a power of two),
    [victim] returns the leaf designated by the tree the set's bits encode,
    and [touch] succeeds, keeps the object well formed, turns the bits of the
    node path away from the way touched and leaves every other set's tree
    unchanged. *)
Theorem TreePlru_refines_tree sets ways p s w :
  plru_inv sets ways p -> 0 <= s < sets -> 0 <= w < ways ->
  TreePlru_victim p s = Some (tree_victim (set_tree p s)) /\
  exists p', TreePlru_touch p s w = Some p' /\ plru_inv sets ways p' /\
    set_tree p' s = tree_touch (set_tree p s) w /\
    forall s', 0 <= s' < sets -> s' <> s -> set_tree p' s' = set_tree p s'.
Proof. intros Hp Hs Hw. split; [by eapply plru_victim|by apply plru_touch]. Qed.

Definition plru_example : TreePlru := mkTreePlru 4 [0; 1; 0; 1; 0; 0; 1; 1].

Lemma plru_example_inv : plru_inv 2 4 plru_example.
Proof.
  split_and!; [done|by exists 2%nat; split; [lia|]|done|].
  repeat constructor; (by left) || (by right).
Qed.

Lemma TreePlru_refines_tree_witness :
  TreePlru_victim plru_example 0 = Some 3 /\
  exists p', TreePlru_touch plru_example 0 3 = Some p' /\ plru_inv 2 4 p' /\
    set_tree p' 0 = tree_touch (set_tree plru_example 0) 3 /\
    forall s', 0 <= s' < 2 -> s' <> 0 -> set_tree p' s' = set_tree plru_example s'.
Proof.
  exact (TreePlru_refines_tree 2 4 plru_example 0 3 plru_example_inv ltac:(lia) ltac:(lia)).
Defined.

(** C33: whatever the state of the policy, [ways] successive replacements in a
    set (choose the victim, then mark it used) evict every way exactly once. *)
Theorem TreePlru_evicts_every_way sets ways p s :
  plru_inv sets ways p -> 0 <= s < sets ->
  exists ws p', evictions (Z.to_nat ways) p s = Some (ws, p') /\
    plru_inv sets ways p' /\ ws ≡ₚ seqZ 0 ways.
Proof.
  intros Hp Hs. destruct (evictions_tree _ _ (Z.to_nat ways) _ _ Hp Hs) as (p' & E & Hp').
  eexists _, p'. split; [exact E|]. split; [done|].
  destruct (plru_depth _ _ _ Hp) as (k & Hk & -> & Hr & Ht). rewrite Ht.
  rewrite <- tree_evictions_cycle by apply heap_tree_perfect.
  rewrite Z2Nat.inj_pow, Nat2Z.id by lia. done.
Qed.

Lemma TreePlru_evicts_every_way_witness :
  exists ws p', evictions (Z.to_nat 4) plru_example 1 = Some (ws, p') /\
    plru_inv 2 4 p' /\ ws ≡ₚ seqZ 0 4.
Proof. exact (TreePlru_evicts_every_way 2 4 plru_example 1 plru_example_inv ltac:(lia)). Defined.
