(* ===== verification/Geometry.v ===== *)
(** * Power-of-two geometries

    The helper [log2_exact] that [src/memory/cache.cpp] and
    [src/uarch/branch_predictor.cpp] both define, and the arithmetic of
    splitting a 32-bit address into offset, index and tag. *)

From S2P Require Import Prelude.

(** [while (v > 1) { v >>= 1; ++n; }], at most 32 iterations. *)
Fixpoint log2_loop (fuel : nat) (v n : Z) : option Z :=
  match fuel with
  | O => None
  | S fuel => if 1 <? v then log2_loop fuel (Z.shiftr v 1) (u32 (n + 1)) else Some n
  end.

Definition log2_exact (v : Z) : option Z :=
  _ ← assert_ (pow2_check v);
  log2_loop 33 v 0.

Lemma log2_loop_pow2 (k : nat) fuel n :
  (k < fuel)%nat -> 0 <= n -> n + Z.of_nat k < 2 ^ 32 ->
  log2_loop fuel (2 ^ Z.of_nat k) n = Some (n + Z.of_nat k).
Proof.
  revert fuel n. induction k as [|k IH]; intros [|fuel] n Hf Hn Hb; try lia; cbn [log2_loop].
  { cbn. f_equal. lia. }
  pose proof (Z.pow_pos_nonneg 2 (Z.of_nat k) ltac:(lia) ltac:(lia)).
  replace (2 ^ Z.of_nat (S k)) with (2 * 2 ^ Z.of_nat k)
    by (rewrite Nat2Z.inj_succ, Z.pow_succ_r; lia).
  destruct (Z.ltb_spec 1 (2 * 2 ^ Z.of_nat k)); [|lia].
  rewrite Z.shiftr_div_pow2, Z.mul_comm, Z.div_mul, u32_id by lia.
  rewrite IH by lia. f_equal. lia.
Qed.

(** The assertion is the power-of-two test. *)
Lemma pow2_check_spec v :
  is_u32 v -> pow2_check v = true <-> exists k : nat, (k <= 31)%nat /\ v = 2 ^ Z.of_nat k.
Proof.
  intros Hv. unfold is_u32 in Hv. split.
  - unfold pow2_check. intros [Hnz Hz]%andb_true_iff.
    apply negb_true_iff, Z.eqb_neq in Hnz. apply Z.eqb_eq in Hz.
    assert (Hpos : 0 < v) by lia.
    exists (Z.to_nat (Z.log2 v)). pose proof (Z.log2_nonneg v).
    assert (Z.log2 v < 32) by (apply Z.log2_lt_pow2; lia). split; [lia|].
    rewrite Z2Nat.id by lia. pose proof (Z.log2_spec v Hpos) as [Hlo Hhi].
    destruct (Z.eq_dec v (2 ^ Z.log2 v)) as [|Hne]; [done|].
    assert (Hl : Z.log2 (v - 1) = Z.log2 v) by (apply Z.log2_unique; lia).
    assert (Hbit : Z.testbit (Z.land v (v - 1)) (Z.log2 v) = true).
    { rewrite Z.land_spec, Z.bit_log2 by lia. rewrite <- Hl, Z.bit_log2 by lia. done. }
    rewrite u32_id in Hz by lia. rewrite Hz, Z.bits_0 in Hbit. done.
  - intros (k & Hk & ->).
    assert (Hall : forallb (fun k => pow2_check (2 ^ Z.of_nat k)) (seq 0 32) = true)
      by (vm_compute; reflexivity).
    rewrite forallb_forall in Hall. apply Hall, in_seq. lia.
Qed.

Lemma log2_exact_spec v n :
  is_u32 v -> log2_exact v = Some n <-> 0 <= n <= 31 /\ v = 2 ^ n.
Proof.
  intros Hv. unfold log2_exact, assert_. split.
  - destruct (pow2_check v) eqn:E; [cbn [mbind option_bind]|done].
    apply pow2_check_spec in E as (k & Hk & ->); [|done].
    rewrite log2_loop_pow2 by lia. intros [= <-]. rewrite Z.add_0_l. split; [lia|done].
  - intros [Hn ->].
    replace (pow2_check (2 ^ n)) with true.
    2:{ symmetry. apply pow2_check_spec; [done|]. exists (Z.to_nat n).
        rewrite Z2Nat.id by lia. split; [lia|done]. }
    cbn [mbind option_bind]. replace n with (Z.of_nat (Z.to_nat n)) by lia.
    rewrite log2_loop_pow2 by lia. done.
Qed.

Lemma log2_exact_None v : is_u32 v -> log2_exact v = None <-> pow2_check v = false.
Proof.
  intros Hv. destruct (pow2_check v) eqn:E.
  - split; [|done]. apply pow2_check_spec in E as (k & Hk & ->); [|done].
    intros En. assert (log2_exact (2 ^ Z.of_nat k) = Some (Z.of_nat k)) by
      (apply log2_exact_spec; [done|lia]). congruence.
  - split; [done|]. intros _. unfold log2_exact. by rewrite E.
Qed.
