(* ===== verification/Cache.v ===== *)
(** * Cache

    Models [include/cpusim/memory/cache.h], [prefetch_policy.h],
    [sequential_prefetch.h] and [src/memory/cache.cpp]: the timing-only
    set-associative overlay over a backing [IMemory].  Every method is a
    definition; the backing memory, the replacement policy and the prefetch
    policy are the interfaces the class holds references to. *)

From S2P Require Import Prelude Geometry Config Memory TreePlru.

(** ** prefetch_policy.h, sequential_prefetch.h *)

Class PrefetchPolicy (F : Type) := next : F -> Z -> Z.

Record SequentialPrefetch := mkSequentialPrefetch { sp_line_bytes_ : Z }.
Definition SequentialPrefetch_next (f : SequentialPrefetch) (addr : Z) : Z :=
  u32 (addr + sp_line_bytes_ f).
#[export] Instance SequentialPrefetch_PrefetchPolicy : PrefetchPolicy SequentialPrefetch :=
  SequentialPrefetch_next.

(** ** State *)

Inductive Phase := Idle | HitWait | WriteBack | MissFetch | PrefetchWait.
#[export] Instance Phase_eq_dec : EqDecision Phase.
Proof. solve_decision. Defined.

Record Line := mkLine { l_valid : bool; l_dirty : bool; l_prefetched : bool; l_tag : Z }.
Definition Line_new : Line := mkLine false false false 0.

#[export] Instance Line_eta : Eta Line :=
  fun l => mkLine (l_valid l) (l_dirty l) (l_prefetched l) (l_tag l).

(** [cc_probe_] says whether the [stats_] pointer is non-null; the record it
    points to is threaded through the timing calls. *)
Record Cache (B P F : Type) := mkCache {
  cc_backing_ : B;
  cc_offset_bits_ : Z;
  cc_index_bits_ : Z;
  cc_index_mask_ : Z;
  cc_hit_latency_ : Z;
  cc_ways_ : Z;
  cc_lines_ : list Line;
  cc_repl_ : P;
  cc_phase_ : Phase;
  cc_cur_addr_ : Z;
  cc_cur_is_write_ : bool;
  cc_victim_way_ : Z;
  cc_wb_addr_ : Z;
  cc_hit_remaining_ : Z;
  cc_last_hit_ : bool;
  cc_pf_policy_ : option F;
  cc_pf_degree_ : Z;
  cc_pf_active_ : bool;
  cc_pf_addr_ : Z;
  cc_pf_way_ : Z;
  cc_pf_chain_ : Z;
  cc_probe_ : bool;
}.
Arguments mkCache {B P F}.
Arguments cc_backing_ {B P F} _.
Arguments cc_offset_bits_ {B P F} _.
Arguments cc_index_bits_ {B P F} _.
Arguments cc_index_mask_ {B P F} _.
Arguments cc_hit_latency_ {B P F} _.
Arguments cc_ways_ {B P F} _.
Arguments cc_lines_ {B P F} _.
Arguments cc_repl_ {B P F} _.
Arguments cc_phase_ {B P F} _.
Arguments cc_cur_addr_ {B P F} _.
Arguments cc_cur_is_write_ {B P F} _.
Arguments cc_victim_way_ {B P F} _.
Arguments cc_wb_addr_ {B P F} _.
Arguments cc_hit_remaining_ {B P F} _.
Arguments cc_last_hit_ {B P F} _.
Arguments cc_pf_policy_ {B P F} _.
Arguments cc_pf_degree_ {B P F} _.
Arguments cc_pf_active_ {B P F} _.
Arguments cc_pf_addr_ {B P F} _.
Arguments cc_pf_way_ {B P F} _.
Arguments cc_pf_chain_ {B P F} _.
Arguments cc_probe_ {B P F} _.

#[export] Instance Cache_eta B P F : Eta (Cache B P F) := fun c =>
  mkCache (cc_backing_ c) (cc_offset_bits_ c) (cc_index_bits_ c) (cc_index_mask_ c)
    (cc_hit_latency_ c) (cc_ways_ c) (cc_lines_ c) (cc_repl_ c) (cc_phase_ c) (cc_cur_addr_ c)
    (cc_cur_is_write_ c) (cc_victim_way_ c) (cc_wb_addr_ c) (cc_hit_remaining_ c)
    (cc_last_hit_ c) (cc_pf_policy_ c) (cc_pf_degree_ c) (cc_pf_active_ c) (cc_pf_addr_ c)
    (cc_pf_way_ c) (cc_pf_chain_ c) (cc_probe_ c).

(** ** Operations *)

Section Operations.
Context {B P F : Type} `{IMemory B} `{EvictionPolicy P} `{PrefetchPolicy F}.
Abbreviation cache := (Cache B P F).

(** *** Address geometry

    A shift by 32 or more is undefined in C++: the shifts by
    [offset_bits_ + index_bits_] fault there. *)

Definition Cache_index_of (c : cache) (addr : Z) : Z :=
  Z.land (Z.shiftr addr (cc_offset_bits_ c)) (cc_index_mask_ c).

Definition Cache_tag_of (c : cache) (addr : Z) : option Z :=
  let n := u32 (cc_offset_bits_ c + cc_index_bits_ c) in
  _ ← assert_ (n <? 32);
  Some (Z.shiftr addr n).

Definition Cache_line_addr_of (c : cache) (addr : Z) : Z :=
  Z.land addr (u32 (Z.lnot (Z.shiftl 1 (cc_offset_bits_ c) - 1))).

Definition Cache_addr_of (c : cache) (set tag : Z) : option Z :=
  let n := u32 (cc_offset_bits_ c + cc_index_bits_ c) in
  _ ← assert_ (n <? 32);
  Some (Z.lor (u32 (Z.shiftl tag n)) (u32 (Z.shiftl set (cc_offset_bits_ c)))).

(** *** The tag array *)

Definition Cache_line_at (c : cache) (set way : Z) : option Line :=
  vget (cc_lines_ c) (set * cc_ways_ c + way).

Definition Cache_set_line (c : cache) (set way : Z) (L : Line) : option cache :=
  lines ← vset (cc_lines_ c) (set * cc_ways_ c + way) L;
  Some (c <| cc_lines_ := lines |>).

(** [for (w = 0; w < ways_; ++w) if (test(line_at(set, w))) return w;],
    [None] inside when the loop ends. *)
Definition scan_ways (c : cache) (set : Z) (test : Line -> bool)
    : nat -> Z -> option (option Z) :=
  fix loop n w :=
    match n with
    | O => Some None
    | S n =>
        L ← Cache_line_at c set w;
        if test L then Some (Some w) else loop n (w + 1)
    end.

Definition Cache_find_way (c : cache) (addr : Z) : option Z :=
  let set := Cache_index_of c addr in
  t ← Cache_tag_of c addr;
  r ← scan_ways c set (fun L => l_valid L && (l_tag L =? t)) (Z.to_nat (cc_ways_ c)) 0;
  Some (default (-1) r).

Definition Cache_choose_victim (c : cache) (set : Z) : option Z :=
  r ← scan_ways c set (fun L => negb (l_valid L)) (Z.to_nat (cc_ways_ c)) 0;
  match r with
  | Some w => Some w
  | None => victim (cc_repl_ c) set
  end.

Definition Cache_install_line (c : cache) (st : SimStats) (set way addr : Z)
    (is_write from_prefetch : bool) : option (cache * SimStats) :=
  L ← Cache_line_at c set way;
  let st := if l_valid L && l_prefetched L && cc_probe_ c
            then stats_prefetch_useless st else st in
  t ← Cache_tag_of c addr;
  c ← Cache_set_line c set way (mkLine true is_write from_prefetch t);
  repl ← touch (cc_repl_ c) set way;
  Some (c <| cc_repl_ := repl |>, st).

(** *** The prefetch engine *)

Definition Cache_maybe_start_prefetch (c : cache) (addr : Z) : option cache :=
  match cc_pf_policy_ c with
  | None => Some c
  | Some policy =>
      if cc_pf_active_ c then Some c else
      let target := next policy (Cache_line_addr_of c addr) in
      w ← Cache_find_way c target;
      if 0 <=? w then Some c else
      let set := Cache_index_of c target in
      way ← Cache_choose_victim c set;
      v ← Cache_line_at c set way;
      if l_valid v && l_dirty v then Some c else
      Some (c <| cc_pf_addr_ := target |> <| cc_pf_way_ := way |>
              <| cc_pf_active_ := true |> <| cc_pf_chain_ := 1 |>)
  end.

(** The end of [service_prefetch], once a line has been installed. *)
Definition Cache_chain_prefetch (c : cache) : option cache :=
  if cc_pf_chain_ c <? cc_pf_degree_ c then
    policy ← cc_pf_policy_ c;
    let target := next policy (cc_pf_addr_ c) in
    w ← Cache_find_way c target;
    if w <? 0 then
      let set := Cache_index_of c target in
      way ← Cache_choose_victim c set;
      v ← Cache_line_at c set way;
      if negb (l_valid v && l_dirty v) then
        Some (c <| cc_pf_addr_ := target |> <| cc_pf_way_ := way |>
                <| cc_pf_active_ := true |>
                <| cc_pf_chain_ := u32 (cc_pf_chain_ c + 1) |>)
      else Some c
    else Some c
  else Some c.

Definition Cache_service_prefetch (c : cache) (st : SimStats) : option (cache * SimStats) :=
  if negb (cc_pf_active_ c) then Some (c, st) else
  '(served, backing, st) ← ready (cc_backing_ c) st (cc_pf_addr_ c) false;
  let c := c <| cc_backing_ := backing |> in
  '(c, st) ← (if served : bool then
      '(c, st) ← Cache_install_line c st (Cache_index_of c (cc_pf_addr_ c))
                   (cc_pf_way_ c) (cc_pf_addr_ c) false true;
      c ← Cache_chain_prefetch (c <| cc_pf_active_ := false |>);
      Some (c, st)
    else Some (c, st));
  '(backing, st) ← tick (cc_backing_ c) st;
  Some (c <| cc_backing_ := backing |>, st).

(** *** The timing path *)

(** [static_cast<int>(hit_latency_) - 1] *)
Definition hit_wait (c : cache) : cache :=
  c <| cc_phase_ := HitWait |> <| cc_hit_remaining_ := s32 (cc_hit_latency_ c) - 1 |>.

(** The hit branch of [ready]. *)
Definition Cache_start_hit (c : cache) (st : SimStats) (set way : Z) (is_write : bool)
    : option (cache * SimStats) :=
  L ← Cache_line_at c set way;
  let L := if is_write then L <| l_dirty := true |> else L in
  let st := if l_prefetched L && cc_probe_ c then stats_prefetch_useful st else st in
  let L := if l_prefetched L then L <| l_prefetched := false |> else L in
  c ← Cache_set_line c set way L;
  repl ← touch (cc_repl_ c) set way;
  Some (hit_wait (c <| cc_repl_ := repl |>), st).

(** The miss branch of [ready]. *)
Definition Cache_start_miss (c : cache) (set : Z) : option cache :=
  way ← Cache_choose_victim c set;
  let c := c <| cc_victim_way_ := way |> in
  let c := if cc_pf_active_ c && (Cache_index_of c (cc_pf_addr_ c) =? set)
              && (cc_pf_way_ c =? way)
           then c <| cc_pf_active_ := false |> else c in
  v ← Cache_line_at c set way;
  if l_valid v && l_dirty v then
    wb ← Cache_addr_of c set (l_tag v);
    Some (c <| cc_wb_addr_ := wb |> <| cc_phase_ := WriteBack |>)
  else Some (c <| cc_phase_ := MissFetch |>).

(** The body of [if (phase_ == Phase::Idle)] in [ready]. *)
Definition Cache_start (c : cache) (st : SimStats) (addr : Z) (is_write : bool)
    : option (cache * SimStats) :=
  let c := c <| cc_cur_addr_ := addr |> <| cc_cur_is_write_ := is_write |> in
  let set := Cache_index_of c addr in
  w ← Cache_find_way c addr;
  let c := c <| cc_last_hit_ := 0 <=? w |> in
  c ← Cache_maybe_start_prefetch c addr;
  if cc_last_hit_ c then Cache_start_hit c st set w is_write
  else if cc_pf_active_ c && (Cache_line_addr_of c addr =? cc_pf_addr_ c) then
    Some (c <| cc_victim_way_ := cc_pf_way_ c |> <| cc_phase_ := PrefetchWait |>, st)
  else
    c ← Cache_start_miss c set;
    Some (c, st).

Definition Cache_ready (c : cache) (st : SimStats) (addr : Z) (is_write : bool)
    : option (bool * cache * SimStats) :=
  '(c, st) ← (match cc_phase_ c with
              | Idle => Cache_start c st addr is_write
              | _ => Some (c, st)
              end);
  Some (match cc_phase_ c with HitWait => cc_hit_remaining_ c =? 0 | _ => false end, c, st).

(** The [MissFetch] and [PrefetchWait] cases of [tick], which differ in what
    follows the installation. *)
Definition Cache_fetch_line (c : cache) (st : SimStats)
    (on_install : cache -> SimStats -> cache * SimStats) : option (cache * SimStats) :=
  '(served, backing, st) ← ready (cc_backing_ c) st (cc_cur_addr_ c) false;
  let c := c <| cc_backing_ := backing |> in
  '(c, st) ← (if served : bool then
      '(c, st) ← Cache_install_line c st (Cache_index_of c (cc_cur_addr_ c))
                   (cc_victim_way_ c) (cc_cur_addr_ c) (cc_cur_is_write_ c) false;
      let '(c, st) := on_install c st in
      Some (hit_wait c, st)
    else Some (c, st));
  '(backing, st) ← tick (cc_backing_ c) st;
  Some (c <| cc_backing_ := backing |>, st).

Definition Cache_tick (c : cache) (st : SimStats) : option (cache * SimStats) :=
  match cc_phase_ c with
  | Idle => Cache_service_prefetch c st
  | HitWait =>
      let c := if 0 <? cc_hit_remaining_ c
               then c <| cc_hit_remaining_ := cc_hit_remaining_ c - 1 |>
               else c <| cc_phase_ := Idle |> in
      Cache_service_prefetch c st
  | WriteBack =>
      '(served, backing, st) ← ready (cc_backing_ c) st (cc_wb_addr_ c) true;
      let c := c <| cc_backing_ := backing |> in
      let c := if served : bool then c <| cc_phase_ := MissFetch |> else c in
      '(backing, st) ← tick (cc_backing_ c) st;
      Some (c <| cc_backing_ := backing |>, st)
  | MissFetch => Cache_fetch_line c st (fun c st => (c, st))
  | PrefetchWait =>
      Cache_fetch_line c st (fun c st =>
        (c <| cc_pf_active_ := false |>,
         if cc_probe_ c then stats_prefetch_useful st else st))
  end.

(** *** The data path: delegated to the backing memory *)

Definition Cache_delegate (c : cache) (r : option B) : option cache :=
  backing ← r;
  Some (c <| cc_backing_ := backing |>).

Definition Cache_load_word (c : cache) (addr : Z) : option Z := load_word (cc_backing_ c) addr.
Definition Cache_load_half (c : cache) (addr : Z) : option Z := load_half (cc_backing_ c) addr.
Definition Cache_load_byte (c : cache) (addr : Z) : option Z := load_byte (cc_backing_ c) addr.
Definition Cache_store_word (c : cache) (addr val : Z) : option cache :=
  Cache_delegate c (store_word (cc_backing_ c) addr val).
Definition Cache_store_half (c : cache) (addr val : Z) : option cache :=
  Cache_delegate c (store_half (cc_backing_ c) addr val).
Definition Cache_store_byte (c : cache) (addr val : Z) : option cache :=
  Cache_delegate c (store_byte (cc_backing_ c) addr val).
Definition Cache_last_was_hit (c : cache) : bool := cc_last_hit_ c.

#[export] Instance Cache_IMemory : IMemory cache := {
  load_word := Cache_load_word;
  load_half := Cache_load_half;
  load_byte := Cache_load_byte;
  store_word := Cache_store_word;
  store_half := Cache_store_half;
  store_byte := Cache_store_byte;
  ready := Cache_ready;
  tick := Cache_tick;
}.
End Operations.

(** The constructor: tree-PLRU replacement, sequential prefetch. *)
Definition Cache_new {B} (backing : B) (line_bytes sets hit_latency ways : Z)
    (prefetch_enabled : bool) (prefetch_degree : Z) (probe : bool)
    : option (Cache B TreePlru SequentialPrefetch) :=
  offset_bits ← log2_exact line_bytes;
  index_bits ← log2_exact sets;
  repl ← TreePlru_new sets ways;
  Some (mkCache backing offset_bits index_bits (u32 (sets - 1))
    (if hit_latency =? 0 then 1 else hit_latency) ways
    (replicate (Z.to_nat (sets * ways)) Line_new) repl
    Idle 0 false 0 0 0 false
    (if prefetch_enabled then Some (mkSequentialPrefetch line_bytes) else None)
    (if prefetch_degree =? 0 then 1 else prefetch_degree)
    false 0 0 0 probe).
