(* ===== verification/CacheLaws.v ===== *)
(** * The cache keeps the memory contract

    Geometry of the tag array, the well-formedness invariant of a [Cache]
    object, and the [MemoryLaws] instance: over any backing memory that
    satisfies the contract, the cache satisfies it, so caches stack. *)

From S2P Require Import Prelude Geometry Config Memory TreePlru Cache.

(** What the cache relies on from a prefetch policy: the target is an address
    of another line. *)
Class PrefetchLaws (F : Type) `{PrefetchPolicy F} := {
  policy_line : F -> Z -> Prop;
  next_u32 f n a : policy_line f n -> is_u32 a -> is_u32 (next f a);
  next_other_line f n a :
    policy_line f n -> 0 <= n <= 31 -> is_u32 a -> next f a / 2 ^ n <> a / 2 ^ n;
  next_aligned f n a :
    policy_line f n -> 0 <= n <= 31 -> a mod 2 ^ n = 0 -> next f a mod 2 ^ n = 0;
}.

#[export, refine] Instance SequentialPrefetch_laws : PrefetchLaws SequentialPrefetch := {
  policy_line f n := sp_line_bytes_ f = 2 ^ n;
}.
Proof.
  - intros f n a _ _. apply u32_range.
  - intros f n a Hf Hn Ha. unfold next, SequentialPrefetch_PrefetchPolicy, SequentialPrefetch_next.
    rewrite Hf. unfold is_u32 in Ha.
    assert (Hp : 0 < 2 ^ n) by (apply Z.pow_pos_nonneg; lia).
    assert (Hle : 2 ^ n <= 2 ^ 31) by (apply Z.pow_le_mono_r; lia).
    unfold u32. destruct (Z.ltb_spec (a + 2 ^ n) (2 ^ 32)) as [Hlt|Hge].
    + rewrite Z.mod_small by lia. replace (a + 2 ^ n) with (a + 1 * 2 ^ n) by lia.
      rewrite Z.div_add by lia. lia.
    + replace ((a + 2 ^ n) mod 2 ^ 32) with (a + 2 ^ n - 2 ^ 32)
        by (apply (Z.mod_unique _ _ 1); lia).
      intros E. assert (a + 2 ^ n - 2 ^ 32 <= a - 2 ^ n) by lia.
      pose proof (Z.div_mod a (2 ^ n) ltac:(lia)). pose proof (Z.mod_pos_bound a (2 ^ n) Hp).
      pose proof (Z.div_mod (a + 2 ^ n - 2 ^ 32) (2 ^ n) ltac:(lia)).
      pose proof (Z.mod_pos_bound (a + 2 ^ n - 2 ^ 32) (2 ^ n) Hp). nia.
  - intros f n a Hf Hn Ha. unfold next, SequentialPrefetch_PrefetchPolicy, SequentialPrefetch_next.
    rewrite Hf. assert (Hp : 2 ^ n <> 0) by (apply Z.pow_nonzero; lia).
    unfold u32. replace 32 with (n + (32 - n)) by lia. rewrite Z.pow_add_r by lia.
    rewrite Z.rem_mul_r by (try apply Z.pow_pos_nonneg; lia).
    rewrite (Z.mul_comm (2 ^ n)), Z.mod_add, Z.mod_mod by done.
    rewrite <- (Z.mul_1_l (2 ^ n)) at 1. by rewrite Z.mod_add by done.
Defined.

Section CacheInvariant.
Context {B P F : Type} `{MemoryLaws B} `{EvictionLaws P} `{PrefetchLaws F}.
Abbreviation cache := (Cache B P F).
Implicit Type c : cache.

(** ** Well-formedness *)

Definition sets_of c : Z := 2 ^ cc_index_bits_ c.

Record Cache_wf c : Prop := mkCache_wf {
  ci_offset : 0 <= cc_offset_bits_ c;
  ci_index : 0 <= cc_index_bits_ c;
  ci_bits : cc_offset_bits_ c + cc_index_bits_ c < 32;
  ci_mask : cc_index_mask_ c = 2 ^ cc_index_bits_ c - 1;
  ci_latency : 1 <= cc_hit_latency_ c < 2 ^ 31;
  ci_ways : 1 <= cc_ways_ c;
  ci_length : Z.of_nat (length (cc_lines_ c)) = sets_of c * cc_ways_ c;
  ci_tags : Forall (fun L => 0 <= l_tag L < 2 ^ (32 - (cc_offset_bits_ c + cc_index_bits_ c)))
              (cc_lines_ c);
  ci_repl : policy_inv (sets_of c) (cc_ways_ c) (cc_repl_ c);
  ci_backing : mem_inv (cc_backing_ c);
  ci_cur : is_u32 (cc_cur_addr_ c);
  ci_wb : is_u32 (cc_wb_addr_ c);
  ci_victim : 0 <= cc_victim_way_ c < cc_ways_ c;
  ci_pf_addr : is_u32 (cc_pf_addr_ c);
  ci_pf_way : 0 <= cc_pf_way_ c < cc_ways_ c;
  ci_policy f : cc_pf_policy_ c = Some f -> policy_line f (cc_offset_bits_ c);
  ci_pf_active : cc_pf_active_ c = true -> is_Some (cc_pf_policy_ c);
}.

(** ** Geometry *)

Section Geometry.
Context c (Hc : Cache_wf c).

Definition index a : Z := a / 2 ^ cc_offset_bits_ c mod sets_of c.
Definition tag a : Z := a / 2 ^ (cc_offset_bits_ c + cc_index_bits_ c).

Lemma sets_pos : 0 < sets_of c.
Proof using Hc. destruct Hc. apply Z.pow_pos_nonneg; lia. Qed.

Lemma Cache_index_of_spec a : Cache_index_of c a = index a.
Proof using Hc.
  destruct Hc. unfold Cache_index_of, index, sets_of.
  rewrite ci_mask0, (land_mask _ (cc_index_bits_ c)), Z.shiftr_div_pow2 by
    (rewrite ?Z.ones_equiv; lia). done.
Qed.

Lemma index_range a : 0 <= index a < sets_of c.
Proof using Hc. apply Z.mod_pos_bound, sets_pos. Qed.

Lemma Cache_tag_of_spec a : Cache_tag_of c a = Some (tag a).
Proof using Hc.
  destruct Hc. unfold Cache_tag_of, tag, assert_. rewrite u32_id by lia.
  destruct (Z.ltb_spec (cc_offset_bits_ c + cc_index_bits_ c) 32); [cbn|lia].
  by rewrite Z.shiftr_div_pow2 by lia.
Qed.

Lemma tag_range a : is_u32 a -> 0 <= tag a < 2 ^ (32 - (cc_offset_bits_ c + cc_index_bits_ c)).
Proof using Hc.
  destruct Hc. unfold tag, is_u32. intros Ha.
  assert (0 < 2 ^ (cc_offset_bits_ c + cc_index_bits_ c)) by (apply Z.pow_pos_nonneg; lia).
  split; [apply Z.div_pos; lia|]. apply Z.div_lt_upper_bound; [lia|].
  rewrite <- Z.pow_add_r by lia. replace (_ + _) with 32 by lia. lia.
Qed.

(** The line of an address, its index and tag together. *)
Lemma line_split a :
  a / 2 ^ cc_offset_bits_ c = tag a * sets_of c + index a.
Proof using Hc.
  destruct Hc. pose proof sets_pos. unfold tag, index.
  rewrite Z.pow_add_r, <- Z.div_div by (try apply Z.pow_pos_nonneg; try apply Z.pow_nonzero; lia).
  fold (sets_of c).
  pose proof (Z.div_mod (a / 2 ^ cc_offset_bits_ c) (sets_of c) ltac:(lia)). lia.
Qed.

Lemma same_line a b :
  a / 2 ^ cc_offset_bits_ c = b / 2 ^ cc_offset_bits_ c <-> index a = index b /\ tag a = tag b.
Proof using Hc.
  rewrite !line_split. pose proof (index_range a). pose proof (index_range b). split.
  - intros E. destruct (Z.div_mod_unique (sets_of c) (tag a) (tag b) (index a) (index b)); lia.
  - by intros [-> ->].
Qed.

Lemma Cache_line_addr_of_spec a :
  is_u32 a -> Cache_line_addr_of c a = a / 2 ^ cc_offset_bits_ c * 2 ^ cc_offset_bits_ c.
Proof using Hc.
  destruct Hc. intros Ha. unfold Cache_line_addr_of.
  set (o := cc_offset_bits_ c) in *.
  rewrite Z.shiftl_1_l, <- Z.shiftl_mul_pow2, <- Z.shiftr_div_pow2 by lia.
  replace (2 ^ o - 1) with (Z.ones o) by (rewrite Z.ones_equiv; lia).
  unfold u32. rewrite <- Z.land_ones by lia. apply Z.bits_inj'; intros i Hi.
  rewrite !Z.land_spec, Z.lnot_spec, Z.shiftl_spec by lia.
  rewrite (Z.testbit_ones_nonneg 32), (Z.testbit_ones_nonneg o) by lia.
  destruct (Z.ltb_spec i o).
  - rewrite (Z.testbit_neg_r _ (i - o)) by lia. by rewrite andb_false_r.
  - rewrite Z.shiftr_spec by lia. replace (i - o + o) with i by lia.
    destruct (Z.ltb_spec i 32); [by rewrite andb_true_r|].
    rewrite <- (Z.mod_small a (2 ^ 32)) by exact Ha. rewrite Z.mod_pow2_bits_high by lia. done.
Qed.

Lemma Cache_line_addr_of_u32 a : is_u32 a -> is_u32 (Cache_line_addr_of c a).
Proof using Hc.
  intros Ha. rewrite Cache_line_addr_of_spec by done. destruct Hc. unfold is_u32 in *.
  assert (0 < 2 ^ cc_offset_bits_ c) by (apply Z.pow_pos_nonneg; lia).
  pose proof (Z.div_mod a (2 ^ cc_offset_bits_ c) ltac:(lia)).
  pose proof (Z.mod_pos_bound a (2 ^ cc_offset_bits_ c) ltac:(lia)).
  assert (0 <= a / 2 ^ cc_offset_bits_ c) by (apply Z.div_pos; lia). nia.
Qed.

(** [addr_of] is the inverse of the split. *)
Lemma Cache_addr_of_spec set tg :
  0 <= set < sets_of c -> 0 <= tg < 2 ^ (32 - (cc_offset_bits_ c + cc_index_bits_ c)) ->
  Cache_addr_of c set tg = Some ((tg * sets_of c + set) * 2 ^ cc_offset_bits_ c) /\
  is_u32 ((tg * sets_of c + set) * 2 ^ cc_offset_bits_ c).
Proof using Hc.
  destruct Hc. intros Hs Ht. unfold Cache_addr_of, assert_.
  rewrite (u32_id (cc_offset_bits_ c + cc_index_bits_ c)) by lia.
  destruct (Z.ltb_spec (cc_offset_bits_ c + cc_index_bits_ c) 32); [cbn|lia].
  set (o := cc_offset_bits_ c) in *. set (i := cc_index_bits_ c) in *.
  assert (Ho : 0 < 2 ^ o) by (apply Z.pow_pos_nonneg; lia).
  assert (Hi : 0 < 2 ^ i) by (apply Z.pow_pos_nonneg; lia).
  assert (Hoi : 2 ^ (o + i) = 2 ^ o * 2 ^ i) by (apply Z.pow_add_r; lia).
  assert (Hoi32 : 2 ^ (32 - (o + i)) * (2 ^ o * 2 ^ i) = 2 ^ 32)
    by (rewrite <- Hoi, <- Z.pow_add_r by lia; by replace (32 - (o + i) + (o + i)) with 32 by lia).
  unfold sets_of in *. fold i in Hs |- *.
  assert (Hset : 0 <= set * 2 ^ o < 2 ^ (o + i)) by (rewrite Hoi; nia).
  assert (Htag : 0 <= tg * 2 ^ (o + i) <= 2 ^ 32 - 2 ^ (o + i)) by (rewrite Hoi; nia).
  rewrite (Z.shiftl_mul_pow2 set), (Z.shiftl_mul_pow2 tg) by lia.
  rewrite !u32_id by lia. rewrite Z.lor_comm, <- (Z.shiftl_mul_pow2 tg), lor_shiftl_add by lia.
  rewrite Hoi in *. unfold is_u32. split; [f_equal|]; nia.
Qed.
End Geometry.

(** ** Totality of the helpers *)

Lemma line_index_range c s w :
  Cache_wf c -> 0 <= s < sets_of c -> 0 <= w < cc_ways_ c ->
  0 <= s * cc_ways_ c + w < Z.of_nat (length (cc_lines_ c)).
Proof using Type. intros [] ? ?. nia. Qed.

Lemma Cache_line_at_Some c s w :
  Cache_wf c -> 0 <= s < sets_of c -> 0 <= w < cc_ways_ c ->
  exists L, Cache_line_at c s w = Some L /\
    0 <= l_tag L < 2 ^ (32 - (cc_offset_bits_ c + cc_index_bits_ c)).
Proof using Type.
  intros Hc Hs Hw. destruct (vget_is_Some (cc_lines_ c) (s * cc_ways_ c + w)) as [L E].
  { by apply line_index_range. }
  exists L. split; [done|]. eapply (vget_Forall _ _ _ _ (ci_tags _ Hc)). exact E.
Qed.

Lemma scan_ways_spec c s test n w :
  Cache_wf c -> 0 <= s < sets_of c -> 0 <= w -> w + Z.of_nat n <= cc_ways_ c ->
  exists r, scan_ways c s test n w = Some r /\
    match r with
    | Some v => w <= v < w + Z.of_nat n /\
        exists L, Cache_line_at c s v = Some L /\ test L = true
    | None => forall v L, w <= v < w + Z.of_nat n -> Cache_line_at c s v = Some L -> test L = false
    end.
Proof using Type.
  intros Hc Hs. revert w. induction n as [|n IH]; intros w Hw Hn; cbn.
  { exists None. split; [done|]. intros; lia. }
  destruct (Cache_line_at_Some c s w Hc Hs ltac:(lia)) as (L & E & _). rewrite E.
  cbn [mbind option_bind]. destruct (test L) eqn:Et.
  { exists (Some w). split; [done|]. split; [lia|]. by exists L. }
  destruct (IH (w + 1)) as (r & Er & Hr); [lia|lia|]. exists r. split; [done|].
  destruct r as [v|].
  - destruct Hr as [Hv HL]. split; [lia|done].
  - intros v L' Hv EL. destruct (Z.eq_dec v w) as [->|]; [congruence|].
    apply (Hr v L'); [lia|done].
Qed.

(** [a] is cached in way [w] of its set. *)
Definition resident c a w : Prop :=
  0 <= w < cc_ways_ c /\
  exists L, Cache_line_at c (index c a) w = Some L /\ l_valid L = true /\ l_tag L = tag c a.

Lemma find_way_spec c a :
  Cache_wf c ->
  exists w, Cache_find_way c a = Some w /\
    (resident c a w \/ w = -1 /\ forall v, ~ resident c a v).
Proof using Type.
  intros Hc. unfold Cache_find_way. rewrite Cache_tag_of_spec, Cache_index_of_spec by done.
  cbn [mbind option_bind]. pose proof (index_range c Hc a). pose proof (ci_ways c Hc).
  destruct (scan_ways_spec c (index c a) (fun L => l_valid L && (l_tag L =? tag c a))
              (Z.to_nat (cc_ways_ c)) 0) as (r & -> & Hr); [done|done|lia|lia|].
  rewrite Z2Nat.id in Hr by lia. cbn. eexists. split; [reflexivity|].
  destruct r as [v|]; cbn.
  - left. destruct Hr as (Hv & L & E & Ht). apply andb_true_iff in Ht as [? Ht%Z.eqb_eq].
    split; [lia|]. by exists L.
  - right. split; [done|]. intros v (Hv & L & E & Hval & Ht). specialize (Hr v L ltac:(lia) E).
    rewrite Hval, Ht, Z.eqb_refl in Hr. done.
Qed.

Lemma find_way_sign c a w :
  Cache_wf c -> Cache_find_way c a = Some w ->
  if 0 <=? w then resident c a w else forall v, ~ resident c a v.
Proof using Type.
  intros Hc E. destruct (find_way_spec c a Hc) as (w' & E' & Hr).
  rewrite E in E'. injection E' as <-. destruct Hr as [Hr|[-> Hr]]; [|done].
  destruct (Z.leb_spec 0 w); [done|]. destruct Hr as [? _]. lia.
Qed.

Lemma choose_victim_spec c s :
  Cache_wf c -> 0 <= s < sets_of c ->
  exists w, Cache_choose_victim c s = Some w /\ 0 <= w < cc_ways_ c.
Proof using Type.
  intros Hc Hs. unfold Cache_choose_victim. pose proof (ci_ways c Hc).
  destruct (scan_ways_spec c s (fun L => negb (l_valid L)) (Z.to_nat (cc_ways_ c)) 0)
    as (r & -> & Hr); [done|done|lia|lia|]. cbn. destruct r as [v|].
  - exists v. split; [done|lia].
  - apply (victim_ok _ _ _ _ (ci_repl _ Hc) Hs).
Qed.

(** *** Updates that keep the invariant *)

Ltac keep := intros []; constructor; cbn; try done.

Lemma inv_lines_repl c lines repl :
  Cache_wf c -> length lines = length (cc_lines_ c) ->
  Forall (fun L => 0 <= l_tag L < 2 ^ (32 - (cc_offset_bits_ c + cc_index_bits_ c))) lines ->
  policy_inv (sets_of c) (cc_ways_ c) repl ->
  Cache_wf (c <| cc_lines_ := lines |> <| cc_repl_ := repl |>).
Proof using Type. intros [] Hl Ht Hr. constructor; cbn; try done. by rewrite Hl. Qed.

Lemma inv_backing c b : Cache_wf c -> mem_inv b -> Cache_wf (c <| cc_backing_ := b |>).
Proof using Type. keep. Qed.

Lemma inv_phase c p : Cache_wf c -> Cache_wf (c <| cc_phase_ := p |>).
Proof using Type. keep. Qed.

Lemma inv_hit_wait c : Cache_wf c -> Cache_wf (hit_wait c).
Proof using Type. keep. Qed.

Lemma inv_pf_inactive c : Cache_wf c -> Cache_wf (c <| cc_pf_active_ := false |>).
Proof using Type. keep. Qed.

Lemma inv_pf_start c f target way chain :
  cc_pf_policy_ c = Some f -> is_u32 target -> 0 <= way < cc_ways_ c -> Cache_wf c ->
  Cache_wf (c <| cc_pf_addr_ := target |> <| cc_pf_way_ := way |>
               <| cc_pf_active_ := true |> <| cc_pf_chain_ := chain |>).
Proof using Type. intros Hf Ht Hw []; constructor; cbn; try done. Qed.

(** The line written by an installation or a hit, and the policy update. *)
Lemma write_line_ok c s w L :
  Cache_wf c -> 0 <= s < sets_of c -> 0 <= w < cc_ways_ c ->
  0 <= l_tag L < 2 ^ (32 - (cc_offset_bits_ c + cc_index_bits_ c)) ->
  exists lines repl, Cache_set_line c s w L = Some (c <| cc_lines_ := lines |>) /\
    vset (cc_lines_ c) (s * cc_ways_ c + w) L = Some lines /\
    touch (cc_repl_ c) s w = Some repl /\
    Cache_wf (c <| cc_lines_ := lines |> <| cc_repl_ := repl |>).
Proof using Type.
  intros Hc Hs Hw HL.
  destruct (vset_is_Some (cc_lines_ c) (s * cc_ways_ c + w) L) as [lines E].
  { by apply line_index_range. }
  destruct (touch_ok _ _ _ _ w (ci_repl _ Hc) Hs Hw) as (repl & Et & Hr).
  exists lines, repl. unfold Cache_set_line. rewrite E. split_and!; try done.
  apply inv_lines_repl; try done; [by eapply vset_length|].
  by eapply vset_Forall; [apply (ci_tags _ Hc)| |exact E].
Qed.

Lemma install_line_ok c st a way iw fp :
  Cache_wf c -> is_u32 a -> 0 <= way < cc_ways_ c ->
  exists lines repl st',
    Cache_install_line c st (index c a) way a iw fp =
      Some (c <| cc_lines_ := lines |> <| cc_repl_ := repl |>, st') /\
    vset (cc_lines_ c) (index c a * cc_ways_ c + way) (mkLine true iw fp (tag c a)) = Some lines /\
    Cache_wf (c <| cc_lines_ := lines |> <| cc_repl_ := repl |>) /\
    core_counters st' = core_counters st.
Proof using Type.
  intros Hc Ha Hw. pose proof (index_range c Hc a) as Hi. unfold Cache_install_line.
  destruct (Cache_line_at_Some c _ _ Hc Hi Hw) as (L & -> & _). cbn [mbind option_bind].
  rewrite Cache_tag_of_spec by done. cbn [mbind option_bind].
  destruct (write_line_ok c _ _ (mkLine true iw fp (tag c a)) Hc Hi Hw) as
    (lines & repl & E1 & E2 & E3 & Hinv); [by apply tag_range|].
  rewrite E1. cbn [mbind option_bind]. exists lines, repl, (
    if l_valid L && l_prefetched L && cc_probe_ c then stats_prefetch_useless st else st).
  change (cc_repl_ (c <| cc_lines_ := lines |>)) with (cc_repl_ c). rewrite E3.
  split_and!; try done. by destruct (_ && _).
Qed.

(** ** The prefetch engine *)

Lemma offset_range c : Cache_wf c -> 0 <= cc_offset_bits_ c <= 31.
Proof using Type. intros []; lia. Qed.

(** Reservation of a target that is not cached. *)
Definition pf_reserve c target way chain : cache :=
  c <| cc_pf_addr_ := target |> <| cc_pf_way_ := way |>
    <| cc_pf_active_ := true |> <| cc_pf_chain_ := chain |>.

(** The engine was idle, and [c'] is [c] with a reservation for the line the
    policy names after [a]. *)
Definition pf_started c a c' : Prop :=
  exists f target way chain,
    cc_pf_policy_ c = Some f /\ target = next f a /\ is_u32 target /\
    0 <= way < cc_ways_ c /\ (forall v, ~ resident c target v) /\
    c' = pf_reserve c target way chain.

Lemma pf_started_inv c a c' : Cache_wf c -> pf_started c a c' -> Cache_wf c'.
Proof using Type.
  intros Hc (f & target & way & chain & Hf & _ & Ht & Hw & _ & ->).
  by eapply inv_pf_start.
Qed.

Lemma maybe_start_prefetch_ok c a :
  Cache_wf c -> is_u32 a ->
  exists c', Cache_maybe_start_prefetch c a = Some c' /\ Cache_wf c' /\
    (c' = c \/ cc_pf_active_ c = false /\ pf_started c (Cache_line_addr_of c a) c').
Proof using Type.
  intros Hc Ha. unfold Cache_maybe_start_prefetch.
  destruct (cc_pf_policy_ c) as [f|] eqn:Ef; [|exists c; split_and!; auto].
  destruct (cc_pf_active_ c) eqn:Ep; [exists c; split_and!; auto|]. cbv zeta.
  assert (Ht : is_u32 (next f (Cache_line_addr_of c a))).
  { eapply next_u32; [by apply (ci_policy _ Hc)|by apply Cache_line_addr_of_u32]. }
  remember (next f (Cache_line_addr_of c a)) as target eqn:Et.
  destruct (find_way_spec c target Hc) as (w & E & _). rewrite E. cbn [mbind option_bind].
  generalize (find_way_sign _ _ _ Hc E).
  destruct (0 <=? w); intros Hres; [exists c; split_and!; auto|].
  rewrite Cache_index_of_spec by done. pose proof (index_range c Hc target) as Hi.
  destruct (choose_victim_spec c _ Hc Hi) as (way & -> & Hw). cbn [mbind option_bind].
  destruct (Cache_line_at_Some c _ _ Hc Hi Hw) as (v & -> & _). cbn [mbind option_bind].
  destruct (_ && _); [exists c; split_and!; auto|].
  assert (Hs : pf_started c (Cache_line_addr_of c a) (pf_reserve c target way 1)).
  { exists f, target, way, 1. split_and!; (done || lia). }
  eexists. split; [reflexivity|]. split; [by eapply pf_started_inv|]. by right.
Qed.

Lemma chain_prefetch_ok c :
  Cache_wf c -> is_Some (cc_pf_policy_ c) -> cc_pf_active_ c = false ->
  exists c', Cache_chain_prefetch c = Some c' /\ Cache_wf c' /\
    (c' = c \/ pf_started c (cc_pf_addr_ c) c').
Proof using Type.
  intros Hc [f Ef] Ep. unfold Cache_chain_prefetch.
  destruct (_ <? _); [|exists c; split_and!; auto]. rewrite Ef. cbn [mbind option_bind]. cbv zeta.
  assert (Ht : is_u32 (next f (cc_pf_addr_ c))).
  { eapply next_u32; [by apply (ci_policy _ Hc)|apply Hc]. }
  remember (next f (cc_pf_addr_ c)) as target eqn:Et.
  destruct (find_way_spec c target Hc) as (w & E & _). rewrite E. cbn [mbind option_bind].
  generalize (find_way_sign _ _ _ Hc E).
  destruct (Z.leb_spec 0 w); intros Hres.
  { destruct (Z.ltb_spec w 0); [lia|]. exists c; split_and!; auto. }
  destruct (Z.ltb_spec w 0); [|lia].
  rewrite Cache_index_of_spec by done. pose proof (index_range c Hc target) as Hi.
  destruct (choose_victim_spec c _ Hc Hi) as (way & -> & Hw). cbn [mbind option_bind].
  destruct (Cache_line_at_Some c _ _ Hc Hi Hw) as (v & -> & _). cbn [mbind option_bind].
  destruct (negb _); [|exists c; split_and!; auto].
  assert (Hs : pf_started c (cc_pf_addr_ c) (pf_reserve c target way (u32 (cc_pf_chain_ c + 1)))).
  { exists f, target, way, (u32 (cc_pf_chain_ c + 1)). split_and!; (done || lia). }
  eexists. split; [reflexivity|]. split; [by eapply pf_started_inv|]. by right.
Qed.

(** ** No line is cached twice

    The demand path and the prefetch engine install lines independently; the
    invariant that keeps them apart is that neither is working on a line that
    is already cached, nor on the line of the other (unless the demand has
    merged with the prefetch). *)

Definition line c a : Z := a / 2 ^ cc_offset_bits_ c.

Record Cache_unique c : Prop := mkCache_unique {
  cu_lines a v w : resident c a v -> resident c a w -> v = w;
  cu_pf : cc_pf_active_ c = true ->
    cc_pf_addr_ c mod 2 ^ cc_offset_bits_ c = 0 /\ forall v, ~ resident c (cc_pf_addr_ c) v;
  cu_miss : cc_phase_ c = WriteBack \/ cc_phase_ c = MissFetch ->
    (forall v, ~ resident c (cc_cur_addr_ c) v) /\
    (cc_pf_active_ c = true -> line c (cc_cur_addr_ c) <> line c (cc_pf_addr_ c));
  cu_wait : cc_phase_ c = PrefetchWait ->
    cc_pf_active_ c = true /\ line c (cc_cur_addr_ c) = line c (cc_pf_addr_ c);
}.

Lemma resident_line c a b w : Cache_wf c -> line c a = line c b -> resident c a w -> resident c b w.
Proof using Type.
  intros Hc E (Hw & L & HL). apply (same_line c Hc) in E as [E1 E2]. split; [done|].
  exists L. by rewrite <- E1, <- E2.
Qed.

Lemma line_at_write c lines repl s w L s' v :
  Cache_wf c -> 0 <= s < sets_of c -> 0 <= s' < sets_of c -> 0 <= w < cc_ways_ c ->
  0 <= v < cc_ways_ c -> vset (cc_lines_ c) (s * cc_ways_ c + w) L = Some lines ->
  Cache_line_at (c <| cc_lines_ := lines |> <| cc_repl_ := repl |>) s' v =
    if decide (s' = s /\ v = w) then Some L else Cache_line_at c s' v.
Proof using Type.
  intros Hc Hs Hs' Hw Hv E. unfold Cache_line_at. cbn.
  destruct (decide (s' = s /\ v = w)) as [[-> ->]|Hne].
  - by apply vget_vset_eq with (1 := E).
  - apply (vget_vset_ne _ _ _ _ _ E). intros Eq. apply Hne.
    destruct (Z.div_mod_unique (cc_ways_ c) s' s v w); lia.
Qed.

(** The lines cached after an installation. *)
Lemma resident_install c lines repl a way iw fp b v :
  Cache_wf c -> 0 <= way < cc_ways_ c ->
  vset (cc_lines_ c) (index c a * cc_ways_ c + way) (mkLine true iw fp (tag c a)) = Some lines ->
  resident (c <| cc_lines_ := lines |> <| cc_repl_ := repl |>) b v <->
    (v = way /\ line c b = line c a) \/
    (resident c b v /\ ~ (index c b = index c a /\ v = way)).
Proof using Type.
  intros Hc Hway E. pose proof (index_range c Hc a). pose proof (index_range c Hc b).
  unfold resident. cbn [cc_ways_].
  change (index (c <| cc_lines_ := lines |> <| cc_repl_ := repl |>) b) with (index c b).
  change (tag (c <| cc_lines_ := lines |> <| cc_repl_ := repl |>) b) with (tag c b).
  unfold line at 1 2. rewrite (same_line c Hc).
  split.
  - intros (Hv & L & EL & HL). cbn in Hv.
    rewrite (line_at_write c lines repl (index c a) way (mkLine true iw fp (tag c a))) in EL by done.
    destruct (decide _) as [[Ei ->]|Hne].
    + left. split; [done|]. split; [done|]. injection EL as <-. by destruct HL.
    + right. split; [|done]. split; [done|]. by exists L.
  - intros [(-> & Ei & Et)|[(Hv & L & EL & HL) Hne]].
    + split; [done|]. eexists.
      rewrite (line_at_write c lines repl (index c a) way (mkLine true iw fp (tag c a))) by done.
      rewrite decide_True by done. split; [done|]. by cbn.
    + split; [done|]. exists L.
      rewrite (line_at_write c lines repl (index c a) way (mkLine true iw fp (tag c a))) by done.
      by rewrite decide_False by done.
Qed.

Lemma unique_install c lines repl a way iw fp :
  Cache_wf c -> Cache_unique c -> 0 <= way < cc_ways_ c -> (forall v, ~ resident c a v) ->
  vset (cc_lines_ c) (index c a * cc_ways_ c + way) (mkLine true iw fp (tag c a)) = Some lines ->
  forall b v w,
    resident (c <| cc_lines_ := lines |> <| cc_repl_ := repl |>) b v ->
    resident (c <| cc_lines_ := lines |> <| cc_repl_ := repl |>) b w -> v = w.
Proof using Type.
  intros Hc Hu Hway Hfresh E b v w. rewrite !resident_install by done.
  intros [[-> Hb]|[Hv _]] [[-> Hb']|[Hw _]]; try done.
  - exfalso. apply (Hfresh w). by eapply resident_line.
  - exfalso. apply (Hfresh v). by eapply resident_line.
  - by eapply cu_lines.
Qed.

(** A hit rewrites the flags of the line only. *)
Lemma resident_flags c lines repl s way L L' b v :
  Cache_wf c -> 0 <= s < sets_of c -> 0 <= way < cc_ways_ c ->
  Cache_line_at c s way = Some L -> l_valid L' = l_valid L -> l_tag L' = l_tag L ->
  vset (cc_lines_ c) (s * cc_ways_ c + way) L' = Some lines ->
  resident (c <| cc_lines_ := lines |> <| cc_repl_ := repl |>) b v <-> resident c b v.
Proof using Type.
  intros Hc Hs Hway EL Hval Htag E. pose proof (index_range c Hc b).
  unfold resident. cbn [cc_ways_].
  change (index (c <| cc_lines_ := lines |> <| cc_repl_ := repl |>) b) with (index c b).
  change (tag (c <| cc_lines_ := lines |> <| cc_repl_ := repl |>) b) with (tag c b).
  change (cc_ways_ (c <| cc_lines_ := lines |> <| cc_repl_ := repl |>)) with (cc_ways_ c).
  split; intros (Hv & M & EM & HM); (split; [done|]);
    rewrite (line_at_write c lines repl s way L') in * by done;
    destruct (decide _) as [[Ei ->]|Hne]; try by exists M.
  - exists L. rewrite Ei. injection EM as <-. by rewrite <- Hval, <- Htag.
  - exists L'. split; [done|]. rewrite Ei, EL in EM. injection EM as <-. by rewrite Hval, Htag.
Qed.

(** ** The timing calls *)

Definition Cache_inv c : Prop := Cache_wf c /\ Cache_unique c.

(** What every timing operation preserves. *)
Definition keeps c (st : SimStats) c' (st' : SimStats) : Prop :=
  Cache_inv c' /\ mem_ram (cc_backing_ c') = mem_ram (cc_backing_ c) /\
  core_counters st' = core_counters st.

Ltac same_unique := intros []; constructor; done.

Lemma inv_with_backing c b : Cache_inv c -> mem_inv b -> Cache_inv (c <| cc_backing_ := b |>).
Proof using Type. intros [Hw Hu] Hb. split; [by apply inv_backing|]. revert Hu. same_unique. Qed.

(** A phase in which the demand path does not use the backing port. *)
Definition port_free c : Prop := cc_phase_ c = Idle \/ cc_phase_ c = HitWait.

Lemma port_free_miss c : port_free c -> ~ (cc_phase_ c = WriteBack \/ cc_phase_ c = MissFetch).
Proof using Type. intros [E|E]; rewrite E; by intros [|]. Qed.

Lemma port_free_wait c : port_free c -> cc_phase_ c <> PrefetchWait.
Proof using Type. intros [E|E]; by rewrite E. Qed.

Lemma pf_started_unique c a c' :
  Cache_inv c -> port_free c -> a mod 2 ^ cc_offset_bits_ c = 0 -> pf_started c a c' ->
  Cache_inv c' /\ port_free c'.
Proof using Type.
  intros [Hc Hu] Hp Ha Hs. pose proof (pf_started_inv _ _ _ Hc Hs) as Hc'.
  destruct Hs as (f & target & way & chain & Hf & -> & Ht & Hw & Hfresh & ->).
  split; [|done]. split; [done|]. constructor.
  - apply (cu_lines _ Hu).
  - intros _. split; [|done]. eapply next_aligned; [by apply (ci_policy _ Hc)| |done].
    by apply offset_range.
  - intros Hm. by destruct (port_free_miss c Hp).
  - intros Hm. by destruct (port_free_wait c Hp).
Qed.

Lemma line_addr_aligned c a :
  Cache_wf c -> is_u32 a -> Cache_line_addr_of c a mod 2 ^ cc_offset_bits_ c = 0.
Proof using Type.
  intros Hc Ha. rewrite Cache_line_addr_of_spec by done. apply Z.mod_mul.
  pose proof (offset_range c Hc). apply Z.pow_nonzero; lia.
Qed.

(** The installation of a fetched line, with the port free afterwards. *)
Lemma install_unique c lines repl a way iw fp c' :
  Cache_inv c -> 0 <= way < cc_ways_ c -> (forall v, ~ resident c a v) ->
  vset (cc_lines_ c) (index c a * cc_ways_ c + way) (mkLine true iw fp (tag c a)) = Some lines ->
  port_free c' -> (cc_pf_active_ c' = true -> cc_pf_active_ c = true /\ line c (cc_pf_addr_ c) <> line c a) ->
  cc_offset_bits_ c' = cc_offset_bits_ c -> cc_pf_addr_ c' = cc_pf_addr_ c ->
  (forall b v, resident c' b v <->
     resident (c <| cc_lines_ := lines |> <| cc_repl_ := repl |>) b v) ->
  Cache_unique c'.
Proof using Type.
  intros [Hc Hu] Hway Hfresh E Hp Hpf Eo Ea Hres. constructor.
  - intros b v w. rewrite !Hres. by eapply unique_install.
  - intros Hact. destruct (Hpf Hact) as [Hact' Hne]. rewrite Eo, Ea.
    destruct (cu_pf _ Hu Hact') as [Hal Hfr]. split; [done|].
    intros v. rewrite Hres, resident_install by done. intros [[_ ?]|[? _]]; [done|].
    by apply (Hfr v).
  - intros Hm. by destruct (port_free_miss c' Hp).
  - intros Hm. by destruct (port_free_wait c' Hp).
Qed.

Lemma service_prefetch_ok c st :
  Cache_inv c -> port_free c ->
  exists c' st', Cache_service_prefetch c st = Some (c', st') /\ keeps c st c' st' /\ port_free c'.
Proof using Type.
  intros Hinv Hp. unfold Cache_service_prefetch.
  destruct (cc_pf_active_ c) eqn:Ep; cbn [negb]; [|exists c, st; by split_and!].
  assert (Hc := proj1 Hinv).
  destruct (ready_ok (cc_backing_ c) st (cc_pf_addr_ c) false (ci_backing _ Hc) (ci_pf_addr _ Hc))
    as (served & b1 & st1 & -> & Hb1 & Hr1 & Hs1). cbn [mbind option_bind].
  set (c1 := c <| cc_backing_ := b1 |>).
  assert (Hc1 : Cache_inv c1) by by apply inv_with_backing.
  assert (Hstep : exists c2 st2,
    (if served then
       '(c, st) ← Cache_install_line c1 st1 (Cache_index_of c1 (cc_pf_addr_ c1))
                    (cc_pf_way_ c1) (cc_pf_addr_ c1) false true;
       c ← Cache_chain_prefetch (c <| cc_pf_active_ := false |>);
       Some (c, st)
     else Some (c1, st1)) = Some (c2, st2) /\
    Cache_inv c2 /\ port_free c2 /\ cc_backing_ c2 = b1 /\ core_counters st2 = core_counters st1).
  { destruct served; [|by exists c1, st1].
    assert (Hw1 := proj1 Hc1). rewrite Cache_index_of_spec by done.
    destruct (install_line_ok c1 st1 (cc_pf_addr_ c1) (cc_pf_way_ c1) false true)
      as (lines & repl & st2 & -> & E & Hw2 & Hs2); [done|apply Hw1|apply Hw1|].
    cbn [mbind option_bind].
    set (c2 := c1 <| cc_lines_ := lines |> <| cc_repl_ := repl |> <| cc_pf_active_ := false |>).
    assert (Hc2 : Cache_inv c2).
    { split; [by apply inv_pf_inactive|].
      apply (install_unique c1 lines repl (cc_pf_addr_ c1) (cc_pf_way_ c1) false true); try done;
        [apply Hw1|by apply (cu_pf _ (proj2 Hc1))]. }
    destruct (chain_prefetch_ok c2) as (c3 & -> & Hw3 & Hout);
      [by apply Hc2|by apply (ci_pf_active _ Hc)|done|].
    cbn [mbind option_bind]. exists c3, st2. split; [done|].
    destruct Hout as [->|Hst]; [by split_and!|].
    destruct (pf_started_unique c2 (cc_pf_addr_ c2) c3) as [Hc3 Hp3]; try done.
    { apply (cu_pf _ (proj2 Hc1)). done. }
    split_and!; try done. by destruct Hst as (? & ? & ? & ? & _ & _ & _ & _ & _ & ->). }
  destruct Hstep as (c2 & st2 & -> & Hc2 & Hp2 & Hb2 & Hs2). cbn [mbind option_bind].
  destruct (tick_ok (cc_backing_ c2) st2) as (b3 & st3 & -> & Hb3 & Hr3 & Hs3).
  { by rewrite Hb2. }
  cbn [mbind option_bind]. eexists _, _. split; [reflexivity|].
  split; [|done]. split_and!; [by apply inv_with_backing| |congruence].
  cbn. by rewrite Hr3, Hb2.
Qed.

Lemma start_hit_ok c st a w iw :
  Cache_inv c -> resident c a w ->
  exists c' st', Cache_start_hit c st (index c a) w iw = Some (c', st') /\ keeps c st c' st' /\
    cc_backing_ c' = cc_backing_ c /\ cc_phase_ c' = HitWait /\
    cc_hit_remaining_ c' = cc_hit_latency_ c - 1 /\
    (forall b v, resident c' b v <-> resident c b v).
Proof using Type.
  intros [Hc Hu] (Hw & L & EL & Hval & Htag). unfold Cache_start_hit.
  rewrite EL. cbn [mbind option_bind].
  set (L1 := if iw then L <| l_dirty := true |> else L).
  set (L2 := if l_prefetched L1 then L1 <| l_prefetched := false |> else L1).
  set (st1 := if l_prefetched L1 && cc_probe_ c then stats_prefetch_useful st else st).
  pose proof (index_range c Hc a) as Hi.
  assert (Hf : l_valid L2 = l_valid L /\ l_tag L2 = l_tag L).
  { subst L2 L1. by destruct iw, (l_prefetched _). }
  destruct Hf as [Hf1 Hf2].
  destruct (Cache_line_at_Some c _ _ Hc Hi Hw) as (M & EM & Hr). rewrite EL in EM.
  injection EM as <-.
  destruct (write_line_ok c _ _ L2 Hc Hi Hw) as (lines & repl & -> & E & Et & Hwf);
    [by rewrite Hf2|].
  cbn [mbind option_bind]. change (cc_repl_ (c <| cc_lines_ := lines |>)) with (cc_repl_ c).
  rewrite Et. cbn [mbind option_bind].
  assert (Hres : forall b v,
    resident (c <| cc_lines_ := lines |> <| cc_repl_ := repl |>) b v <-> resident c b v).
  { intros b v. by apply (resident_flags c lines repl (index c a) w L L2). }
  eexists _, st1. split; [reflexivity|]. unfold keeps, Cache_inv. split_and!; try done.
  - by apply inv_hit_wait.
  - constructor; [| |by intros [|]|done].
    + intros b v v' Hv Hv'. apply (cu_lines _ Hu b); by apply Hres.
    + intros Hact. destruct (cu_pf _ Hu Hact) as [Hal Hfr]. split; [done|].
      intros v Hv. apply (Hfr v). by apply Hres.
  - subst st1. by destruct (_ && _).
  - cbn. rewrite s32_id; [done|]. pose proof (ci_latency _ Hc). lia.
Qed.

Lemma line_addr_ne c a :
  Cache_wf c -> is_u32 a -> cc_pf_addr_ c mod 2 ^ cc_offset_bits_ c = 0 ->
  Cache_line_addr_of c a <> cc_pf_addr_ c <-> line c a <> line c (cc_pf_addr_ c).
Proof using Type.
  intros Hc Ha Hal. rewrite Cache_line_addr_of_spec by done. unfold line.
  assert (Hp : 0 < 2 ^ cc_offset_bits_ c) by (apply Z.pow_pos_nonneg; destruct Hc; lia).
  pose proof (Z.div_mod (cc_pf_addr_ c) (2 ^ cc_offset_bits_ c) ltac:(lia)) as E.
  rewrite Hal in E. nia.
Qed.

Lemma start_miss_ok c a :
  Cache_inv c -> cc_phase_ c = Idle -> cc_cur_addr_ c = a -> (forall v, ~ resident c a v) ->
  (cc_pf_active_ c = true -> line c a <> line c (cc_pf_addr_ c)) ->
  exists c', Cache_start_miss c (index c a) = Some c' /\ Cache_inv c' /\
    cc_backing_ c' = cc_backing_ c /\ (cc_phase_ c' = WriteBack \/ cc_phase_ c' = MissFetch).
Proof using Type.
  intros [Hc Hu] Hph Hcur Hfresh Hne. unfold Cache_start_miss.
  pose proof (index_range c Hc a) as Hi.
  destruct (choose_victim_spec c _ Hc Hi) as (way & -> & Hw). cbn [mbind option_bind].
  set (c1 := c <| cc_victim_way_ := way |>).
  assert (Hc1 : Cache_inv c1).
  { split; [revert Hw Hc; intros ? []; constructor; cbn; done|revert Hu; same_unique]. }
  set (c2 := if _ && _ then _ else c1).
  assert (Hc2 : Cache_inv c2 /\ cc_backing_ c2 = cc_backing_ c /\ cc_phase_ c2 = Idle /\
    (cc_pf_active_ c2 = true -> cc_pf_active_ c = true) /\
    cc_victim_way_ c2 = way /\ cc_cur_addr_ c2 = cc_cur_addr_ c /\ cc_lines_ c2 = cc_lines_ c /\
    cc_ways_ c2 = cc_ways_ c /\ line c2 = line c /\ cc_pf_addr_ c2 = cc_pf_addr_ c /\
    (forall b v, resident c2 b v <-> resident c b v)).
  { subst c2. destruct (_ && _); [|by split_and!]. split_and!; try done.
    split; [by apply inv_pf_inactive, Hc1|].
    destruct (proj2 Hc1). constructor; cbn; try done; intros ?; destruct_or?; congruence. }
  destruct Hc2 as ([Hw2 Hu2] & Hb2 & Hph2 & Hact2 & Hv2 & Hcur2 & Hl2 & Hn2 & Hline2 & Hpf2 & Hres2).
  assert (Hset : index c a = index c2 a) by (subst c2; by destruct (_ && _)).
  rewrite Hset. pose proof (index_range c2 Hw2 a) as Hi2. rewrite <- Hn2 in Hw.
  destruct (Cache_line_at_Some c2 _ _ Hw2 Hi2 Hw) as (v & -> & Hr). cbn [mbind option_bind].
  assert (Hmiss : (forall w, ~ resident c2 (cc_cur_addr_ c2) w) /\
    (cc_pf_active_ c2 = true -> line c2 (cc_cur_addr_ c2) <> line c2 (cc_pf_addr_ c2))).
  { rewrite Hline2, Hpf2, Hcur2, Hcur. split; [|by auto]. intros w. by rewrite Hres2. }
  destruct (l_valid v && l_dirty v).
  - destruct (Cache_addr_of_spec c2 Hw2 (index c2 a) (l_tag v) Hi2 Hr) as [-> Hwb].
    cbn [mbind option_bind]. eexists. split; [reflexivity|]. split; [|by auto]. split.
    + clear -Hw2 Hwb. destruct Hw2. constructor; cbn; done.
    + destruct Hu2. by constructor; cbn.
  - eexists. split; [reflexivity|]. split; [|by auto]. split; [by apply inv_phase|].
    destruct Hu2. by constructor; cbn.
Qed.

Lemma start_ok c st a iw :
  Cache_inv c -> cc_phase_ c = Idle -> is_u32 a ->
  exists c' st', Cache_start c st a iw = Some (c', st') /\ keeps c st c' st'.
Proof using Type.
  intros [Hc Hu] Hph Ha. unfold Cache_start.
  set (c0 := c <| cc_cur_addr_ := a |> <| cc_cur_is_write_ := iw |>).
  assert (Hw0 : Cache_wf c0) by (clear -Hc Ha; destruct Hc; by constructor).
  destruct (find_way_spec c0 a Hw0) as (w & Ew & _). rewrite Ew. cbn [mbind option_bind].
  generalize (find_way_sign _ _ _ Hw0 Ew). intros Hsign.
  set (c1 := c0 <| cc_last_hit_ := 0 <=? w |>).
  assert (Hc1 : Cache_inv c1).
  { split; [clear -Hw0; by destruct Hw0|]. clear -Hu Hph.
    destruct Hu; constructor; cbn; try done; intros; destruct_or?; congruence. }
  assert (Hp1 : port_free c1) by by left.
  destruct (maybe_start_prefetch_ok c1 a (proj1 Hc1) Ha) as (c2 & -> & Hw2 & Hout).
  cbn [mbind option_bind]. rewrite Cache_index_of_spec by done.
  assert (Hc2 : Cache_inv c2 /\ cc_phase_ c2 = Idle /\ cc_last_hit_ c2 = (0 <=? w) /\
    cc_cur_addr_ c2 = a /\ index c2 = index c0 /\ cc_backing_ c2 = cc_backing_ c /\
    (forall b v, resident c2 b v <-> resident c0 b v)).
  { destruct Hout as [->|[Hpf Hst]]; [by split_and!|].
    destruct (pf_started_unique c1 (Cache_line_addr_of c1 a) c2 Hc1 Hp1) as [Hc2 _]; [|done|].
    { apply line_addr_aligned; [apply Hc1|done]. }
    by destruct Hst as (? & ? & ? & ? & _ & _ & _ & _ & _ & ->). }
  clear Hout. destruct Hc2 as (Hc2 & Hph2 & -> & Hcur2 & Hix2 & Hb2 & Hres2). rewrite <- Hix2.
  destruct (0 <=? w).
  - destruct (start_hit_ok c2 st a w iw Hc2) as (c' & st' & E & Hk & _).
    { by apply Hres2. }
    exists c', st'. split; [done|]. destruct Hk as (? & ? & ?). split_and!; try done. congruence.
  - assert (Hfresh : forall v, ~ resident c2 a v) by (intros v Hv; by apply (Hsign v), Hres2).
    destruct (cc_pf_active_ c2) eqn:Hact; cbn [andb];
      [destruct (Z.eqb_spec (Cache_line_addr_of c2 a) (cc_pf_addr_ c2)) as [Hm|Hm]|].
    { eexists _, st. split; [reflexivity|]. split; [|split; [|done]]; [|by rewrite <- Hb2].
      destruct (cu_pf _ (proj2 Hc2) Hact) as [Hal _].
      assert (Hline : line c2 a = line c2 (cc_pf_addr_ c2)).
      { destruct (Z.eq_dec (line c2 a) (line c2 (cc_pf_addr_ c2))) as [|Hne]; [done|].
        apply line_addr_ne in Hne; done. }
      split; [clear -Hw2; destruct Hw2; by constructor|].
      destruct (proj2 Hc2). constructor; cbn; try done; intros; destruct_or?; try done.
      by rewrite Hcur2. }
    all: destruct (start_miss_ok c2 a) as (c' & -> & Hc' & Hb' & _); try done;
      [|cbn [mbind option_bind]; exists c', st; split; [done|]; split_and!; try done; congruence].
    + intros _. apply line_addr_ne; try done. by apply (cu_pf _ (proj2 Hc2)).
    + by rewrite Hact.
Qed.

Lemma Cache_ready_ok c st a iw :
  Cache_inv c -> is_u32 a ->
  exists b c' st', Cache_ready c st a iw = Some (b, c', st') /\ keeps c st c' st'.
Proof using Type.
  intros Hc Ha. unfold Cache_ready. destruct (cc_phase_ c) eqn:Hph; try (by eexists _, c, st).
  destruct (start_ok c st a iw Hc Hph Ha) as (c' & st' & -> & Hk). cbn. by eexists _, c', st'.
Qed.

(** The fetch of the demand line, shared by two phases of [tick]. *)
Lemma fetch_line_ok c st after :
  Cache_inv c ->
  (cc_phase_ c = MissFetch /\ after = (fun c st => (c, st)) \/
   cc_phase_ c = PrefetchWait /\ after = (fun c st =>
     (c <| cc_pf_active_ := false |>, if cc_probe_ c then stats_prefetch_useful st else st))) ->
  exists c' st', Cache_fetch_line c st after = Some (c', st') /\ keeps c st c' st'.
Proof using Type.
  intros Hinv Hafter. assert (Hc := proj1 Hinv). unfold Cache_fetch_line.
  destruct (ready_ok (cc_backing_ c) st (cc_cur_addr_ c) false (ci_backing _ Hc) (ci_cur _ Hc))
    as (served & b1 & st1 & -> & Hb1 & Hr1 & Hs1). cbn [mbind option_bind].
  set (c1 := c <| cc_backing_ := b1 |>).
  assert (Hc1 : Cache_inv c1) by by apply inv_with_backing.
  assert (Hstep : exists c2 st2,
    (if served then
       '(c, st) ← Cache_install_line c1 st1 (Cache_index_of c1 (cc_cur_addr_ c1))
                    (cc_victim_way_ c1) (cc_cur_addr_ c1) (cc_cur_is_write_ c1) false;
       let '(c, st) := after c st in
       Some (hit_wait c, st)
     else Some (c1, st1)) = Some (c2, st2) /\
    Cache_inv c2 /\ cc_backing_ c2 = b1 /\ core_counters st2 = core_counters st1).
  { destruct served; [|by exists c1, st1].
    destruct Hc1 as [Hw1 Hu1]. rewrite Cache_index_of_spec by done.
    destruct (install_line_ok c1 st1 (cc_cur_addr_ c1) (cc_victim_way_ c1) (cc_cur_is_write_ c1) false)
      as (lines & repl & st2 & -> & E & Hw2 & Hs2); [done|apply Hw1|apply Hw1|].
    cbn [mbind option_bind]. pose proof (ci_victim _ Hw1) as Hv.
    destruct Hafter as [[Hph ->]|[Hph ->]].
    - destruct (cu_miss _ Hu1 (or_intror Hph)) as [Hfresh Hne].
      eexists _, st2. split; [reflexivity|]. split; [|done]. split; [by apply inv_hit_wait|].
      eapply (install_unique c1 lines repl _ _ _ false); try done; [by right|].
      intros Hact. split; [done|]. intros Heq. by apply (Hne Hact).
    - destruct (cu_wait _ Hu1 Hph) as [Hact Hline].
      eexists _, _. split; [reflexivity|]. split; [|by destruct (cc_probe_ _)].
      split; [by apply inv_hit_wait, inv_pf_inactive|].
      eapply (install_unique c1 lines repl _ _ _ false); try done; [|by right].
      intros v Hv'. apply (proj2 (cu_pf _ Hu1 Hact) v). by eapply resident_line. }
  destruct Hstep as (c2 & st2 & -> & Hc2 & Hb2 & Hs2). cbn [mbind option_bind].
  destruct (tick_ok (cc_backing_ c2) st2) as (b3 & st3 & -> & Hb3 & Hr3 & Hs3).
  { by rewrite Hb2. }
  cbn [mbind option_bind]. eexists _, _. split; [reflexivity|].
  split; [by apply inv_with_backing|]. split; [|congruence]. cbn. by rewrite Hr3, Hb2.
Qed.

Lemma Cache_tick_ok c st :
  Cache_inv c -> exists c' st', Cache_tick c st = Some (c', st') /\ keeps c st c' st'.
Proof using Type.
  intros Hinv. assert (Hc := proj1 Hinv). unfold Cache_tick. destruct (cc_phase_ c) eqn:Hph.
  - destruct (service_prefetch_ok c st Hinv) as (c' & st' & -> & Hk & _); [by left|].
    by exists c', st'.
  - set (c1 := if _ <? _ then _ else _).
    assert (Hc1 : Cache_inv c1 /\ port_free c1 /\ cc_backing_ c1 = cc_backing_ c).
    { subst c1. split_and!; [|by destruct (_ <? _); [right|left]|by destruct (_ <? _)].
      destruct Hinv as [[] []]. destruct (_ <? _); split; constructor; cbn; try done;
        intros; destruct_or?; congruence. }
    destruct Hc1 as (Hc1 & Hp1 & Hb1).
    destruct (service_prefetch_ok c1 st Hc1 Hp1) as (c' & st' & -> & (Hk1 & Hk2 & Hk3) & _).
    exists c', st'. split; [done|]. split_and!; try done. by rewrite Hk2, Hb1.
  - destruct (ready_ok (cc_backing_ c) st (cc_wb_addr_ c) true (ci_backing _ Hc) (ci_wb _ Hc))
      as (served & b1 & st1 & -> & Hb1 & Hr1 & Hs1). cbn [mbind option_bind].
    set (c1 := if served then _ else _).
    assert (Hc1 : Cache_inv c1 /\ cc_backing_ c1 = b1).
    { subst c1. split; [|by destruct served].
      destruct Hinv as [[] []]. destruct served; split; constructor; cbn; try done;
        intros; destruct_or?; auto; congruence. }
    destruct Hc1 as (Hc1 & Eb1).
    destruct (tick_ok (cc_backing_ c1) st1) as (b3 & st3 & -> & Hb3 & Hr3 & Hs3).
    { by rewrite Eb1. }
    cbn [mbind option_bind]. eexists _, _. split; [reflexivity|].
    split; [by apply inv_with_backing|]. split; [|congruence]. cbn. by rewrite Hr3, Eb1.
  - destruct (fetch_line_ok c st (fun c st => (c, st)) Hinv) as (c' & st' & E & Hk); [by left|].
    by exists c', st'.
  - destruct (fetch_line_ok c st (fun c st =>
     (c <| cc_pf_active_ := false |>, if cc_probe_ c then stats_prefetch_useful st else st)) Hinv)
      as (c' & st' & E & Hk); [by right|].
    by exists c', st'.
Qed.

(** ** The instance *)

Lemma delegate_ram c (r : option B) s :
  mem_ram <$> r = s -> (fun c => mem_ram (cc_backing_ c)) <$> Cache_delegate c r = s.
Proof using Type. intros <-. by destruct r. Qed.

#[export, refine] Instance Cache_laws : MemoryLaws cache := {
  mem_inv := Cache_inv;
  mem_ram c := mem_ram (cc_backing_ c);
}.
Proof using All.
  - intros c [Hc _]. apply mem_ram_wf, Hc.
  - intros c a [Hc _]. exact (load_word_ram (cc_backing_ c) a (ci_backing _ Hc)).
  - intros c a [Hc _]. exact (load_half_ram (cc_backing_ c) a (ci_backing _ Hc)).
  - intros c a [Hc _]. exact (load_byte_ram (cc_backing_ c) a (ci_backing _ Hc)).
  - intros c a v [Hc _] Ha. apply delegate_ram, store_word_ram; [apply Hc|done].
  - intros c a v [Hc _] Ha. apply delegate_ram, store_half_ram; [apply Hc|done].
  - intros c a v [Hc _] Ha Hv. apply delegate_ram, store_byte_ram; [apply Hc|done|done].
  - intros c a v c' Hinv Ha Hst.
    cbn [store_word store_half store_byte Cache_IMemory] in Hst.
    unfold Cache_store_word, Cache_store_half, Cache_store_byte, Cache_delegate in Hst.
    assert (exists b, c' = c <| cc_backing_ := b |> /\ mem_inv b) as (b & -> & Hb).
    { destruct Hst as [E|[E|[Hv E]]]; inv_binds; eexists; (split; [reflexivity|]);
        (eapply store_inv; [apply Hinv|exact Ha|eauto]). }
    by apply inv_with_backing.
  - intros c st a w Hinv Ha. destruct (Cache_ready_ok c st a w Hinv Ha) as (b & c' & st' & E & Hk).
    exists b, c', st'. split; [exact E|exact Hk].
  - intros c st Hinv. destruct (Cache_tick_ok c st Hinv) as (c' & st' & E & Hk).
    exists c', st'. split; [exact E|exact Hk].
Defined.
End CacheInvariant.
