(* ===== verification/CacheTiming.v ===== *)
(** * Properties of the cache

    Construction, transparency, unique residency, the cost of an access, and
    the behaviour of the prefetch engine on dirty lines. *)

From S2P Require Import Prelude Geometry Config Memory FlatMem TreePlru Cache CacheLaws.

(** ** Construction *)

(** The geometry a configuration must have. *)
Definition geometry_ok (line_bytes sets ways : Z) : bool :=
  pow2_check line_bytes && pow2_check sets && pow2_check ways.

Lemma TreePlru_new_ok sets ways :
  0 <= sets -> is_u32 ways -> pow2_check ways = true ->
  exists p, TreePlru_new sets ways = Some p /\ plru_inv sets ways p.
Proof.
  intros Hs Hw E. apply pow2_check_spec in E as (k & Hk & ->); [|done].
  by apply plru_inv_new.
Qed.

Section Construction.
Context {B : Type} `{MemoryLaws B}.

Lemma Cache_new_inv (b : B) line_bytes sets hit_latency ways prefetch degree probe :
  is_u32 line_bytes -> is_u32 sets -> is_u32 ways -> 0 <= hit_latency < 2 ^ 31 ->
  geometry_ok line_bytes sets ways = true -> line_bytes * sets < 2 ^ 32 -> mem_inv b ->
  exists c, Cache_new b line_bytes sets hit_latency ways prefetch degree probe = Some c /\
    Cache_inv c /\ cc_backing_ c = b /\ cc_phase_ c = Idle /\
    cc_hit_latency_ c = Z.max 1 hit_latency /\ (forall a v, ~ resident c a v) /\
    (prefetch = false -> cc_pf_policy_ c = None) /\
    (forall L, L ∈ cc_lines_ c -> L = Line_new).
Proof using Type.
  intros Hl Hs Hw Hlat Hg Hsz Hb. apply andb_true_iff in Hg as [Hg Pw].
  apply andb_true_iff in Hg as [Pl Ps]. unfold Cache_new.
  apply pow2_check_spec in Pl as (o & Ho & ->); [|done].
  apply pow2_check_spec in Ps as (i & Hi & ->); [|done].
  rewrite (proj2 (log2_exact_spec (2 ^ Z.of_nat o) (Z.of_nat o) Hl)) by (split; [lia|done]).
  rewrite (proj2 (log2_exact_spec (2 ^ Z.of_nat i) (Z.of_nat i) Hs)) by (split; [lia|done]).
  cbn [mbind option_bind].
  assert (Hsp : 0 < 2 ^ Z.of_nat i) by (apply Z.pow_pos_nonneg; lia).
  destruct (TreePlru_new_ok (2 ^ Z.of_nat i) ways ltac:(lia) Hw Pw) as (p & -> & Hp).
  cbn [mbind option_bind]. apply pow2_check_spec in Pw as (k & Hk & Ek); [|done].
  assert (Hways : 1 <= ways) by (rewrite Ek; pose proof (Z.pow_pos_nonneg 2 (Z.of_nat k)); lia).
  assert (Hoi : Z.of_nat o + Z.of_nat i < 32).
  { rewrite <- Z.pow_add_r in Hsz by lia. by apply Z.pow_lt_mono_r_iff in Hsz; [|lia..]. }
  eexists. split; [reflexivity|].
  assert (Hnone : forall a v, ~ resident (mkCache b (Z.of_nat o) (Z.of_nat i)
    (u32 (2 ^ Z.of_nat i - 1)) (if hit_latency =? 0 then 1 else hit_latency) ways
    (replicate (Z.to_nat (2 ^ Z.of_nat i * ways)) Line_new) p Idle 0 false 0 0 0 false
    (if prefetch then Some (mkSequentialPrefetch (2 ^ Z.of_nat o)) else None)
    (if degree =? 0 then 1 else degree) false 0 0 0 probe) a v).
  { intros a v (Hv & L & EL & Hval & _). unfold Cache_line_at in EL. cbn in EL.
    unfold vget in EL. destruct (_ <? 0); [done|].
    apply lookup_replicate in EL as [-> _]. done. }
  split_and!; try done.
  - split.
    + constructor; cbn [cc_offset_bits_ cc_index_bits_ cc_index_mask_ cc_hit_latency_ cc_ways_
        cc_lines_ cc_repl_ cc_backing_ cc_cur_addr_ cc_wb_addr_ cc_victim_way_ cc_pf_addr_
        cc_pf_way_ cc_pf_policy_ cc_pf_active_]; unfold sets_of; cbn [cc_index_bits_]; try done; try lia.
      * rewrite u32_id; [done|]. unfold is_u32 in Hs. lia.
      * destruct (Z.eqb_spec hit_latency 0); lia.
      * rewrite length_replicate. lia.
      * apply Forall_replicate. cbn. split; [lia|]. apply Z.pow_pos_nonneg; lia.
      * intros f. destruct prefetch; [|done]. by intros [= <-].
    + constructor; cbn; try done. intros a v w Hv. by destruct (Hnone a v).
  - cbn. destruct (Z.eqb_spec hit_latency 0); lia.
  - by intros ->.
  - cbn. intros L HL. apply elem_of_replicate in HL. by destruct HL.
Qed.
End Construction.

(** ** The cost of an access

    Without a prefetch engine: a hit takes the hit latency; a miss takes the
    backing cycles of the transfers it needs (the flush of a dirty victim,
    then the line), plus the hit latency. *)

Section Cost.
Context {B P F : Type} `{MemoryLaws B} `{EvictionLaws P} `{PrefetchLaws F}.
Abbreviation cache := (Cache B P F).
Implicit Type c : cache.

Definition Cache_transfers c a : option (list (Z * bool)) :=
  w ← Cache_find_way c a;
  if 0 <=? w then Some [] else
  way ← Cache_choose_victim c (Cache_index_of c a);
  v ← Cache_line_at c (Cache_index_of c a) way;
  if l_valid v && l_dirty v
  then wb ← Cache_addr_of c (Cache_index_of c a) (l_tag v); Some [(wb, true); (a, false)]
  else Some [(a, false)].

Record no_prefetch c : Prop := mkNoPrefetch {
  np_policy : cc_pf_policy_ c = None;
  np_active : cc_pf_active_ c = false;
  np_lines : Forall (fun L => l_prefetched L = false) (cc_lines_ c);
}.

Lemma no_prefetch_line c s w L :
  no_prefetch c -> Cache_line_at c s w = Some L -> l_prefetched L = false.
Proof using Type. intros Hn E. exact (vget_Forall _ _ _ _ (np_lines _ Hn) E). Qed.

Lemma service_idle c st : cc_pf_active_ c = false -> Cache_service_prefetch c st = Some (c, st).
Proof using Type. intros E. unfold Cache_service_prefetch. by rewrite E. Qed.

(** The wait at hit latency. *)
Lemma serve_hit_wait c st a w (n : nat) fuel :
  cc_phase_ c = HitWait -> cc_hit_remaining_ c = Z.of_nat n -> cc_pf_active_ c = false ->
  (n < fuel)%nat ->
  serve fuel c st a w =
    Some (S n, c <| cc_hit_remaining_ := 0 |> <| cc_phase_ := Idle |>, st).
Proof using Type.
  revert c fuel. induction n as [|n IH]; intros c [|fuel] Hph Hrem Hpf Hf; try lia;
    cbn [serve ready tick Cache_IMemory]; unfold Cache_ready; rewrite Hph;
    cbn [mbind option_bind]; rewrite Hph, Hrem; unfold Cache_tick; rewrite Hph, Hrem.
  - cbn [Z.ltb Z.compare Z.of_nat]. rewrite service_idle by done. cbn.
    by destruct c; cbn in *; subst.
  - destruct (Z.ltb_spec 0 (Z.of_nat (S n))); [|lia].
    destruct (Z.eqb_spec (Z.of_nat (S n)) 0); [lia|].
    rewrite service_idle by done. cbn [mbind option_bind].
    rewrite IH by (try done; cbn; lia). done.
Qed.

(** What an access leaves behind. *)
Definition served_by c a c' : Prop :=
  Cache_inv c' /\ no_prefetch c' /\ cc_phase_ c' = Idle /\ cc_hit_latency_ c' = cc_hit_latency_ c /\
  exists v, resident c' a v.

Lemma serve_installed c st a w fuel :
  Cache_inv c -> no_prefetch c -> cc_phase_ c = HitWait ->
  cc_hit_remaining_ c = cc_hit_latency_ c - 1 -> (exists v, resident c a v) ->
  (Z.to_nat (cc_hit_latency_ c) <= fuel)%nat ->
  exists c', serve fuel c st a w = Some (Z.to_nat (cc_hit_latency_ c), c', st) /\
    served_by c a c' /\ cc_backing_ c' = cc_backing_ c /\ cc_last_hit_ c' = cc_last_hit_ c /\
    (forall b v, resident c' b v <-> resident c b v).
Proof using Type.
  intros [Hc Hu] Hn Hph Hrem Hres Hf. pose proof (ci_latency _ Hc).
  rewrite (serve_hit_wait c st a w (Z.to_nat (cc_hit_latency_ c - 1))) by
    (try apply Hn; try done; lia).
  replace (S (Z.to_nat (cc_hit_latency_ c - 1))) with (Z.to_nat (cc_hit_latency_ c)) by lia.
  eexists. split; [reflexivity|]. split; [|done]. unfold served_by. split_and!; try done.
  - split; [clear -Hc; destruct Hc; by constructor|].
    destruct Hu. constructor; cbn; try done. by intros [|].
  - destruct Hn. by constructor.
Qed.

(** The cycle the line arrives: it is installed and the hit wait begins. *)
Lemma fetch_installs c st (b1 b2 : B) st2 w fuel :
  Cache_inv c -> no_prefetch c -> cc_phase_ c = MissFetch -> mem_inv b1 -> mem_inv b2 ->
  (Z.to_nat (cc_hit_latency_ c) <= fuel)%nat ->
  let c1 := c <| cc_backing_ := b1 |> in
  exists lines repl c',
    Cache_install_line c1 st (Cache_index_of c1 (cc_cur_addr_ c)) (cc_victim_way_ c) (cc_cur_addr_ c)
      (cc_cur_is_write_ c) false = Some (c1 <| cc_lines_ := lines |> <| cc_repl_ := repl |>, st) /\
    serve fuel ((hit_wait (c1 <| cc_lines_ := lines |> <| cc_repl_ := repl |>)) <| cc_backing_ := b2 |>) st2
      (cc_cur_addr_ c) w = Some (Z.to_nat (cc_hit_latency_ c), c', st2) /\
    served_by c (cc_cur_addr_ c) c' /\ cc_backing_ c' = b2 /\ cc_last_hit_ c' = cc_last_hit_ c.
Proof using Type.
  intros Hinv Hn Hph Hb1 Hb2 Hf c1. assert (Hc := proj1 Hinv).
  assert (Hc1 : Cache_inv c1) by by apply inv_with_backing.
  rewrite Cache_index_of_spec by apply Hc1.
  destruct (install_line_ok c1 st (cc_cur_addr_ c1) (cc_victim_way_ c1) (cc_cur_is_write_ c1) false)
    as (lines & repl & st3 & Ei & Ev & Hw2 & Hs2);
    [apply Hc1|apply (proj1 Hc1)|apply (proj1 Hc1)|].
  assert (Hst3 : st3 = st).
  { unfold Cache_install_line in Ei. destruct (Cache_line_at c1 _ _) as [L|] eqn:EL; [|done].
    cbn [mbind option_bind] in Ei. rewrite (no_prefetch_line c _ _ L Hn EL) in Ei.
    rewrite andb_false_r in Ei. cbn [andb] in Ei. inv_binds. done. }
  subst st3. exists lines, repl.
  set (c2 := (hit_wait (c1 <| cc_lines_ := lines |> <| cc_repl_ := repl |>)) <| cc_backing_ := b2 |>).
  destruct (cu_miss _ (proj2 Hc1) (or_intror Hph)) as [Hfresh Hne].
  pose proof (ci_victim _ Hc) as Hvict.
  assert (Hc2 : Cache_inv c2).
  { apply inv_with_backing; [|done]. split; [by apply inv_hit_wait|].
    eapply (install_unique c1 lines repl _ _ _ false); try done; [by right|].
    intros Hact. split; [done|]. intros Heq. by apply (Hne Hact). }
  destruct (serve_installed c2 st2 (cc_cur_addr_ c) w fuel) as (c' & Es & Hsv & Hbk & Hlh & _);
    try done.
  - destruct Hn as [? ? Hl]. constructor; cbn; try done.
    by eapply vset_Forall; [exact Hl| |exact Ev].
  - cbn. rewrite s32_id; [done|]. pose proof (ci_latency _ Hc). lia.
  - exists (cc_victim_way_ c). apply (resident_install c1 lines repl (cc_cur_addr_ c1)
      (cc_victim_way_ c1) (cc_cur_is_write_ c1) false); [apply Hc1|done|done|]. by left.
  - exists c'. by split_and!.
Qed.

(** The fetch phase follows the backing memory cycle by cycle. *)
Lemma serve_fetch fb c st w n b' st' fuel :
  Cache_inv c -> no_prefetch c -> cc_phase_ c = MissFetch ->
  serve fb (cc_backing_ c) st (cc_cur_addr_ c) false = Some (n, b', st') ->
  (n + Z.to_nat (cc_hit_latency_ c) <= fuel)%nat ->
  exists c', serve fuel c st (cc_cur_addr_ c) w =
    Some ((n + Z.to_nat (cc_hit_latency_ c))%nat, c', st') /\
    served_by c (cc_cur_addr_ c) c' /\ cc_backing_ c' = b' /\ cc_last_hit_ c' = cc_last_hit_ c.
Proof using Type.
  revert c st n fuel. induction fb as [|fb IH]; intros c st n fuel Hinv Hn Hph E Hf; [done|].
  cbn [serve] in E. assert (Hc := proj1 Hinv).
  destruct (ready_ok (cc_backing_ c) st (cc_cur_addr_ c) false (ci_backing _ Hc) (ci_cur _ Hc))
    as (served & b1 & st1 & Er & Hb1 & _). rewrite Er in E. cbn [mbind option_bind] in E.
  destruct (tick b1 st1) as [[b2 st2]|] eqn:Etk; [cbn [mbind option_bind] in E|done].
  assert (Hb2 : mem_inv b2).
  { destruct (tick_ok b1 st1 Hb1) as (? & ? & Et & ? & _). congruence. }
  assert (Hready : forall f, serve (S f) c st (cc_cur_addr_ c) w =
    '(c1, st1) ← Cache_fetch_line c st (fun c st => (c, st));
    '(k, c2, st2) ← serve f c1 st1 (cc_cur_addr_ c) w; Some (S k, c2, st2)).
  { intros f. cbn [serve ready tick Cache_IMemory]. unfold Cache_ready, Cache_tick. rewrite Hph.
    cbn [mbind option_bind]. rewrite Hph. by destruct (Cache_fetch_line _ _ _) as [[]|]. }
  destruct fuel as [|fuel].
  { exfalso. destruct served; [|inv_binds]; simplify_eq/=; lia. }
  rewrite Hready. unfold Cache_fetch_line. rewrite Er. cbn [mbind option_bind].
  set (c1 := c <| cc_backing_ := b1 |>).
  assert (Hc1 : Cache_inv c1) by by apply inv_with_backing.
  destruct served.
  - injection E as <- <- <-.
    destruct (fetch_installs c st1 b1 b2 st2 w fuel) as (lines & repl & c' & Ei & Es & Hsv & Hbk & Hlh);
      try done; [lia|].
    change (cc_cur_addr_ c1) with (cc_cur_addr_ c). change (cc_victim_way_ c1) with (cc_victim_way_ c).
    change (cc_cur_is_write_ c1) with (cc_cur_is_write_ c). subst c1. rewrite Ei. cbn [mbind option_bind].
    change (cc_backing_ (hit_wait _)) with b1. rewrite Etk. cbn [mbind option_bind]. rewrite Es.
    by exists c'.
  - inv_binds. cbn [mbind option_bind]. change (cc_backing_ c1) with b1. rewrite Etk.
    cbn [mbind option_bind].
    set (c2 := c1 <| cc_backing_ := b2 |>).
    assert (Hc2 : Cache_inv c2) by by apply inv_with_backing.
    destruct (IH c2 st2 n0 fuel) as (c' & Es & Hsv & Hb' & Hlh); try done.
    + destruct Hn. by constructor.
    + cbn. lia.
    + change (cc_cur_addr_ c) with (cc_cur_addr_ c2).
      change (cc_hit_latency_ c) with (cc_hit_latency_ c2). rewrite Es. cbn. by exists c'.
Qed.

(** So does the flush of a dirty victim. *)
Lemma serve_flush fb c st w n1 b1 st1 n2 b2 st2 fuel :
  Cache_inv c -> no_prefetch c -> cc_phase_ c = WriteBack ->
  serve fb (cc_backing_ c) st (cc_wb_addr_ c) true = Some (n1, b1, st1) ->
  serve fb b1 st1 (cc_cur_addr_ c) false = Some (n2, b2, st2) ->
  (n1 + n2 + Z.to_nat (cc_hit_latency_ c) <= fuel)%nat ->
  exists c', serve fuel c st (cc_cur_addr_ c) w =
    Some ((n1 + n2 + Z.to_nat (cc_hit_latency_ c))%nat, c', st2) /\
    served_by c (cc_cur_addr_ c) c' /\ cc_backing_ c' = b2 /\ cc_last_hit_ c' = cc_last_hit_ c.
Proof using Type.
  intros Hinv Hn Hph E E2. remember fb as fb' eqn:Efb in E. clear Efb.
  revert c st n1 fuel Hinv Hn Hph E E2. induction fb' as [|fb' IH];
    intros c st n1 fuel Hinv Hn Hph E E2 Hf; [done|].
  cbn [serve] in E. assert (Hc := proj1 Hinv).
  destruct (ready_ok (cc_backing_ c) st (cc_wb_addr_ c) true (ci_backing _ Hc) (ci_wb _ Hc))
    as (served & b3 & st3 & Er & Hb3 & _). rewrite Er in E. cbn [mbind option_bind] in E.
  destruct (tick b3 st3) as [[b4 st4]|] eqn:Etk; [cbn [mbind option_bind] in E|done].
  assert (Hb4 : mem_inv b4).
  { destruct (tick_ok b3 st3 Hb3) as (? & ? & Et & ? & _). congruence. }
  set (c1 := (if served then c <| cc_backing_ := b3 |> <| cc_phase_ := MissFetch |>
              else c <| cc_backing_ := b3 |>) <| cc_backing_ := b4 |>).
  assert (Hready : forall f, serve (S f) c st (cc_cur_addr_ c) w =
    '(k, c2, st2) ← serve f c1 st4 (cc_cur_addr_ c) w; Some (S k, c2, st2)).
  { intros f. cbn [serve ready tick Cache_IMemory]. unfold Cache_ready, Cache_tick. rewrite Hph.
    cbn [mbind option_bind]. rewrite Hph, Er. cbn [mbind option_bind].
    replace (cc_backing_ (if served then _ else _)) with b3 by by destruct served.
    rewrite Etk. done. }
  destruct fuel as [|fuel].
  { exfalso. destruct served; [|inv_binds]; simplify_eq/=; lia. }
  rewrite Hready.
  assert (Hc1 : Cache_inv c1).
  { apply inv_with_backing; [|done]. destruct Hinv as [[] []].
    destruct served; split; constructor; cbn; try done; intros; destruct_or?; auto; congruence. }
  assert (Hn1 : no_prefetch c1) by (destruct Hn; subst c1; by destruct served).
  destruct served.
  - injection E as <- <- <-.
    destruct (serve_fetch fb c1 st4 w n2 b2 st2 fuel) as (c' & Es & Hsv & Hb' & Hl'); try done.
    { cbn. lia. }
    change (cc_cur_addr_ c) with (cc_cur_addr_ c1). rewrite Es. cbn. by exists c'.
  - inv_binds. destruct (IH c1 st4 n fuel) as (c' & Es & Hsv & Hb' & Hl'); try done.
    { cbn. lia. }
    change (cc_cur_addr_ c) with (cc_cur_addr_ c1). rewrite Es. cbn. by exists c'.
Qed.

(** The cycle that starts the request is the first of the phase it enters. *)
Lemma serve_started c st a w c1 st1 fuel :
  cc_phase_ c = Idle -> cc_phase_ c1 <> Idle -> Cache_start c st a w = Some (c1, st1) ->
  serve fuel c st a w = serve fuel c1 st1 a w.
Proof using Type.
  intros Hph Hph1 E. destruct fuel as [|fuel]; [done|].
  cbn [serve ready Cache_IMemory]. unfold Cache_ready. rewrite Hph, E.
  by destruct (cc_phase_ c1).
Qed.

Lemma start_hit_quiet c st s w iw c' st' :
  no_prefetch c -> Cache_start_hit c st s w iw = Some (c', st') ->
  st' = st /\ no_prefetch c' /\ cc_last_hit_ c' = cc_last_hit_ c.
Proof using Type.
  intros Hn E. unfold Cache_start_hit in E.
  destruct (Cache_line_at c s w) as [L|] eqn:EL; [cbn [mbind option_bind] in E|done].
  pose proof (no_prefetch_line c s w L Hn EL) as Hpf.
  replace (l_prefetched (if iw then L <| l_dirty := true |> else L)) with false in E
    by by destruct iw.
  unfold Cache_set_line in E. inv_binds. split; [done|]. split; [|done].
  destruct Hn as [? ? Hl]. constructor; cbn; try done.
  eapply vset_Forall; [exact Hl| |eassumption]. by destruct iw.
Qed.

(** The request as [ready] registers it. *)
Definition requested c a (iw hit : bool) : cache :=
  c <| cc_cur_addr_ := a |> <| cc_cur_is_write_ := iw |> <| cc_last_hit_ := hit |>.

Lemma requested_ok c a iw hit :
  Cache_inv c -> no_prefetch c -> cc_phase_ c = Idle -> is_u32 a ->
  Cache_inv (requested c a iw hit) /\ no_prefetch (requested c a iw hit).
Proof using Type.
  intros [[] []] [] Hph Ha. split; [split|]; constructor; cbn; try done;
    intros; destruct_or?; congruence.
Qed.

Lemma start_quiet c st a iw w :
  no_prefetch c -> Cache_find_way c a = Some w ->
  Cache_start c st a iw =
    if 0 <=? w
    then Cache_start_hit (requested c a iw (0 <=? w)) st (Cache_index_of c a) w iw
    else c' ← Cache_start_miss (requested c a iw (0 <=? w)) (Cache_index_of c a); Some (c', st).
Proof using Type.
  intros [Hpol Hact _] Ew. unfold Cache_start.
  change (Cache_find_way (c <| cc_cur_addr_ := a |> <| cc_cur_is_write_ := iw |>) a)
    with (Cache_find_way c a). rewrite Ew. cbn [mbind option_bind].
  unfold Cache_maybe_start_prefetch. cbn [cc_pf_policy_ setter]. rewrite Hpol.
  cbn [mbind option_bind cc_last_hit_ setter cc_pf_active_]. rewrite Hact.
  by destruct (0 <=? w).
Qed.

(** A started miss: its phase and registers are those of its transfers. *)
Lemma start_miss_transfers c a reqs :
  Cache_inv c -> no_prefetch c -> cc_phase_ c = Idle -> cc_cur_addr_ c = a ->
  Cache_find_way c a = Some (-1) -> Cache_transfers c a = Some reqs ->
  exists c', Cache_start_miss c (Cache_index_of c a) = Some c' /\ Cache_inv c' /\ no_prefetch c' /\
    cc_backing_ c' = cc_backing_ c /\ cc_cur_addr_ c' = a /\
    cc_hit_latency_ c' = cc_hit_latency_ c /\ cc_last_hit_ c' = cc_last_hit_ c /\
    (cc_phase_ c' = MissFetch /\ reqs = [(a, false)] \/
     cc_phase_ c' = WriteBack /\ reqs = [(cc_wb_addr_ c', true); (a, false)]).
Proof using Type.
  intros Hinv Hn Hph Hcur Ew Et. assert (Hc := proj1 Hinv).
  pose proof (find_way_sign _ _ _ Hc Ew) as Hfresh. cbn in Hfresh.
  destruct (start_miss_ok c a Hinv Hph Hcur Hfresh) as (c' & E & Hc' & Hb' & _).
  { by rewrite (np_active _ Hn). }
  rewrite Cache_index_of_spec in * by done. exists c'. split; [done|]. split; [done|].
  unfold Cache_transfers in Et. rewrite Ew, Cache_index_of_spec in Et by done.
  cbn [mbind option_bind Z.leb Z.compare] in Et.
  unfold Cache_start_miss in E. destruct (Cache_choose_victim c (index c a)) as [way|]; [|done].
  cbn [mbind option_bind] in E, Et.
  change (cc_pf_active_ (c <| cc_victim_way_ := way |>)) with (cc_pf_active_ c) in E.
  rewrite (np_active _ Hn) in E. cbn [andb] in E.
  change (Cache_line_at (c <| cc_victim_way_ := way |>) (index c a) way)
    with (Cache_line_at c (index c a) way) in E.
  destruct (Cache_line_at c (index c a) way) as [v|]; [cbn [mbind option_bind] in E, Et|done].
  assert (Hnp : no_prefetch c') by
    (destruct (l_valid v && l_dirty v), Hn; inv_binds; by constructor).
  split; [done|].
  destruct (l_valid v && l_dirty v).
  - change (Cache_addr_of (c <| cc_victim_way_ := way |>) (index c a) (l_tag v))
      with (Cache_addr_of c (index c a) (l_tag v)) in E.
    destruct (Cache_addr_of c (index c a) (l_tag v)) as [wb|]; [|done].
    cbn [mbind option_bind] in E, Et. injection E as <-. injection Et as <-.
    split_and!; try done. by right.
  - injection E as <-. injection Et as <-. split_and!; try done. by left.
Qed.

(** A started miss is served after its transfers. *)
Lemma serve_transfers c st w reqs fb n b' st' fuel :
  Cache_inv c -> no_prefetch c ->
  (cc_phase_ c = MissFetch /\ reqs = [(cc_cur_addr_ c, false)] \/
   cc_phase_ c = WriteBack /\ reqs = [(cc_wb_addr_ c, true); (cc_cur_addr_ c, false)]) ->
  serve_all fb (cc_backing_ c) st reqs = Some (n, b', st') ->
  (n + Z.to_nat (cc_hit_latency_ c) <= fuel)%nat ->
  exists c', serve fuel c st (cc_cur_addr_ c) w =
      Some ((n + Z.to_nat (cc_hit_latency_ c))%nat, c', st') /\
    served_by c (cc_cur_addr_ c) c' /\ cc_backing_ c' = b' /\ cc_last_hit_ c' = cc_last_hit_ c.
Proof using Type.
  intros Hc Hn [[Hp ->]|[Hp ->]]; cbn [serve_all].
  - destruct (serve fb _ st _ false) as [[[n1 b1] st1]|] eqn:E1; [cbn|done].
    intros [= <- <- <-] Hf. rewrite Nat.add_0_r in *. by apply (serve_fetch fb).
  - destruct (serve fb _ st _ true) as [[[n1 b1] st1]|] eqn:E1; [cbn|done].
    destruct (serve fb b1 st1 _ false) as [[[n2 b2] st2]|] eqn:E2; [cbn|done].
    intros [= <- <- <-] Hf. rewrite Nat.add_0_r in *. by apply (serve_flush fb c st w n1 b1 st1).
Qed.

(** A hit is served at hit latency. *)
Lemma serve_hit c st a w way fuel :
  Cache_inv c -> no_prefetch c -> cc_phase_ c = Idle -> is_u32 a ->
  Cache_find_way c a = Some way -> resident c a way ->
  (Z.to_nat (cc_hit_latency_ c) <= fuel)%nat ->
  exists c', serve fuel c st a w = Some (Z.to_nat (cc_hit_latency_ c), c', st) /\
    served_by c a c' /\ cc_backing_ c' = cc_backing_ c /\ cc_last_hit_ c' = true.
Proof using Type.
  intros Hinv Hn Hph Ha Ek Hk Hf. pose proof (start_quiet c st a w way Hn Ek) as Estart.
  destruct (requested_ok c a w true Hinv Hn Hph Ha) as [Hir Hnr].
  destruct (Z.leb_spec 0 way); [|by destruct Hk; lia].
  rewrite Cache_index_of_spec in Estart by apply Hinv.
  destruct (start_hit_ok (requested c a w true) st a way w Hir Hk)
    as (c1 & st1 & E1 & (Hc1 & _) & Hb1 & Hp1 & Hr1 & Hres1).
  change (index (requested c a w true) a) with (index c a) in E1. rewrite E1 in Estart.
  destruct (start_hit_quiet _ _ _ _ _ _ _ Hnr E1) as (-> & Hn1 & Hl1).
  rewrite (serve_started c st a w c1 st) by (done || by rewrite Hp1).
  assert (Hlat : cc_hit_latency_ c1 = cc_hit_latency_ c).
  { unfold Cache_start_hit, Cache_set_line in E1. by inv_binds. }
  destruct (serve_installed c1 st a w fuel Hc1 Hn1 Hp1) as (c' & E & Hsv & Hb' & Hl' & _).
  { by rewrite Hlat. }
  { exists way. apply Hres1, Hk. }
  { by rewrite Hlat. }
  exists c'. unfold served_by in *. by rewrite E, Hlat, Hb', Hb1, Hl', Hl1 in *.
Qed.

(** C23: with prefetching off, an access to a well-formed idle cache is served
    after exactly the backing cycles of its transfers (none on a hit; the line
    on a clean miss; the dirty victim's flush then the line on a dirty miss)
    plus the hit latency, and leaves the accessed line cached, the cache idle
    and well formed, and the backing memory as the transfers leave it; the
    backing memory may itself be a cache. *)
Theorem Cache_access_cost c st a w reqs fb n b' st' fuel :
  Cache_inv c -> no_prefetch c -> cc_phase_ c = Idle -> is_u32 a ->
  Cache_transfers c a = Some reqs ->
  serve_all fb (cc_backing_ c) st reqs = Some (n, b', st') ->
  (n + Z.to_nat (cc_hit_latency_ c) <= fuel)%nat ->
  exists c', serve fuel c st a w = Some ((n + Z.to_nat (cc_hit_latency_ c))%nat, c', st') /\
    served_by c a c' /\ cc_backing_ c' = b' /\ Cache_last_was_hit c' = bool_decide (reqs = []).
Proof using Type.
  intros Hinv Hn Hph Ha Et Es Hf.
  destruct (find_way_spec c a (proj1 Hinv)) as (k & Ek & [Hk|[-> _]]).
  - assert (Hreqs : reqs = []).
    { unfold Cache_transfers in Et. rewrite Ek in Et. cbn [mbind option_bind] in Et.
      destruct Hk as [? _]. destruct (Z.leb_spec 0 k); [congruence|lia]. }
    subst reqs. injection Es as <- <- <-. by apply (serve_hit c st a w k).
  - pose proof (start_quiet c st a w _ Hn Ek) as Estart.
    destruct (requested_ok c a w false Hinv Hn Hph Ha) as [Hir Hnr].
    destruct (start_miss_transfers (requested c a w false) a reqs Hir Hnr Hph eq_refl Ek Et)
      as (c1 & E1 & Hc1 & Hn1 & Hb1 & <- & Hlat & Hl1 & Hcase).
    change (Cache_start_miss (requested c (cc_cur_addr_ c1) w false)
      (Cache_index_of c (cc_cur_addr_ c1)) = Some c1) in E1.
    cbn [Z.leb Z.compare] in Estart. rewrite E1 in Estart. cbn [mbind option_bind] in Estart.
    rewrite (serve_started c st _ w c1 st) by (done || by destruct Hcase as [[-> _]|[-> _]]).
    change (cc_hit_latency_ c1 = cc_hit_latency_ c) in Hlat.
    change (cc_backing_ c1 = cc_backing_ c) in Hb1.
    destruct (serve_transfers c1 st w reqs fb n b' st' fuel) as (c' & E & Hsv & Hb' & Hl');
      [done|done|done|by rewrite Hb1|by rewrite Hlat|].
    exists c'. unfold served_by, Cache_last_was_hit in *. rewrite E, Hlat, Hl', Hl1 in *.
    rewrite bool_decide_eq_false_2 by (by destruct Hcase as [[_ ->]|[_ ->]]). done.
Qed.
End Cost.

(** ** A concrete cache

    Two sets of one 16-byte line over a flat memory of latency 5. *)

Definition example_ram : FlatMem := FlatMem_new 0x80000000 96 5.

Definition example_cache (prefetch : bool) : Cache FlatMem TreePlru SequentialPrefetch :=
  mkCache example_ram 4 1 1 2 1 [Line_new; Line_new] (mkTreePlru 1 [0; 0])
    Idle 0 false 0 0 0 false (if prefetch then Some (mkSequentialPrefetch 16) else None)
    1 false 0 0 0 true.

Lemma example_cache_new prefetch :
  Cache_new example_ram 16 2 2 1 prefetch 1 true = Some (example_cache prefetch).
Proof. by destruct prefetch. Qed.

Lemma example_ram_inv : FlatMem_inv example_ram.
Proof.
  split; [split; [cbn; unfold is_u32; lia|]|cbn; lia|done]. cbn. by repeat constructor.
Qed.

Lemma example_cache_inv prefetch :
  Cache_inv (example_cache prefetch) /\ (prefetch = false -> no_prefetch (example_cache prefetch)).
Proof.
  destruct (Cache_new_inv example_ram 16 2 2 1 prefetch 1 true) as (c & E & Hc & _ & _ & _ & _ & Hp & _);
    [unfold is_u32; lia..|reflexivity|lia|exact example_ram_inv|].
  rewrite example_cache_new in E. injection E as <-. split; [done|].
  intros ->. split; [by apply Hp|done|by repeat constructor].
Qed.

Lemma Cache_access_cost_witness :
  exists c', serve 7 (example_cache false) SimStats_new 0x80000000 true =
      Some (7%nat, c', SimStats_new) /\
    served_by (example_cache false) 0x80000000 c' /\
    cc_backing_ c' = fm_with_timer example_ram false 0 /\ Cache_last_was_hit c' = false.
Proof.
  destruct (example_cache_inv false) as [Hinv Hn].
  exact (Cache_access_cost (example_cache false) SimStats_new 0x80000000 true [(0x80000000, false)]
    5 5 (fm_with_timer example_ram false 0) SimStats_new 7 Hinv (Hn eq_refl) eq_refl
    ltac:(unfold is_u32; lia) eq_refl eq_refl ltac:(cbn; lia)).
Defined.

(** ** Transparency and unique residency *)

(** C12: whatever its geometry and prefetch setting, a cache built over any
    memory that keeps the contract is invisible to the data path.  After any
    sequence of interface calls (stores, and timing calls in any order) it does
    not fault unless one of the stores is out of the backing range, a load of
    any width returns what the stores alone leave in a byte array, the
    pipeline's counters are untouched, and no line is cached in two ways. *)
Theorem Cache_transparent {B : Type} `{MemoryLaws B} (b : B)
    line_bytes sets hit_latency ways prefetch degree probe st os :
  is_u32 line_bytes -> is_u32 sets -> is_u32 ways -> 0 <= hit_latency < 2 ^ 31 ->
  geometry_ok line_bytes sets ways = true -> line_bytes * sets < 2 ^ 32 -> mem_inv b ->
  Forall op_wf os ->
  exists c, Cache_new b line_bytes sets hit_latency ways prefetch degree probe = Some c /\
    match ram_ops (mem_ram b) os with
    | None => run_ops c st os = None
    | Some r => exists c' st', run_ops c st os = Some (c', st') /\
        (forall a, is_u32 a -> load_word c' a = ram_load 4 r a /\
           load_half c' a = ram_load 2 r a /\ load_byte c' a = ram_load 1 r a) /\
        core_counters st' = core_counters st /\
        (forall a v w, resident c' a v -> resident c' a w -> v = w)
    end.
Proof.
  intros Hl Hs Hw Hlat Hg Hsz Hb Hos.
  destruct (Cache_new_inv b line_bytes sets hit_latency ways prefetch degree probe)
    as (c & E & Hc & Hbk & _); try done.
  exists c. split; [done|]. change (mem_inv c) in Hc.
  rewrite <- Hbk. change (mem_ram (cc_backing_ c)) with (mem_ram c).
  destruct (ram_ops (mem_ram c) os) as [r|] eqn:Er; [|by apply run_ops_fault].
  destruct (run_ops_ok c st os r Hc Hos Er) as (c' & st' & Erun & Hc' & Hr & Hst).
  exists c', st'. split_and!; try done.
  - intros a Ha. subst r. split_and!; [by apply load_word_ram|by apply load_half_ram|by apply load_byte_ram].
  - apply (cu_lines _ (proj2 Hc')).
Qed.

Lemma Cache_transparent_witness :
  exists c, Cache_new example_ram 16 2 2 1 true 1 true = Some c /\
    exists c' st', run_ops c SimStats_new
      [OpReady 0x80000000 false; OpTick; OpStoreWord 0x80000004 0x11223344; OpTick; OpTick]
      = Some (c', st') /\ load_half c' 0x80000006 = Some 0x1122.
Proof.
  destruct (Cache_transparent example_ram 16 2 2 1 true 1 true SimStats_new
    [OpReady 0x80000000 false; OpTick; OpStoreWord 0x80000004 0x11223344; OpTick; OpTick])
    as (c & E & Hrun); [unfold is_u32; lia..|reflexivity|lia|exact example_ram_inv|
      repeat constructor; cbn; unfold is_u32; lia|].
  exists c. split; [exact E|].
  set (r := ram_ops _ _) in Hrun. vm_compute in r. unfold r in Hrun.
  destruct Hrun as (c' & st' & Er & Hload & _). exists c', st'. split; [exact Er|].
  destruct (Hload 0x80000006 ltac:(unfold is_u32; lia)) as (_ & Eh & _). rewrite Eh.
  vm_compute. reflexivity.
Defined.

(** Splitting an address into set and tag and rebuilding it with
    [addr_of] (as a writeback does) gives the address of its line, and two
    addresses share a set and a tag exactly when they are in the same line. *)
Lemma Cache_addr_round_trip {B P F : Type} `{MemoryLaws B} `{EvictionLaws P} `{PrefetchLaws F}
    (c : Cache B P F) a b :
  Cache_wf c -> is_u32 a -> is_u32 b ->
  (exists t, Cache_tag_of c a = Some t /\
     Cache_addr_of c (Cache_index_of c a) t = Some (Cache_line_addr_of c a)) /\
  Cache_line_addr_of c a <= a < Cache_line_addr_of c a + 2 ^ cc_offset_bits_ c /\
  (Cache_index_of c a = Cache_index_of c b /\ Cache_tag_of c a = Cache_tag_of c b <->
   Cache_line_addr_of c a = Cache_line_addr_of c b).
Proof.
  intros Hc Ha Hb. rewrite !Cache_line_addr_of_spec, !Cache_index_of_spec, !Cache_tag_of_spec by done.
  assert (Hp : 0 < 2 ^ cc_offset_bits_ c) by (apply Z.pow_pos_nonneg; destruct Hc; lia).
  split_and!.
  - exists (tag c a). split; [done|].
    destruct (Cache_addr_of_spec c Hc (index c a) (tag c a)) as [-> _].
    + by apply index_range.
    + by apply tag_range.
    + f_equal. by rewrite (line_split c Hc a).
  - pose proof (Z.div_mod a (2 ^ cc_offset_bits_ c) ltac:(lia)).
    pose proof (Z.mod_pos_bound a (2 ^ cc_offset_bits_ c) Hp). lia.
  - pose proof (Z.div_mod a (2 ^ cc_offset_bits_ c) ltac:(lia)).
    pose proof (Z.mod_pos_bound a (2 ^ cc_offset_bits_ c) Hp). lia.
  - rewrite Z.mul_cancel_r by lia. rewrite (same_line c Hc). split.
    + intros [-> E]. by injection E as ->.
    + by intros [-> ->].
Qed.

(** ** The prefetch engine and dirty lines

    [maybe_start_prefetch] checks that the reserved victim is clean when the
    prefetch is queued, not when it is installed. *)

Definition access (a : Z) (w : bool) (n : nat) : list mem_op :=
  concat (replicate n [OpReady a w; OpTick]).

(** Load line 0, let its prefetch of line 1 finish, load line 1 (which queues
    line 2 into the way of line 0), then store to line 0. *)
Definition dirty_after_reservation : list mem_op :=
  access 0x80000000 false 6 ++ replicate 8 OpTick ++ access 0x80000010 false 2 ++
  access 0x80000000 true 1.

(** A line dirtied between the reservation and the installation is replaced
    with no flush: the only calls are idle ticks and hit waits. *)
Example dirty_line_dropped :
  exists c st c' st',
    run_ops (example_cache true) SimStats_new dirty_after_reservation = Some (c, st) /\
    Cache_line_at c 0 0 = Some (mkLine true true false 0x4000000) /\ cc_phase_ c = HitWait /\
    run_ops c st (replicate 5 OpTick) = Some (c', st') /\
    Cache_line_at c' 0 0 = Some (mkLine true false true 0x4000001) /\ cc_phase_ c' = Idle.
Proof.
  destruct (run_ops (example_cache true) SimStats_new dirty_after_reservation) as [[c st]|] eqn:E;
    vm_compute in E; [|done]. injection E as <- <-.
  eexists _, _, _, _. split; [reflexivity|]. split_and!; vm_compute; reflexivity.
Qed.

(** C38: a prefetch that arrives replaces the line it reserved, whatever has become
    of it.  The cycle that serves it installs the prefetched line, clean, in the
    reserved way and leaves the phase as it was: a line that a store has dirtied
    since the reservation gets no write-back phase, although the victim was
    checked to be clean when the prefetch was started. *)
Theorem prefetch_overwrites_dirty_line {B P F : Type} `{MemoryLaws B} `{EvictionLaws P} `{PrefetchLaws F}
    (c : Cache B P F) st b1 st1 L :
  Cache_wf c -> cc_pf_active_ c = true ->
  ready (cc_backing_ c) st (cc_pf_addr_ c) false = Some (true, b1, st1) ->
  Cache_line_at c (index c (cc_pf_addr_ c)) (cc_pf_way_ c) = Some L -> l_dirty L = true ->
  exists c' st', Cache_service_prefetch c st = Some (c', st') /\
    Cache_line_at c' (index c (cc_pf_addr_ c)) (cc_pf_way_ c) =
      Some (mkLine true false true (tag c (cc_pf_addr_ c))) /\
    cc_phase_ c' = cc_phase_ c.
Proof.
  intros Hc Ha Er _ _. unfold Cache_service_prefetch. rewrite Ha, Er. cbn [negb mbind option_bind].
  destruct (ready_ok (cc_backing_ c) st (cc_pf_addr_ c) false (ci_backing _ Hc) (ci_pf_addr _ Hc))
    as (? & ? & ? & E & Hb1 & Hr1 & _). rewrite Er in E. injection E as <- <- <-.
  set (c1 := c <| cc_backing_ := b1 |>).
  assert (Hc1 : Cache_wf c1) by (destruct Hc; by constructor).
  rewrite Cache_index_of_spec by done.
  destruct (install_line_ok c1 st1 (cc_pf_addr_ c1) (cc_pf_way_ c1) false true)
    as (lines & repl & st2 & -> & E & Hw2 & _); [done|apply Hc1|apply Hc1|]. cbn [mbind option_bind].
  set (c2 := c1 <| cc_lines_ := lines |> <| cc_repl_ := repl |> <| cc_pf_active_ := false |>).
  assert (Hl : Cache_line_at c2 (index c (cc_pf_addr_ c)) (cc_pf_way_ c) =
    Some (mkLine true false true (tag c (cc_pf_addr_ c)))).
  { pose proof (index_range c Hc (cc_pf_addr_ c)) as Hi.
    refine (eq_trans (line_at_write c1 lines repl _ _ _ _ _ Hc1 Hi Hi (ci_pf_way _ Hc) (ci_pf_way _ Hc) E) _).
    by rewrite decide_True. }
  destruct (chain_prefetch_ok c2) as (c3 & -> & Hw3 & Hout);
    [by apply inv_pf_inactive|by apply (ci_pf_active _ Hc)|done|]. cbn [mbind option_bind].
  assert (Hsame : cc_backing_ c3 = b1 /\ cc_phase_ c3 = cc_phase_ c /\
    Cache_line_at c3 (index c (cc_pf_addr_ c)) (cc_pf_way_ c) =
    Cache_line_at c2 (index c (cc_pf_addr_ c)) (cc_pf_way_ c)).
  { destruct Hout as [->|(? & ? & ? & ? & _ & _ & _ & _ & _ & ->)]; done. }
  destruct Hsame as (Hb3 & Hp3 & Hl3).
  destruct (tick_ok (cc_backing_ c3) st2) as (b4 & st3 & -> & _); [by rewrite Hb3|]. cbn [mbind option_bind].
  eexists _, _. split; [reflexivity|]. split; [|done]. rewrite <- Hl, <- Hl3. done.
Qed.

Lemma prefetch_overwrites_dirty_line_witness :
  exists c st c' st',
    run_ops (example_cache true) SimStats_new (dirty_after_reservation ++ [OpTick]) = Some (c, st) /\
    Cache_line_at c 0 0 = Some (mkLine true true false 0x4000000) /\
    Cache_service_prefetch c st = Some (c', st') /\
    Cache_line_at c' 0 0 = Some (mkLine true false true 0x4000001) /\ cc_phase_ c' = Idle.
Proof.
  assert (Hok : forallb (fun o => match o with OpReady a _ => (0 <=? a) && (a <? 2 ^ 32) | OpTick => true | _ => false end)
    (dirty_after_reservation ++ [OpTick]) = true) by (vm_compute; reflexivity).
  assert (Hos : Forall op_wf (dirty_after_reservation ++ [OpTick])).
  { apply Forall_forall. intros o Ho. apply list_elem_of_In in Ho.
    rewrite forallb_forall in Hok. specialize (Hok o Ho). destruct o; try done. cbn in Hok |- *. unfold is_u32. lia. }
  pose proof (proj1 (example_cache_inv true)) as Hi. change (mem_inv (example_cache true)) in Hi.
  destruct (run_ops_ok (example_cache true) SimStats_new _ (mem_ram (example_cache true)) Hi Hos eq_refl)
    as (c & st & E & Hc & _).
  assert (X : match run_ops (example_cache true) SimStats_new (dirty_after_reservation ++ [OpTick]) with
    | Some (c, st) =>
        ((cc_pf_active_ c, cc_pf_way_ c, index c (cc_pf_addr_ c), tag c (cc_pf_addr_ c)),
         (cc_phase_ c, Cache_line_at c 0 0),
         (fun '(b, _, _) => b) <$> ready (cc_backing_ c) st (cc_pf_addr_ c) false)
    | None => (false, 0, 0, 0, (Idle, None), None) end =
    ((true, 0, 0, 0x4000001), (Idle, Some (mkLine true true false 0x4000000)), Some true)) by (vm_compute; reflexivity).
  rewrite E in X. apply pair_equal_spec in X as [X X3]. apply pair_equal_spec in X as [X X2].
  apply pair_equal_spec in X2 as [X2 X4]. apply pair_equal_spec in X as [X X5].
  apply pair_equal_spec in X as [X X6]. apply pair_equal_spec in X as [X1 X7].
  destruct (ready (cc_backing_ c) st (cc_pf_addr_ c) false) as [[[b b1] st1]|] eqn:Er; [|discriminate X3].
  apply Some_inj in X3. cbn in X3. subst b.
  assert (Y : Cache_line_at c (index c (cc_pf_addr_ c)) (cc_pf_way_ c) = Some (mkLine true true false 0x4000000))
    by (rewrite X6, X7; exact X4).
  destruct (prefetch_overwrites_dirty_line c st b1 st1 _ (proj1 Hc) X1 Er Y eq_refl) as (c' & st' & Es & Hl & Hp).
  rewrite X6, X7, X5 in Hl. rewrite X2 in Hp.
  exists c, st, c', st'. exact (conj E (conj X4 (conj Es (conj Hl Hp)))).
Defined.
