(* ===== verification/PrefetchStats.v ===== *)
(** * What the prefetch counters mean

    [icache_prefetch_useful] and [icache_prefetch_useless] judge every line a
    prefetch has fetched once: when a demand access first touches it, or when it
    is evicted untouched.  The lines still unjudged are those cached with their
    prefetched mark; the three numbers add up to the prefetches completed. *)

From S2P Require Import Prelude Config Memory FlatMem TreePlru Geometry Cache CacheLaws CacheTiming.

(** ** Counting marked lines *)

Definition marked (L : Line) : Z := Z.b2z (l_prefetched L).

Fixpoint marks (lines : list Line) : Z :=
  match lines with [] => 0 | L :: lines => marked L + marks lines end.

Lemma marks_insert lines i L L' :
  lines !! i = Some L -> marks (<[i := L']> lines) = marks lines - marked L + marked L'.
Proof.
  revert i. induction lines as [|M lines IH]; intros [|i] E; try done.
  - injection E as ->. cbn. lia.
  - cbn in E |- *. rewrite IH by done. lia.
Qed.

Lemma marks_vset lines i L L' lines' :
  vget lines i = Some L -> vset lines i L' = Some lines' -> marks lines' = marks lines - marked L + marked L'.
Proof.
  unfold vget, vset. destruct (i <? 0); [done|]. cbn [orb]. destruct (_ <=? i); [done|].
  intros E [= <-]. by apply marks_insert.
Qed.

Lemma marks_range lines : 0 <= marks lines <= Z.of_nat (length lines).
Proof. induction lines as [|L lines IH]; cbn; [lia|]. unfold marked. destruct (l_prefetched L); cbn; lia. Qed.

(** ** The account *)

(** Prefetched lines judged so far. *)
Definition judged (st : SimStats) : Z := icache_prefetch_useful st + icache_prefetch_useless st.

Section Account.
Context {P F : Type} `{EvictionPolicy P} `{PrefetchPolicy F}.
Abbreviation cache := (Cache FlatMem P F).
Implicit Types (c : cache) (st : SimStats).

(** Prefetched lines cached and not yet judged. *)
Definition unjudged c : Z := marks (cc_lines_ c).

(** Only valid lines are marked, and the cache reports to the probe. *)
Definition probed c : Prop :=
  cc_probe_ c = true /\ Forall (fun L => l_prefetched L = true -> l_valid L = true) (cc_lines_ c).

Definition served c st (addr : Z) : bool :=
  match ready (cc_backing_ c) st addr false with Some (b, _, _) => b | None => false end.

(** Whether the next [tick] completes a prefetch. *)
Definition completes c st : bool :=
  match cc_phase_ c with
  | Idle | HitWait => cc_pf_active_ c && served c st (cc_pf_addr_ c)
  | PrefetchWait => served c st (cc_cur_addr_ c)
  | WriteBack | MissFetch => false
  end.

(** The prefetches completed during a sequence of calls. *)
Fixpoint completed c st (os : list mem_op) : Z :=
  match os with
  | [] => 0
  | o :: os =>
      Z.b2z (match o with OpTick => completes c st | _ => false end) +
      match run_op c st o with Some (c, st) => completed c st os | None => 0 end
  end.

(** From [c], [st] to [c'], [st'] the account grows by [n]. *)
Record grows c st (n : Z) c' st' : Prop := mkGrows {
  gr_probed : probed c';
  gr_account : u64 (judged st' + unjudged c') = u64 (judged st + unjudged c + n);
}.

Lemma grows_same c st c' st' :
  probed c -> cc_lines_ c' = cc_lines_ c -> cc_probe_ c' = cc_probe_ c -> st' = st -> grows c st 0 c' st'.
Proof using Type.
  intros [Hp Hl] El Ep ->. split; [split; [by rewrite Ep|by rewrite El]|]. unfold unjudged. by rewrite El, Z.add_0_r.
Qed.

Lemma grows_trans c1 st1 n c2 st2 m c3 st3 :
  grows c1 st1 n c2 st2 -> grows c2 st2 m c3 st3 -> grows c1 st1 (n + m) c3 st3.
Proof using Type.
  intros [_ E1] [Hp E2]. split; [done|]. rewrite E2. unfold u64 in *. revert E1. zdm.
Qed.

Lemma judged_useful st : u64 (judged (stats_prefetch_useful st)) = u64 (judged st + 1).
Proof using Type. unfold judged. cbn. unfold incr64, u64. zdm. Qed.
Lemma judged_useless st : u64 (judged (stats_prefetch_useless st)) = u64 (judged st + 1).
Proof using Type. unfold judged. cbn. unfold incr64, u64. zdm. Qed.

(** One line replaced, [k] lines judged. *)
Lemma grows_line c st i L L' lines c' st' k :
  probed c -> vget (cc_lines_ c) i = Some L -> vset (cc_lines_ c) i L' = Some lines ->
  (l_prefetched L' = true -> l_valid L' = true) ->
  cc_lines_ c' = lines -> cc_probe_ c' = cc_probe_ c -> u64 (judged st') = u64 (judged st + k) ->
  grows c st (k + marked L' - marked L) c' st'.
Proof using Type.
  intros [Hp Hl] EL Es Hm <- Ep Ej. split.
  - split; [by rewrite Ep|]. by apply (vset_Forall _ _ _ _ _ Hl Hm Es).
  - unfold unjudged. rewrite (marks_vset _ _ _ _ _ EL Es). unfold u64 in *. revert Ej. zdm.
Qed.

(** An installation judges the mark it overwrites and sets its own. *)
Lemma install_grows c st set way a iw fp c' st' :
  probed c -> Cache_install_line c st set way a iw fp = Some (c', st') -> grows c st (Z.b2z fp) c' st'.
Proof using Type.
  intros Hc E. unfold Cache_install_line, Cache_line_at, Cache_set_line in E.
  destruct (vget (cc_lines_ c) _) as [L|] eqn:EL; cbn [mbind option_bind] in E; [|done].
  destruct (Cache_tag_of c a) as [t|]; cbn [mbind option_bind] in E; [|done].
  destruct (vset (cc_lines_ c) _ _) as [lines|] eqn:Es; cbn [mbind option_bind] in E; [|done].
  destruct (touch _ _ _) as [repl|]; cbn [mbind option_bind] in E; [|done]. injection E as <- <-.
  destruct Hc as [Hp Hl]. rewrite Hp, andb_true_r. pose proof (vget_Forall _ _ _ _ Hl EL) as Hv. cbv beta in Hv.
  replace (Z.b2z fp) with (marked L + marked (mkLine true iw fp t) - marked L) by (unfold marked; cbn; lia).
  apply (grows_line c st _ L _ lines _ _ _ (conj Hp Hl) EL Es); try done. unfold marked.
  destruct (l_prefetched L); cbn [Z.b2z]; [|by rewrite andb_false_r, Z.add_0_r].
  rewrite Hv by done. apply judged_useless.
Qed.

(** The engine's bookkeeping leaves the account alone. *)
Lemma maybe_start_same c a c' :
  Cache_maybe_start_prefetch c a = Some c' -> cc_lines_ c' = cc_lines_ c /\ cc_probe_ c' = cc_probe_ c.
Proof using Type.
  unfold Cache_maybe_start_prefetch. intros E. destruct (cc_pf_policy_ c); [|by injection E as <-].
  destruct (cc_pf_active_ c); [by injection E as <-|]. inv_bind E.
  destruct (0 <=? _); [by injection E as <-|]. inv_bind E. inv_bind E.
  destruct (l_valid _ && l_dirty _); by injection E as <-.
Qed.

Lemma chain_same c c' :
  Cache_chain_prefetch c = Some c' -> cc_lines_ c' = cc_lines_ c /\ cc_probe_ c' = cc_probe_ c.
Proof using Type.
  unfold Cache_chain_prefetch. intros E. destruct (_ <? _); [|by injection E as <-]. inv_bind E. inv_bind E.
  destruct (_ <? 0); [|by injection E as <-]. inv_bind E. inv_bind E.
  destruct (negb _); by injection E as <-.
Qed.

Lemma start_miss_same c set c' :
  Cache_start_miss c set = Some c' -> cc_lines_ c' = cc_lines_ c /\ cc_probe_ c' = cc_probe_ c.
Proof using Type.
  unfold Cache_start_miss. intros E. inv_bind E.
  destruct (cc_pf_active_ c && _ && _); inv_bind E;
    (destruct (l_valid _ && l_dirty _); [inv_bind E|]; by injection E as <-).
Qed.

(** A demand hit judges the mark it clears. *)
Lemma start_hit_grows c st set way w c' st' :
  probed c -> Cache_start_hit c st set way w = Some (c', st') -> grows c st 0 c' st'.
Proof using Type.
  intros Hc E. unfold Cache_start_hit, Cache_line_at, Cache_set_line in E.
  destruct (vget (cc_lines_ c) _) as [L|] eqn:EL; cbn [mbind option_bind] in E; [|done].
  set (L1 := if w then L <| l_dirty := true |> else L) in *. cbv zeta in E.
  assert (Hm : l_prefetched L1 = l_prefetched L) by (subst L1; by destruct w). rewrite Hm in E.
  set (L2 := if l_prefetched L then L1 <| l_prefetched := false |> else L1) in *.
  destruct (vset (cc_lines_ c) _ _) as [lines|] eqn:Es; cbn [mbind option_bind] in E; [|done].
  destruct (touch _ _ _) as [repl|]; cbn [mbind option_bind] in E; [|done]. injection E as <- <-.
  assert (Hu : l_prefetched L2 = false) by (subst L2; destruct (l_prefetched L) eqn:El; [done|by rewrite Hm]).
  replace 0 with (marked L + marked L2 - marked L) by (unfold marked; rewrite Hu; cbn; lia).
  apply (grows_line c st _ L L2 lines _ _ _ Hc EL Es); try done; [by rewrite Hu|].
  rewrite (proj1 Hc), andb_true_r. unfold marked. destruct (l_prefetched L); cbn [Z.b2z]; [apply judged_useful|].
  by rewrite Z.add_0_r.
Qed.

Lemma ready_grows c st a w b c' st' :
  probed c -> Cache_ready c st a w = Some (b, c', st') -> grows c st 0 c' st'.
Proof using Type.
  intros Hc E. unfold Cache_ready in E. destruct (cc_phase_ c);
    [|injection E as _ <- <-; by apply grows_same..].
  destruct (Cache_start c st a w) as [[c1 st1]|] eqn:E1; cbn [mbind option_bind] in E; [|done].
  injection E as _ <- <-. unfold Cache_start in E1. inv_bind E1.
  match type of E1 with mbind _ ?m = _ => destruct m as [c2|] eqn:E2; cbn [mbind option_bind] in E1; [|done] end.
  apply maybe_start_same in E2 as [El Ep].
  change (cc_lines_ c2 = cc_lines_ c) in El. change (cc_probe_ c2 = cc_probe_ c) in Ep.
  assert (G : grows c st 0 c2 st) by by apply grows_same.
  destruct (cc_last_hit_ c2).
  - apply start_hit_grows in E1; [|apply G]. apply (grows_trans _ _ _ _ _ _ _ _ G E1).
  - destruct (cc_pf_active_ c2 && _); [injection E1 as <- <-; by apply grows_same|].
    match type of E1 with mbind _ ?m = _ => destruct m as [c3|] eqn:E3; cbn [mbind option_bind] in E1; [|done] end.
    injection E1 as <- <-. apply start_miss_same in E3 as [El3 Ep3]. apply grows_same; [done|congruence..].
Qed.

(** A flat memory keeps the statistics. *)
Lemma flat_statistics (m : FlatMem) st a w b m' st' : ready m st a w = Some (b, m', st') -> st' = st.
Proof using Type. cbn [ready FlatMem_IMemory]. destruct (FlatMem_ready m a w). by intros [= _ _ <-]. Qed.

Lemma served_ready c st addr b m st' :
  ready (cc_backing_ c) st addr false = Some (b, m, st') -> served c st addr = b /\ st' = st.
Proof using Type.
  unfold served. intros E. rewrite E. split; [done|]. by apply flat_statistics in E.
Qed.

Lemma service_grows c st c' st' :
  probed c -> Cache_service_prefetch c st = Some (c', st') ->
  grows c st (Z.b2z (cc_pf_active_ c && served c st (cc_pf_addr_ c))) c' st'.
Proof using Type.
  intros Hc E. unfold Cache_service_prefetch in E.
  destruct (cc_pf_active_ c); cbn [negb andb] in *; [|injection E as <- <-; by apply grows_same].
  destruct (ready (cc_backing_ c) st (cc_pf_addr_ c) false) as [[[b m] st1]|] eqn:Er;
    cbn [mbind option_bind] in E; [|done].
  apply served_ready in Er as [-> ->].
  assert (G : grows c st 0 (c <| cc_backing_ := m |>) st) by by apply grows_same.
  destruct b; cbn [Z.b2z].
  - match type of E with mbind _ (mbind _ ?x) = _ =>
      destruct x as [[c1 st1]|] eqn:E1; cbn [mbind option_bind] in E; [|done] end.
    apply install_grows in E1; [|apply G].
    match type of E with mbind _ (mbind _ ?x) = _ =>
      destruct x as [c2|] eqn:E2; cbn [mbind option_bind] in E; [|done] end.
    apply chain_same in E2 as [El Ep]. cbn in E. injection E as <- <-.
    apply (grows_trans _ _ _ _ _ _ _ _ G) in E1.
    assert (G2 : grows c1 st1 0 (c2 <| cc_backing_ := FlatMem_tick (cc_backing_ c2) |>) st1)
      by (apply grows_same; [apply E1|exact El|exact Ep|done]).
    exact (grows_trans _ _ _ _ _ _ _ _ E1 G2).
  - cbn in E. injection E as <- <-. by apply grows_same.
Qed.

Lemma fetch_grows c st c' st' on_install k :
  probed c -> Cache_fetch_line c st on_install = Some (c', st') ->
  (forall c st, probed c -> grows c st k (on_install c st).1 (on_install c st).2) ->
  grows c st (if served c st (cc_cur_addr_ c) then k else 0) c' st'.
Proof using Type.
  intros Hc E Hi. unfold Cache_fetch_line in E.
  destruct (ready (cc_backing_ c) st (cc_cur_addr_ c) false) as [[[b m] st1]|] eqn:Er;
    cbn [mbind option_bind] in E; [|done].
  apply served_ready in Er as [-> ->].
  assert (G : grows c st 0 (c <| cc_backing_ := m |>) st) by by apply grows_same.
  destruct b; [|cbn in E; injection E as <- <-; by apply grows_same].
  match type of E with mbind _ (mbind _ ?x) = _ =>
    destruct x as [[c1 st1]|] eqn:E1; cbn [mbind option_bind] in E; [|done] end.
  apply install_grows in E1; [|apply G]. specialize (Hi c1 st1 (gr_probed _ _ _ _ _ E1)).
  destruct (on_install c1 st1) as [c2 st2]. cbn in E, Hi. injection E as <- <-.
  apply (grows_trans _ _ _ _ _ _ _ _ G) in E1. apply (grows_trans _ _ _ _ _ _ _ _ E1) in Hi.
  destruct Hi as [Hp Ha]. split; [exact Hp|exact Ha].
Qed.

Lemma tick_grows c st c' st' :
  probed c -> Cache_tick c st = Some (c', st') -> grows c st (Z.b2z (completes c st)) c' st'.
Proof using Type.
  intros Hc E. unfold Cache_tick, completes in *. destruct (cc_phase_ c).
  - by apply service_grows.
  - set (c1 := if 0 <? cc_hit_remaining_ c then _ else _) in E. cbv zeta in E.
    assert (G : grows c st 0 c1 st) by (subst c1; by destruct (0 <? _); apply grows_same).
    apply service_grows in E; [|apply G]. apply (grows_trans _ _ _ _ _ _ _ _ G) in E.
    rewrite Z.add_0_l in E. subst c1. by destruct (0 <? _).
  - destruct (ready (cc_backing_ c) st (cc_wb_addr_ c) true) as [[[b m] st1]|] eqn:Er;
      cbn [mbind option_bind] in E; [|done].
    apply flat_statistics in Er as ->. cbn in E. injection E as <- <-. by destruct b; apply grows_same.
  - apply (fetch_grows c st c' st' (fun c st => (c, st)) 0 Hc) in E; [|intros; by apply grows_same].
    by destruct (served c st (cc_cur_addr_ c)).
  - apply (fetch_grows c st c' st' _ 1 Hc) in E; [by destruct (served c st (cc_cur_addr_ c))|].
    intros c1 st1 [Hp Hl]. split; [done|]. rewrite Hp. unfold unjudged. cbn.
    pose proof (judged_useful st1) as Hj. unfold u64 in *. revert Hj. zdm.
Qed.

Lemma op_grows c st o c' st' :
  probed c -> run_op c st o = Some (c', st') ->
  grows c st (Z.b2z (match o with OpTick => completes c st | _ => false end)) c' st'.
Proof using Type.
  intros Hc E. destruct o; cbn [run_op] in E.
  - destruct (ready c st _ _) as [[[b c1] st1]|] eqn:Er; cbn [mbind option_bind] in E; [|done].
    injection E as <- <-. by apply ready_grows in Er.
  - by apply tick_grows.
  - inv_bind E. injection E as <- <-. cbn in E0. inv_bind E0. injection E0 as <-. by apply grows_same.
  - inv_bind E. injection E as <- <-. cbn in E0. inv_bind E0. injection E0 as <-. by apply grows_same.
  - inv_bind E. injection E as <- <-. cbn in E0. inv_bind E0. injection E0 as <-. by apply grows_same.
Qed.

Lemma run_grows c st os c' st' :
  probed c -> run_ops c st os = Some (c', st') -> grows c st (completed c st os) c' st'.
Proof using Type.
  revert c st. induction os as [|o os IH]; intros c st Hc E; cbn [run_ops completed] in *.
  { injection E as <- <-. by apply grows_same. }
  destruct (run_op c st o) as [[c1 st1]|] eqn:E1; cbn [mbind option_bind] in E; [|done].
  apply op_grows in E1; [|done]. apply (grows_trans _ _ _ _ _ _ _ _ E1). apply IH; [apply E1|done].
Qed.
End Account.

Lemma Cache_new_probed (b : FlatMem) line_bytes sets hit_latency ways prefetch degree c :
  Cache_new b line_bytes sets hit_latency ways prefetch degree true = Some c -> probed c /\ unjudged c = 0.
Proof.
  intros En. unfold Cache_new in En. inv_binds. simplify_eq. unfold probed, unjudged. cbn [cc_probe_ cc_lines_].
  split; [split; [done|]|].
  - apply Forall_replicate. done.
  - generalize (Z.to_nat (sets * ways)). intros n. induction n as [|n IH]; [done|]. cbn. by rewrite IH.
Qed.

(** C24: the prefetch counters are exact.  Over any sequence of calls to a new
    probed cache, the lines counted useful, the lines counted useless and the
    marked lines still cached are together the prefetches completed: each
    prefetched line is judged at most once, and none is lost. *)
Theorem Cache_prefetch_outcomes (b : FlatMem) line_bytes sets hit_latency ways prefetch degree c os c' st' :
  Cache_new b line_bytes sets hit_latency ways prefetch degree true = Some c ->
  run_ops c SimStats_new os = Some (c', st') ->
  u64 (icache_prefetch_useful st' + icache_prefetch_useless st' + unjudged c') =
    u64 (completed c SimStats_new os) /\
  0 <= unjudged c' <= Z.of_nat (length (cc_lines_ c')).
Proof.
  intros En Er. apply Cache_new_probed in En as [Hp Hz].
  destruct (run_grows c SimStats_new os c' st' Hp Er) as [_ Ha].
  split; [|apply marks_range]. fold (judged st'). rewrite Ha, Hz. change (judged SimStats_new) with 0. by rewrite !Z.add_0_l.
Qed.

(** One prefetch completes and the access to its line judges it useful. *)
Lemma Cache_prefetch_outcomes_witness :
  exists c' st', run_ops (example_cache true) SimStats_new dirty_after_reservation = Some (c', st') /\
    u64 (icache_prefetch_useful st' + icache_prefetch_useless st' + unjudged c') =
      u64 (completed (example_cache true) SimStats_new dirty_after_reservation) /\
    completed (example_cache true) SimStats_new dirty_after_reservation = 1 /\ icache_prefetch_useful st' = 1.
Proof.
  destruct (run_ops (example_cache true) SimStats_new dirty_after_reservation) as [[c' st']|] eqn:E.
  - assert (X : match run_ops (example_cache true) SimStats_new dirty_after_reservation with
      | Some (_, st') => (completed (example_cache true) SimStats_new dirty_after_reservation, icache_prefetch_useful st')
      | None => (0, 0) end = (1, 1)) by (vm_compute; reflexivity).
    rewrite E in X. apply pair_equal_spec in X as [X1 X2]. exists c', st'.
    destruct (Cache_prefetch_outcomes example_ram 16 2 2 1 true 1 (example_cache true) dirty_after_reservation c' st'
      (example_cache_new true) E) as [Hj _].
    exact (conj eq_refl (conj Hj (conj X1 X2))).
  - assert (X : match run_ops (example_cache true) SimStats_new dirty_after_reservation with
      | Some _ => true | None => false end = true) by (vm_compute; reflexivity).
    by rewrite E in X.
Defined.
