(* ===== verification/MemoryLive.v ===== *)
(** * Memories answer

    A second contract on the memories: every request is served after a bounded
    number of clock cycles, whatever was asked before and whatever the client
    does between two requests.  [delay] bounds the wait from the present state,
    [worst] bounds it from any state of the same memory.  The flat memory keeps
    the contract, and so does a cache over any memory that keeps it. *)

From S2P Require Import Prelude Config Memory FlatMem TreePlru Cache CacheLaws.
From S2P Require Import Geometry CacheTiming.

Class MemoryLive (M : Type) `{MemoryLaws M} := {
  live : M -> Prop;
  delay : M -> Z;
  worst : M -> Z;
  delay_range m : mem_inv m -> live m -> 0 <= delay m <= worst m;
  ready_live m st a w b m' st' :
    mem_inv m -> live m -> is_u32 a -> ready m st a w = Some (b, m', st') ->
    live m' /\ worst m' = worst m;
  tick_live m st m' st' :
    mem_inv m -> live m -> tick m st = Some (m', st') -> live m' /\ worst m' = worst m;
  store_live m a v m' :
    live m ->
    store_word m a v = Some m' \/ store_half m a v = Some m' \/ store_byte m a v = Some m' ->
    live m' /\ worst m' = worst m;
  unserved_delay m st a w m1 st1 st2 m2 st3 :
    mem_inv m -> live m -> is_u32 a ->
    ready m st a w = Some (false, m1, st1) -> tick m1 st2 = Some (m2, st3) ->
    delay m2 < delay m;
}.

(** ** Flat memory *)

Definition FlatMem_delay (m : FlatMem) : Z :=
  if fm_serving_ m then fm_remaining_ m else fm_latency_ m - 1.

Lemma FlatMem_store_fields m a v m' :
  store_word m a v = Some m' \/ store_half m a v = Some m' \/ store_byte m a v = Some m' ->
  fm_latency_ m' = fm_latency_ m.
Proof.
  cbn [store_word store_half store_byte FlatMem_IMemory].
  unfold FlatMem_store_word, FlatMem_store_half, FlatMem_store_byte.
  intros [E|[E|E]]; inv_binds; by simplify_eq.
Qed.

#[export, refine] Instance FlatMem_live : MemoryLive FlatMem := {
  live m := True;
  delay := FlatMem_delay;
  worst m := fm_latency_ m - 1;
}.
Proof.
  - intros m [_ Hl Ht] _. unfold FlatMem_delay. destruct (fm_serving_ m); [specialize (Ht eq_refl)|]; lia.
  - intros m st a w b m' st' _ _ _ E. cbn in E. unfold FlatMem_ready in E.
    destruct (fm_serving_ m); by injection E as <- <- <-.
  - intros m st m' st' _ _ E. cbn in E. unfold FlatMem_tick in E. injection E as <- <-.
    by repeat case_match.
  - intros m a v m' _ E. by rewrite (FlatMem_store_fields m a v m' E).
  - intros m st a w m1 st1 st2 m2 st3 [_ Hl Ht] _ _ E1 E2. cbn in E1, E2.
    unfold FlatMem_ready, FlatMem_tick, FlatMem_delay in *. injection E2 as <- <-.
    destruct (fm_serving_ m) eqn:Es; cbn [negb] in E1; injection E1 as Eb <- <-.
    + specialize (Ht eq_refl). rewrite Es. cbn [negb]. apply Z.eqb_neq in Eb.
      destruct (Z.ltb_spec 0 (fm_remaining_ m)); cbn; lia.
    + cbn in *. rewrite s32_id in * by lia. apply Z.eqb_neq in Eb.
      destruct (Z.ltb_spec 0 (fm_latency_ m - 1)); cbn; lia.
Defined.

(** ** Cache *)

Section Cache.
Context {B P F : Type} `{MemoryLive B} `{EvictionLaws P} `{PrefetchLaws F}.
Abbreviation cache := (Cache B P F).
Implicit Type c : cache.

(** A miss with a dirty victim waits for two transfers, then a hit. *)
Definition Cache_worst c : Z := 2 * worst (cc_backing_ c) + 1 + cc_hit_latency_ c.

Definition Cache_delay c : Z :=
  match cc_phase_ c with
  | Idle => Cache_worst c
  | HitWait => cc_hit_remaining_ c
  | WriteBack => delay (cc_backing_ c) + 1 + worst (cc_backing_ c) + cc_hit_latency_ c
  | MissFetch | PrefetchWait => delay (cc_backing_ c) + cc_hit_latency_ c
  end.

Record Cache_live_inv c : Prop := mkCacheLive {
  cl_backing : live (cc_backing_ c);
  cl_wait : cc_phase_ c = HitWait -> 0 <= cc_hit_remaining_ c < cc_hit_latency_ c;
}.

(** The parts of a cache that liveness looks at are written in few places. *)
Definition same_timing c c' : Prop :=
  cc_backing_ c' = cc_backing_ c /\ cc_hit_latency_ c' = cc_hit_latency_ c /\
  cc_phase_ c' = cc_phase_ c /\ cc_hit_remaining_ c' = cc_hit_remaining_ c.

#[local] Instance same_timing_refl : Reflexive same_timing.
Proof using Type. by intros c. Qed.

Lemma same_timing_trans c1 c2 c3 : same_timing c1 c2 -> same_timing c2 c3 -> same_timing c1 c3.
Proof using Type. intros (? & ? & ? & ?) (? & ? & ? & ?). split_and!; congruence. Qed.

Lemma install_line_timing c st s w a iw fp c' st' :
  Cache_install_line c st s w a iw fp = Some (c', st') -> same_timing c c'.
Proof using Type. unfold Cache_install_line, Cache_set_line. intros E. inv_binds. by simplify_eq. Qed.

Lemma maybe_start_prefetch_timing c a c' : Cache_maybe_start_prefetch c a = Some c' -> same_timing c c'.
Proof using Type.
  unfold Cache_maybe_start_prefetch. destruct (cc_pf_policy_ c); [|by intros [= <-]].
  destruct (cc_pf_active_ c); [by intros [= <-]|]. intros E. inv_bind E.
  destruct (0 <=? _); [by injection E as <-|]. inv_bind E. inv_bind E.
  by destruct (_ && _); injection E as <-.
Qed.

Lemma chain_prefetch_timing c c' : Cache_chain_prefetch c = Some c' -> same_timing c c'.
Proof using Type.
  unfold Cache_chain_prefetch. destruct (_ <? _); [|by intros [= <-]]. intros E. inv_bind E. inv_bind E.
  destruct (_ <? 0); [|by injection E as <-]. inv_bind E. inv_bind E.
  by destruct (negb _); injection E as <-.
Qed.

(** *** [ready] *)

Lemma start_timing c st a w c' st' :
  Cache_start c st a w = Some (c', st') ->
  cc_backing_ c' = cc_backing_ c /\ cc_hit_latency_ c' = cc_hit_latency_ c /\
  (cc_phase_ c' = HitWait /\ cc_hit_remaining_ c' = s32 (cc_hit_latency_ c) - 1 \/
   cc_phase_ c' = WriteBack \/ cc_phase_ c' = MissFetch \/ cc_phase_ c' = PrefetchWait).
Proof using Type.
  unfold Cache_start. intros E. inv_bind E.
  destruct (Cache_maybe_start_prefetch _ a) as [c1|] eqn:Ep; cbn [mbind option_bind] in E; [|done].
  apply maybe_start_prefetch_timing in Ep as (Hb & Hl & _). cbn in Hb, Hl.
  destruct (cc_last_hit_ c1).
  - unfold Cache_start_hit, Cache_set_line in E. inv_binds. simplify_eq. cbn.
    rewrite Hb, Hl. split_and!; [done..|]. by left.
  - destruct (_ && _); [injection E as <- <-; cbn; rewrite Hb, Hl; by auto 6|].
    inv_bind E. injection E as <- <-. revert E1. unfold Cache_start_miss. intros E. inv_bind E.
    set (c2 := if (_ && _) : bool then _ else _) in E.
    assert (Hc2 : cc_backing_ c2 = cc_backing_ c /\ cc_hit_latency_ c2 = cc_hit_latency_ c)
      by (subst c2; by destruct (_ && _)).
    clearbody c2. inv_bind E. destruct (_ && _); [inv_bind E|]; injection E as <-; cbn;
      destruct Hc2; split_and!; auto.
Qed.

Lemma ready_timing c st a w b c' st' :
  Cache_wf c -> Cache_live_inv c -> Cache_ready c st a w = Some (b, c', st') ->
  Cache_live_inv c' /\ cc_backing_ c' = cc_backing_ c /\ cc_hit_latency_ c' = cc_hit_latency_ c /\
  (cc_phase_ c' = cc_phase_ c /\ cc_hit_remaining_ c' = cc_hit_remaining_ c \/
   cc_phase_ c = Idle /\ cc_phase_ c' <> Idle) /\ cc_phase_ c' <> Idle /\
  (b = false -> cc_phase_ c' = HitWait -> cc_hit_remaining_ c' <> 0).
Proof using Type.
  intros Hc [Hlv Hwt] E. pose proof (ci_latency _ Hc) as Hlat. unfold Cache_ready in E.
  assert (Hb : forall c : cache,
    (match cc_phase_ c with HitWait => cc_hit_remaining_ c =? 0 | _ => false end) = false ->
    cc_phase_ c = HitWait -> cc_hit_remaining_ c <> 0).
  { intros c0 Eb Ep. rewrite Ep in Eb. by apply Z.eqb_neq. }
  destruct (decide (cc_phase_ c = Idle)) as [Ed|Ed].
  2:{ assert (E' : (match cc_phase_ c with HitWait => cc_hit_remaining_ c =? 0 | _ => false end) = b /\
        c = c') by
        (destruct (cc_phase_ c) eqn:Ep; [done|cbn in E; rewrite Ep in E; by injection E as <- <- <-..]).
      destruct E' as [Eb <-]. split; [done|]. split_and!; auto. intros Hf. apply Hb. by rewrite Eb. }
  rewrite Ed in E.
  destruct (Cache_start c st a w) as [[c1 st1]|] eqn:Es; cbn [mbind option_bind] in E; [|done].
  injection E as <- <- <-. destruct (start_timing _ _ _ _ _ _ Es) as (E1 & E2 & E3).
  split; [|split_and!; try done].
  - constructor; [by rewrite E1|]. intros Ep1. rewrite E2. rewrite s32_id in E3 by lia.
    destruct E3 as [[_ E3]|E3]; [lia|]. by rewrite Ep1 in E3; destruct E3 as [?|[?|?]].
  - right. split; [done|]. by destruct E3 as [[-> _]|[->|[->| ->]]].
  - by destruct E3 as [[-> _]|[->|[->| ->]]].
  - apply Hb.
Qed.

(** *** [tick] *)

Lemma service_prefetch_timing c st c' st' :
  Cache_wf c -> live (cc_backing_ c) -> Cache_service_prefetch c st = Some (c', st') ->
  live (cc_backing_ c') /\ worst (cc_backing_ c') = worst (cc_backing_ c) /\
  cc_hit_latency_ c' = cc_hit_latency_ c /\ cc_phase_ c' = cc_phase_ c /\
  cc_hit_remaining_ c' = cc_hit_remaining_ c.
Proof using Type.
  intros Hc Hl E. unfold Cache_service_prefetch in E.
  destruct (negb (cc_pf_active_ c)); [by injection E as <- <-|].
  destruct (ready (cc_backing_ c) st (cc_pf_addr_ c) false) as [[[served b1] st1]|] eqn:Er;
    cbn [mbind option_bind] in E; [|done].
  destruct (ready_live _ _ _ _ _ _ _ (ci_backing _ Hc) Hl (ci_pf_addr _ Hc) Er) as [Hl1 Hw1].
  destruct (ready_ok (cc_backing_ c) st (cc_pf_addr_ c) false (ci_backing _ Hc) (ci_pf_addr _ Hc))
    as (? & ? & ? & Er' & Hb1 & _). rewrite Er in Er'. injection Er' as <- <- <-.
  match type of E with mbind _ ?m = _ => destruct m as [[c2 st2]|] eqn:E2 end;
    cbn [mbind option_bind] in E; [|done].
  assert (Ht : same_timing (c <| cc_backing_ := b1 |>) c2).
  { destruct served; [|by injection E2 as <- <-]. inv_bind E2. destruct p as [c3 st3].
    cbn in E2. inv_bind E2. injection E2 as <- <-.
    eapply same_timing_trans; [by eapply install_line_timing|]. by apply chain_prefetch_timing in E1. }
  destruct Ht as (Eb & El & Ep & Eh). cbn in Eb, El, Ep, Eh. rewrite Eb in E.
  destruct (tick b1 st2) as [[b3 st3]|] eqn:Etk; cbn [mbind option_bind] in E; [|done].
  injection E as <- <-. destruct (tick_live _ _ _ _ Hb1 Hl1 Etk) as [Hl3 Hw3].
  cbn. split_and!; congruence.
Qed.

(** One round of a transfer with the backing memory. *)
Lemma transfer_round (b : B) st a w served b1 st1 st2 b2 st3 :
  mem_inv b -> live b -> is_u32 a ->
  ready b st a w = Some (served, b1, st1) -> tick b1 st2 = Some (b2, st3) ->
  mem_inv b1 /\ mem_inv b2 /\ live b2 /\ worst b2 = worst b /\ 0 <= delay b2 <= worst b /\
  (served = false -> delay b2 < delay b).
Proof using Type.
  intros Hb Hl Ha Er Et.
  destruct (ready_live _ _ _ _ _ _ _ Hb Hl Ha Er) as [Hl1 Hw1].
  destruct (ready_ok b st a w Hb Ha) as (? & ? & ? & Er' & Hb1 & _). rewrite Er in Er'.
  injection Er' as <- <- <-.
  destruct (tick_live _ _ _ _ Hb1 Hl1 Et) as [Hl2 Hw2].
  destruct (tick_ok b1 st2 Hb1) as (? & ? & Et' & Hb2 & _). rewrite Et in Et'. injection Et' as <- <-.
  pose proof (delay_range b2 Hb2 Hl2). assert (worst b2 = worst b) by congruence.
  split_and!; try done; try lia. intros ->. by eapply unserved_delay.
Qed.

Lemma fetch_line_timing c st f c' st' :
  Cache_wf c -> live (cc_backing_ c) ->
  (forall c st, same_timing c (f c st).1) ->
  cc_phase_ c = MissFetch \/ cc_phase_ c = PrefetchWait ->
  Cache_fetch_line c st f = Some (c', st') ->
  live (cc_backing_ c') /\ worst (cc_backing_ c') = worst (cc_backing_ c) /\
  cc_hit_latency_ c' = cc_hit_latency_ c /\
  (cc_phase_ c' = HitWait /\ cc_hit_remaining_ c' = cc_hit_latency_ c - 1 \/
   cc_phase_ c' = cc_phase_ c /\ delay (cc_backing_ c') < delay (cc_backing_ c)).
Proof using Type.
  intros Hc Hl Hf Hp E. pose proof (ci_latency _ Hc) as Hlat. unfold Cache_fetch_line in E.
  destruct (ready (cc_backing_ c) st (cc_cur_addr_ c) false) as [[[served b1] st1]|] eqn:Er;
    cbn [mbind option_bind] in E; [|done].
  match type of E with mbind _ ?m = _ => destruct m as [[c2 st2]|] eqn:E2 end;
    cbn [mbind option_bind] in E; [|done].
  assert (Ht : cc_backing_ c2 = b1 /\ cc_hit_latency_ c2 = cc_hit_latency_ c /\
    if served then cc_phase_ c2 = HitWait /\ cc_hit_remaining_ c2 = cc_hit_latency_ c - 1
    else cc_phase_ c2 = cc_phase_ c).
  { destruct served; [|by injection E2 as <- <-]. inv_bind E2. destruct p as [c3 st3].
    cbn in E2. specialize (Hf c3 st3). destruct (f c3 st3) as [c4 st4]. injection E2 as <- <-.
    apply install_line_timing in E0 as (Eb & El & _). cbn in Eb, El. destruct Hf as (Eb4 & El4 & _).
    cbn in *. rewrite s32_id by (rewrite El4, El; lia). split_and!; congruence. }
  destruct Ht as (Eb & El & Ep). rewrite Eb in E.
  destruct (tick b1 st2) as [[b3 st3]|] eqn:Etk; cbn [mbind option_bind] in E; [|done].
  destruct (transfer_round _ _ _ _ _ _ _ _ _ _ (ci_backing _ Hc) Hl (ci_cur _ Hc) Er Etk)
    as (_ & _ & Hl3 & Hw3 & _ & Hlt).
  injection E as <- <-. cbn. split_and!; [done|done|done|]. destruct served; [by left|right]. auto.
Qed.

(** What a tick does to the wait, by phase. *)
Lemma tick_timing c st c' st' :
  Cache_wf c -> Cache_live_inv c -> Cache_tick c st = Some (c', st') ->
  Cache_live_inv c' /\ Cache_worst c' = Cache_worst c /\
  (cc_phase_ c = Idle \/ (cc_phase_ c = HitWait /\ cc_hit_remaining_ c = 0) \/
   Cache_delay c' < Cache_delay c).
Proof using Type.
  intros Hc [Hl Hwt] E. pose proof (ci_latency _ Hc) as Hlat. unfold Cache_tick in E.
  destruct (cc_phase_ c) eqn:Ep.
  - apply service_prefetch_timing in E as (Hl' & Hw' & Ht' & Hp' & _); [|done..].
    split; [constructor; [done|by rewrite Hp', Ep]|]. unfold Cache_worst. rewrite Hw', Ht'. by auto.
  - set (c1 := if _ <? _ then _ else _) in E. specialize (Hwt eq_refl).
    assert (H1' : cc_backing_ c1 = cc_backing_ c /\ cc_hit_latency_ c1 = cc_hit_latency_ c /\ Cache_wf c1 /\
      (if 0 <? cc_hit_remaining_ c
       then cc_phase_ c1 = HitWait /\ cc_hit_remaining_ c1 = cc_hit_remaining_ c - 1
       else cc_phase_ c1 = Idle)).
    { subst c1. destruct (0 <? _); (split_and!; [done|done|destruct Hc; by constructor|..]); done. }
    clearbody c1. destruct H1' as (Eb & El & Hc1 & Hcase).
    apply service_prefetch_timing in E as (Hl' & Hw' & Ht' & Hp' & Hr'); [|done|by rewrite Eb].
    unfold Cache_worst. rewrite Hw', Ht', Eb, El. unfold Cache_delay. rewrite Hp', Hr', Ep.
    destruct (Z.ltb_spec 0 (cc_hit_remaining_ c)).
    + destruct Hcase as [-> Hr]. split; [constructor; [done|intros _; lia]|]. split; [done|]. lia.
    + split; [constructor; [done|by rewrite Hp', Hcase]|]. split; [done|]. right; left. split; [done|lia].
  - destruct (ready (cc_backing_ c) st (cc_wb_addr_ c) true) as [[[served b1] st1]|] eqn:Er;
      cbn [mbind option_bind] in E; [|done].
    set (c1 := if served then _ else _) in E.
    assert (H1' : cc_backing_ c1 = b1 /\ cc_hit_latency_ c1 = cc_hit_latency_ c /\
      cc_phase_ c1 = if served then MissFetch else WriteBack) by (subst c1; by destruct served).
    clearbody c1. destruct H1' as (Eb & El & Ep1). rewrite Eb in E.
    destruct (tick b1 st1) as [[b3 st3]|] eqn:Etk; cbn [mbind option_bind] in E; [|done].
    destruct (transfer_round _ _ _ _ _ _ _ _ _ _ (ci_backing _ Hc) Hl (ci_wb _ Hc) Er Etk)
      as (_ & _ & Hl3 & Hw3 & Hd3 & Hlt).
    injection E as <- <-. split; [constructor; [done|cbn; rewrite Ep1; by destruct served]|].
    unfold Cache_worst, Cache_delay. cbn. rewrite Ep, Ep1, El, Hw3. split; [done|]. right; right.
    pose proof (delay_range _ (ci_backing _ Hc) Hl).
    destruct served; [lia|]. specialize (Hlt eq_refl). lia.
  - apply fetch_line_timing in E as (Hl' & Hw' & Ht' & Hp'); [|done|done|done|by left].
    unfold Cache_worst, Cache_delay. rewrite Hw', Ht', Ep.
    pose proof (delay_range _ (ci_backing _ Hc) Hl).
    destruct Hp' as [[Hp' Hr']|[Hp' Hd']]; (split; [constructor; [done|rewrite Hp', ?Ep, ?Hr', ?Ht'; done || lia]|]);
      (split; [done|]); rewrite Hp', ?Ep; lia.
  - apply fetch_line_timing in E as (Hl' & Hw' & Ht' & Hp'); [|done|done|by intros ? ?|by right].
    unfold Cache_worst, Cache_delay. rewrite Hw', Ht', Ep.
    pose proof (delay_range _ (ci_backing _ Hc) Hl).
    destruct Hp' as [[Hp' Hr']|[Hp' Hd']]; (split; [constructor; [done|rewrite Hp', ?Ep, ?Hr', ?Ht'; done || lia]|]);
      (split; [done|]); rewrite Hp', ?Ep; lia.
Qed.

#[export, refine] Instance Cache_live : MemoryLive cache := {
  live := Cache_live_inv;
  delay := Cache_delay;
  worst := Cache_worst;
}.
Proof using All.
  - intros c [Hc _] [Hl Hw]. pose proof (ci_latency _ Hc). pose proof (delay_range _ (ci_backing _ Hc) Hl).
    unfold Cache_delay, Cache_worst. destruct (cc_phase_ c); try lia. specialize (Hw eq_refl). lia.
  - intros c st a w b c' st' [Hc _] Hl _ E.
    destruct (ready_timing _ _ _ _ _ _ _ Hc Hl E) as (Hl' & Eb & El & _).
    split; [done|]. unfold Cache_worst. by rewrite Eb, El.
  - intros c st c' st' [Hc _] Hl E. by destruct (tick_timing _ _ _ _ Hc Hl E) as (? & ? & _).
  - intros c a v c' [Hl Hw] E.
    assert (Hx : exists b, c' = c <| cc_backing_ := b |> /\
      (store_word (cc_backing_ c) a v = Some b \/ store_half (cc_backing_ c) a v = Some b \/
       store_byte (cc_backing_ c) a v = Some b)).
    { cbn [store_word store_half store_byte Cache_IMemory] in E.
      unfold Cache_store_word, Cache_store_half, Cache_store_byte, Cache_delegate in E.
      destruct E as [E|[E|E]]; inv_binds; eauto. }
    destruct Hx as (b & -> & Hs). apply (store_live _ a v b Hl) in Hs as [Hl' Hw'].
    split; [by constructor|]. unfold Cache_worst. cbn. by rewrite Hw'.
  - intros c st a w c1 st1 st2 c2 st3 [Hc Hu] Hl Ha E1 E2.
    destruct (ready_timing _ _ _ _ _ _ _ Hc Hl E1) as (Hl1 & Eb & El & Hph & Hne & Hrem).
    destruct (Cache_ready_ok c st a w (conj Hc Hu) Ha) as (? & ? & ? & E1' & Hk & _).
    cbn in E1. rewrite E1 in E1'. injection E1' as <- <- <-. destruct Hk as [Hc1 Hu1].
    destruct (tick_timing _ _ _ _ Hc1 Hl1 E2) as (Hl2 & Hw2 & [?|[[? ?]|Hlt]]);
      [done|by destruct (Hrem eq_refl)|].
    destruct Hph as [[Hp Hr]|[Hp _]].
    + assert (Cache_delay c1 = Cache_delay c); [|lia].
      unfold Cache_delay, Cache_worst. by rewrite Hp, Hr, Eb, El.
    + assert (Cache_delay c1 <= Cache_delay c); [|lia].
      assert (Hw1 : Cache_worst c1 = Cache_worst c) by (unfold Cache_worst; by rewrite Eb, El).
      unfold Cache_delay at 2. rewrite Hp, <- Hw1. pose proof (ci_latency _ Hc1).
      destruct Hl1 as [Hl1 Hwt1]. pose proof (delay_range _ (ci_backing _ Hc1) Hl1).
      unfold Cache_delay, Cache_worst. destruct (cc_phase_ c1); try lia. specialize (Hwt1 eq_refl). lia.
Defined.
End Cache.

(** ** Serving terminates *)

Section Serve.
Context {M : Type} `{MemoryLive M}.

Lemma round_keeps (m : M) st a w b m1 st1 st2 m2 st3 :
  mem_inv m -> live m -> is_u32 a ->
  ready m st a w = Some (b, m1, st1) -> tick m1 st2 = Some (m2, st3) ->
  mem_inv m2 /\ live m2 /\ worst m2 = worst m /\ mem_ram m2 = mem_ram m.
Proof using Type.
  intros Hm Hl Ha Er Et. destruct (ready_live _ _ _ _ _ _ _ Hm Hl Ha Er) as [Hl1 Hw1].
  destruct (ready_ok m st a w Hm Ha) as (? & ? & ? & Er' & Hm1 & Hr1 & _).
  rewrite Er in Er'. injection Er' as <- <- <-.
  destruct (tick_live _ _ _ _ Hm1 Hl1 Et) as [Hl2 Hw2].
  destruct (tick_ok m1 st2 Hm1) as (? & ? & Et' & Hm2 & Hr2 & _).
  rewrite Et in Et'. injection Et' as <- <-. split_and!; congruence.
Qed.

Lemma serve_bound (m : M) st a w fuel :
  mem_inv m -> live m -> is_u32 a -> delay m < Z.of_nat fuel ->
  exists n m' st', serve fuel m st a w = Some (n, m', st') /\ Z.of_nat n <= delay m + 1 /\
    mem_ram m' = mem_ram m.
Proof using Type.
  revert m st. induction fuel as [|fuel IH]; intros m st Hm Hl Ha Hf.
  { pose proof (delay_range m Hm Hl). lia. }
  pose proof (delay_range m Hm Hl). cbn [serve].
  destruct (ready_ok m st a w Hm Ha) as (b & m1 & st1 & Er & Hm1 & _).
  destruct (tick_ok m1 st1 Hm1) as (m2 & st2 & Et & _).
  destruct (round_keeps _ _ _ _ _ _ _ _ _ _ Hm Hl Ha Er Et) as (Hm2 & Hl2 & _ & Hr2).
  rewrite Er. cbn [mbind option_bind]. rewrite Et. cbn [mbind option_bind]. destruct b.
  - exists 1%nat, m2, st2. split_and!; (done || lia).
  - pose proof (unserved_delay _ _ _ _ _ _ _ _ _ Hm Hl Ha Er Et) as Hd.
    destruct (IH m2 st2 Hm2 Hl2 Ha ltac:(lia)) as (n & m' & st' & -> & Hn & Hr).
    cbn [mbind option_bind]. exists (S n), m', st'. split_and!; [done|lia|congruence].
Qed.

Lemma run_ops_live (m : M) st os m' st' :
  mem_inv m -> live m -> Forall op_wf os -> run_ops m st os = Some (m', st') ->
  mem_inv m' /\ live m' /\ worst m' = worst m.
Proof using Type.
  intros Hm Hl Hos. revert m st Hm Hl. induction Hos as [|o os Ho _ IH]; intros m st Hm Hl E; cbn in E.
  { by injection E as <- <-. }
  destruct (run_op m st o) as [[m1 st1]|] eqn:E1; cbn in E; [|done].
  assert (Hx : mem_inv m1 /\ live m1 /\ worst m1 = worst m).
  { destruct o as [a w| |a v|a v|a v]; cbn in E1, Ho.
    - destruct (ready m st a w) as [[[b m2] st2]|] eqn:Er; cbn in E1; [|done]. injection E1 as <- <-.
      destruct (ready_live _ _ _ _ _ _ _ Hm Hl Ho Er) as [? ?].
      destruct (ready_ok m st a w Hm Ho) as (? & ? & ? & Er' & ? & _).
      rewrite Er in Er'. injection Er' as <- <- <-. by split_and!.
    - destruct (tick_live _ _ _ _ Hm Hl E1). destruct (tick_ok m st Hm) as (? & ? & Et' & ? & _).
      rewrite E1 in Et'. injection Et' as <- <-. by split_and!.
    - inv_bind E1. injection E1 as <- <-.
      split; [eapply store_inv; [exact Hm|exact Ho|eauto]|]. eapply store_live; [exact Hl|eauto].
    - inv_bind E1. injection E1 as <- <-.
      split; [eapply store_inv; [exact Hm|exact Ho|eauto]|]. eapply store_live; [exact Hl|eauto].
    - destruct Ho as [Ha Hv]. inv_bind E1. injection E1 as <- <-.
      split; [eapply store_inv; [exact Hm|exact Ha|eauto]|]. eapply store_live; [exact Hl|eauto]. }
  destruct Hx as (Hm1 & Hl1 & <-). by apply IH with st1.
Qed.
End Serve.

(** A new cache is live. *)
Lemma Cache_new_live {B : Type} `{MemoryLive B} (b : B) line_bytes sets hit_latency ways prefetch degree probe c :
  live b -> Cache_new b line_bytes sets hit_latency ways prefetch degree probe = Some c ->
  live c /\ worst c = 2 * worst b + 1 + (if hit_latency =? 0 then 1 else hit_latency).
Proof.
  intros Hb E. unfold Cache_new in E. inv_binds. simplify_eq. split; [|done]. by constructor.
Qed.

(** C22: in any state a cache can reach, with any prefetch setting and over any
    memory that answers (a cache included), an access is served after a bounded
    number of cycles: twice the worst wait of the backing memory, for the
    transfer that may be under way or a flush and for the line, and the hit
    latency.  The bytes behind it are unchanged. *)
Theorem Cache_access_bound {B : Type} `{MemoryLive B} (b : B)
    line_bytes sets hit_latency ways prefetch degree probe c st os c1 st1 a w st2 fuel :
  is_u32 line_bytes -> is_u32 sets -> is_u32 ways -> 0 <= hit_latency < 2 ^ 31 ->
  geometry_ok line_bytes sets ways = true -> line_bytes * sets < 2 ^ 32 ->
  mem_inv b -> live b -> Forall op_wf os -> is_u32 a ->
  Cache_new b line_bytes sets hit_latency ways prefetch degree probe = Some c ->
  run_ops c st os = Some (c1, st1) ->
  2 * worst b + 2 + Z.max 1 hit_latency <= Z.of_nat fuel ->
  exists n c2 st3, serve fuel c1 st2 a w = Some (n, c2, st3) /\
    Z.of_nat n <= 2 * worst b + 2 + Z.max 1 hit_latency /\ mem_ram c2 = mem_ram c1.
Proof.
  intros Hl Hs Hw Hlat Hg Hsz Hb Hlv Hos Ha E Er Hf.
  destruct (Cache_new_inv b line_bytes sets hit_latency ways prefetch degree probe)
    as (c0 & E0 & Hc & _); try done. rewrite E in E0. injection E0 as <-.
  destruct (Cache_new_live _ _ _ _ _ _ _ _ _ Hlv E) as [Hcl Hcw].
  change (mem_inv c) in Hc.
  destruct (run_ops_live c st os c1 st1 Hc Hcl Hos Er) as (Hc1 & Hl1 & Hw1).
  pose proof (delay_range c1 Hc1 Hl1) as Hd. rewrite Hw1, Hcw in Hd.
  assert ((if hit_latency =? 0 then 1 else hit_latency) = Z.max 1 hit_latency)
    by (destruct (Z.eqb_spec hit_latency 0); lia).
  destruct (serve_bound c1 st2 a w fuel Hc1 Hl1 Ha ltac:(lia)) as (n & c2 & st3 & Es & Hn & Hr).
  exists n, c2, st3. split_and!; (done || lia).
Qed.

(** A store to one line, asked while the miss of another is being fetched and
    its prefetch is queued. *)
Lemma Cache_access_bound_witness :
  exists c1 st1 n c2 st3,
    run_ops (example_cache true) SimStats_new [OpReady 0x80000000 false; OpTick; OpTick] = Some (c1, st1) /\
    serve 12 c1 st1 0x80000010 true = Some (n, c2, st3) /\ Z.of_nat n <= 12.
Proof.
  destruct (run_ops (example_cache true) SimStats_new [OpReady 0x80000000 false; OpTick; OpTick])
    as [[c1 st1]|] eqn:E; [|vm_compute in E; done].
  destruct (Cache_access_bound example_ram 16 2 2 1 true 1 true (example_cache true) SimStats_new
    [OpReady 0x80000000 false; OpTick; OpTick] c1 st1 0x80000010 true st1 12)
    as (n & c2 & st3 & Es & Hn & _);
    [unfold is_u32; lia..|reflexivity|lia|exact example_ram_inv|exact I|
      repeat constructor; cbn; unfold is_u32; lia|unfold is_u32; lia|apply example_cache_new|exact E|cbn; lia|].
  exists c1, st1, n, c2, st3. exact (conj eq_refl (conj Es Hn)).
Defined.
