(* ===== verification/MemoryTimed.v ===== *)
(** * Memories whose timing is a matter of the requests alone

    A third contract on the memories: how long an access waits, and what it
    leaves behind, does not depend on the bytes, on the statistics, or on the
    cycles that pass between two accesses.  [same_clock] relates the states of a
    memory that no sequence of requests can tell apart by their timing.  The
    flat memory keeps the contract, and so does a cache without prefetch engine
    and without probe, the data cache of a core, over any memory that keeps it. *)

From S2P Require Import Prelude Config Memory FlatMem TreePlru Cache CacheLaws.
From S2P Require Import Geometry CacheTiming MemoryLive.
From Stdlib Require Import RelationClasses.

(** [same_clock m m] asks that [m] is such a memory. *)
Class MemoryTimed (M : Type) `{MemoryLive M} := {
  same_clock : M -> M -> Prop;
  resting : M -> Prop;
  same_clock_per :: PER same_clock;
  ready_clock m n st1 st2 a w b m' st' :
    same_clock m n -> ready m st1 a w = Some (b, m', st') ->
    exists n', ready n st2 a w = Some (b, n', st2) /\ same_clock m' n';
  tick_clock m n st1 st2 m' st' :
    same_clock m n -> tick m st1 = Some (m', st') ->
    exists n', tick n st2 = Some (n', st2) /\ same_clock m' n';
  store_clock m a v m' :
    same_clock m m ->
    store_word m a v = Some m' \/ store_half m a v = Some m' \/ store_byte m a v = Some m' ->
    same_clock m m';
  resting_tick m st m' st' :
    same_clock m m -> resting m -> tick m st = Some (m', st') -> same_clock m m' /\ resting m';
  served_resting m st a w m1 st1 m2 st2 m3 st3 :
    ready m st a w = Some (true, m1, st1) -> same_clock m1 m2 -> tick m2 st2 = Some (m3, st3) ->
    resting m3;
}.

(** ** Serving *)

Lemma serve_mono {M} `{IMemory M} f g (m : M) st a w r :
  serve f m st a w = Some r -> (f <= g)%nat -> serve g m st a w = Some r.
Proof.
  revert g m st r. induction f as [|f IH]; intros [|g] m st r E Hg; try lia; [done..|]. cbn [serve] in *.
  destruct (ready m st a w) as [[[b m1] st1]|]; cbn [mbind option_bind] in *; [|done].
  destruct (tick m1 st1) as [[m2 st2]|]; cbn [mbind option_bind] in *; [|done]. destruct b; [done|].
  destruct (serve f m2 st2 a w) as [r1|] eqn:E1; cbn [mbind option_bind] in E; [|done].
  by rewrite (IH g m2 st2 r1 E1 ltac:(lia)).
Qed.

Lemma serve_unique {M} `{IMemory M} f g (m : M) st a w r1 r2 :
  serve f m st a w = Some r1 -> serve g m st a w = Some r2 -> r1 = r2.
Proof.
  intros E1 E2. apply (serve_mono _ (f + g)) in E1; [|lia]. apply (serve_mono _ (f + g)) in E2; [|lia]. congruence.
Qed.

Lemma serve_all_snoc {M} `{IMemory M} f (m : M) st l a w n m1 st1 k m2 st2 :
  serve_all f m st l = Some (n, m1, st1) -> serve f m1 st1 a w = Some (k, m2, st2) ->
  serve_all f m st (l ++ [(a, w)]) = Some ((n + k)%nat, m2, st2).
Proof.
  revert m st n. induction l as [|[a' w'] l IH]; intros m st n E Es; cbn [app serve_all] in *.
  { injection E as <- <- <-. rewrite Es. cbn [mbind option_bind]. by rewrite Nat.add_0_r. }
  destruct (serve f m st a' w') as [[[k1 m3] st3]|]; cbn [mbind option_bind] in *; [|done].
  destruct (serve_all f m3 st3 l) as [[[k2 m4] st4]|] eqn:E2; cbn [mbind option_bind] in E; [|done].
  injection E as <- <- <-. rewrite (IH _ _ _ E2 Es). cbn [mbind option_bind]. by rewrite Nat.add_assoc.
Qed.

(** An access takes a cycle at least. *)
Lemma serve_min {M} `{IMemory M} f (m : M) st a w n m' st' : serve f m st a w = Some (n, m', st') -> (1 <= n)%nat.
Proof. destruct f; [done|]. cbn [serve]. intros E. inv_binds. destruct b; [|inv_binds]; simplify_eq; lia. Qed.

Lemma serve_all_min {M} `{IMemory M} f (m : M) st l n m' st' :
  serve_all f m st l = Some (n, m', st') -> (length l <= n)%nat.
Proof.
  revert m st n. induction l as [|[a w] l IH]; intros m st n E; cbn [serve_all length] in *; [lia|].
  destruct (serve f m st a w) as [[[k m1] st1]|] eqn:Es; cbn [mbind option_bind] in E; [|done].
  destruct (serve_all f m1 st1 l) as [[[k2 m2] st2]|] eqn:E2; cbn [mbind option_bind] in E; [|done].
  injection E as <- <- <-. apply serve_min in Es. apply IH in E2. lia.
Qed.

Section Serve.
Context {M : Type} `{MemoryTimed M}.
Implicit Types (m n d : M).

Lemma clock_left m n : same_clock m n -> same_clock m m.
Proof using Type. intros E. transitivity n; [done|by symmetry]. Qed.
Lemma clock_right m n : same_clock m n -> same_clock n n.
Proof using Type. intros E. apply (clock_left n m). by symmetry. Qed.

(** Such a memory leaves the statistics alone. *)
Lemma ready_clock_keeps m st a w b m' st' :
  same_clock m m -> ready m st a w = Some (b, m', st') -> same_clock m' m' /\ st' = st.
Proof using Type.
  intros Hm E. destruct (ready_clock m m st st a w b m' st' Hm E) as (n' & E' & Hc).
  split; [by apply clock_left in Hc|congruence].
Qed.

Lemma tick_clock_keeps m st m' st' : same_clock m m -> tick m st = Some (m', st') -> same_clock m' m' /\ st' = st.
Proof using Type.
  intros Hm E. destruct (tick_clock m m st st m' st' Hm E) as (n' & E' & Hc).
  split; [by apply clock_left in Hc|congruence].
Qed.

Lemma serve_clock f m n st1 st2 a w k m' st' :
  same_clock m n -> serve f m st1 a w = Some (k, m', st') ->
  exists n', serve f n st2 a w = Some (k, n', st2) /\ same_clock m' n'.
Proof using Type.
  revert m n st1 k. induction f as [|f IH]; intros m n st1 k Hc E; [done|]. cbn [serve] in *.
  destruct (ready m st1 a w) as [[[b m1] s1]|] eqn:Er; cbn [mbind option_bind] in E; [|done].
  destruct (ready_clock m n st1 st2 a w b m1 s1 Hc Er) as (n1 & -> & Hc1). cbn [mbind option_bind].
  destruct (tick m1 s1) as [[m2 s2]|] eqn:Et; cbn [mbind option_bind] in E; [|done].
  destruct (tick_clock m1 n1 s1 st2 m2 s2 Hc1 Et) as (n2 & -> & Hc2). cbn [mbind option_bind].
  destruct b; [injection E as <- <- <-; by exists n2|].
  destruct (serve f m2 s2 a w) as [[[k1 m3] s3]|] eqn:Es; cbn [mbind option_bind] in E; [|done].
  injection E as <- <- <-. destruct (IH m2 n2 s2 k1 Hc2 Es) as (n3 & -> & Hc3). cbn [mbind option_bind].
  by exists n3.
Qed.

Lemma serve_keeps f m st a w k m' st' :
  mem_inv m -> live m -> is_u32 a -> serve f m st a w = Some (k, m', st') ->
  mem_inv m' /\ live m' /\ worst m' = worst m.
Proof using Type.
  revert m st k. induction f as [|f IH]; intros m st k Hm Hl Ha E; [done|]. cbn [serve] in E.
  destruct (ready m st a w) as [[[b m1] s1]|] eqn:Er; cbn [mbind option_bind] in E; [|done].
  destruct (tick m1 s1) as [[m2 s2]|] eqn:Et; cbn [mbind option_bind] in E; [|done].
  destruct (round_keeps _ _ _ _ _ _ _ _ _ _ Hm Hl Ha Er Et) as (Hm2 & Hl2 & Hw2 & _).
  destruct b; [by injection E as <- <- <-|].
  destruct (serve f m2 s2 a w) as [[[k1 m3] s3]|] eqn:Es; cbn [mbind option_bind] in E; [|done].
  injection E as <- <- <-. destruct (IH m2 s2 k1 Hm2 Hl2 Ha Es) as (? & ? & ?). split_and!; congruence.
Qed.

(** *** A request under way

    [d] is what [j] unserved rounds of a request make of [m], up to the clock:
    whatever it takes from [d] on takes [j] cycles more from [m]. *)
Definition awaits m a w (j : nat) d : Prop :=
  same_clock d d /\ forall f st st' k d', serve f d st a w = Some (k, d', st') ->
    forall st0, exists m', serve (j + f) m st0 a w = Some ((j + k)%nat, m', st0) /\ same_clock m' d'.

Lemma awaits_start m d a w : same_clock m d -> awaits m a w 0 d.
Proof using Type.
  intros Hc. split; [by eapply clock_right|]. intros f st st' k d' E st0. symmetry in Hc.
  destruct (serve_clock _ _ _ _ st0 _ _ _ _ _ Hc E) as (m' & Em & Hc'). exists m'. split; [done|by symmetry].
Qed.

Lemma awaits_round m d a w j st d1 st1 st2 d2 st3 :
  awaits m a w j d -> ready d st a w = Some (false, d1, st1) -> tick d1 st2 = Some (d2, st3) ->
  awaits m a w (S j) d2.
Proof using Type.
  intros [Hd Hw] Er Et. destruct (ready_clock d d st st1 _ _ _ _ _ Hd Er) as (d1' & Er' & Hc1).
  assert (Ht : same_clock d1 d1) by by eapply clock_left.
  destruct (tick_clock d1 d1' st2 st1 _ _ Hc1 Et) as (d2' & Et' & Hc2).
  split; [by eapply clock_left|]. intros f st4 st' k d' E st0.
  destruct (serve_clock f d2 d2' st4 st1 _ _ _ _ _ Hc2 E) as (d3 & Es & Hc3).
  destruct (Hw (S f) st1 st1 (S k) d3) with (st0 := st0) as (m' & Em & Hc4).
  { cbn [serve]. rewrite Er'. cbn [mbind option_bind]. rewrite Et'. cbn [mbind option_bind]. by rewrite Es. }
  exists m'. rewrite <- !Nat.add_succ_comm in Em. split; [exact Em|]. transitivity d3; [done|by symmetry].
Qed.

Lemma awaits_served m d a w j st d1 st1 d2 st2 d3 st3 st0 :
  awaits m a w j d -> ready d st a w = Some (true, d1, st1) -> same_clock d1 d2 ->
  tick d2 st2 = Some (d3, st3) ->
  exists m', serve (S j) m st0 a w = Some (S j, m', st0) /\ same_clock m' d3 /\ resting d3.
Proof using Type.
  intros [Hd Hw] Er Hs Et. destruct (ready_clock d d st st _ _ _ _ _ Hd Er) as (d1' & Er' & _).
  assert (Est : st1 = st) by congruence. subst st1. clear d1' Er'.
  symmetry in Hs. destruct (tick_clock d2 d1 st2 st _ _ Hs Et) as (d3' & Et' & Hc).
  destruct (Hw 1%nat st st 1%nat d3') with (st0 := st0) as (m' & Em & Hc4).
  { cbn [serve]. rewrite Er. cbn [mbind option_bind]. by rewrite Et'. }
  exists m'. rewrite Nat.add_1_r in Em. split; [done|]. split; [transitivity d3'; [done|by symmetry]|].
  eapply served_resting; [exact Er|by symmetry|exact Et].
Qed.

(** With fuel for the longest wait the same result. *)
Lemma serve_enough f j m st a w k m' :
  mem_inv m -> live m -> is_u32 a -> worst m < Z.of_nat f ->
  serve j m st a w = Some (k, m', st) -> serve f m st a w = Some (k, m', st).
Proof using Type.
  intros Hm Hl Ha Hf E. pose proof (delay_range m Hm Hl).
  destruct (serve_bound m st a w f Hm Hl Ha ltac:(lia)) as (k' & m2 & st2 & E2 & _).
  by rewrite (serve_unique _ _ _ _ _ _ _ _ E E2).
Qed.
End Serve.

(** ** Flat memory: the clock is the timer *)

#[export, refine] Instance FlatMem_timed : MemoryTimed FlatMem := {
  same_clock m n := fm_latency_ m = fm_latency_ n /\ fm_serving_ m = fm_serving_ n /\
    fm_remaining_ m = fm_remaining_ n;
  resting m := fm_serving_ m = false;
}.
Proof.
  - split; [by intros m n (-> & -> & ->)|by intros m n p (-> & -> & ->) (-> & -> & ->)].
  - intros m n st1 st2 a w b m' st' (El & Es & Er) E. cbn in E |- *. unfold FlatMem_ready in *.
    rewrite <- Es, <- El. destruct (fm_serving_ m) eqn:Em; cbn [negb] in *; injection E as <- <- <-;
      rewrite <- ?Er; eexists; (split; [reflexivity|]); cbn; by rewrite <- ?El, <- ?Es, ?Em.
  - intros m n st1 st2 m' st' (El & Es & Er) E. cbn in E |- *. injection E as <- <-. eexists. split; [done|].
    unfold FlatMem_tick. rewrite <- Es, <- Er. destruct (fm_serving_ m) eqn:Em; cbn [negb];
      [destruct (0 <? fm_remaining_ m)|]; cbn; by rewrite <- ?El, <- ?Es, <- ?Er, ?Em.
  - intros m a v m' _ E. cbn [store_word store_half store_byte FlatMem_IMemory] in E.
    unfold FlatMem_store_word, FlatMem_store_half, FlatMem_store_byte in E.
    destruct E as [E|[E|E]]; inv_binds; by simplify_eq.
  - intros m st m' st' _ Hr E. cbn in E. unfold FlatMem_tick in E. rewrite Hr in E. by injection E as <- <-.
  - intros m st a w m1 st1 m2 st2 m3 st3 Er (_ & Es & Hr) Et. cbn in Er, Et.
    unfold FlatMem_ready, FlatMem_tick in *. injection Et as <- <-. injection Er as Eb <- _.
    apply Z.eqb_eq in Eb. rewrite <- Hr, Eb. cbn. by destruct (fm_serving_ m2) eqn:E2.
Defined.

(** ** Cache *)

Section Cache.
Context {B P F : Type} `{MemoryTimed B} `{EvictionLaws P} `{PrefetchLaws F}.
Abbreviation cache := (Cache B P F).
Implicit Type c : cache.

(** No prefetch engine and no probe. *)
Record quiet c : Prop := mkQuiet {
  qt_policy : cc_pf_policy_ c = None;
  qt_active : cc_pf_active_ c = false;
  qt_probe : cc_probe_ c = false;
}.

(** The same tags, replacement state and phase, over backing memories with the
    same clock. *)
Definition Cache_same_clock c d : Prop :=
  quiet c /\ same_clock (cc_backing_ c) (cc_backing_ d) /\ d = c <| cc_backing_ := cc_backing_ d |>.

Lemma Cache_same_clock_sym c d : Cache_same_clock c d -> Cache_same_clock d c.
Proof using Type.
  intros ([] & Hb & ->). split; [by constructor|]. split; [by symmetry|]. by destruct c.
Qed.

Lemma Cache_same_clock_trans c1 c2 c3 :
  Cache_same_clock c1 c2 -> Cache_same_clock c2 c3 -> Cache_same_clock c1 c3.
Proof using Type.
  intros (Hq & Hb1 & ->) (_ & Hb2 & ->). split; [done|]. split; [exact (transitivity Hb1 Hb2)|]. by destruct c1.
Qed.

Lemma same_clock_backing c b : quiet c -> same_clock (cc_backing_ c) b -> Cache_same_clock c (c <| cc_backing_ := b |>).
Proof using Type. intros Hq Hb. by split_and!. Qed.

Lemma same_clock_set c b b' :
  quiet c -> same_clock b b' -> Cache_same_clock (c <| cc_backing_ := b |>) (c <| cc_backing_ := b' |>).
Proof using Type. intros [] Hb. split; [by constructor|]. by split. Qed.

(** The tag array does not look at the backing memory. *)
Ltac cache_simpl :=
  cbv beta iota zeta delta [
    setter cc_backing_ cc_offset_bits_ cc_index_bits_ cc_index_mask_ cc_hit_latency_ cc_ways_ cc_lines_
    cc_repl_ cc_phase_ cc_cur_addr_ cc_cur_is_write_ cc_victim_way_ cc_wb_addr_ cc_hit_remaining_
    cc_last_hit_ cc_pf_policy_ cc_pf_degree_ cc_pf_active_ cc_pf_addr_ cc_pf_way_ cc_pf_chain_ cc_probe_
    Cache_set_line Cache_line_at Cache_tag_of Cache_index_of Cache_find_way Cache_choose_victim
    Cache_addr_of Cache_line_addr_of scan_ways hit_wait] in *.
Ltac innermost t :=
  lazymatch t with
  | mbind _ ?m => innermost m
  | if ?b then _ else _ => innermost b
  | _ => constr:(t)
  end.
Ltac frame_step E :=
  match type of E with
  | ?t = Some _ => let m := innermost t in
      lazymatch m with Some _ => fail | _ => destruct m eqn:?; cbn [mbind option_bind andb] in E |- *; try done; cache_simpl end
  end.

Lemma install_frame c b st1 st2 set way a iw fp c' st' :
  quiet c -> Cache_install_line c st1 set way a iw fp = Some (c', st') ->
  Cache_install_line (c <| cc_backing_ := b |>) st2 set way a iw fp = Some (c' <| cc_backing_ := b |>, st2) /\
  quiet c' /\ cc_backing_ c' = cc_backing_ c.
Proof using Type.
  intros [Q1 Q2 Q3] E. destruct c. cbn in Q1, Q2, Q3. subst. unfold Cache_install_line in *. cache_simpl.
  repeat frame_step E. rewrite andb_false_r in *. injection E as <- <-. split; [done|]. by split.
Qed.

Lemma start_frame c b st1 st2 a w c' st' :
  quiet c -> Cache_start c st1 a w = Some (c', st') ->
  Cache_start (c <| cc_backing_ := b |>) st2 a w = Some (c' <| cc_backing_ := b |>, st2) /\
  quiet c' /\ cc_backing_ c' = cc_backing_ c.
Proof using Type.
  intros [Q1 Q2 Q3] E. destruct c. cbn in Q1, Q2, Q3. subst.
  unfold Cache_start, Cache_maybe_start_prefetch, Cache_start_hit, Cache_start_miss in *. cache_simpl.
  repeat frame_step E; injection E as <- <-; rewrite ?andb_false_r; (split; [done|by split]).
Qed.

(** What follows an installation in [tick]. *)
Definition frames (f : cache -> SimStats -> cache * SimStats) : Prop :=
  forall c b st1 st2, quiet c -> exists c', f c st1 = (c', st1) /\
    f (c <| cc_backing_ := b |>) st2 = (c' <| cc_backing_ := b |>, st2) /\
    quiet c' /\ cc_backing_ c' = cc_backing_ c.

Lemma delivered_frame c b st1 st2 f (served : bool) c' st' :
  frames f -> quiet c ->
  let deliver c st := if served then
      '(c, st) ← Cache_install_line c st (Cache_index_of c (cc_cur_addr_ c)) (cc_victim_way_ c)
        (cc_cur_addr_ c) (cc_cur_is_write_ c) false;
      let '(c, st) := f c st in Some (hit_wait c, st)
    else Some (c, st) in
  deliver c st1 = Some (c', st') ->
  deliver (c <| cc_backing_ := b |>) st2 = Some (c' <| cc_backing_ := b |>, st2) /\
  quiet c' /\ cc_backing_ c' = cc_backing_ c.
Proof using Type.
  intros Hf Hq deliver E. subst deliver. cbv beta in *. destruct served; [|by injection E as <- <-].
  destruct (Cache_install_line c st1 _ _ _ _ _) as [[c1 s1]|] eqn:Ei; cbn [mbind option_bind] in E; [|done].
  destruct (install_frame c b st1 st2 _ _ _ _ _ _ _ Hq Ei) as (Ei' & Hq1 & Hb1).
  change (Cache_index_of (c <| cc_backing_ := b |>) (cc_cur_addr_ (c <| cc_backing_ := b |>)))
    with (Cache_index_of c (cc_cur_addr_ c)).
  change (cc_victim_way_ (c <| cc_backing_ := b |>)) with (cc_victim_way_ c).
  change (cc_cur_addr_ (c <| cc_backing_ := b |>)) with (cc_cur_addr_ c).
  change (cc_cur_is_write_ (c <| cc_backing_ := b |>)) with (cc_cur_is_write_ c).
  rewrite Ei'. cbn [mbind option_bind]. destruct (Hf c1 b s1 st2 Hq1) as (c2 & E2 & E3 & Hq2 & Hb2).
  rewrite E2 in E. rewrite E3. injection E as <- _. split; [done|].
  split; [destruct Hq2; by constructor|]. by rewrite <- Hb1.
Qed.

(** A line transfer, against backing memories with the same clock. *)
Lemma fetch_line_clock c d st1 st2 f c' st' :
  frames f -> Cache_same_clock c d -> Cache_fetch_line c st1 f = Some (c', st') ->
  exists d', Cache_fetch_line d st2 f = Some (d', st2) /\ Cache_same_clock c' d'.
Proof using Type.
  intros Hf (Hq & Hb & ->) E. set (bd := cc_backing_ d) in *. clearbody bd. clear d.
  unfold Cache_fetch_line in *.
  change (cc_cur_addr_ (c <| cc_backing_ := bd |>)) with (cc_cur_addr_ c).
  change (cc_backing_ (c <| cc_backing_ := bd |>)) with bd.
  destruct (ready (cc_backing_ c) st1 (cc_cur_addr_ c) false) as [[[served b1] s1]|] eqn:Er;
    cbn [mbind option_bind] in E; [|done].
  destruct (ready_clock _ _ st1 st2 _ _ _ _ _ Hb Er) as (b2 & -> & Hb1). cbn [mbind option_bind].
  match type of E with mbind _ ?m = _ => destruct m as [[c2 s2]|] eqn:Ed end; cbn [mbind option_bind] in E; [|done].
  assert (Hq1 : quiet (c <| cc_backing_ := b1 |>)) by (destruct Hq; by constructor).
  destruct (delivered_frame (c <| cc_backing_ := b1 |>) b2 s1 st2 f served c2 s2 Hf Hq1 Ed) as (Ed' & Hq2 & Hb2).
  change ((c <| cc_backing_ := bd |>) <| cc_backing_ := b2 |>)
    with ((c <| cc_backing_ := b1 |>) <| cc_backing_ := b2 |>).
  cbv zeta beta in Ed'. rewrite Ed'. cbn [mbind option_bind].
  change (cc_backing_ (c2 <| cc_backing_ := b2 |>)) with b2. rewrite Hb2 in E.
  change (cc_backing_ (c <| cc_backing_ := b1 |>)) with b1 in E.
  destruct (tick b1 s2) as [[b3 s3]|] eqn:Et; cbn [mbind option_bind] in E; [|done].
  destruct (tick_clock b1 b2 s2 st2 b3 s3 Hb1 Et) as (b4 & -> & Hb3). cbn [mbind option_bind].
  injection E as <- <-. eexists. split; [done|].
  exact (same_clock_set c2 b3 b4 Hq2 Hb3).
Qed.

Lemma Cache_tick_clock c d st1 st2 c' st' :
  Cache_same_clock c d -> Cache_tick c st1 = Some (c', st') ->
  exists d', Cache_tick d st2 = Some (d', st2) /\ Cache_same_clock c' d'.
Proof using Type.
  intros Hc E. assert (Hx := Hc). destruct Hx as (Hq & Hb & Ed).
  destruct (Cache_same_clock_sym _ _ Hc) as [Hqd _]. unfold Cache_tick in *.
  assert (Ep : cc_phase_ d = cc_phase_ c) by (by rewrite Ed). rewrite Ep. destruct (cc_phase_ c).
  - rewrite service_idle in E by apply Hq. rewrite service_idle by apply Hqd. injection E as <- <-. by exists d.
  - assert (Er : cc_hit_remaining_ d = cc_hit_remaining_ c) by (by rewrite Ed). rewrite Er.
    destruct (0 <? cc_hit_remaining_ c); rewrite service_idle in E by apply Hq;
      rewrite service_idle by apply Hqd; injection E as <- <-; (eexists; split; [done|]);
      rewrite Ed; (split; [destruct Hq; by constructor|by split]).
  - rewrite Ed. change (cc_wb_addr_ (c <| cc_backing_ := _ |>)) with (cc_wb_addr_ c).
    destruct (ready (cc_backing_ c) st1 (cc_wb_addr_ c) true) as [[[served b1] s1]|] eqn:Er;
      cbn [mbind option_bind] in E; [|done].
    change (cc_backing_ (c <| cc_backing_ := ?b |>)) with b.
    destruct (ready_clock _ _ st1 st2 _ _ _ _ _ Hb Er) as (b2 & -> & Hb1). cbn [mbind option_bind].
    set (c1 := if served then _ else _) in E. assert (Eb1 : cc_backing_ c1 = b1) by (subst c1; by destruct served).
    rewrite Eb1 in E. destruct (tick b1 s1) as [[b3 s3]|] eqn:Et; cbn [mbind option_bind] in E; [|done].
    injection E as <- <-. destruct (tick_clock b1 b2 s1 st2 b3 s3 Hb1 Et) as (b4 & Et2 & Hb3).
    exists (c1 <| cc_backing_ := b4 |>). subst c1. split.
    + destruct served; cbn; by rewrite Et2.
    + apply same_clock_set; [destruct Hq; destruct served; by constructor|done].
  - apply (fetch_line_clock c d st1 st2 _ c' st'); [|done|done].
    intros c0 b s1 s2 Hq0. by exists c0.
  - apply (fetch_line_clock c d st1 st2 _ c' st'); [|done|done].
    intros c0 b s1 s2 Hq0. exists (c0 <| cc_pf_active_ := false |>). cbn. rewrite (qt_probe _ Hq0).
    split; [done|]. split; [done|]. split; [destruct Hq0; by constructor|done].
Qed.

Lemma Cache_ready_clock c d st1 st2 a w b c' st' :
  Cache_same_clock c d -> Cache_ready c st1 a w = Some (b, c', st') ->
  exists d', Cache_ready d st2 a w = Some (b, d', st2) /\ Cache_same_clock c' d'.
Proof using Type.
  intros Hc E. assert (Hx := Hc). destruct Hx as (Hq & Hb & Ed). unfold Cache_ready in *.
  assert (Ep : cc_phase_ d = cc_phase_ c) by (by rewrite Ed). rewrite Ep.
  assert (Er : cc_hit_remaining_ d = cc_hit_remaining_ c) by (by rewrite Ed).
  destruct (cc_phase_ c) eqn:Epc; cbn [mbind option_bind] in *;
    try (rewrite Ep, ?Er; rewrite Epc in E; injection E as <- <- <-; by exists d).
  destruct (Cache_start c st1 a w) as [[c1 s1]|] eqn:Es; cbn [mbind option_bind] in E; [|done].
  injection E as <- <- <-.
  destruct (start_frame c (cc_backing_ d) st1 st2 a w c1 s1 Hq Es) as (Es' & Hq1 & Hb1).
  rewrite <- Ed in Es'. rewrite Es'. cbn [mbind option_bind]. eexists. split; [reflexivity|].
  apply same_clock_backing; [done|by rewrite Hb1].
Qed.

#[export, refine] Instance Cache_timed : MemoryTimed cache := {
  same_clock := Cache_same_clock;
  resting c := cc_phase_ c = Idle;
}.
Proof using All.
  - split; [exact Cache_same_clock_sym|exact Cache_same_clock_trans].
  - exact Cache_ready_clock.
  - exact Cache_tick_clock.
  - intros c a v c' (Hq & Hb & _) E.
    assert (Hx : exists b, c' = c <| cc_backing_ := b |> /\
      (store_word (cc_backing_ c) a v = Some b \/ store_half (cc_backing_ c) a v = Some b \/
       store_byte (cc_backing_ c) a v = Some b)).
    { cbn [store_word store_half store_byte Cache_IMemory] in E.
      unfold Cache_store_word, Cache_store_half, Cache_store_byte, Cache_delegate in E.
      destruct E as [E|[E|E]]; inv_binds; eauto. }
    destruct Hx as (b & -> & Hs). apply same_clock_backing; [done|]. by apply (store_clock _ a v).
  - intros c st c' st' Hc Hr E. cbn in E. unfold Cache_tick in E. rewrite Hr in E.
    rewrite service_idle in E by apply Hc. by injection E as <- <-.
  - intros c st a w c1 st1 c2 st2 c3 st3 Er Hc Et. cbn in Er, Et.
    assert (Hx : cc_phase_ c1 = HitWait /\ cc_hit_remaining_ c1 = 0).
    { unfold Cache_ready in Er. match type of Er with mbind _ ?m = _ => destruct m as [[c0 s0]|] end;
        cbn [mbind option_bind] in Er; [|done]. injection Er as Eb <- <-.
      destruct (cc_phase_ c0); try done. by apply Z.eqb_eq in Eb. }
    destruct (Cache_same_clock_sym _ _ Hc) as (Hq & _ & _). destruct Hc as (_ & _ & Ed), Hx as [Hp Hr].
    unfold Cache_tick in Et. assert (Ep : cc_phase_ c2 = HitWait) by (by rewrite Ed).
    assert (Er2 : cc_hit_remaining_ c2 = 0) by (by rewrite Ed). rewrite Ep, Er2 in Et. cbn [Z.ltb Z.compare] in Et.
    rewrite service_idle in Et by apply Hq. by injection Et as <- <-.
Defined.
End Cache.

(** A new cache without engine and probe. *)
Lemma Cache_new_timed {B : Type} `{MemoryTimed B} (b : B) line_bytes sets hit_latency ways degree c :
  same_clock b b -> Cache_new b line_bytes sets hit_latency ways false degree false = Some c ->
  same_clock c c /\ resting c.
Proof.
  intros Hb E. unfold Cache_new in E. inv_binds. simplify_eq. split; [|done].
  split; [by constructor|]. by split.
Qed.
