(* ===== verification/BranchPredictor.v ===== *)
(** * Branch predictor

    Models [include/cpusim/uarch/branch_predictor.h] and
    [src/uarch/branch_predictor.cpp]: a direct-mapped tagged BTB and a table of
    two-bit saturating counters.  The BTB is specified as a lookup on word
    addresses; an update is an insertion that evicts the slot's occupant. *)

From S2P Require Import Prelude Geometry.

Record Prediction := mkPrediction { p_taken : bool; p_target : Z }.
Definition Prediction_none : Prediction := mkPrediction false 0.

Record BtbEntry := mkBtbEntry { b_valid : bool; b_tag : Z; b_target : Z; b_cond : bool }.
Definition BtbEntry_new : BtbEntry := mkBtbEntry false 0 0 false.

Record BranchPredictor := mkBranchPredictor {
  bp_bht_ : list Z;
  bp_bht_mask_ : Z;
  bp_btb_ : list BtbEntry;
  bp_btb_mask_ : Z;
  bp_btb_index_bits_ : Z;
}.

#[export] Instance BranchPredictor_eta : Eta BranchPredictor := fun p =>
  mkBranchPredictor (bp_bht_ p) (bp_bht_mask_ p) (bp_btb_ p) (bp_btb_mask_ p)
    (bp_btb_index_bits_ p).

(** ** Operations *)

Definition BranchPredictor_new (bht_entries btb_entries : Z) : option BranchPredictor :=
  bits ← log2_exact btb_entries;
  Some (mkBranchPredictor (replicate (Z.to_nat bht_entries) 1) (u32 (bht_entries - 1))
    (replicate (Z.to_nat btb_entries) BtbEntry_new) (u32 (btb_entries - 1)) bits).

Definition BranchPredictor_bht_index (p : BranchPredictor) (pc : Z) : Z :=
  Z.land (Z.shiftr pc 2) (bp_bht_mask_ p).

Definition BranchPredictor_btb_index (p : BranchPredictor) (pc : Z) : Z :=
  Z.land (Z.shiftr pc 2) (bp_btb_mask_ p).

Definition BranchPredictor_btb_tag (p : BranchPredictor) (pc : Z) : Z :=
  Z.shiftr (Z.shiftr pc 2) (bp_btb_index_bits_ p).

Definition BranchPredictor_predict (p : BranchPredictor) (pc : Z) : option Prediction :=
  e ← vget (bp_btb_ p) (BranchPredictor_btb_index p pc);
  if negb (b_valid e) || negb (b_tag e =? BranchPredictor_btb_tag p pc)
  then Some Prediction_none
  else
    taken ← (if b_cond e
             then c ← vget (bp_bht_ p) (BranchPredictor_bht_index p pc); Some (2 <=? c)
             else Some true);
    Some (mkPrediction taken (b_target e)).

(** [if (taken) { if (c < 3) ++c; } else { if (c > 0) --c; }] *)
Definition bht_step (taken : bool) (c : Z) : Z :=
  if taken then (if c <? 3 then u8 (c + 1) else c) else (if 0 <? c then u8 (c - 1) else c).

Definition BranchPredictor_update (p : BranchPredictor) (pc : Z) (is_cond taken : bool)
    (target : Z) : option BranchPredictor :=
  p ← (if is_cond then
         c ← vget (bp_bht_ p) (BranchPredictor_bht_index p pc);
         bht ← vset (bp_bht_ p) (BranchPredictor_bht_index p pc) (bht_step taken c);
         Some (p <| bp_bht_ := bht |>)
       else Some p);
  btb ← vset (bp_btb_ p) (BranchPredictor_btb_index p pc)
          (mkBtbEntry true (BranchPredictor_btb_tag p pc) target is_cond);
  Some (p <| bp_btb_ := btb |>).

(** ** Invariant *)

(** [k] is the log of the BTB size.  The BHT size need not be a power of two
    for the masked index to be in range, only positive. *)
Record BranchPredictor_inv (k : Z) (p : BranchPredictor) : Prop := mkBranchPredictor_inv {
  bi_bits : 0 <= k <= 31;
  bi_index_bits : bp_btb_index_bits_ p = k;
  bi_btb_mask : bp_btb_mask_ p = 2 ^ k - 1;
  bi_btb : Z.of_nat (length (bp_btb_ p)) = 2 ^ k;
  bi_bht : 0 < Z.of_nat (length (bp_bht_ p)) < 2 ^ 32;
  bi_bht_mask : bp_bht_mask_ p = Z.of_nat (length (bp_bht_ p)) - 1;
  bi_counters : Forall (fun c => 0 <= c <= 3) (bp_bht_ p);
}.

Lemma BranchPredictor_new_inv bht_entries k :
  0 < bht_entries < 2 ^ 32 -> 0 <= k <= 31 ->
  exists p, BranchPredictor_new bht_entries (2 ^ k) = Some p /\ BranchPredictor_inv k p /\
    (forall pc, is_u32 pc -> BranchPredictor_predict p pc = Some Prediction_none).
Proof.
  intros Hb Hk. unfold BranchPredictor_new.
  assert (Hp : 1 <= 2 ^ k <= 2 ^ 31).
  { split; [|apply Z.pow_le_mono_r; lia].
    pose proof (Z.pow_pos_nonneg 2 k). lia. }
  rewrite (proj2 (log2_exact_spec (2 ^ k) k ltac:(unfold is_u32; lia))) by (split; [lia|done]).
  cbn [mbind option_bind]. eexists. split; [reflexivity|].
  rewrite !u32_id by lia. split.
  - constructor; cbn; rewrite ?length_replicate; try done; try lia.
    apply Forall_replicate. lia.
  - intros pc Hpc. unfold BranchPredictor_predict, BranchPredictor_btb_index. cbn.
    rewrite (land_mask _ k) by (rewrite ?Z.ones_equiv; lia).
    pose proof (Z.mod_pos_bound (Z.shiftr pc 2) (2 ^ k) ltac:(lia)).
    destruct (vget_is_Some (replicate (Z.to_nat (2 ^ k)) BtbEntry_new) (Z.shiftr pc 2 mod 2 ^ k))
      as [e E]; [rewrite length_replicate; lia|].
    rewrite E. cbn. unfold vget in E. destruct (_ <? 0); [done|].
    by apply lookup_replicate in E as [-> _].
Qed.

Section Spec.
Context (k : Z) (p : BranchPredictor) (Hp : BranchPredictor_inv k p).

(** The BTB slot and tag of a word address. *)
Definition slot (pc : Z) : Z := pc / 4 mod 2 ^ k.
Definition btag (pc : Z) : Z := pc / 4 / 2 ^ k.

Lemma bp_pow : 0 < 2 ^ k.
Proof using Hp. destruct Hp. apply Z.pow_pos_nonneg; lia. Qed.

Lemma btb_index_spec pc : BranchPredictor_btb_index p pc = slot pc.
Proof using Hp.
  destruct Hp. unfold BranchPredictor_btb_index, slot.
  rewrite bi_btb_mask0, (land_mask _ k), Z.shiftr_div_pow2 by (rewrite ?Z.ones_equiv; lia). done.
Qed.

Lemma btb_tag_spec pc : BranchPredictor_btb_tag p pc = btag pc.
Proof using Hp.
  destruct Hp. unfold BranchPredictor_btb_tag, btag.
  rewrite bi_index_bits0, !Z.shiftr_div_pow2 by lia. done.
Qed.

Lemma slot_range pc : 0 <= slot pc < 2 ^ k.
Proof using Hp. apply Z.mod_pos_bound, bp_pow. Qed.

(** Slot and tag together are the word address. *)
Lemma slot_btag pc pc' : slot pc = slot pc' /\ btag pc = btag pc' <-> pc / 4 = pc' / 4.
Proof using Hp.
  unfold slot, btag. pose proof bp_pow.
  pose proof (Z.div_mod (pc / 4) (2 ^ k) ltac:(lia)).
  pose proof (Z.div_mod (pc' / 4) (2 ^ k) ltac:(lia)). split; [|by intros ->].
  intros [E1 E2]. rewrite E1, E2 in *. lia.
Qed.

Lemma bht_index_range pc :
  is_u32 pc -> 0 <= BranchPredictor_bht_index p pc < Z.of_nat (length (bp_bht_ p)).
Proof using Hp.
  intros _. destruct Hp. unfold BranchPredictor_bht_index. rewrite bi_bht_mask0.
  pose proof (land_le (Z.shiftr pc 2) (Z.of_nat (length (bp_bht_ p)) - 1)). lia.
Qed.

(** *** The two tables as functions of the PC *)

Definition btb_lookup (pc : Z) : option (Z * bool) :=
  e ← vget (bp_btb_ p) (slot pc);
  if b_valid e && (b_tag e =? btag pc) then Some (b_target e, b_cond e) else None.

Definition bht_counter (pc : Z) : Z :=
  default 0 (vget (bp_bht_ p) (BranchPredictor_bht_index p pc)).

Lemma bht_counter_spec pc :
  is_u32 pc -> vget (bp_bht_ p) (BranchPredictor_bht_index p pc) = Some (bht_counter pc) /\
    0 <= bht_counter pc <= 3.
Proof using Hp.
  intros Hpc. unfold bht_counter.
  destruct (vget_is_Some _ _ (bht_index_range pc Hpc)) as [c E]. rewrite E. split; [done|].
  exact (vget_Forall _ _ _ _ (bi_counters _ _ Hp) E).
Qed.

(** [predict] never faults, and combines the two tables. *)
Lemma predict_spec pc :
  is_u32 pc ->
  BranchPredictor_predict p pc = Some
    match btb_lookup pc with
    | None => Prediction_none
    | Some (target, cond) =>
        mkPrediction (if cond : bool then 2 <=? bht_counter pc else true) target
    end.
Proof using Hp.
  intros Hpc. unfold BranchPredictor_predict, btb_lookup. rewrite btb_index_spec, btb_tag_spec.
  destruct (vget_is_Some (bp_btb_ p) (slot pc)) as [e ->].
  { rewrite (bi_btb _ _ Hp). apply slot_range. }
  cbn [mbind option_bind]. destruct (b_valid e), (b_tag e =? btag pc); cbn; try done.
  destruct (b_cond e); [|done]. destruct (bht_counter_spec pc Hpc) as [-> _]. done.
Qed.
End Spec.

(** ** Update *)

Lemma bht_step_range taken c : 0 <= c <= 3 -> 0 <= bht_step taken c <= 3.
Proof. intros. unfold bht_step. destruct taken; bool_cases; unfold u8; rewrite ?Z.mod_small; lia. Qed.

(** The two-bit counter saturates. *)
Lemma bht_step_eq taken c :
  0 <= c <= 3 -> bht_step taken c = if taken then Z.min 3 (c + 1) else Z.max 0 (c - 1).
Proof. intros. unfold bht_step. destruct taken; bool_cases; unfold u8; rewrite ?Z.mod_small; lia. Qed.

(** The counter's half of an update. *)
Lemma update_bht k p pc (is_cond taken : bool) :
  BranchPredictor_inv k p -> is_u32 pc ->
  exists bht : list Z,
    (if is_cond then
       c ← vget (bp_bht_ p) (BranchPredictor_bht_index p pc);
       bht ← vset (bp_bht_ p) (BranchPredictor_bht_index p pc) (bht_step taken c);
       Some (p <| bp_bht_ := bht |>)
     else Some p) = Some (p <| bp_bht_ := bht |>) /\
    length bht = length (bp_bht_ p) /\ Forall (fun c => 0 <= c <= 3) bht /\
    forall pc', is_u32 pc' -> default 0 (vget bht (BranchPredictor_bht_index p pc')) =
      if is_cond && (BranchPredictor_bht_index p pc' =? BranchPredictor_bht_index p pc)
      then bht_step taken (bht_counter p pc) else bht_counter p pc'.
Proof.
  intros Hp Hpc. pose proof (bi_counters _ _ Hp) as Hc. destruct is_cond.
  2:{ exists (bp_bht_ p). split_and!; try done. by destruct p. }
  destruct (bht_counter_spec k p Hp pc Hpc) as [-> Hr]. cbn [mbind option_bind].
  destruct (vset_is_Some (bp_bht_ p) (BranchPredictor_bht_index p pc)
    (bht_step taken (bht_counter p pc))) as [bht E]; [by eapply bht_index_range|].
  rewrite E. exists bht. split_and!; [done|by eapply vset_length| |].
  - eapply vset_Forall; [exact Hc|by apply bht_step_range|exact E].
  - intros pc' Hpc'. cbn [andb].
    destruct (Z.eqb_spec (BranchPredictor_bht_index p pc') (BranchPredictor_bht_index p pc)) as [->|Hne].
    + by rewrite (vget_vset_eq _ _ _ _ E).
    + rewrite (vget_vset_ne _ _ (BranchPredictor_bht_index p pc') _ _ E) by done. done.
Qed.

Lemma update_spec k p pc is_cond taken target :
  BranchPredictor_inv k p -> is_u32 pc ->
  exists p', BranchPredictor_update p pc is_cond taken target = Some p' /\
    BranchPredictor_inv k p' /\
    (forall pc', btb_lookup k p' pc' =
       if pc' / 4 =? pc / 4 then Some (target, is_cond)
       else if slot k pc' =? slot k pc then None else btb_lookup k p pc') /\
    (forall pc', is_u32 pc' -> bht_counter p' pc' =
       if is_cond && (BranchPredictor_bht_index p pc' =? BranchPredictor_bht_index p pc)
       then bht_step taken (bht_counter p pc) else bht_counter p pc').
Proof.
  intros Hp Hpc. unfold BranchPredictor_update.
  destruct (update_bht k p pc is_cond taken Hp Hpc) as (bht & -> & Hl & Hcs & Hcount). cbn [mbind option_bind].
  change (BranchPredictor_btb_index (p <| bp_bht_ := bht |>) pc) with (BranchPredictor_btb_index p pc).
  change (BranchPredictor_btb_tag (p <| bp_bht_ := bht |>) pc) with (BranchPredictor_btb_tag p pc).
  change (bp_btb_ (p <| bp_bht_ := bht |>)) with (bp_btb_ p).
  rewrite (btb_index_spec k p Hp), (btb_tag_spec k p Hp).
  destruct (vset_is_Some (bp_btb_ p) (slot k pc) (mkBtbEntry true (btag k pc) target is_cond))
    as [btb E]; [rewrite (bi_btb _ _ Hp); by eapply slot_range|].
  rewrite E. cbn [mbind option_bind]. eexists. split; [reflexivity|]. split; [|split].
  - destruct Hp. constructor; cbn; rewrite ?Hl, ?(vset_length _ _ _ _ E); done.
  - intros pc'. unfold btb_lookup. cbn.
    destruct (Z.eqb_spec (pc' / 4) (pc / 4)) as [Ew|Hw].
    + apply (slot_btag k p Hp) in Ew as [-> ->]. rewrite (vget_vset_eq _ _ _ _ E). cbn.
      by rewrite Z.eqb_refl.
    + destruct (Z.eqb_spec (slot k pc') (slot k pc)) as [Es|Hs].
      * rewrite Es, (vget_vset_eq _ _ _ _ E). cbn.
        destruct (Z.eqb_spec (btag k pc) (btag k pc')) as [Et|]; [|done].
        exfalso. apply Hw. apply (slot_btag k p Hp). by split.
      * rewrite (vget_vset_ne _ _ (slot k pc') _ _ E) by done. done.
  - exact Hcount.
Qed.

(** ** Soundness of targets

    A property of all trained branches holds of every BTB hit. *)
Definition btb_sound (Q : Z -> Z -> bool -> Prop) (k : Z) (p : BranchPredictor) : Prop :=
  forall pc target cond, btb_lookup k p pc = Some (target, cond) -> Q (pc / 4) target cond.

Lemma btb_sound_update Q k p pc is_cond taken target p' :
  BranchPredictor_inv k p -> is_u32 pc -> btb_sound Q k p -> Q (pc / 4) target is_cond ->
  BranchPredictor_update p pc is_cond taken target = Some p' -> btb_sound Q k p'.
Proof.
  intros Hp Hpc Hs HQ E pc' t c.
  destruct (update_spec k p pc is_cond taken target Hp Hpc) as (p1 & E1 & _ & Hl & _).
  rewrite E1 in E. injection E as <-. rewrite Hl.
  destruct (Z.eqb_spec (pc' / 4) (pc / 4)) as [->|]; [by intros [= <- <-]|].
  destruct (_ =? _); [done|]. apply Hs.
Qed.

(** ** Training *)

(** [n] resolutions of the branch at [pc] with the same outcome. *)
Fixpoint train (n : nat) (p : BranchPredictor) (pc : Z) (is_cond taken : bool) (target : Z)
    : option BranchPredictor :=
  match n with
  | O => Some p
  | S n => p ← BranchPredictor_update p pc is_cond taken target; train n p pc is_cond taken target
  end.

Lemma train_spec k n p pc taken target :
  BranchPredictor_inv k p -> is_u32 pc ->
  exists p', train (S n) p pc true taken target = Some p' /\ BranchPredictor_inv k p' /\
    btb_lookup k p' pc = Some (target, true) /\
    bht_counter p' pc =
      if taken then Z.min 3 (bht_counter p pc + Z.of_nat (S n))
      else Z.max 0 (bht_counter p pc - Z.of_nat (S n)).
Proof.
  intros Hp Hpc. revert p Hp. induction n as [|n IH]; intros p Hp.
  - cbn [train]. destruct (update_spec k p pc true taken target Hp Hpc) as (p' & -> & Hp' & Hl & Hc).
    exists p'. rewrite Hl, Hc by done. rewrite !Z.eqb_refl.
    destruct (bht_counter_spec k p Hp pc Hpc) as [_ Hr]. by rewrite bht_step_eq.
  - destruct (update_spec k p pc true taken target Hp Hpc) as (p1 & E1 & Hp1 & Hl & Hc).
    destruct (IH p1 Hp1) as (p' & E' & Hp' & Hl' & Hc').
    exists p'. cbn [train] in *. rewrite E1. cbn [mbind option_bind]. split_and!; try done.
    rewrite Hc', Hc by done. rewrite Z.eqb_refl.
    destruct (bht_counter_spec k p Hp pc Hpc) as [_ Hr]. cbn [andb].
    rewrite bht_step_eq by done. destruct taken; lia.
Qed.

(** C26: a resolved branch is entered in the BTB: it is then predicted with its
    target (a conditional branch in the direction of its saturating counter, a
    JAL always taken); a branch evicted from the same slot is predicted
    not taken; every other branch keeps its target, and its direction unless
    it shares the counter.  The update never faults. *)
Theorem BranchPredictor_update_correct k p pc is_cond taken target pc' :
  BranchPredictor_inv k p -> is_u32 pc -> is_u32 pc' ->
  exists p', BranchPredictor_update p pc is_cond taken target = Some p' /\
    BranchPredictor_inv k p' /\
    BranchPredictor_predict p' pc' =
      if pc' / 4 =? pc / 4 then
        Some (mkPrediction
          (if is_cond then 2 <=? (if taken then Z.min 3 (bht_counter p pc + 1)
                                  else Z.max 0 (bht_counter p pc - 1))
           else true) target)
      else if slot k pc' =? slot k pc then Some Prediction_none
      else if is_cond && (BranchPredictor_bht_index p pc' =? BranchPredictor_bht_index p pc) then
        Some match btb_lookup k p pc' with
             | Some (t, true) => mkPrediction (2 <=? bht_counter p' pc') t
             | Some (t, false) => mkPrediction true t
             | None => Prediction_none
             end
      else BranchPredictor_predict p pc'.
Proof.
  intros Hp Hpc Hpc'.
  destruct (update_spec k p pc is_cond taken target Hp Hpc) as (p' & E & Hp' & Hl & Hc).
  exists p'. split; [done|]. split; [done|].
  rewrite (predict_spec k p' Hp'), Hl by done.
  destruct (bht_counter_spec k p Hp pc Hpc) as [_ Hr].
  destruct (Z.eqb_spec (pc' / 4) (pc / 4)) as [Ew|Hw].
  - destruct is_cond; [|done]. rewrite Hc by done.
    assert (Eb : BranchPredictor_bht_index p pc' = BranchPredictor_bht_index p pc).
    { unfold BranchPredictor_bht_index. rewrite !Z.shiftr_div_pow2 by lia.
      change (2 ^ 2) with 4. by rewrite Ew. }
    rewrite Eb, Z.eqb_refl, bht_step_eq by done. done.
  - destruct (_ =? _); [done|]. rewrite (predict_spec k p Hp) by done. rewrite Hc by done.
    destruct (is_cond && _); [|done].
    destruct (btb_lookup k p pc') as [[t []]|]; done.
Qed.

Definition predictor_example : BranchPredictor :=
  mkBranchPredictor (replicate 4 1) 3 (replicate 2 BtbEntry_new) 1 1.

Lemma predictor_example_inv : BranchPredictor_inv 1 predictor_example.
Proof. constructor; cbn; try done; try lia. repeat constructor; lia. Qed.

Lemma BranchPredictor_update_correct_witness :
  exists p', BranchPredictor_update predictor_example 0x80000008 true true 0x80000000 = Some p' /\
    BranchPredictor_inv 1 p' /\
    BranchPredictor_predict p' 0x80000008 = Some (mkPrediction true 0x80000000).
Proof.
  exact (BranchPredictor_update_correct 1 predictor_example 0x80000008 true true 0x80000000
    0x80000008 predictor_example_inv ltac:(unfold is_u32; lia) ltac:(unfold is_u32; lia)).
Defined.

(** The two-bit counters give hysteresis: from any state, two resolutions
    in the same direction make the predictor predict that direction (with the
    branch's target), and after three a single opposite outcome does not
    change it. *)
Lemma BranchPredictor_hysteresis k p pc taken target :
  BranchPredictor_inv k p -> is_u32 pc ->
  (exists p2, train 2 p pc true taken target = Some p2 /\
     BranchPredictor_predict p2 pc = Some (mkPrediction taken target)) /\
  (exists p3, (p ← train 3 p pc true taken target;
               BranchPredictor_update p pc true (negb taken) target) = Some p3 /\
     BranchPredictor_predict p3 pc = Some (mkPrediction taken target)).
Proof.
  intros Hp Hpc. destruct (bht_counter_spec k p Hp pc Hpc) as [_ Hr]. split.
  - destruct (train_spec k 1 p pc taken target Hp Hpc) as (p2 & E & Hp2 & Hl & Hc).
    exists p2. split; [done|]. rewrite (predict_spec k p2 Hp2), Hl, Hc by done. do 2 f_equal.
    destruct taken; bool_cases; lia.
  - destruct (train_spec k 2 p pc taken target Hp Hpc) as (p2 & E & Hp2 & Hl & Hc).
    rewrite E. cbn [mbind option_bind].
    destruct (train_spec k 0 p2 pc (negb taken) target Hp2 Hpc) as (p3 & E3 & Hp3 & Hl3 & Hc3).
    exists p3. cbn [train] in E3.
    destruct (BranchPredictor_update p2 pc true (negb taken) target) as [p3'|]; [|done].
    split; [by injection E3 as ->|].
    rewrite (predict_spec k p3 Hp3), Hl3, Hc3, Hc by done. do 2 f_equal.
    destruct taken; cbn [negb]; bool_cases; lia.
Qed.

Example BranchPredictor_hysteresis_witness :
  exists p2, train 2 predictor_example 0x80000008 true true 0x80000000 = Some p2 /\
    BranchPredictor_predict p2 0x80000008 = Some (mkPrediction true 0x80000000).
Proof.
  apply (BranchPredictor_hysteresis 1 predictor_example 0x80000008 true 0x80000000
    predictor_example_inv). unfold is_u32; lia.
Defined.

(** The tables drop the two low bits of the PC: a prediction depends on the
    word address only, so an instruction at a half-word address (which a JALR
    can reach) gets the prediction of the aligned one. *)
Lemma predict_word_address p pc pc' :
  pc / 4 = pc' / 4 -> BranchPredictor_predict p pc = BranchPredictor_predict p pc'.
Proof.
  intros E. unfold BranchPredictor_predict, BranchPredictor_btb_index, BranchPredictor_btb_tag,
    BranchPredictor_bht_index.
  replace (Z.shiftr pc 2) with (Z.shiftr pc' 2); [done|].
  rewrite !Z.shiftr_div_pow2 by lia. done.
Qed.
