(* ===== verification/Stages.v ===== *)
(** * Pipeline stages

    Models [include/cpusim/uarch/pipeline/*.h], [uarch/hazard.h],
    [src/uarch/pipeline/*.cpp] and [src/uarch/hazard.cpp].  A stage object is
    a record of its own members; what it holds by reference (latches, memory,
    register file, predictor, statistics, other stages) is an argument of
    [evaluate] and [latch], returned when the method changes it. *)

From S2P Require Import Prelude Isa Alu Regfile Config Pipe Memory BranchPredictor.

(** ** fetch.cpp *)

Record FetchStage := mkFetchStage {
  ft_pc_ : Z;
  ft_next_pc_ : Z;
  ft_stall_ : bool;
  ft_redirect_ : bool;
  ft_redirect_target_ : Z;
  ft_fetch_stall_ : bool;
}.

#[export] Instance FetchStage_eta : Eta FetchStage := fun f =>
  mkFetchStage (ft_pc_ f) (ft_next_pc_ f) (ft_stall_ f) (ft_redirect_ f)
    (ft_redirect_target_ f) (ft_fetch_stall_ f).

Definition FetchStage_new (reset_pc : Z) : FetchStage :=
  mkFetchStage reset_pc 0 false false 0 false.

Definition FetchStage_set_stall (s : bool) (f : FetchStage) : FetchStage := f <| ft_stall_ := s |>.

Definition FetchStage_set_redirect (r : bool) (target : Z) (f : FetchStage) : FetchStage :=
  f <| ft_redirect_ := r |> <| ft_redirect_target_ := target |>.

Section Fetch.
Context {M : Type} `{IMemory M}.

(** The predictor pointer is null when the predictor is disabled. *)
Definition FetchStage_evaluate (imem : M) (bp : option BranchPredictor) (st : SimStats)
    (f : FetchStage) (out : Latch IfId) : option (FetchStage * M * SimStats * Latch IfId) :=
  '(served, imem, st) ← ready imem st (ft_pc_ f) false;
  let f := f <| ft_fetch_stall_ := negb served |> in
  if ft_fetch_stall_ f then
    Some (f <| ft_next_pc_ := ft_pc_ f |>, imem, st, Latch_write out bubble)
  else
    raw ← load_word imem (ft_pc_ f);
    '(predicted_taken, predicted_pc) ←
      match bp with
      | Some bp =>
          p ← BranchPredictor_predict bp (ft_pc_ f);
          Some (if p_taken p then (true, p_target p) else (false, u32 (ft_pc_ f + 4)))
      | None => Some (false, u32 (ft_pc_ f + 4))
      end;
    let out := Latch_write out (mkIfId (ft_pc_ f) raw true predicted_taken) in
    Some (f <| ft_next_pc_ := if ft_redirect_ f then ft_redirect_target_ f else predicted_pc |>,
          imem, st, out).

Definition FetchStage_latch (imem : M) (st : SimStats) (f : FetchStage) (out : Latch IfId)
    : option (FetchStage * M * SimStats * Latch IfId) :=
  '(imem, st) ← tick imem st;
  let '(f, out) :=
    if ft_redirect_ f then (f <| ft_pc_ := ft_redirect_target_ f |>, Latch_flush out)
    else if negb (ft_stall_ f) then
      (if negb (ft_fetch_stall_ f) then f <| ft_pc_ := ft_next_pc_ f |> else f, Latch_latch out)
    else (f, out) in
  Some (f <| ft_stall_ := false |> <| ft_redirect_ := false |>, imem, st, out).
End Fetch.

(** ** decode.cpp *)

Record DecodeStage := mkDecodeStage { ds_stall_ : bool; ds_flush_ : bool }.

Definition DecodeStage_new : DecodeStage := mkDecodeStage false false.

Definition DecodeStage_set_flush (v : bool) (d : DecodeStage) : DecodeStage :=
  mkDecodeStage (ds_stall_ d) v.

Definition DecodeStage_evaluate (rf : RegFile) (in_ : Latch IfId) (out : Latch IdEx)
    : option (Latch IdEx) :=
  let fetch := Latch_read in_ in
  if negb (if_valid fetch) then Some (Latch_write out bubble)
  else
    let insn := decode (if_raw fetch) (if_pc fetch) in
    rs1_val ← RegFile_read rf (i_rs1 insn);
    rs2_val ← RegFile_read rf (i_rs2 insn);
    Some (Latch_write out {|
      ie_pc := if_pc fetch;
      ie_raw := if_raw fetch;
      ie_op := i_op insn;
      ie_rd := i_rd insn;
      ie_rs1 := i_rs1 insn;
      ie_rs2 := i_rs2 insn;
      ie_imm := i_imm insn;
      ie_rs1_val := rs1_val;
      ie_rs2_val := rs2_val;
      ie_valid := true;
      ie_predicted_taken := if_predicted_taken fetch
    |}).

Definition DecodeStage_latch (d : DecodeStage) (out : Latch IdEx) : DecodeStage * Latch IdEx :=
  (mkDecodeStage false false,
   if ds_flush_ d then Latch_flush out
   else if negb (ds_stall_ d) then Latch_latch out else out).

(** ** forward.cpp *)

Record ForwardUnit := mkForwardUnit { fw_prev_mem_wb_ : MemWb; fw_prev_mem_wb_next_ : MemWb }.

Definition ForwardUnit_new : ForwardUnit := mkForwardUnit bubble bubble.

Definition ForwardUnit_evaluate (mem_wb : Latch MemWb) (u : ForwardUnit) : ForwardUnit :=
  mkForwardUnit (fw_prev_mem_wb_ u) (Latch_read mem_wb).

Definition ForwardUnit_latch (u : ForwardUnit) : ForwardUnit :=
  mkForwardUnit (fw_prev_mem_wb_next_ u) (fw_prev_mem_wb_next_ u).

Definition ForwardUnit_resolve (ex_mem : Latch ExMem) (mem_wb : Latch MemWb) (u : ForwardUnit)
    (reg cur : Z) : Z :=
  if reg =? 0 then 0
  else
    let ex := Latch_read ex_mem in
    let wb := Latch_read mem_wb in
    if em_valid ex && (em_rd ex =? reg) then em_alu_out ex
    else if mw_valid wb && (mw_rd wb =? reg) then mw_wb_val wb
    else if mw_valid (fw_prev_mem_wb_ u) && (mw_rd (fw_prev_mem_wb_ u) =? reg)
    then mw_wb_val (fw_prev_mem_wb_ u)
    else cur.

(** ** execute.cpp *)

Record ExecuteStage := mkExecuteStage {
  ex_redirect_ : bool;
  ex_redirect_target_ : Z;
  ex_control_ : bool;
  ex_train_ : bool;
  ex_train_pc_ : Z;
  ex_train_cond_ : bool;
  ex_train_taken_ : bool;
  ex_train_target_ : Z;
}.

#[export] Instance ExecuteStage_eta : Eta ExecuteStage := fun e =>
  mkExecuteStage (ex_redirect_ e) (ex_redirect_target_ e) (ex_control_ e) (ex_train_ e)
    (ex_train_pc_ e) (ex_train_cond_ e) (ex_train_taken_ e) (ex_train_target_ e).

Definition ExecuteStage_new : ExecuteStage :=
  mkExecuteStage false 0 false false 0 false false 0.

Definition is_cond_branch (op : Op) : bool :=
  match op with BEQ | BNE | BLT | BGE | BLTU | BGEU => true | _ => false end.

(** [bool uses_imm = (id.op != ADD && ...)] *)
Definition uses_imm (op : Op) : bool :=
  match op with
  | ADD | SUB | AND | OR | XOR | SLL | SRL | SRA | SLT | SLTU => false
  | _ => true
  end.

(** The computation of [evaluate] on resolved operands: the EX/MEM payload
    and the stage's new members. *)
Definition execute (bp_enabled : bool) (id : IdEx) (rs1 rs2 : Z)
    : ExecuteStage * ExMem :=
  let imm := u32 (ie_imm id) in
  let a := if op_eqb (ie_op id) AUIPC then ie_pc id else rs1 in
  let b := if uses_imm (ie_op id) then imm else rs2 in
  let alu_out := alu_exec (alu_op_for (ie_op id)) a b in
  let cond := is_cond_branch (ie_op id) in
  let actual_taken := branch_taken (ie_op id) rs1 rs2 in
  let target := u32 (ie_pc id + imm) in
  let is_jal := op_eqb (ie_op id) JAL in
  let is_jalr := op_eqb (ie_op id) JALR in
  let '(alu_out, actual_taken, target) :=
    if is_jal || is_jalr then
      (u32 (ie_pc id + 4), true,
       if is_jalr then Z.land (u32 (rs1 + imm)) 0xfffffffe else target)
    else (alu_out, actual_taken, target) in
  ({| ex_redirect_ := negb (Bool.eqb actual_taken (ie_predicted_taken id));
      ex_redirect_target_ := if actual_taken then target else u32 (ie_pc id + 4);
      ex_control_ := cond || is_jal || is_jalr;
      ex_train_ := bp_enabled && (cond || is_jal);
      ex_train_pc_ := ie_pc id;
      ex_train_cond_ := cond;
      ex_train_taken_ := actual_taken;
      ex_train_target_ := target |},
   {| em_pc := ie_pc id;
      em_raw := ie_raw id;
      em_op := ie_op id;
      em_rd := ie_rd id;
      em_alu_out := alu_out;
      em_rs2_val := rs2;
      em_branch_taken := actual_taken;
      em_branch_target := target;
      em_valid := true |}).

Definition ExecuteStage_evaluate (bp_enabled : bool) (in_ : Latch IdEx) (ex_mem : Latch ExMem)
    (mem_wb : Latch MemWb) (fwd : ForwardUnit) (e : ExecuteStage) : ExecuteStage * Latch ExMem :=
  let id := Latch_read in_ in
  if negb (ie_valid id) then
    (e <| ex_redirect_ := false |> <| ex_train_ := false |> <| ex_control_ := false |>,
     Latch_write ex_mem bubble)
  else
    let rs1 := ForwardUnit_resolve ex_mem mem_wb fwd (ie_rs1 id) (ie_rs1_val id) in
    let rs2 := ForwardUnit_resolve ex_mem mem_wb fwd (ie_rs2 id) (ie_rs2_val id) in
    let '(e, ex) := execute bp_enabled id rs1 rs2 in
    (e, Latch_write ex_mem ex).

Definition ExecuteStage_latch (e : ExecuteStage) (fetch : FetchStage) (dec : DecodeStage)
    (bp : option BranchPredictor) (st : SimStats) (out : Latch ExMem)
    : option (ExecuteStage * FetchStage * DecodeStage * option BranchPredictor * SimStats *
              Latch ExMem) :=
  let fetch := if ex_redirect_ e
               then FetchStage_set_redirect true (ex_redirect_target_ e) fetch else fetch in
  let dec := if ex_redirect_ e then DecodeStage_set_flush true dec else dec in
  let st := if ex_control_ e then
              (if ex_redirect_ e then stats_branch_mispredict st else stats_branch_correct st)
            else st in
  bp ← (if ex_train_ e then
          p ← bp;
          p ← BranchPredictor_update p (ex_train_pc_ e) (ex_train_cond_ e) (ex_train_taken_ e)
                (ex_train_target_ e);
          Some (Some p)
        else Some bp);
  Some (e <| ex_redirect_ := false |> <| ex_train_ := false |> <| ex_control_ := false |>,
        fetch, dec, bp, st, Latch_latch out).

(** ** mem_access.cpp *)

Record MemAccessStage := mkMemAccessStage { ma_stalling_ : bool }.

Definition is_store (op : Op) : bool :=
  match op with SB | SH | SW => true | _ => false end.

Definition is_mem_op (op : Op) : bool :=
  match op with LB | LH | LW | LBU | LHU => true | _ => is_store op end.

Section MemAccess.
Context {M : Type} `{IMemory M}.

Definition wb_load (ex : ExMem) (val : Z) : MemWb :=
  mkMemWb (em_pc ex) (em_raw ex) (em_op ex) (em_rd ex) val (em_alu_out ex) 0 false true.

Definition wb_store (ex : ExMem) (val : Z) : MemWb :=
  mkMemWb (em_pc ex) (em_raw ex) (em_op ex) (em_rd ex) 0 (em_alu_out ex) val true true.

(** The [switch] of [evaluate]: the access, and the MEM/WB payload. *)
Definition mem_perform (dmem : M) (ex : ExMem) : option (M * MemWb) :=
  let addr := em_alu_out ex in
  match em_op ex with
  | LW => v ← load_word dmem addr; Some (dmem, wb_load ex v)
  | LH => v ← load_half dmem addr; Some (dmem, wb_load ex (u32 (s16 v)))
  | LHU => v ← load_half dmem addr; Some (dmem, wb_load ex v)
  | LB => v ← load_byte dmem addr; Some (dmem, wb_load ex (u32 (s8 v)))
  | LBU => v ← load_byte dmem addr; Some (dmem, wb_load ex v)
  | SW =>
      let val := em_rs2_val ex in
      dmem ← store_word dmem addr val; Some (dmem, wb_store ex val)
  | SH =>
      let val := Z.land (em_rs2_val ex) 0xffff in
      dmem ← store_half dmem addr val; Some (dmem, wb_store ex val)
  | SB =>
      let val := Z.land (em_rs2_val ex) 0xff in
      dmem ← store_byte dmem addr val; Some (dmem, wb_store ex val)
  | _ =>
      Some (dmem, mkMemWb (em_pc ex) (em_raw ex) (em_op ex) (em_rd ex) (em_alu_out ex) 0 0 false true)
  end.

Definition MemAccessStage_evaluate (dmem : M) (st : SimStats) (in_ : Latch ExMem)
    (out : Latch MemWb) : option (MemAccessStage * M * SimStats * Latch MemWb) :=
  let ex := Latch_read in_ in
  if negb (em_valid ex) then Some (mkMemAccessStage false, dmem, st, Latch_write out bubble)
  else
    '(served, dmem, st) ←
      (if is_mem_op (em_op ex) then ready dmem st (em_alu_out ex) (is_store (em_op ex))
       else Some (true, dmem, st));
    if negb served then Some (mkMemAccessStage true, dmem, st, Latch_write out bubble)
    else
      '(dmem, wb) ← mem_perform dmem ex;
      Some (mkMemAccessStage false, dmem, st, Latch_write out wb).

Definition MemAccessStage_latch (dmem : M) (st : SimStats) (out : Latch MemWb)
    : option (M * SimStats * Latch MemWb) :=
  '(dmem, st) ← tick dmem st;
  Some (dmem, st, Latch_latch out).
End MemAccess.

(** ** writeback.cpp *)

Record WritebackStage := mkWritebackStage { ws_pending_ : bool; ws_rd_ : Z; ws_val_ : Z }.

Definition WritebackStage_new : WritebackStage := mkWritebackStage false 0 0.

Definition has_writeback (op : Op) : bool :=
  match op with
  | SB | SH | SW | BEQ | BNE | BLT | BGE | BLTU | BGEU
  | ECALL | EBREAK | FENCE | ILLEGAL => false
  | _ => true
  end.

Definition WritebackStage_evaluate (in_ : Latch MemWb) : WritebackStage :=
  let wb := Latch_read in_ in
  if negb (mw_valid wb) || negb (has_writeback (mw_op wb)) then mkWritebackStage false 0 0
  else mkWritebackStage true (mw_rd wb) (mw_wb_val wb).

Definition WritebackStage_latch (w : WritebackStage) (rf : RegFile)
    : option (WritebackStage * RegFile) :=
  rf ← (if ws_pending_ w then RegFile_write rf (ws_rd_ w) (ws_val_ w) else Some rf);
  Some (mkWritebackStage false (ws_rd_ w) (ws_val_ w), rf).

(** ** hazard.cpp *)

Record HazardUnit := mkHazardUnit { hz_stall_ : bool }.

Definition is_load (op : Op) : bool :=
  match op with LB | LH | LW | LBU | LHU => true | _ => false end.

Definition HazardUnit_evaluate (if_id : Latch IfId) (id_ex : Latch IdEx) : HazardUnit :=
  let ex := Latch_read id_ex in
  let fe := Latch_read if_id in
  if negb (ie_valid ex) then mkHazardUnit false
  else if negb (is_load (ie_op ex)) || (ie_rd ex =? 0) then mkHazardUnit false
  else
    let fe_rs1 := u8 (Z.land (Z.shiftr (if_raw fe) 15) 0x1f) in
    let fe_rs2 := u8 (Z.land (Z.shiftr (if_raw fe) 20) 0x1f) in
    mkHazardUnit ((ie_rd ex =? fe_rs1) || (ie_rd ex =? fe_rs2)).

Definition HazardUnit_latch (h : HazardUnit) (fetch : FetchStage) (dec : DecodeStage)
    : HazardUnit * FetchStage * DecodeStage :=
  (mkHazardUnit false,
   if hz_stall_ h then FetchStage_set_stall true fetch else fetch,
   if hz_stall_ h then DecodeStage_set_flush true dec else dec).
