(* ===== verification/Tracer.v ===== *)
(** * Tracer

    Models [include/cpusim/sim/tracer.h] and [src/sim/tracer.cpp].  The output
    stream is the string written so far; [snprintf] writes what its format
    gives, cut to the buffer size. *)

From Stdlib Require Import Ascii.
From S2P Require Import Prelude Isa Regfile Pipe DecoderSpec.
Local Open Scope string_scope.
Local Open Scope Z_scope.

(** ** The conversions of [printf] the tracer uses *)

Definition hex_digit (d : Z) : ascii :=
  default "?"%char (String.get (Z.to_nat d) "0123456789abcdef").

(** The [n] low hexadecimal digits of [v]. *)
Fixpoint hex_fixed (n : nat) (v : Z) : string :=
  match n with
  | O => ""
  | S n => hex_fixed n (v / 16) ++ String (hex_digit (v mod 16)) ""
  end.

Definition hex_len (v : Z) : nat := Z.to_nat (Z.log2 v / 4 + 1).

(** [%0<width>x]; [%x] is width 1. *)
Definition fmt_hex (width : nat) (v : Z) : string := hex_fixed (Nat.max width (hex_len v)) v.

(** Decimal digits, at most [fuel] (20 are enough for 64 bits). *)
Fixpoint dec_digits (fuel : nat) (v : Z) : string :=
  match fuel with
  | O => ""
  | S fuel => (if v <? 10 then "" else dec_digits fuel (v / 10)) ++ String (hex_digit (v mod 10)) ""
  end.

Fixpoint spaces (n : nat) : string :=
  match n with O => "" | S n => String " " (spaces n) end.

(** [%llu] and [%d]. *)
Definition fmt_u (v : Z) : string := dec_digits 20 v.
Definition fmt_d (v : Z) : string := if v <? 0 then "-" ++ dec_digits 10 (- v) else dec_digits 10 v.

(** [%<w>..] and [%-<w>..]. *)
Definition pad_left (w : nat) (s : string) : string := spaces (w - String.length s) ++ s.
Definition pad_right (w : nat) (s : string) : string := s ++ spaces (w - String.length s).

Definition snprintf (size : nat) (s : string) : string := String.substring 0 (size - 1) s.

(** ** tracer.cpp *)

Definition is_load_op (op : Op) : bool :=
  match op with LW | LH | LHU | LB | LBU => true | _ => false end.

Definition store_hex_digits (op : Op) : nat :=
  match op with SB => 2 | SH => 4 | _ => 8 end.

Definition format_effect (size : nat) (wb : MemWb) : string :=
  if mw_is_store wb then
    snprintf size (" mem 0x" ++ fmt_hex 8 (mw_mem_addr wb)
                   ++ " 0x" ++ fmt_hex (store_hex_digits (mw_op wb)) (mw_mem_val wb))
  else if negb (mw_rd wb =? 0)%Z then
    let full := " x" ++ pad_right 2 (fmt_d (mw_rd wb)) ++ " 0x" ++ fmt_hex 8 (mw_wb_val wb) in
    let buf := snprintf size full in
    if is_load_op (mw_op wb)
    then buf ++ snprintf (size - String.length full) (" mem 0x" ++ fmt_hex 8 (mw_mem_addr wb))
    else buf
  else "".

Definition disasm (size : nat) (raw pc : Z) : option string :=
  let i := decode raw pc in
  rd ← abi_name (i_rd i);
  rs1 ← abi_name (i_rs1 i);
  rs2 ← abi_name (i_rs2 i);
  let m := pad_right 5 (op_name (i_op i)) ++ " " in
  let target := u32 (pc + i_imm i) in
  Some (snprintf size
    match i_op i with
    | ADD | SUB | SLL | SRL | SRA | SLT | SLTU | AND | OR | XOR =>
        m ++ rd ++ ", " ++ rs1 ++ ", " ++ rs2
    | ADDI | SLTI | SLTIU | ANDI | ORI | XORI =>
        m ++ rd ++ ", " ++ rs1 ++ ", " ++ fmt_d (i_imm i)
    | SLLI | SRLI | SRAI =>
        m ++ rd ++ ", " ++ rs1 ++ ", " ++ fmt_d (Z.land (i_imm i) 0x1f)
    | LB | LH | LW | LBU | LHU =>
        m ++ rd ++ ", " ++ fmt_d (i_imm i) ++ "(" ++ rs1 ++ ")"
    | SB | SH | SW =>
        m ++ rs2 ++ ", " ++ fmt_d (i_imm i) ++ "(" ++ rs1 ++ ")"
    | BEQ | BNE | BLT | BGE | BLTU | BGEU =>
        m ++ rs1 ++ ", " ++ rs2 ++ ", 0x" ++ fmt_hex 8 target
    | JAL => m ++ rd ++ ", 0x" ++ fmt_hex 8 target
    | JALR => m ++ rd ++ ", " ++ fmt_d (i_imm i) ++ "(" ++ rs1 ++ ")"
    | LUI | AUIPC => m ++ rd ++ ", 0x" ++ fmt_hex 1 (Z.shiftr (u32 (i_imm i)) 12)
    | _ => op_name (i_op i)
    end).

Inductive Format := FormatCommit | FormatCycle.

Record Tracer := mkTracer { tr_out_ : string; tr_fmt_ : Format }.

Definition newline : string := String (ascii_of_nat 10) "".

Definition Tracer_line (t : Tracer) (line : string) : Tracer :=
  mkTracer (tr_out_ t ++ line ++ newline) (tr_fmt_ t).

Definition Tracer_record (t : Tracer) (wb : MemWb) (cycle : Z) : option Tracer :=
  match tr_fmt_ t with
  | FormatCycle =>
      if negb (mw_valid wb) then
        Some (Tracer_line t (snprintf 16 (pad_left 6 (fmt_u cycle) ++ " |")))
      else
        dis ← disasm 40 (mw_raw wb) (mw_pc wb);
        Some (Tracer_line t (snprintf 80
          (pad_left 6 (fmt_u cycle) ++ " | 0x" ++ fmt_hex 8 (mw_pc wb) ++ "  " ++ dis)))
  | FormatCommit =>
      if negb (mw_valid wb) then Some t
      else
        let eff := format_effect 64 wb in
        Some (Tracer_line t (snprintf 128
          ("core   0: 3 0x" ++ fmt_hex 8 (mw_pc wb) ++ " (0x" ++ fmt_hex 8 (mw_raw wb) ++ ")"
           ++ eff)))
  end.

(** ** Lengths *)

Lemma length_app_string s t : String.length (s ++ t) = (String.length s + String.length t)%nat.
Proof. induction s as [|c s IH]; [done|]. exact (f_equal S IH). Qed.

Lemma hex_fixed_length n v : String.length (hex_fixed n v) = n.
Proof. revert v; induction n as [|n IH]; intros v; [done|].
  cbn [hex_fixed]. rewrite length_app_string, IH. cbn. lia. Qed.

Lemma dec_digits_length fuel v : (String.length (dec_digits fuel v) <= fuel)%nat.
Proof.
  revert v; induction fuel as [|fuel IH]; intros v; [done|].
  cbn [dec_digits]. rewrite length_app_string.
  specialize (IH (v / 10)). destruct (_ <? _); cbn; lia.
Qed.

Lemma spaces_length n : String.length (spaces n) = n.
Proof. induction n; cbn; congruence. Qed.

Lemma hex_len_u32 v : is_u32 v -> (hex_len v <= 8)%nat.
Proof.
  intros Hv. unfold hex_len, is_u32 in *.
  destruct (Z.eq_dec v 0) as [->|]; [apply Nat.leb_le; reflexivity|].
  assert (Z.log2 v < 32) by (apply Z.log2_lt_pow2; lia). pose proof (Z.log2_nonneg v). zdm.
Qed.

Lemma fmt_hex_u32 v : is_u32 v -> fmt_hex 8 v = hex_fixed 8 v.
Proof. intros Hv. unfold fmt_hex. by rewrite Nat.max_l by by apply hex_len_u32. Qed.

Lemma fmt_hex_length w v : is_u32 v -> (w <= 8)%nat -> (String.length (fmt_hex w v) <= 8)%nat.
Proof. intros Hv Hw. unfold fmt_hex. rewrite hex_fixed_length. pose proof (hex_len_u32 v Hv). lia. Qed.

Lemma substring_all s n : (String.length s <= n)%nat -> String.substring 0 n s = s.
Proof.
  revert n; induction s as [|c s IH]; intros [|n] Hn; cbn in *; try done; [lia|].
  by rewrite IH by lia.
Qed.

(** A buffer with room for the terminator loses nothing. *)
Lemma snprintf_fits size s : (String.length s < size)%nat -> snprintf size s = s.
Proof. intros. apply substring_all. lia. Qed.

Lemma snprintf_length size s : (String.length (snprintf size s) <= size - 1)%nat.
Proof.
  unfold snprintf. generalize (size - 1)%nat. clear size. intros n. revert n.
  induction s as [|c s IH]; intros [|n]; cbn; try lia. specialize (IH n). lia.
Qed.

(** ** Reading a log line back *)

Definition hex_digit_value (c : ascii) : option Z :=
  Z.of_nat <$> String.index 0 (String c "") "0123456789abcdef".

Fixpoint hex_value (acc : Z) (s : string) : option Z :=
  match s with
  | EmptyString => Some acc
  | String c s => d ← hex_digit_value c; hex_value (16 * acc + d) s
  end.

Lemma hex_digit_round_trip d : 0 <= d < 16 -> hex_digit_value (hex_digit d) = Some d.
Proof.
  intros Hd.
  assert (Hall : forallb (fun n => bool_decide (hex_digit_value (hex_digit (Z.of_nat n)) = Some (Z.of_nat n)))
    (seq 0 16) = true) by (vm_compute; reflexivity).
  rewrite forallb_forall in Hall. specialize (Hall (Z.to_nat d)).
  rewrite in_seq, bool_decide_eq_true, Z2Nat.id in Hall by lia. apply Hall. lia.
Qed.

Lemma hex_value_snoc acc s d :
  0 <= d < 16 ->
  hex_value acc (s ++ String (hex_digit d) "") = (fun v => 16 * v + d) <$> hex_value acc s.
Proof.
  intros Hd. revert acc. induction s as [|c s IH]; intros acc.
  - change (hex_value acc (String (hex_digit d) "") = Some (16 * acc + d)). cbn [hex_value].
    by rewrite hex_digit_round_trip.
  - change (hex_value acc (String c (s ++ String (hex_digit d) "")) =
      (fun v => 16 * v + d) <$> hex_value acc (String c s)).
    cbn [hex_value]. destruct (hex_digit_value c); [apply IH|done].
Qed.

Lemma hex_fixed_round_trip n v :
  hex_value 0 (hex_fixed n v) = Some (v mod 16 ^ Z.of_nat n).
Proof.
  revert v; induction n as [|n IH]; intros v.
  { cbn. by rewrite Z.mod_1_r. }
  cbn [hex_fixed]. rewrite hex_value_snoc by (apply Z.mod_pos_bound; lia).
  rewrite IH. cbn. f_equal. rewrite Nat2Z.inj_succ, Z.pow_succ_r by lia.
  rewrite Z.rem_mul_r by (try apply Z.pow_nonzero; try apply Z.pow_pos_nonneg; lia). lia.
Qed.

Lemma fmt_hex_round_trip v : is_u32 v -> hex_value 0 (fmt_hex 8 v) = Some v.
Proof.
  intros Hv. rewrite fmt_hex_u32, hex_fixed_round_trip by done. f_equal.
  apply Z.mod_small. exact Hv.
Qed.

Lemma substring_app n s t : (n <= String.length t)%nat ->
  String.substring (String.length s) n (s ++ t) = String.substring 0 n t.
Proof. intros _. induction s as [|c s IH]; [done|exact IH]. Qed.

Lemma substring_prefix s t : String.substring 0 (String.length s) (s ++ t) = s.
Proof.
  induction s as [|c s IH]; [by destruct t|]. exact (f_equal (String c) IH).
Qed.

Lemma app_assoc_string (r s t : string) : ((r ++ s) ++ t = r ++ s ++ t)%string.
Proof. induction r as [|c r IH]; [done|]. exact (f_equal (String c) IH). Qed.

Lemma app_empty_string s : s ++ "" = s.
Proof. induction s as [|c s IH]; [done|]. exact (f_equal (String c) IH). Qed.

(** ** The commit log *)

(** A MEM/WB payload as the pipeline produces it. *)
Definition MemWb_wf (wb : MemWb) : Prop :=
  is_u32 (mw_pc wb) /\ is_u32 (mw_raw wb) /\ 0 <= mw_rd wb < 32 /\ is_u32 (mw_wb_val wb) /\
  is_u32 (mw_mem_addr wb) /\ is_u32 (mw_mem_val wb).

(** The effect column of the Spike format, with unbounded buffers. *)
Definition commit_effect (wb : MemWb) : string :=
  if mw_is_store wb then
    " mem 0x" ++ fmt_hex 8 (mw_mem_addr wb) ++ " 0x"
      ++ fmt_hex (store_hex_digits (mw_op wb)) (mw_mem_val wb)
  else if mw_rd wb =? 0 then ""
  else " x" ++ pad_right 2 (fmt_d (mw_rd wb)) ++ " 0x" ++ fmt_hex 8 (mw_wb_val wb)
    ++ (if is_load_op (mw_op wb) then " mem 0x" ++ fmt_hex 8 (mw_mem_addr wb) else "").

Definition commit_text (wb : MemWb) : string :=
  "core   0: 3 0x" ++ fmt_hex 8 (mw_pc wb) ++ " (0x" ++ fmt_hex 8 (mw_raw wb) ++ ")"
    ++ commit_effect wb.

Lemma fmt_d_length v : (String.length (fmt_d v) <= 11)%nat.
Proof.
  unfold fmt_d. destruct (_ <? _); rewrite ?length_app_string.
  - pose proof (dec_digits_length 10 (- v)). cbn in *. lia.
  - pose proof (dec_digits_length 10 v). lia.
Qed.

Lemma pad_right_length w s n :
  (String.length s <= n)%nat -> (w <= n)%nat -> (String.length (pad_right w s) <= n)%nat.
Proof. intros. unfold pad_right. rewrite length_app_string, spaces_length. lia. Qed.

Lemma store_hex_digits_le op : (store_hex_digits op <= 8)%nat.
Proof. destruct op; cbn; lia. Qed.

(** Push the length through concatenations and use the bounds above. *)
Ltac str_len :=
  rewrite ?length_app_string; repeat match goal with
  | |- context [String.length (fmt_hex ?w ?v)] =>
      lazymatch goal with
      | _ : (String.length (fmt_hex w v) <= 8)%nat |- _ => fail
      | _ => pose proof (fmt_hex_length w v ltac:(assumption)
               ltac:(first [apply store_hex_digits_le | lia]))
      end
  | |- context [String.length (pad_right 2 (fmt_d ?v))] =>
      lazymatch goal with
      | _ : (String.length (pad_right 2 (fmt_d v)) <= 11)%nat |- _ => fail
      | _ => pose proof (pad_right_length 2 (fmt_d v) 11 (fmt_d_length v) ltac:(lia))
      end
  end; cbn [String.length] in *; lia.

Lemma commit_effect_length wb : MemWb_wf wb -> (String.length (commit_effect wb) <= 42)%nat.
Proof.
  intros (? & ? & ? & ? & ? & ?). unfold commit_effect.
  destruct (mw_is_store wb); [str_len|]. destruct (mw_rd wb =? 0); [cbn; lia|].
  destruct (is_load_op (mw_op wb)); str_len.
Qed.

Lemma format_effect_fits wb : MemWb_wf wb -> format_effect 64 wb = commit_effect wb.
Proof.
  intros (? & ? & ? & ? & ? & ?). unfold format_effect, commit_effect.
  destruct (mw_is_store wb); [by rewrite snprintf_fits by str_len|].
  destruct (mw_rd wb =? 0); [done|]. cbn [negb].
  rewrite snprintf_fits by str_len.
  destruct (is_load_op (mw_op wb)).
  - rewrite snprintf_fits by str_len. by rewrite !app_assoc_string.
  - by rewrite app_empty_string.
Qed.

(** The line is complete: no buffer truncates it. *)
Lemma record_line out wb cycle :
  MemWb_wf wb -> mw_valid wb = true ->
  Tracer_record (mkTracer out FormatCommit) wb cycle =
    Some (mkTracer (out ++ commit_text wb ++ newline) FormatCommit).
Proof.
  intros Hwf Hv. assert (Hw := Hwf). destruct Hw as (Hpc & Hraw & _).
  assert (L8 : forall v, is_u32 v -> String.length (fmt_hex 8 v) = 8%nat)
    by (intros v Hv'; rewrite fmt_hex_u32 by done; apply hex_fixed_length).
  unfold Tracer_record, Tracer_line. cbn [tr_fmt_ tr_out_]. rewrite Hv. cbn [negb].
  rewrite format_effect_fits by done. pose proof (commit_effect_length wb Hwf).
  rewrite snprintf_fits; [done|]. rewrite !length_app_string, !L8 by done. cbn. lia.
Qed.

(** In the commit format a retired instruction is logged as one complete
    line of the Spike format: no buffer truncates it, and the PC and the
    encoding can be read back from its fixed columns. *)
Lemma Tracer_commit_line out wb cycle :
  MemWb_wf wb -> mw_valid wb = true ->
  Tracer_record (mkTracer out FormatCommit) wb cycle =
    Some (mkTracer (out ++ commit_text wb ++ newline) FormatCommit) /\
  hex_value 0 (String.substring 14 8 (commit_text wb)) = Some (mw_pc wb) /\
  hex_value 0 (String.substring 26 8 (commit_text wb)) = Some (mw_raw wb).
Proof.
  intros Hwf Hv. assert (Hw := Hwf). destruct Hw as (Hpc & Hraw & ? & ? & ? & ?).
  assert (L8 : forall v, is_u32 v -> String.length (fmt_hex 8 v) = 8%nat)
    by (intros v Hv'; rewrite fmt_hex_u32 by done; apply hex_fixed_length).
  split_and!.
  - by apply record_line.
  - unfold commit_text. rewrite (substring_app 8 "core   0: 3 0x") by
      (rewrite length_app_string, L8 by done; lia).
    rewrite <- (L8 (mw_pc wb)) at 1 by done. rewrite substring_prefix.
    by apply fmt_hex_round_trip.
  - set (pre := ("core   0: 3 0x" ++ fmt_hex 8 (mw_pc wb)) ++ " (0x").
    assert (E : commit_text wb = pre ++ fmt_hex 8 (mw_raw wb) ++ ")" ++ commit_effect wb).
    { subst pre. unfold commit_text. by rewrite !app_assoc_string. }
    rewrite E. replace 26%nat with (String.length pre)
      by (subst pre; rewrite !length_app_string, L8 by done; reflexivity).
    rewrite substring_app by (rewrite length_app_string, L8 by done; lia).
    rewrite <- (L8 (mw_raw wb)) at 1 by done. rewrite substring_prefix.
    by apply fmt_hex_round_trip.
Qed.
