(* ===== verification/Elf.v ===== *)
(** * ELF loader

    Models [include/cpusim/sim/elf_loader.h] and [src/sim/elf_loader.cpp].
    The file is its list of bytes ([None]: it cannot be opened); the [ifstream]
    is modelled by its position and its fail bit.  A call ends normally, throws
    a [runtime_error], or faults in a memory's assertion.  The memories are
    passed by reference: an exception carries the state they are left in. *)

From S2P Require Import Prelude Config Memory FlatMem.

(** ** Outcomes *)

Inductive LoadError :=
  | CannotOpen | ShortHeader | NotElf | NotElf32 | NotLittleEndian | NotRiscv
  | ShortSegment (i : Z)
  | EntryMismatch (entry base : Z).

(** [S] is the state of the objects the call has by reference. *)
Inductive outcome (S A : Type) := Ok (a : A) | Throw (e : LoadError) (s : S) | Fault.
Arguments Ok {S A} _.
Arguments Throw {S A} _ _.
Arguments Fault {S A}.

#[export] Instance outcome_bind {S} : MBind (outcome S) := fun A B f m =>
  match m with Ok a => f a | Throw e s => Throw e s | Fault => Fault end.

Definition of_option {S A} (m : option A) : outcome S A :=
  match m with Some a => Ok a | None => Fault end.

(** [if (!b) throw std::runtime_error(...)] in state [s]. *)
Definition ensure {S} (b : bool) (e : LoadError) (s : S) : outcome S unit := if b then Ok tt else Throw e s.

(** ** std::ifstream *)

Record ifstream := mkIfstream { fs_data : list Z; fs_pos : Z; fs_fail : bool }.

(** [read(buf, n)] on a failed stream reads nothing; with fewer than [n] bytes
    left it reads those and fails.  The unread part of the buffer keeps its
    initial zeros.  Reading no bytes succeeds wherever [seekg] has put the
    position, past the end of the file included. *)
Definition ifstream_read (f : ifstream) (n : Z) : list Z * ifstream :=
  if fs_fail f then (replicate (Z.to_nat n) 0, f)
  else if (n =? 0) || (fs_pos f + n <=? Z.of_nat (length (fs_data f))) then
    (take (Z.to_nat n) (drop (Z.to_nat (fs_pos f)) (fs_data f)),
     mkIfstream (fs_data f) (fs_pos f + n) false)
  else
    let got := drop (Z.to_nat (fs_pos f)) (fs_data f) in
    (got ++ replicate (Z.to_nat n - length got) 0,
     mkIfstream (fs_data f) (Z.of_nat (length (fs_data f))) true).

(** [seekg(pos)] does nothing on a failed stream. *)
Definition ifstream_seekg (f : ifstream) (pos : Z) : ifstream :=
  if fs_fail f then f else mkIfstream (fs_data f) pos false.

(** ** Headers *)

Record Elf32Ehdr := mkElf32Ehdr {
  e_ident : list Z;
  e_type : Z; e_machine : Z; e_version : Z; e_entry : Z; e_phoff : Z; e_shoff : Z;
  e_flags : Z; e_ehsize : Z; e_phentsize : Z; e_phnum : Z; e_shentsize : Z; e_shnum : Z;
  e_shstrndx : Z;
}.

Record Elf32Phdr := mkElf32Phdr {
  p_type : Z; p_offset : Z; p_vaddr : Z; p_paddr : Z; p_filesz : Z; p_memsz : Z;
  p_flags : Z; p_align : Z;
}.

Definition PT_LOAD : Z := 1.
Definition EM_RISCV : Z := 0xF3.

(** A little-endian field of [n] bytes at [off]. *)
Definition field (bytes : list Z) (off n : nat) : Z := le_value (take n (drop off bytes)).

Definition ehdr_of (b : list Z) : Elf32Ehdr :=
  mkElf32Ehdr (take 16 b) (field b 16 2) (field b 18 2) (field b 20 4) (field b 24 4)
    (field b 28 4) (field b 32 4) (field b 36 4) (field b 40 2) (field b 42 2) (field b 44 2)
    (field b 46 2) (field b 48 2) (field b 50 2).

Definition phdr_of (b : list Z) : Elf32Phdr :=
  mkElf32Phdr (field b 0 4) (field b 4 4) (field b 8 4) (field b 12 4) (field b 16 4)
    (field b 20 4) (field b 24 4) (field b 28 4).

Definition ident (h : Elf32Ehdr) (i : nat) : Z := default 0 (e_ident h !! i).

(** ** load_elf *)

Section Load.
Context {IM DM : Type} `{IMemory IM} `{IMemory DM}.

(** The copy loop: byte [b] and the following go to both memories. *)
Fixpoint store_data (imem : IM) (dmem : DM) (base b : Z) (data : list Z) : option (IM * DM) :=
  match data with
  | [] => Some (imem, dmem)
  | d :: data =>
      imem ← store_byte imem (u32 (base + b)) d;
      dmem ← store_byte dmem (u32 (base + b)) d;
      store_data imem dmem base (b + 1) data
  end.

(** The BSS loop: [n] zero bytes from [b]. *)
Fixpoint store_zeros (dmem : DM) (base b : Z) (n : nat) : option DM :=
  match n with
  | O => Some dmem
  | S n => dmem ← store_byte dmem (u32 (base + b)) 0; store_zeros dmem base (b + 1) n
  end.

(** The body of the program-header loop. *)
Definition load_phdr (f : ifstream) (ehdr : Elf32Ehdr) (i : Z) (imem : IM) (dmem : DM)
    : outcome (IM * DM) (ifstream * IM * DM) :=
  let f := ifstream_seekg f (e_phoff ehdr + i * e_phentsize ehdr) in
  let '(bytes, f) := ifstream_read f 32 in
  let phdr := phdr_of bytes in
  if fs_fail f || negb (p_type phdr =? PT_LOAD) then Ok (f, imem, dmem)
  else
    let f := ifstream_seekg f (p_offset phdr) in
    let '(data, f) := ifstream_read f (p_filesz phdr) in
    _ ← ensure (negb (fs_fail f)) (ShortSegment i) (imem, dmem);
    '(imem, dmem) ← of_option (store_data imem dmem (p_vaddr phdr) 0 data);
    dmem ← of_option (store_zeros dmem (p_vaddr phdr) (p_filesz phdr)
                        (Z.to_nat (p_memsz phdr - p_filesz phdr)));
    Ok (f, imem, dmem).

(** [for (i = 0; i < e_phnum; ++i)], [n] iterations left. *)
Fixpoint load_phdrs (n : nat) (i : Z) (f : ifstream) (ehdr : Elf32Ehdr) (imem : IM) (dmem : DM)
    : outcome (IM * DM) (IM * DM) :=
  match n with
  | O => Ok (imem, dmem)
  | S n =>
      '(f, imem, dmem) ← load_phdr f ehdr i imem dmem;
      load_phdrs n (i + 1) f ehdr imem dmem
  end.

Definition load_elf (file : option (list Z)) (imem : IM) (dmem : DM)
    : outcome (IM * DM) (Z * IM * DM) :=
  match file with
  | None => Throw CannotOpen (imem, dmem)
  | Some data =>
      let '(bytes, f) := ifstream_read (mkIfstream data 0 false) 52 in
      let ehdr := ehdr_of bytes in
      _ ← ensure (negb (fs_fail f)) ShortHeader (imem, dmem);
      _ ← ensure ((ident ehdr 0 =? 0x7f) && (ident ehdr 1 =? 69) &&
                  (ident ehdr 2 =? 76) && (ident ehdr 3 =? 70)) NotElf (imem, dmem);
      _ ← ensure (ident ehdr 4 =? 1) NotElf32 (imem, dmem);
      _ ← ensure (ident ehdr 5 =? 1) NotLittleEndian (imem, dmem);
      _ ← ensure (e_machine ehdr =? EM_RISCV) NotRiscv (imem, dmem);
      '(imem, dmem) ← load_phdrs (Z.to_nat (e_phnum ehdr)) 0 f ehdr imem dmem;
      Ok (e_entry ehdr, imem, dmem)
  end.
End Load.

(** ** What a segment does to a memory *)

Definition slice (data : list Z) (off n : Z) : list Z := take (Z.to_nat n) (drop (Z.to_nat off) data).

(** Bytes placed at an address. *)
Definition ram_place (r : ram) (addr : Z) (bytes : list Z) : ram :=
  mkRam (ram_base r) (splice (Z.to_nat (addr - ram_base r)) bytes (ram_bytes r)).

Definition ram_covers (r : ram) (addr n : Z) : Prop :=
  ram_base r <= addr /\ addr + n <= ram_base r + Z.of_nat (length (ram_bytes r)) /\
  addr + n <= 2 ^ 32.

Lemma ram_place_nil r a : ram_base r <= a -> ram_place r a [] = r.
Proof. intros. unfold ram_place. rewrite splice_nil. by destruct r. Qed.

Lemma ram_place_length r a bytes :
  ram_covers r a (Z.of_nat (length bytes)) ->
  length (ram_bytes (ram_place r a bytes)) = length (ram_bytes r).
Proof. intros (? & ? & ?). cbn. apply splice_length. lia. Qed.

Lemma ram_store_1 r a v :
  ram_covers r a 1 -> is_u8 v -> ram_store 1 r a v = Some (ram_place r a [v]).
Proof.
  intros (? & ? & ?) Hv. unfold ram_store, ram_place. cbn [Z.of_nat Pos.of_succ_nat].
  bool_cases; cbn [andb]; try lia. do 3 f_equal. cbn. f_equal. by apply Z.mod_small.
Qed.

(** A byte at [a], then the rest from the next address. *)
Lemma ram_place_cons r a v bytes :
  ram_covers r a (Z.of_nat (length (v :: bytes))) ->
  ram_place (ram_place r a [v]) (a + 1) bytes = ram_place r a (v :: bytes).
Proof.
  intros (? & ? & ?). cbn [length] in *. unfold ram_place. cbn [ram_base ram_bytes]. f_equal.
  replace (Z.to_nat (a + 1 - ram_base r)) with (S (Z.to_nat (a - ram_base r))) by lia.
  rewrite !splice_cons by lia. by rewrite splice_nil.
Qed.

Lemma ram_covers_place r a v b n :
  ram_covers r a 1 -> ram_covers r b n -> ram_covers (ram_place r a [v]) b n.
Proof.
  intros Ha Hb. unfold ram_covers. rewrite (ram_place_length r a [v]) by exact Ha. exact Hb.
Qed.

Section LoadLaws.
Context {IM DM : Type} `{MemoryLaws IM} `{MemoryLaws DM}.

Lemma store_byte_place {M} `{MemoryLaws M} (m : M) a v :
  mem_inv m -> ram_covers (mem_ram m) a 1 -> is_u8 v ->
  exists m', store_byte m a v = Some m' /\ mem_inv m' /\ mem_ram m' = ram_place (mem_ram m) a [v].
Proof.
  intros Hm Hc Hv. assert (Ha : is_u32 a).
  { destruct (mem_ram_wf m Hm) as [Hb _]. destruct Hc as (? & ? & ?). unfold is_u32 in *. lia. }
  pose proof (store_byte_ram m a v Hm Ha Hv) as E. rewrite ram_store_1 in E by done.
  destruct (store_byte m a v) as [m'|] eqn:Em; [|done]. injection E as E. exists m'.
  split_and!; try done. eapply store_inv; [exact Hm|exact Ha|]. right; right. by split.
Qed.

Lemma store_zeros_ok (dmem : DM) base b n :
  mem_inv dmem -> 0 <= base + b -> ram_covers (mem_ram dmem) (base + b) (Z.of_nat n) ->
  exists dmem', store_zeros dmem base b n = Some dmem' /\ mem_inv dmem' /\
    mem_ram dmem' = ram_place (mem_ram dmem) (base + b) (replicate n 0).
Proof using Type.
  revert dmem b. induction n as [|n IH]; intros dmem b Hd H0b Hc; cbn [store_zeros replicate].
  { exists dmem. split_and!; try done. rewrite ram_place_nil; [done|apply Hc]. }
  assert (Hc1 : ram_covers (mem_ram dmem) (base + b) 1) by (unfold ram_covers in *; lia).
  rewrite u32_id by (unfold ram_covers in *; lia).
  destruct (store_byte_place dmem (base + b) 0) as (d1 & -> & Hd1 & Hr1); [done|done|unfold is_u8; lia|].
  cbn [mbind option_bind].
  destruct (IH d1 (b + 1)) as (d2 & -> & Hd2 & Hr2); [done|lia| |].
  { rewrite Hr1. apply ram_covers_place; [done|]. unfold ram_covers in *. lia. }
  exists d2. split_and!; try done. rewrite Hr2, Hr1, Z.add_assoc.
  apply ram_place_cons. cbn [length]. rewrite length_replicate. done.
Qed.

Lemma store_data_ok (imem : IM) (dmem : DM) base b data :
  mem_inv imem -> mem_inv dmem -> Forall is_u8 data -> 0 <= base + b ->
  ram_covers (mem_ram imem) (base + b) (Z.of_nat (length data)) ->
  ram_covers (mem_ram dmem) (base + b) (Z.of_nat (length data)) ->
  exists imem' dmem', store_data imem dmem base b data = Some (imem', dmem') /\
    mem_inv imem' /\ mem_inv dmem' /\
    mem_ram imem' = ram_place (mem_ram imem) (base + b) data /\
    mem_ram dmem' = ram_place (mem_ram dmem) (base + b) data.
Proof using Type.
  intros Hi Hd Hu. revert imem dmem b Hi Hd.
  induction Hu as [|v data Hv _ IH]; intros imem dmem b Hi Hd H0b Hci Hcd; cbn [store_data].
  { exists imem, dmem. split_and!; try done; rewrite ram_place_nil; try done; [apply Hci|apply Hcd]. }
  cbn [length] in Hci, Hcd.
  assert (Hci1 : ram_covers (mem_ram imem) (base + b) 1) by (unfold ram_covers in *; lia).
  assert (Hcd1 : ram_covers (mem_ram dmem) (base + b) 1) by (unfold ram_covers in *; lia).
  rewrite u32_id by (unfold ram_covers in *; lia).
  destruct (store_byte_place imem (base + b) v) as (i1 & -> & Hi1 & Hri); [done..|].
  destruct (store_byte_place dmem (base + b) v) as (d1 & -> & Hd1 & Hrd); [done..|].
  cbn [mbind option_bind].
  destruct (IH i1 d1 (b + 1)) as (i2 & d2 & -> & Hi2 & Hd2 & Hri2 & Hrd2); [done|done|lia| | |].
  { rewrite Hri. apply ram_covers_place; [done|]. unfold ram_covers in *. lia. }
  { rewrite Hrd. apply ram_covers_place; [done|]. unfold ram_covers in *. lia. }
  exists i2, d2. rewrite Hri2, Hrd2, Hri, Hrd, Z.add_assoc.
  split_and!; try done; apply ram_place_cons; done.
Qed.
End LoadLaws.

(** ** The file as a list of segments *)

Definition ehdr_in (data : list Z) : Elf32Ehdr := ehdr_of (slice data 0 52).

Definition header_ok (data : list Z) : bool :=
  let h := ehdr_in data in
  (52 <=? Z.of_nat (length data)) &&
  ((ident h 0 =? 0x7f) && (ident h 1 =? 69) && (ident h 2 =? 76) && (ident h 3 =? 70)) &&
  (ident h 4 =? 1) && (ident h 5 =? 1) && (e_machine h =? EM_RISCV).

Definition phdr_pos (data : list Z) (i : Z) : Z :=
  e_phoff (ehdr_in data) + i * e_phentsize (ehdr_in data).

Definition phdr_at (data : list Z) (i : Z) : Elf32Phdr := phdr_of (slice data (phdr_pos data i) 32).

(** What goes to the instruction memory, and to the data memory. *)
Definition seg_bytes (data : list Z) (p : Elf32Phdr) : list Z := slice data (p_offset p) (p_filesz p).
Definition seg_image (data : list Z) (p : Elf32Phdr) : list Z :=
  seg_bytes data p ++ replicate (Z.to_nat (p_memsz p - p_filesz p)) 0.

Definition place_seg (bytes_of : list Z -> Elf32Phdr -> list Z) (data : list Z) (r : ram)
    (p : Elf32Phdr) : ram :=
  if p_type p =? PT_LOAD then ram_place r (p_vaddr p) (bytes_of data p) else r.

Definition segment_ok (data : list Z) (r : ram) (p : Elf32Phdr) : Prop :=
  p_type p = PT_LOAD ->
  (p_filesz p = 0 \/ p_offset p + p_filesz p <= Z.of_nat (length data)) /\
  ram_covers r (p_vaddr p) (Z.max (p_filesz p) (p_memsz p)).

Definition phdr_fits (data : list Z) (i : Z) : Prop :=
  0 <= phdr_pos data i /\ phdr_pos data i + 32 <= Z.of_nat (length data).

Lemma splice_app o x y l :
  (o + length x + length y <= length l)%nat ->
  splice (o + length x) y (splice o x l) = splice o (x ++ y) l.
Proof.
  revert o l. induction x as [|b x IH]; intros o l Hl; cbn [length app].
  { by rewrite splice_nil, Nat.add_0_r. }
  cbn [length] in Hl. rewrite !splice_cons by lia.
  replace (o + S (length x))%nat with (S o + length x)%nat by lia.
  apply IH. rewrite length_insert. lia.
Qed.

Lemma ram_place_app r a x y :
  ram_covers r a (Z.of_nat (length x + length y)) ->
  ram_place (ram_place r a x) (a + Z.of_nat (length x)) y = ram_place r a (x ++ y).
Proof.
  intros (? & ? & ?). unfold ram_place. cbn [ram_base ram_bytes]. f_equal.
  replace (Z.to_nat (a + Z.of_nat (length x) - ram_base r))
    with (Z.to_nat (a - ram_base r) + length x)%nat by lia.
  apply splice_app. lia.
Qed.

Lemma slice_length data off n :
  0 <= off -> 0 <= n -> n = 0 \/ off + n <= Z.of_nat (length data) ->
  length (slice data off n) = Z.to_nat n.
Proof. intros. unfold slice. rewrite length_take, length_drop. lia. Qed.

Lemma slice_u8 data off n : Forall is_u8 data -> Forall is_u8 (slice data off n).
Proof. intros. by apply Forall_take, Forall_drop. Qed.

Lemma field_nonneg b off n : Forall is_u8 b -> 0 <= field b off n.
Proof.
  intros Hb. unfold field. pose proof (le_value_range (take n (drop off b))) as Hr.
  apply Hr. by apply Forall_take, Forall_drop.
Qed.

Lemma read_slice data off n :
  n = 0 \/ off + n <= Z.of_nat (length data) ->
  ifstream_read (mkIfstream data off false) n =
    (slice data off n, mkIfstream data (off + n) false).
Proof.
  intros Hn. unfold ifstream_read. cbn [fs_fail fs_pos fs_data].
  replace ((n =? 0) || (off + n <=? Z.of_nat (length data))) with true; [done|].
  symmetry. apply orb_true_iff. destruct Hn; [left; by apply Z.eqb_eq|right; by apply Z.leb_le].
Qed.

Lemma read_short data off n :
  0 < n -> Z.of_nat (length data) < off + n -> exists bytes pos,
  ifstream_read (mkIfstream data off false) n = (bytes, mkIfstream data pos true).
Proof.
  intros Hn Hl. unfold ifstream_read. cbn [fs_fail fs_pos fs_data].
  destruct (Z.eqb_spec n 0); [lia|]. destruct (Z.leb_spec (off + n) (Z.of_nat (length data))); [lia|].
  by eexists _, _.
Qed.

Lemma place_seg_shape (bytes_of : list Z -> Elf32Phdr -> list Z) data r p :
  (p_type p = PT_LOAD -> ram_covers r (p_vaddr p) (Z.of_nat (length (bytes_of data p)))) ->
  ram_base (place_seg bytes_of data r p) = ram_base r /\
  length (ram_bytes (place_seg bytes_of data r p)) = length (ram_bytes r).
Proof.
  intros Hc. unfold place_seg. destruct (Z.eqb_spec (p_type p) PT_LOAD); [|done].
  split; [done|]. by apply ram_place_length, Hc.
Qed.

Lemma ram_covers_shape r r' a n :
  ram_base r' = ram_base r -> length (ram_bytes r') = length (ram_bytes r) ->
  ram_covers r a n -> ram_covers r' a n.
Proof. unfold ram_covers. by intros -> ->. Qed.

Section LoadFile.
Context {IM DM : Type} `{MemoryLaws IM} `{MemoryLaws DM}.
Context (data : list Z) (Hu : Forall is_u8 data).

Lemma phdr_nonneg i :
  let p := phdr_at data i in 0 <= p_offset p /\ 0 <= p_vaddr p /\ 0 <= p_filesz p /\ 0 <= p_memsz p.
Proof using Hu.
  cbn. split_and!; apply field_nonneg; by apply slice_u8.
Qed.

Lemma load_phdr_ok (imem : IM) (dmem : DM) i pos :
  mem_inv imem -> mem_inv dmem -> phdr_fits data i ->
  segment_ok data (mem_ram imem) (phdr_at data i) ->
  segment_ok data (mem_ram dmem) (phdr_at data i) ->
  exists pos' imem' dmem',
    load_phdr (mkIfstream data pos false) (ehdr_in data) i imem dmem =
      Ok (mkIfstream data pos' false, imem', dmem') /\
    mem_inv imem' /\ mem_inv dmem' /\
    mem_ram imem' = place_seg seg_bytes data (mem_ram imem) (phdr_at data i) /\
    mem_ram dmem' = place_seg seg_image data (mem_ram dmem) (phdr_at data i).
Proof using Hu.
  intros Hi Hd [Hf1 Hf2] Hsi Hsd. unfold load_phdr, ifstream_seekg. cbn [fs_fail fs_data].
  fold (phdr_pos data i). rewrite read_slice by (by right). fold (phdr_at data i).
  pose proof (phdr_nonneg i) as Hn. cbv zeta in Hn. set (p := phdr_at data i) in *.
  unfold place_seg. cbn [fs_fail orb fs_data].
  destruct (Z.eqb_spec (p_type p) PT_LOAD) as [Ht|Ht]; cbn [negb].
  2:{ by eexists _, imem, dmem. }
  destruct (Hsi Ht) as [Hfile Hci]. destruct (Hsd Ht) as [_ Hcd].
  rewrite read_slice by lia. cbn [fs_fail negb ensure mbind outcome_bind].
  fold (seg_bytes data p).
  assert (Hlen : length (seg_bytes data p) = Z.to_nat (p_filesz p)) by (apply slice_length; lia).
  destruct (store_data_ok imem dmem (p_vaddr p) 0 (seg_bytes data p))
    as (i1 & d1 & -> & Hi1 & Hd1 & Hri & Hrd); try done; try lia.
  { by apply slice_u8. }
  { rewrite Hlen, Z.add_0_r. unfold ram_covers in *. lia. }
  { rewrite Hlen, Z.add_0_r. unfold ram_covers in *. lia. }
  rewrite Z.add_0_r in Hri, Hrd. cbn [of_option mbind outcome_bind].
  assert (Hsh : length (ram_bytes (mem_ram d1)) = length (ram_bytes (mem_ram dmem))).
  { rewrite Hrd. apply ram_place_length. rewrite Hlen. unfold ram_covers in *. lia. }
  assert (Hz : exists d2, store_zeros d1 (p_vaddr p) (p_filesz p)
      (Z.to_nat (p_memsz p - p_filesz p)) = Some d2 /\ mem_inv d2 /\
    mem_ram d2 = ram_place (mem_ram d1) (p_vaddr p + p_filesz p)
      (replicate (Z.to_nat (p_memsz p - p_filesz p)) 0)).
  { apply store_zeros_ok; [done|lia|].
    apply (ram_covers_shape (mem_ram dmem)); [by rewrite Hrd|done|]. unfold ram_covers in *. lia. }
  destruct Hz as (d2 & -> & Hd2 & Hr2). cbn [of_option mbind outcome_bind].
  eexists _, i1, d2. split; [reflexivity|]. split_and!; try done.
  rewrite Hr2, Hrd. unfold seg_image. rewrite <- ram_place_app; rewrite Hlen.
  - by rewrite Z2Nat.id by lia.
  - rewrite length_replicate. unfold ram_covers in *. lia.
Qed.

(** The segments of headers [i], [i + 1], ... ([n] of them). *)
Definition phdrs_from (i : Z) (n : nat) : list Elf32Phdr := phdr_at data <$> seqZ i (Z.of_nat n).

Lemma load_phdrs_ok n i pos (imem : IM) (dmem : DM) :
  mem_inv imem -> mem_inv dmem ->
  (forall j, i <= j < i + Z.of_nat n -> phdr_fits data j /\
     segment_ok data (mem_ram imem) (phdr_at data j) /\
     segment_ok data (mem_ram dmem) (phdr_at data j)) ->
  exists imem' dmem', load_phdrs n i (mkIfstream data pos false) (ehdr_in data) imem dmem =
      Ok (imem', dmem') /\ mem_inv imem' /\ mem_inv dmem' /\
    mem_ram imem' = foldl (place_seg seg_bytes data) (mem_ram imem) (phdrs_from i n) /\
    mem_ram dmem' = foldl (place_seg seg_image data) (mem_ram dmem) (phdrs_from i n).
Proof using Hu.
  revert i pos imem dmem. induction n as [|n IH]; intros i pos imem dmem Hi Hd Hall.
  { by exists imem, dmem. }
  destruct (Hall i ltac:(lia)) as (Hf & Hsi & Hsd).
  destruct (load_phdr_ok imem dmem i pos Hi Hd Hf Hsi Hsd)
    as (pos' & i1 & d1 & E & Hi1 & Hd1 & Hri & Hrd).
  cbn [load_phdrs]. rewrite E. cbn [mbind outcome_bind].
  pose proof (phdr_nonneg i) as Hn. cbv zeta in Hn.
  assert (Hshi : ram_base (mem_ram i1) = ram_base (mem_ram imem) /\
    length (ram_bytes (mem_ram i1)) = length (ram_bytes (mem_ram imem))).
  { rewrite Hri. apply place_seg_shape. intros Ht. destruct (Hsi Ht) as [? ?].
    unfold seg_bytes. rewrite slice_length by lia. unfold ram_covers in *. lia. }
  assert (Hshd : ram_base (mem_ram d1) = ram_base (mem_ram dmem) /\
    length (ram_bytes (mem_ram d1)) = length (ram_bytes (mem_ram dmem))).
  { rewrite Hrd. apply place_seg_shape. intros Ht. destruct (Hsd Ht) as [? ?].
    unfold seg_image, seg_bytes. rewrite length_app, length_replicate, slice_length by lia.
    unfold ram_covers in *. lia. }
  destruct (IH (i + 1) pos' i1 d1 Hi1 Hd1) as (i2 & d2 & E2 & Hi2 & Hd2 & Hri2 & Hrd2).
  { intros j Hj. destruct (Hall j ltac:(lia)) as (Hfj & Hsij & Hsdj). split_and!; [apply Hfj..| |].
    - intros Ht. destruct (Hsij Ht) as [? Hc]. split; [done|].
      eapply ram_covers_shape; [apply Hshi|apply Hshi|exact Hc].
    - intros Ht. destruct (Hsdj Ht) as [? Hc]. split; [done|].
      eapply ram_covers_shape; [apply Hshd|apply Hshd|exact Hc]. }
  exists i2, d2. split; [done|]. split; [done|]. split; [done|].
  unfold phdrs_from in *. rewrite (seqZ_cons i) by lia.
  replace (Z.pred (Z.of_nat (S n))) with (Z.of_nat n) by lia.
  replace (Z.succ i) with (i + 1) by lia. cbn. by rewrite Hri2, Hrd2, Hri, Hrd.
Qed.
End LoadFile.

(** Past the checks, the program headers. *)
Lemma load_elf_headers {IM DM : Type} `{IMemory IM} `{IMemory DM} (imem : IM) (dmem : DM) data :
  header_ok data = true ->
  load_elf (Some data) imem dmem =
    '(imem, dmem) ← load_phdrs (Z.to_nat (e_phnum (ehdr_in data))) 0 (mkIfstream data 52 false)
                      (ehdr_in data) imem dmem;
    Ok (e_entry (ehdr_in data), imem, dmem).
Proof.
  intros Hh. unfold header_ok in Hh.
  apply andb_true_iff in Hh as [Hh H7]. apply andb_true_iff in Hh as [Hh H6].
  apply andb_true_iff in Hh as [Hh H5]. apply andb_true_iff in Hh as [H3 H4].
  apply Z.leb_le in H3. unfold load_elf. rewrite read_slice by (right; lia). fold (ehdr_in data).
  cbn [fs_fail negb ensure mbind outcome_bind]. by rewrite H4, H5, H6, H7.
Qed.

Lemma load_elf_ok {IM DM : Type} `{MemoryLaws IM} `{MemoryLaws DM}
    (imem : IM) (dmem : DM) data :
  mem_inv imem -> mem_inv dmem -> Forall is_u8 data -> header_ok data = true ->
  (forall i, 0 <= i < e_phnum (ehdr_in data) -> phdr_fits data i /\
     segment_ok data (mem_ram imem) (phdr_at data i) /\
     segment_ok data (mem_ram dmem) (phdr_at data i)) ->
  exists imem' dmem', load_elf (Some data) imem dmem = Ok (e_entry (ehdr_in data), imem', dmem') /\
    mem_inv imem' /\ mem_inv dmem' /\
    mem_ram imem' = foldl (place_seg seg_bytes data) (mem_ram imem)
      (phdr_at data <$> seqZ 0 (e_phnum (ehdr_in data))) /\
    mem_ram dmem' = foldl (place_seg seg_image data) (mem_ram dmem)
      (phdr_at data <$> seqZ 0 (e_phnum (ehdr_in data))).
Proof.
  intros Hi Hd Hu Hh Hall. rewrite load_elf_headers by done.
  assert (Hn : 0 <= e_phnum (ehdr_in data)) by (apply field_nonneg; by apply slice_u8).
  destruct (load_phdrs_ok data Hu (Z.to_nat (e_phnum (ehdr_in data))) 0 52 imem dmem Hi Hd)
    as (i1 & d1 & E & Hi1 & Hd1 & Hri & Hrd).
  { intros j Hj. apply Hall. lia. }
  rewrite E. cbn [mbind outcome_bind]. exists i1, d1.
  unfold phdrs_from in *. rewrite Z2Nat.id in * by lia. by split_and!.
Qed.

(** C30: on a file whose header is an ELF32 little-endian RISC-V header, whose
    program headers lie in the file and whose PT_LOAD segments lie in the file
    and in both memories, [load_elf] returns the entry point, and leaves in the
    instruction memory the file bytes of every PT_LOAD segment at its virtual
    address, and in the data memory the same followed by the zeroed BSS. *)
Theorem load_elf_correct {IM DM : Type} `{MemoryLaws IM} `{MemoryLaws DM}
    (imem : IM) (dmem : DM) data :
  mem_inv imem -> mem_inv dmem -> Forall is_u8 data -> header_ok data = true ->
  (forall i, 0 <= i < e_phnum (ehdr_in data) -> phdr_fits data i /\
     segment_ok data (mem_ram imem) (phdr_at data i) /\
     segment_ok data (mem_ram dmem) (phdr_at data i)) ->
  exists imem' dmem', load_elf (Some data) imem dmem = Ok (e_entry (ehdr_in data), imem', dmem') /\
    mem_inv imem' /\ mem_inv dmem' /\
    mem_ram imem' = foldl (place_seg seg_bytes data) (mem_ram imem)
      (phdr_at data <$> seqZ 0 (e_phnum (ehdr_in data))) /\
    mem_ram dmem' = foldl (place_seg seg_image data) (mem_ram dmem)
      (phdr_at data <$> seqZ 0 (e_phnum (ehdr_in data))).
Proof. apply load_elf_ok. Qed.

(** *** A concrete file: one segment holding an EBREAK and four bytes of BSS *)

Definition example_ehdr : list Z :=
  [0x7f; 69; 76; 70; 1; 1; 1; 0; 0; 0; 0; 0; 0; 0; 0; 0; 2; 0; 0xF3; 0; 1; 0; 0; 0;
   0; 0; 0; 0x80; 52; 0; 0; 0; 0; 0; 0; 0; 0; 0; 0; 0; 52; 0; 32; 0; 1; 0; 0; 0; 0; 0; 0; 0].
Definition example_phdr : list Z :=
  [1; 0; 0; 0; 84; 0; 0; 0; 0; 0; 0; 0x80; 0; 0; 0; 0x80; 4; 0; 0; 0; 8; 0; 0; 0;
   7; 0; 0; 0; 4; 0; 0; 0].
Definition example_elf : list Z := example_ehdr ++ example_phdr ++ [0x73; 0; 0x10; 0].
Definition example_mem : FlatMem := FlatMem_new 0x80000000 16 1.

Lemma example_mem_inv : mem_inv example_mem.
Proof.
  split; [split; [cbn; unfold is_u32; lia|]|cbn; lia|done]. cbn. by repeat constructor.
Qed.

Lemma load_elf_correct_witness :
  exists imem' dmem', load_elf (Some example_elf) example_mem example_mem =
      Ok (0x80000000, imem', dmem') /\
    ram_load 4 (mem_ram imem') 0x80000000 = Some 0x00100073.
Proof.
  destruct (load_elf_correct example_mem example_mem example_elf example_mem_inv example_mem_inv)
    as (i & d & E & _ & _ & Hi & _).
  - repeat constructor; unfold is_u8; lia.
  - reflexivity.
  - intros i Hi. change (e_phnum (ehdr_in example_elf)) with 1 in Hi.
    assert (i = 0) as -> by lia.
    unfold phdr_fits, segment_ok, ram_covers. vm_compute. split_and!; intuition discriminate.
  - exists i, d. split; [exact E|]. rewrite Hi. vm_compute. reflexivity.
Defined.

(** ** Rejected files

    What is wrong with a file, read off its bytes. *)

Definition elf_magic : list Z := [0x7f; 69; 76; 70].

Inductive elf_defect : option (list Z) -> LoadError -> Prop :=
  | missing_file : elf_defect None CannotOpen
  | short_header data : Z.of_nat (length data) < 52 -> elf_defect (Some data) ShortHeader
  | bad_magic data :
      52 <= Z.of_nat (length data) -> take 4 data <> elf_magic -> elf_defect (Some data) NotElf
  | bad_class data :
      52 <= Z.of_nat (length data) -> take 4 data = elf_magic -> data !! 4%nat <> Some 1 ->
      elf_defect (Some data) NotElf32
  | bad_byte_order data :
      52 <= Z.of_nat (length data) -> take 4 data = elf_magic -> data !! 4%nat = Some 1 ->
      data !! 5%nat <> Some 1 -> elf_defect (Some data) NotLittleEndian
  | bad_machine data :
      52 <= Z.of_nat (length data) -> take 4 data = elf_magic -> data !! 4%nat = Some 1 ->
      data !! 5%nat = Some 1 -> slice data 18 2 <> [0xF3; 0] -> elf_defect (Some data) NotRiscv.

(** A segment whose header is readable and whose bytes are not all there. *)
Record short_segment (data : list Z) (i : Z) : Prop := mkShortSegment {
  ss_header : phdr_fits data i;
  ss_load : p_type (phdr_at data i) = PT_LOAD;
  ss_bytes : 0 < p_filesz (phdr_at data i);
  ss_short : Z.of_nat (length data) < p_offset (phdr_at data i) + p_filesz (phdr_at data i);
}.

Lemma phdr_pos_nonneg data i : Forall is_u8 data -> 0 <= i -> 0 <= phdr_pos data i.
Proof.
  intros Hu Hi. unfold phdr_pos.
  assert (0 <= e_phoff (ehdr_in data)) by (apply field_nonneg; by apply slice_u8).
  assert (0 <= e_phentsize (ehdr_in data)) by (apply field_nonneg; by apply slice_u8). nia.
Qed.

Section Rejects.
Context {IM DM : Type} `{IMemory IM} `{IMemory DM}.
Implicit Types (imem : IM) (dmem : DM).

Lemma load_elf_header imem dmem file :
  match file with Some data => header_ok data = false | None => True end ->
  exists e, load_elf file imem dmem = Throw e (imem, dmem).
Proof using Type.
  destruct file as [data|]; [|by eexists]. unfold header_ok, load_elf.
  destruct (Z.leb_spec 52 (Z.of_nat (length data))) as [Hl|Hl].
  - rewrite read_slice by (by right). fold (ehdr_in data). cbn [fs_fail negb ensure mbind outcome_bind andb].
    set (h := ehdr_in data). generalize (ident h 4 =? 1) (ident h 5 =? 1) (e_machine h =? EM_RISCV).
    generalize ((ident h 0 =? 0x7f) && (ident h 1 =? 69) && (ident h 2 =? 76) && (ident h 3 =? 70)).
    intros [] [] [] [] Hb; try done; by eexists.
  - intros _. destruct (read_short data 0 52) as (bytes & pos & ->); [lia..|]. by eexists.
Qed.

(** The tests of the code on the bytes of the file. *)
Lemma header_tests data :
  Forall is_u8 data -> 52 <= Z.of_nat (length data) ->
  let h := ehdr_in data in
  (((ident h 0 =? 0x7f) && (ident h 1 =? 69) && (ident h 2 =? 76) && (ident h 3 =? 70)) = true <->
     take 4 data = elf_magic) /\
  ((ident h 4 =? 1) = true <-> data !! 4%nat = Some 1) /\
  ((ident h 5 =? 1) = true <-> data !! 5%nat = Some 1) /\
  ((e_machine h =? EM_RISCV) = true <-> slice data 18 2 = [0xF3; 0]).
Proof using Type.
  intros Hu Hl. cbv zeta.
  do 20 (destruct data as [|? data]; [cbn [length] in Hl; lia|]; apply Forall_cons_1 in Hu as [? Hu]).
  unfold ehdr_in, slice, elf_magic, is_u8 in *.
  change (Z.to_nat 52) with 52%nat. change (Z.to_nat 18) with 18%nat. change (Z.to_nat 2) with 2%nat.
  change (Z.to_nat 0) with 0%nat. unfold ident, ehdr_of, field, EM_RISCV.
  cbn [e_ident e_machine take drop lookup list_lookup default le_value].
  rewrite !andb_true_iff, !Z.eqb_eq, !take_0. unfold id. cbn [le_value].
  split_and!; split; intros E; simplify_eq; try done.
  all: try (by destruct_and!; subst).
  assert (z17 = 0xF3 /\ z18 = 0) as [-> ->] by lia. done.
Qed.

(** Exactly the files with a defect fail the checks, each with its error. *)
Lemma defect_header data e : Forall is_u8 data -> elf_defect (Some data) e -> header_ok data = false.
Proof using Type.
  intros Hu Hd. apply not_true_iff_false. unfold header_ok. rewrite !andb_true_iff, Z.leb_le.
  intros ((((Hl & Hm) & Hc) & Ho) & Hr). destruct (header_tests data Hu Hl) as (T1 & T2 & T3 & T4).
  cbv zeta in *. rewrite !andb_true_iff in T1. rewrite T1 in Hm. rewrite T2 in Hc. rewrite T3 in Ho. rewrite T4 in Hr.
  inversion Hd; subst; (lia || contradiction).
Qed.

Lemma load_elf_defect imem dmem file e :
  match file with Some data => Forall is_u8 data | None => True end ->
  elf_defect file e -> load_elf file imem dmem = Throw e (imem, dmem).
Proof using Type.
  intros Hu Hd. destruct file as [data|]; [|by inversion Hd].
  destruct (Z.leb_spec 52 (Z.of_nat (length data))) as [Hl|Hl].
  - unfold load_elf. rewrite read_slice by (by right). fold (ehdr_in data).
    destruct (header_tests data Hu Hl) as (T1 & T2 & T3 & T4). cbv zeta in *.
    cbn [fs_fail negb ensure mbind outcome_bind]. unfold ensure.
    inversion Hd; subst; [lia|..];
      repeat match goal with
      | H : ~ _, T : (?b = true <-> _) |- context [?b] =>
          rewrite <- T in H; apply not_true_is_false in H; rewrite H
      | H : ?P, T : (?b = true <-> ?P) |- context [?b] => rewrite (proj2 T H)
      end; cbn [mbind outcome_bind]; reflexivity.
  - unfold load_elf. destruct (read_short data 0 52) as (bytes & pos & ->); [lia..|].
    by inversion Hd; subst; [|lia..].
Qed.

Lemma header_bad data :
  Forall is_u8 data -> header_ok data = false -> exists e, elf_defect (Some data) e.
Proof using Type.
  intros Hu Hh. destruct (Z.leb_spec 52 (Z.of_nat (length data))) as [Hl|Hl]; [|eexists; by apply short_header].
  destruct (header_tests data Hu Hl) as (T1 & T2 & T3 & T4). cbv zeta in *.
  destruct (decide (take 4 data = elf_magic)); [|eexists; by apply bad_magic].
  destruct (decide (data !! 4%nat = Some 1)); [|eexists; by apply bad_class].
  destruct (decide (data !! 5%nat = Some 1)); [|eexists; by apply bad_byte_order].
  destruct (decide (slice data 18 2 = [0xF3; 0])); [|eexists; by apply bad_machine].
  apply not_true_iff_false in Hh. destruct Hh. unfold header_ok.
  rewrite (proj2 T1), (proj2 T2), (proj2 T3), (proj2 T4) by done. by rewrite !andb_true_r, Z.leb_le.
Qed.

(** One program header on a stream that has not failed. *)
Lemma load_phdr_cases data pos i imem dmem :
  Forall is_u8 data -> phdr_fits data i ->
  match load_phdr (mkIfstream data pos false) (ehdr_in data) i imem dmem with
  | Ok (f, _, _) => (exists pos', f = mkIfstream data pos' false) /\ ~ short_segment data i
  | Throw e s => e = ShortSegment i /\ s = (imem, dmem) /\ short_segment data i
  | Fault => ~ short_segment data i
  end.
Proof using Type.
  intros Hu Hf. pose proof Hf as [Hf1 Hf2]. unfold load_phdr, ifstream_seekg. cbn [fs_fail fs_data].
  fold (phdr_pos data i). rewrite read_slice by (by right). fold (phdr_at data i).
  set (p := phdr_at data i). cbn [fs_fail orb fs_data].
  destruct (Z.eqb_spec (p_type p) PT_LOAD) as [Ht|Ht]; cbn [negb].
  2:{ split; [by eexists|]. by intros [_ Hx _ _]. }
  destruct (decide (0 < p_filesz p /\ Z.of_nat (length data) < p_offset p + p_filesz p)) as [[Hp Hs]|Hs].
  - destruct (read_short data (p_offset p) (p_filesz p) Hp Hs) as (bytes & pos' & ->).
    cbn. by split_and!; [..|constructor].
  - assert (Hn : ~ short_segment data i) by (intros [_ _ H1 H2]; by apply Hs).
    pose proof (phdr_nonneg data Hu i) as (_ & _ & Hn0 & _). fold p in Hn0.
    rewrite read_slice by lia. cbn [fs_fail negb ensure mbind outcome_bind].
    destruct (store_data _ _ _ _ _) as [[i1 d1]|]; cbn [of_option mbind outcome_bind]; [|done].
    destruct (store_zeros _ _ _ _) as [d2|]; cbn [of_option mbind outcome_bind]; [|done].
    split; [by eexists|done].
Qed.

Lemma load_phdr_unreadable data pos i imem dmem :
  0 <= phdr_pos data i -> ~ phdr_fits data i -> exists pos',
  load_phdr (mkIfstream data pos false) (ehdr_in data) i imem dmem = Ok (mkIfstream data pos' true, imem, dmem).
Proof using Type.
  intros Hp Hf. unfold load_phdr, ifstream_seekg. cbn [fs_fail fs_data]. fold (phdr_pos data i).
  destruct (read_short data (phdr_pos data i) 32) as (bytes & pos' & ->); [lia|unfold phdr_fits in Hf; lia|].
  by eexists.
Qed.

Lemma load_phdrs_failed n i f ehdr imem dmem :
  fs_fail f = true -> load_phdrs n i f ehdr imem dmem = Ok (imem, dmem).
Proof using Type.
  destruct f as [data pos []]; [intros _|done]. revert i. induction n as [|n IH]; intros i; [done|].
  exact (IH (i + 1)).
Qed.

(** The loop throws on the first short segment, unless an unreadable header comes
    before it, in the state the segments before it have made. *)
Lemma load_phdrs_throw data n i pos imem dmem e s :
  Forall is_u8 data -> 0 <= i ->
  load_phdrs n i (mkIfstream data pos false) (ehdr_in data) imem dmem = Throw e s <->
  exists k, (k < n)%nat /\ e = ShortSegment (i + Z.of_nat k) /\
    (forall j, i <= j < i + Z.of_nat k -> phdr_fits data j) /\ short_segment data (i + Z.of_nat k) /\
    load_phdrs k i (mkIfstream data pos false) (ehdr_in data) imem dmem = Ok s.
Proof using Type.
  intros Hu. revert i pos imem dmem. induction n as [|n IH]; intros i pos imem dmem Hi.
  { cbn. split; [done|]. intros (k & Hk & _). lia. }
  destruct (decide (phdr_fits data i)) as [Hf|Hf].
  - pose proof (load_phdr_cases data pos i imem dmem Hu Hf) as Hc. cbn [load_phdrs].
    destruct (load_phdr (mkIfstream data pos false) (ehdr_in data) i imem dmem) as [[[f i1] d1]|e1 s1|] eqn:E;
      cbn [mbind outcome_bind].
    + destruct Hc as [[pos' ->] Hn]. rewrite (IH (i + 1) pos' i1 d1 ltac:(lia)). split.
      * intros (k & Hk & -> & Hj & Hs & El). exists (S k).
        replace (i + Z.of_nat (S k)) with (i + 1 + Z.of_nat k) by lia. split_and!; try done; [lia| |].
        { intros j Hr. destruct (decide (j = i)) as [->|]; [done|]. apply Hj. lia. }
        cbn [load_phdrs]. by rewrite E.
      * intros ([|k] & Hk & -> & Hj & Hs & El); [by rewrite Z.add_0_r in Hs|]. exists k.
        replace (i + Z.of_nat (S k)) with (i + 1 + Z.of_nat k) in * by lia. split_and!; try done; [lia| |].
        { intros j Hr. apply Hj. lia. }
        cbn [load_phdrs] in El. by rewrite E in El.
    + destruct Hc as (-> & -> & Hs). split.
      * intros [= <- <-]. exists 0%nat. rewrite Z.add_0_r. split_and!; try done; [lia|intros j Hr; lia].
      * intros ([|k] & Hk & -> & Hj & _ & El); [injection El as <-; by rewrite Z.add_0_r|].
        cbn [load_phdrs] in El. by rewrite E in El.
    + split; [done|]. intros ([|k] & _ & _ & _ & Hs & El); [by rewrite Z.add_0_r in Hs|].
      cbn [load_phdrs] in El. by rewrite E in El.
  - cbn [load_phdrs]. destruct (load_phdr_unreadable data pos i imem dmem) as [pos' ->]; [by apply phdr_pos_nonneg|done|].
    cbn [mbind outcome_bind]. rewrite load_phdrs_failed by done. split; [done|].
    intros ([|k] & _ & _ & Hj & Hs & _); destruct Hf; [|apply Hj; lia].
    rewrite Z.add_0_r in Hs. apply Hs.
Qed.
End Rejects.

(** C35: [load_elf] throws for these reasons and no others, each with its own
    error.  A file that cannot be opened, has no complete header, or whose
    header lacks the magic number, is not of the 32-bit class, not
    little-endian or not for RISC-V is rejected with the error of the first of
    these defects, and both memories are as they were.  On a file without
    defect the one exception is the short read of a PT_LOAD segment [k]: the
    headers up to [k] are readable, and the memories are those the segments
    before it have been loaded into. *)
Theorem load_elf_rejects {IM DM : Type} `{IMemory IM} `{IMemory DM} (imem : IM) (dmem : DM) file e s :
  match file with Some data => Forall is_u8 data | None => True end ->
  load_elf file imem dmem = Throw e s <->
  (elf_defect file e /\ s = (imem, dmem)) \/
  ((forall e', ~ elf_defect file e') /\
   exists data k, file = Some data /\ e = ShortSegment (Z.of_nat k) /\
     Z.of_nat k < e_phnum (ehdr_in data) /\
     (forall i, 0 <= i < Z.of_nat k -> phdr_fits data i) /\ short_segment data (Z.of_nat k) /\
     load_phdrs k 0 (mkIfstream data 52 false) (ehdr_in data) imem dmem = Ok s).
Proof.
  intros Hu. split.
  - intros E. destruct file as [data|].
    2:{ injection E as <- <-. left. split; [constructor|done]. }
    destruct (header_ok data) eqn:Hh.
    + right. split; [intros e' Hd; by rewrite (defect_header data e' Hu Hd) in Hh|].
      rewrite load_elf_headers in E by done.
      destruct (load_phdrs _ _ _ _ imem dmem) as [[i1 d1]|e1 s1|] eqn:El; cbn [mbind outcome_bind] in E; try done.
      injection E as -> ->. apply load_phdrs_throw in El; [|done..].
      destruct El as (k & Hk & -> & Hj & Hs & El). exists data, k. rewrite Z.add_0_l in *.
      split_and!; try done. lia.
    + left. destruct (header_bad data Hu Hh) as [e' Hd].
      rewrite (load_elf_defect imem dmem (Some data) e' Hu Hd) in E. by injection E as <- <-.
  - intros [[Hd ->]|(Hn & data & k & -> & -> & Hk & Hj & Hs & El)]; [by apply load_elf_defect|].
    rewrite load_elf_headers.
    2:{ apply not_false_iff_true. intros Hh. destruct (header_bad data Hu Hh) as [e' Hd]. by apply (Hn e'). }
    replace (load_phdrs (Z.to_nat _) _ _ _ _ _) with (@Throw _ (IM * DM) (ShortSegment (Z.of_nat k)) s); [done|].
    symmetry. apply load_phdrs_throw; [done..|]. exists k. rewrite Z.add_0_l. split_and!; try done. lia.
Qed.

(** A 64-bit file, and a file cut inside its only segment. *)
Lemma load_elf_rejects_witness :
  load_elf (Some (<[4%nat := 2]> example_elf)) example_mem example_mem =
    Throw NotElf32 (example_mem, example_mem) /\
  load_elf (Some (take 86 example_elf)) example_mem example_mem =
    Throw (ShortSegment 0) (example_mem, example_mem).
Proof.
  split.
  - apply load_elf_rejects; [repeat constructor; unfold is_u8; lia|]. left. split; [|reflexivity].
    apply bad_class; [cbn; lia|reflexivity|discriminate].
  - assert (Hu : Forall is_u8 (take 86 example_elf)) by (repeat constructor; unfold is_u8; lia).
    apply load_elf_rejects; [exact Hu|]. right. split.
    + intros e' Hd. pose proof (defect_header _ e' Hu Hd) as Hh. vm_compute in Hh. discriminate Hh.
    + exists (take 86 example_elf), 0%nat. split_and!; try reflexivity; [intros i Hi; lia|].
      constructor; [unfold phdr_fits|..]; vm_compute; (split; discriminate) || reflexivity.
Defined.

(** ** Unreadable program headers *)

Section Truncated.
Context {IM DM : Type} `{IMemory IM} `{IMemory DM}.
Implicit Types (imem : IM) (dmem : DM).

(** The stream stays on its file. *)
Lemma load_phdr_data f ehdr i imem dmem f' imem' dmem' :
  load_phdr f ehdr i imem dmem = Ok (f', imem', dmem') -> fs_data f' = fs_data f.
Proof using Type.
  assert (Hs : forall f pos, fs_data (ifstream_seekg f pos) = fs_data f)
    by (intros g pos; unfold ifstream_seekg; by destruct (fs_fail g)).
  assert (Hr : forall f n, fs_data (ifstream_read f n).2 = fs_data f).
  { intros g n. unfold ifstream_read. destruct (fs_fail g); [done|]. by destruct (_ || _). }
  unfold load_phdr. pose proof (Hr (ifstream_seekg f (e_phoff ehdr + i * e_phentsize ehdr)) 32) as H1.
  destruct (ifstream_read _ 32) as [bytes f1]. cbn [snd] in H1. rewrite Hs in H1.
  destruct (fs_fail f1 || _); [intros [= <- _ _]; done|].
  pose proof (Hr (ifstream_seekg f1 (p_offset (phdr_of bytes))) (p_filesz (phdr_of bytes))) as H2.
  destruct (ifstream_read _ (p_filesz _)) as [d f2]. cbn [snd] in H2. rewrite Hs in H2.
  destruct (ensure _ _ _); cbn [mbind outcome_bind]; [|done..].
  destruct (store_data _ _ _ _ _) as [[i1 d1]|]; cbn [of_option mbind outcome_bind]; [|done].
  destruct (store_zeros _ _ _ _) as [d2|]; cbn [of_option mbind outcome_bind]; [|done].
  intros [= <- _ _]. congruence.
Qed.

(** The loop ends at the first header that lies past the end of the file. *)
Lemma load_phdrs_truncated k n i f ehdr imem dmem :
  Z.of_nat (length (fs_data f)) < e_phoff ehdr + (i + Z.of_nat k) * e_phentsize ehdr + 32 ->
  load_phdrs (k + n) i f ehdr imem dmem = load_phdrs k i f ehdr imem dmem.
Proof using Type.
  revert i f imem dmem. induction k as [|k IH]; intros i f imem dmem Hl.
  - cbn [Nat.add]. rewrite Z.add_0_r in Hl. destruct n as [|n]; [done|]. cbn [load_phdrs].
    destruct (fs_fail f) eqn:Hf; [exact (load_phdrs_failed (S n) i f ehdr imem dmem Hf)|].
    unfold load_phdr, ifstream_seekg, ifstream_read. rewrite Hf. cbn [fs_fail fs_pos fs_data].
    destruct (Z.leb_spec (e_phoff ehdr + i * e_phentsize ehdr + 32) (Z.of_nat (length (fs_data f)))); [lia|].
    cbn [fs_fail orb mbind outcome_bind]. by apply load_phdrs_failed.
  - cbn [Nat.add load_phdrs]. destruct (load_phdr f ehdr i imem dmem) as [[[f' imem'] dmem']| |] eqn:E; try done.
    cbn [mbind outcome_bind]. apply IH. rewrite (load_phdr_data _ _ _ _ _ _ _ _ E). lia.
Qed.
End Truncated.

(** C39: unreadable program headers are not an error.  If the [k]-th header lies
    past the end of a file whose ELF header is good, [load_elf] loads the headers
    before it and then succeeds: that one and all later ones are skipped without
    an exception. *)
Theorem truncated_headers_accepted {IM DM : Type} `{IMemory IM} `{IMemory DM} (imem : IM) (dmem : DM) data k :
  header_ok data = true -> (k <= Z.to_nat (e_phnum (ehdr_in data)))%nat ->
  Z.of_nat (length data) < phdr_pos data (Z.of_nat k) + 32 ->
  load_elf (Some data) imem dmem =
    '(imem, dmem) ← load_phdrs k 0 (mkIfstream data 52 false) (ehdr_in data) imem dmem;
    Ok (e_entry (ehdr_in data), imem, dmem).
Proof.
  intros Hh Hk Hl. rewrite load_elf_headers by done.
  replace (Z.to_nat (e_phnum (ehdr_in data))) with (k + (Z.to_nat (e_phnum (ehdr_in data)) - k))%nat by lia.
  rewrite load_phdrs_truncated; [done|]. cbn [fs_data]. unfold phdr_pos in Hl. lia.
Qed.

(** A file cut after its ELF header: success, with both memories untouched. *)
Lemma truncated_headers_accepted_witness :
  e_phnum (ehdr_in example_ehdr) = 1 /\
  load_elf (Some example_ehdr) example_mem example_mem = Ok (0x80000000, example_mem, example_mem).
Proof.
  split; [reflexivity|].
  exact (truncated_headers_accepted example_mem example_mem example_ehdr 0 eq_refl ltac:(lia) ltac:(reflexivity)).
Defined.
