(* ===== verification/Core.v ===== *)
(** * The core

    Models [include/cpusim/sim/core.h] and [src/sim/core.cpp]: the pipeline's
    state, the clock, and the memory ports a configuration selects. *)

From S2P Require Import Prelude Isa Regfile Config Pipe Memory FlatMem TreePlru Geometry.
From S2P Require Import Cache CacheLaws CacheTiming BranchPredictor Stages Tracer Elf.

(** ** Memory ports

    [iport_] and [dmem_] are references to an [IMemory]: the cache when it is
    enabled, the flat memory behind it otherwise. *)

Inductive Port :=
  | PFlat (m : FlatMem)
  | PCache (c : Cache FlatMem TreePlru SequentialPrefetch).

Definition Port_flat (p : Port) : FlatMem :=
  match p with PFlat m => m | PCache c => cc_backing_ c end.

Definition Port_set_flat (p : Port) (m : FlatMem) : Port :=
  match p with PFlat _ => PFlat m | PCache c => PCache (c <| cc_backing_ := m |>) end.

Definition Port_store (p : Port) (flat : FlatMem -> option FlatMem)
    (cache : Cache FlatMem TreePlru SequentialPrefetch ->
             option (Cache FlatMem TreePlru SequentialPrefetch)) : option Port :=
  match p with
  | PFlat m => PFlat <$> flat m
  | PCache c => PCache <$> cache c
  end.

#[export] Instance Port_IMemory : IMemory Port := {
  load_word p a := match p with PFlat m => load_word m a | PCache c => load_word c a end;
  load_half p a := match p with PFlat m => load_half m a | PCache c => load_half c a end;
  load_byte p a := match p with PFlat m => load_byte m a | PCache c => load_byte c a end;
  store_word p a v := Port_store p (fun m => store_word m a v) (fun c => store_word c a v);
  store_half p a v := Port_store p (fun m => store_half m a v) (fun c => store_half c a v);
  store_byte p a v := Port_store p (fun m => store_byte m a v) (fun c => store_byte c a v);
  ready p st a w :=
    match p with
    | PFlat m => '(b, m, st) ← ready m st a w; Some (b, PFlat m, st)
    | PCache c => '(b, c, st) ← ready c st a w; Some (b, PCache c, st)
    end;
  tick p st :=
    match p with
    | PFlat m => '(m, st) ← tick m st; Some (PFlat m, st)
    | PCache c => '(c, st) ← tick c st; Some (PCache c, st)
    end;
}.

(** ** State *)

Inductive HaltReason := HaltNone | HaltEbreak | HaltIllegal.

Record Core (IM DM : Type) := mkCore {
  co_base_ : Z;
  co_imem_ : IM;
  co_dmem_ : DM;
  co_rf_ : RegFile;
  co_bpred_ : option BranchPredictor;
  co_stats_ : SimStats;
  co_if_id_ : Latch IfId;
  co_id_ex_ : Latch IdEx;
  co_ex_mem_ : Latch ExMem;
  co_mem_wb_ : Latch MemWb;
  co_fetch_ : FetchStage;
  co_decode_ : DecodeStage;
  co_fwd_ : ForwardUnit;
  co_ex_ : ExecuteStage;
  co_mem_ : MemAccessStage;
  co_wb_ : WritebackStage;
  co_hazard_ : HazardUnit;
  co_tracer_ : option Tracer;
  co_halted_ : bool;
  co_halt_reason_ : HaltReason;
  co_halt_pc_ : Z;
  co_halt_raw_ : Z;
}.
Arguments mkCore {IM DM}.
Arguments co_base_ {IM DM} _.
Arguments co_imem_ {IM DM} _.
Arguments co_dmem_ {IM DM} _.
Arguments co_rf_ {IM DM} _.
Arguments co_bpred_ {IM DM} _.
Arguments co_stats_ {IM DM} _.
Arguments co_if_id_ {IM DM} _.
Arguments co_id_ex_ {IM DM} _.
Arguments co_ex_mem_ {IM DM} _.
Arguments co_mem_wb_ {IM DM} _.
Arguments co_fetch_ {IM DM} _.
Arguments co_decode_ {IM DM} _.
Arguments co_fwd_ {IM DM} _.
Arguments co_ex_ {IM DM} _.
Arguments co_mem_ {IM DM} _.
Arguments co_wb_ {IM DM} _.
Arguments co_hazard_ {IM DM} _.
Arguments co_tracer_ {IM DM} _.
Arguments co_halted_ {IM DM} _.
Arguments co_halt_reason_ {IM DM} _.
Arguments co_halt_pc_ {IM DM} _.
Arguments co_halt_raw_ {IM DM} _.

#[export] Instance Core_eta IM DM : Eta (Core IM DM) := fun c =>
  mkCore (co_base_ c) (co_imem_ c) (co_dmem_ c) (co_rf_ c) (co_bpred_ c) (co_stats_ c)
    (co_if_id_ c) (co_id_ex_ c) (co_ex_mem_ c) (co_mem_wb_ c) (co_fetch_ c) (co_decode_ c)
    (co_fwd_ c) (co_ex_ c) (co_mem_ c) (co_wb_ c) (co_hazard_ c) (co_tracer_ c) (co_halted_ c)
    (co_halt_reason_ c) (co_halt_pc_ c) (co_halt_raw_ c).

(** Field access and update by value: a chain of updates is one record. *)
Ltac core_simpl :=
  cbv beta iota zeta delta [
    setter co_base_ co_imem_ co_dmem_ co_rf_ co_bpred_ co_stats_ co_if_id_ co_id_ex_
    co_ex_mem_ co_mem_wb_ co_fetch_ co_decode_ co_fwd_ co_ex_ co_mem_ co_wb_ co_hazard_
    co_tracer_ co_halted_ co_halt_reason_ co_halt_pc_ co_halt_raw_].
Ltac core_simpl_in E :=
  cbv beta iota zeta delta [
    setter co_base_ co_imem_ co_dmem_ co_rf_ co_bpred_ co_stats_ co_if_id_ co_id_ex_
    co_ex_mem_ co_mem_wb_ co_fetch_ co_decode_ co_fwd_ co_ex_ co_mem_ co_wb_ co_hazard_
    co_tracer_ co_halted_ co_halt_reason_ co_halt_pc_ co_halt_raw_] in E.

(** ** The clock *)

Section Clock.
Context {IM DM : Type} `{IMemory IM} `{IMemory DM}.
Abbreviation core := (Core IM DM).

(** The seven [evaluate] calls. *)
Definition Core_evaluate (c : core) : option core :=
  '(fetch, imem, st, if_id) ←
    FetchStage_evaluate (co_imem_ c) (co_bpred_ c) (co_stats_ c) (co_fetch_ c) (co_if_id_ c);
  let c := c <| co_fetch_ := fetch |> <| co_imem_ := imem |> <| co_stats_ := st |>
             <| co_if_id_ := if_id |> in
  id_ex ← DecodeStage_evaluate (co_rf_ c) (co_if_id_ c) (co_id_ex_ c);
  let c := c <| co_id_ex_ := id_ex |> in
  let c := c <| co_fwd_ := ForwardUnit_evaluate (co_mem_wb_ c) (co_fwd_ c) |> in
  let '(ex, ex_mem) :=
    ExecuteStage_evaluate (bool_decide (is_Some (co_bpred_ c))) (co_id_ex_ c) (co_ex_mem_ c)
      (co_mem_wb_ c) (co_fwd_ c) (co_ex_ c) in
  let c := c <| co_ex_ := ex |> <| co_ex_mem_ := ex_mem |> in
  '(mem, dmem, st, mem_wb) ←
    MemAccessStage_evaluate (co_dmem_ c) (co_stats_ c) (co_ex_mem_ c) (co_mem_wb_ c);
  let c := c <| co_mem_ := mem |> <| co_dmem_ := dmem |> <| co_stats_ := st |>
             <| co_mem_wb_ := mem_wb |> in
  let c := c <| co_wb_ := WritebackStage_evaluate (co_mem_wb_ c) |> in
  Some (c <| co_hazard_ := HazardUnit_evaluate (co_if_id_ c) (co_id_ex_ c) |>).

Definition is_halt_op (op : Op) : bool := op_eqb op EBREAK || op_eqb op ILLEGAL.

(** Tracing, halt detection and the instruction count, on the MEM/WB input. *)
Definition Core_retire (c : core) : option core :=
  let wb_in := Latch_read (co_mem_wb_ c) in
  tracer ← match co_tracer_ c with
           | Some t => t ← Tracer_record t wb_in (cycles (co_stats_ c)); Some (Some t)
           | None => Some None
           end;
  let c := c <| co_tracer_ := tracer |> in
  let c :=
    if mw_valid wb_in && is_halt_op (mw_op wb_in) then
      c <| co_halted_ := true |>
        <| co_halt_reason_ := if op_eqb (mw_op wb_in) EBREAK then HaltEbreak else HaltIllegal |>
        <| co_halt_pc_ := mw_pc wb_in |> <| co_halt_raw_ := mw_raw wb_in |>
    else c in
  Some (if mw_valid wb_in then c <| co_stats_ := stats_instruction (co_stats_ c) |> else c).

(** [held] is written and latched: both halves of the latch hold it. *)
Definition Core_capture_ex_operands (c : core) : core :=
  let held := Latch_read (co_id_ex_ c) in
  if negb (ie_valid held) then c
  else
    let resolve := ForwardUnit_resolve (co_ex_mem_ c) (co_mem_wb_ c) (co_fwd_ c) in
    let held := mkIdEx (ie_pc held) (ie_raw held) (ie_op held) (ie_rd held) (ie_rs1 held)
      (ie_rs2 held) (ie_imm held) (resolve (ie_rs1 held) (ie_rs1_val held))
      (resolve (ie_rs2 held) (ie_rs2_val held)) (ie_valid held) (ie_predicted_taken held) in
    c <| co_id_ex_ := Latch_latch (Latch_write (co_id_ex_ c) held) |>.

(** [wb_.latch(); fwd_.latch();], first in both latch orders. *)
Definition Core_latch_wb_fwd (c : core) : option core :=
  '(wb, rf) ← WritebackStage_latch (co_wb_ c) (co_rf_ c);
  let c := c <| co_wb_ := wb |> <| co_rf_ := rf |> in
  Some (c <| co_fwd_ := ForwardUnit_latch (co_fwd_ c) |>).

Definition Core_latch_mem (c : core) : option core :=
  '(dmem, st, mem_wb) ← MemAccessStage_latch (co_dmem_ c) (co_stats_ c) (co_mem_wb_ c);
  Some (c <| co_dmem_ := dmem |> <| co_stats_ := st |> <| co_mem_wb_ := mem_wb |>).

Definition Core_count_cycle (c : core) : core := c <| co_stats_ := stats_cycle (co_stats_ c) |>.

(** The [if (mem_stall)] path. *)
Definition Core_latch_stalled (c : core) : option core :=
  c ← Core_latch_wb_fwd (Core_capture_ex_operands c);
  c ← Core_latch_mem c;
  Some (Core_count_cycle c).

(** The full latch phase. *)
Definition Core_latch_all (c : core) : option core :=
  c ← Core_latch_wb_fwd c;
  '(ex, fetch, dec, bp, st, ex_mem) ←
    ExecuteStage_latch (co_ex_ c) (co_fetch_ c) (co_decode_ c) (co_bpred_ c) (co_stats_ c)
      (co_ex_mem_ c);
  let c := c <| co_ex_ := ex |> <| co_fetch_ := fetch |> <| co_decode_ := dec |>
             <| co_bpred_ := bp |> <| co_stats_ := st |> <| co_ex_mem_ := ex_mem |> in
  c ← Core_latch_mem c;
  let '(hz, fetch, dec) := HazardUnit_latch (co_hazard_ c) (co_fetch_ c) (co_decode_ c) in
  let c := c <| co_hazard_ := hz |> <| co_fetch_ := fetch |> <| co_decode_ := dec |> in
  let '(dec, id_ex) := DecodeStage_latch (co_decode_ c) (co_id_ex_ c) in
  let c := c <| co_decode_ := dec |> <| co_id_ex_ := id_ex |> in
  '(fetch, imem, st, if_id) ←
    FetchStage_latch (co_imem_ c) (co_stats_ c) (co_fetch_ c) (co_if_id_ c);
  Some (Core_count_cycle (c <| co_fetch_ := fetch |> <| co_imem_ := imem |>
          <| co_stats_ := st |> <| co_if_id_ := if_id |>)).

(** [tick] returns whether the core is still running. *)
Definition Core_tick (c : core) : option (bool * core) :=
  if co_halted_ c then Some (false, c) else
  c ← Core_evaluate c;
  let mem_stall := ma_stalling_ (co_mem_ c) in
  c ← Core_retire c;
  c ← (if mem_stall : bool then Core_latch_stalled c else Core_latch_all c);
  Some (negb (co_halted_ c), c).

(** [while (!halted_ && stats_.cycles < max_cycles) tick();], at most [fuel]
    iterations ([None] when they run out). *)
Fixpoint Core_run (fuel : nat) (c : core) (max_cycles : Z) : option core :=
  if negb (co_halted_ c) && (cycles (co_stats_ c) <? max_cycles) then
    match fuel with
    | O => None
    | S fuel => '(_, c) ← Core_tick c; Core_run fuel c max_cycles
    end
  else Some c.

(** ** Inspection and set-up *)

Definition Core_read_reg (c : core) (reg : Z) : option Z := RegFile_read (co_rf_ c) reg.
Definition Core_load_word (c : core) (addr : Z) : option Z := load_word (co_dmem_ c) addr.
Definition Core_pc (c : core) : Z := ft_pc_ (co_fetch_ c).
Definition Core_write_reg (c : core) (reg val : Z) : option core :=
  rf ← RegFile_write (co_rf_ c) reg val; Some (c <| co_rf_ := rf |>).
Definition Core_store_word (c : core) (addr val : Z) : option core :=
  dmem ← store_word (co_dmem_ c) addr val; Some (c <| co_dmem_ := dmem |>).
Definition Core_cycles (c : core) : Z := cycles (co_stats_ c).
Definition Core_instructions (c : core) : Z := instructions (co_stats_ c).
Definition Core_halted (c : core) : bool := co_halted_ c.
Definition Core_halt_reason (c : core) : HaltReason := co_halt_reason_ c.
Definition Core_halt_pc (c : core) : Z := co_halt_pc_ c.
Definition Core_halt_raw (c : core) : Z := co_halt_raw_ c.
Definition Core_mispredicts (c : core) : Z := branch_mispredicts (co_stats_ c).
Definition Core_stats (c : core) : SimStats := co_stats_ c.
Definition Core_set_tracer (c : core) (t : option Tracer) : core := c <| co_tracer_ := t |>.
End Clock.

(** ** Construction *)

(** The start of every member but the memories and the predictor. *)
Definition Core_wire {IM DM} (base : Z) (imem : IM) (dmem : DM) (bp : option BranchPredictor)
    : Core IM DM :=
  mkCore base imem dmem RegFile_new bp SimStats_new Latch_new Latch_new Latch_new Latch_new
    (FetchStage_new base) DecodeStage_new ForwardUnit_new ExecuteStage_new
    (mkMemAccessStage false) WritebackStage_new (mkHazardUnit false) None false HaltNone 0 0.

Definition Core_new (cfg : SimConfig) : option (Core Port Port) :=
  let imem := FlatMem_new (ram_base_addr cfg) (ram_size_bytes cfg) (imem_latency_cycles cfg) in
  iport ← (if icache_enabled cfg then
             PCache <$> Cache_new imem (icache_line_bytes cfg) (icache_sets cfg)
               (icache_hit_latency_cycles cfg) (icache_ways cfg)
               (icache_prefetch_enabled cfg) (icache_prefetch_degree cfg) true
           else Some (PFlat imem));
  let dram := FlatMem_new (ram_base_addr cfg) (ram_size_bytes cfg) (dmem_latency_cycles cfg) in
  dmem ← (if dcache_enabled cfg then
            PCache <$> Cache_new dram (dcache_line_bytes cfg) (dcache_sets cfg)
              (dcache_hit_latency_cycles cfg) (dcache_ways cfg) false 1 false
          else Some (PFlat dram));
  bp ← (if bpred_enabled cfg then
          Some <$> BranchPredictor_new (bpred_bht_entries cfg) (bpred_btb_entries cfg)
        else Some None);
  Some (Core_wire (ram_base_addr cfg) iport dmem bp).

(** [load_program] and [load_elf] write the flat instruction memory itself. *)
Fixpoint store_words (m : FlatMem) (addr : Z) (words : list Z) : option FlatMem :=
  match words with
  | [] => Some m
  | w :: words => m ← store_word m addr w; store_words m (u32 (addr + 4)) words
  end.

Definition Core_load_program {DM} (c : Core Port DM) (words : list Z) : option (Core Port DM) :=
  m ← store_words (Port_flat (co_imem_ c)) (co_base_ c) words;
  Some (c <| co_imem_ := Port_set_flat (co_imem_ c) m |>).

Definition Core_load_elf {DM} `{IMemory DM} (c : Core Port DM) (file : option (list Z))
    : outcome (Core Port DM) (Core Port DM) :=
  let after := fun m dmem => c <| co_imem_ := Port_set_flat (co_imem_ c) m |> <| co_dmem_ := dmem |> in
  match load_elf file (Port_flat (co_imem_ c)) (co_dmem_ c) with
  | Ok (entry, m, dmem) =>
      _ ← ensure (entry =? co_base_ c) (EntryMismatch entry (co_base_ c)) (after m dmem);
      Ok (after m dmem)
  | Throw e (m, dmem) => Throw e (after m dmem)
  | Fault => Fault
  end.
