(* ===== verification/CoreStep.v ===== *)
(** * One clock cycle as a step relation

    [Core_tick] threads every member of every stage.  This file extracts from
    it the transition of the state that survives a cycle: the registered
    halves of the latches, the PC, the forwarding history, the memories, the
    register file and the predictor.  A cycle is either stalled by the data
    memory or full; both cases are constructors of [cycle]. *)

From S2P Require Import Prelude Isa Alu Regfile Config Pipe Memory BranchPredictor Stages Tracer Core.

Section Step.
Context {IM DM : Type} `{IMemory IM} `{IMemory DM}.
Abbreviation core := (Core IM DM).
Implicit Type c : core.

(** The registered values. *)
Definition v_if c : IfId := Latch_read (co_if_id_ c).
Definition v_id c : IdEx := Latch_read (co_id_ex_ c).
Definition v_ex c : ExMem := Latch_read (co_ex_mem_ c).
Definition v_wb c : MemWb := Latch_read (co_mem_wb_ c).
Definition v_prev c : MemWb := fw_prev_mem_wb_ (co_fwd_ c).
Definition v_pc c : Z := ft_pc_ (co_fetch_ c).

(** The one-shot signals are clear between cycles. *)
Definition quiescent c : Prop :=
  ft_stall_ (co_fetch_ c) = false /\ ft_redirect_ (co_fetch_ c) = false /\
  co_decode_ c = mkDecodeStage false false.

(** Forwarding on registered values. *)
Definition resolve (ex : ExMem) (wb prev : MemWb) (reg cur : Z) : Z :=
  if reg =? 0 then 0
  else if em_valid ex && (em_rd ex =? reg) then em_alu_out ex
  else if mw_valid wb && (mw_rd wb =? reg) then mw_wb_val wb
  else if mw_valid prev && (mw_rd prev =? reg) then mw_wb_val prev
  else cur.

Definition operand c (reg cur : Z) : Z := resolve (v_ex c) (v_wb c) (v_prev c) reg cur.

(** The fetched payload and the PC that follows it. *)
Definition fetched (imem : IM) (bp : option BranchPredictor) (pc : Z) (served : bool)
    : option (IfId * Z) :=
  if negb served then Some (bubble, pc)
  else
    raw ← load_word imem pc;
    '(taken, next) ←
      match bp with
      | Some bp =>
          p ← BranchPredictor_predict bp pc;
          Some (if p_taken p then (true, p_target p) else (false, u32 (pc + 4)))
      | None => Some (false, u32 (pc + 4))
      end;
    Some (mkIfId pc raw true taken, next).

(** The decoded payload. *)
Definition decoded (rf : RegFile) (f : IfId) : option IdEx :=
  if negb (if_valid f) then Some bubble
  else
    let i := decode (if_raw f) (if_pc f) in
    v1 ← RegFile_read rf (i_rs1 i);
    v2 ← RegFile_read rf (i_rs2 i);
    Some (mkIdEx (if_pc f) (if_raw f) (i_op i) (i_rd i) (i_rs1 i) (i_rs2 i) (i_imm i) v1 v2 true
            (if_predicted_taken f)).

(** The instruction in EX, with its operands captured. *)
Definition captured c : IdEx :=
  let id := v_id c in
  if negb (ie_valid id) then id
  else mkIdEx (ie_pc id) (ie_raw id) (ie_op id) (ie_rd id) (ie_rs1 id) (ie_rs2 id) (ie_imm id)
         (operand c (ie_rs1 id) (ie_rs1_val id)) (operand c (ie_rs2 id) (ie_rs2_val id))
         (ie_valid id) (ie_predicted_taken id).

(** The outcome of EX; an empty stage raises no signal. *)
Definition executed c : ExecuteStage * ExMem :=
  let id := v_id c in
  if negb (ie_valid id) then (ExecuteStage_new, bubble)
  else execute (bool_decide (is_Some (co_bpred_ c))) id
         (operand c (ie_rs1 id) (ie_rs1_val id)) (operand c (ie_rs2 id) (ie_rs2_val id)).

(** The register file after WB. *)
Definition written (rf : RegFile) (wb : MemWb) : option RegFile :=
  if mw_valid wb && has_writeback (mw_op wb) then RegFile_write rf (mw_rd wb) (mw_wb_val wb)
  else Some rf.

(** The served access of MEM (a bubble passes through). *)
Definition accessed (dmem : DM) (ex : ExMem) : option (DM * MemWb) :=
  if negb (em_valid ex) then Some (dmem, bubble) else mem_perform dmem ex.

(** Whether MEM asks the data memory. *)
Definition mem_request (ex : ExMem) : bool := em_valid ex && is_mem_op (em_op ex).

(** The predictor after EX. *)
Definition trained (e : ExecuteStage) (bp : option BranchPredictor) : option (option BranchPredictor) :=
  if ex_train_ e then
    p ← bp;
    p ← BranchPredictor_update p (ex_train_pc_ e) (ex_train_cond_ e) (ex_train_taken_ e)
          (ex_train_target_ e);
    Some (Some p)
  else Some bp.

(** Load-use interlock. *)
Definition interlock c : bool :=
  ie_valid (v_id c) && is_load (ie_op (v_id c)) && negb (ie_rd (v_id c) =? 0) &&
  ((ie_rd (v_id c) =? u8 (Z.land (Z.shiftr (if_raw (v_if c)) 15) 0x1f)) ||
   (ie_rd (v_id c) =? u8 (Z.land (Z.shiftr (if_raw (v_if c)) 20) 0x1f))).

Definition halts (wb : MemWb) : bool := mw_valid wb && is_halt_op (mw_op wb).

(** What both kinds of cycle do at the WB end. *)
Record retired c c' : Prop := mkRetired {
  rt_rf : written (co_rf_ c) (v_wb c) = Some (co_rf_ c');
  rt_prev : v_prev c' = v_wb c;
  rt_halted : co_halted_ c' = halts (v_wb c);
  rt_reason : halts (v_wb c) = true ->
    co_halt_reason_ c' = (if op_eqb (mw_op (v_wb c)) EBREAK then HaltEbreak else HaltIllegal) /\
    co_halt_pc_ c' = mw_pc (v_wb c) /\ co_halt_raw_ c' = mw_raw (v_wb c);
  rt_running : halts (v_wb c) = false -> co_halt_reason_ c' = co_halt_reason_ c;
  rt_quiescent : quiescent c';
  rt_base : co_base_ c' = co_base_ c;
}.

Inductive cycle c c' : Prop :=
  | cycle_stalled served_i st1 dmem1 st2 st3 (taken : retired c c')
      (EI : ready (co_imem_ c) (co_stats_ c) (v_pc c) false = Some (served_i, co_imem_ c', st1))
      (ED : is_Some (decoded (co_rf_ c) (v_if c)))
      (ER : mem_request (v_ex c) = true)
      (EM : ready (co_dmem_ c) st1 (em_alu_out (v_ex c)) (is_store (em_op (v_ex c))) =
              Some (false, dmem1, st2))
      (ET : tick dmem1 (if mw_valid (v_wb c) then stats_instruction st2 else st2) =
              Some (co_dmem_ c', st3))
      (ES : co_stats_ c' = stats_cycle st3)
      (Eif : v_if c' = v_if c) (Eid : v_id c' = captured c) (Eex : v_ex c' = v_ex c)
      (Ewb : v_wb c' = bubble) (Epc : v_pc c' = v_pc c) (Ebp : co_bpred_ c' = co_bpred_ c)
  | cycle_full served_i imem1 st1 f next id served_d dmem1 st2 dmem2 st4 st5 st6 (taken : retired c c')
      (EI : ready (co_imem_ c) (co_stats_ c) (v_pc c) false = Some (served_i, imem1, st1))
      (EF : fetched imem1 (co_bpred_ c) (v_pc c) served_i = Some (f, next))
      (ED : decoded (co_rf_ c) (v_if c) = Some id)
      (EM : (if mem_request (v_ex c)
             then ready (co_dmem_ c) st1 (em_alu_out (v_ex c)) (is_store (em_op (v_ex c)))
             else Some (true, co_dmem_ c, st1)) = Some (served_d, dmem1, st2))
      (ESv : served_d = true)
      (EA : accessed dmem1 (v_ex c) = Some (dmem2, v_wb c'))
      (EB : trained (executed c).1 (co_bpred_ c) = Some (co_bpred_ c'))
      (ET : tick dmem2 st4 = Some (co_dmem_ c', st5))
      (E4 : st4 = (let st3 := if mw_valid (v_wb c) then stats_instruction st2 else st2 in
         if ex_control_ (executed c).1 then
           (if ex_redirect_ (executed c).1 then stats_branch_mispredict st3
            else stats_branch_correct st3)
         else st3))
      (EU : tick imem1 st5 = Some (co_imem_ c', st6))
      (ES : co_stats_ c' = stats_cycle st6)
      (Eex : v_ex c' = (executed c).2)
      (Eid : v_id c' = if ex_redirect_ (executed c).1 || interlock c then bubble else id)
      (Eif : v_if c' = if ex_redirect_ (executed c).1 then bubble
                       else if interlock c then v_if c else f)
      (Epc : v_pc c' = if ex_redirect_ (executed c).1 then ex_redirect_target_ (executed c).1
                       else if interlock c then v_pc c else if served_i then next else v_pc c).

(** ** The stages on registered values *)

Lemma fetch_evaluate_eq (imem : IM) bp st f out :
  ft_redirect_ f = false ->
  FetchStage_evaluate imem bp st f out =
    '(served, imem, st) ← ready imem st (ft_pc_ f) false;
    '(p, next) ← fetched imem bp (ft_pc_ f) served;
    Some (f <| ft_fetch_stall_ := negb served |> <| ft_next_pc_ := next |>, imem, st,
          Latch_write out p).
Proof using Type.
  intros Hr. unfold FetchStage_evaluate, fetched.
  destruct (ready imem st (ft_pc_ f) false) as [[[[] imem'] st']|]; cbn; try done.
  destruct (load_word imem' (ft_pc_ f)) as [raw|]; [cbn|done].
  destruct bp as [p|]; cbn; [|by rewrite Hr].
  destruct (BranchPredictor_predict p (ft_pc_ f)) as [[[] t]|]; cbn; by rewrite ?Hr.
Qed.

Lemma decode_evaluate_eq rf (in_ : Latch IfId) out :
  DecodeStage_evaluate rf in_ out = id ← decoded rf (Latch_read in_); Some (Latch_write out id).
Proof using Type.
  unfold DecodeStage_evaluate, decoded. destruct (if_valid (Latch_read in_)); cbn [negb]; [|done].
  cbv zeta. destruct (RegFile_read rf (i_rs1 _)); cbn [mbind option_bind]; [|done].
  by destruct (RegFile_read rf (i_rs2 _)).
Qed.

Lemma mem_evaluate_eq (dmem : DM) st (in_ : Latch ExMem) out :
  MemAccessStage_evaluate dmem st in_ out =
    '(served, dmem, st) ←
      (if mem_request (Latch_read in_)
       then ready dmem st (em_alu_out (Latch_read in_)) (is_store (em_op (Latch_read in_)))
       else Some (true, dmem, st));
    '(dmem, wb) ← (if served : bool then accessed dmem (Latch_read in_) else Some (dmem, bubble));
    Some (mkMemAccessStage (negb served), dmem, st, Latch_write out wb).
Proof using Type.
  unfold MemAccessStage_evaluate, mem_request, accessed.
  destruct (em_valid (Latch_read in_)); cbn [negb andb mbind option_bind]; [|done].
  destruct (is_mem_op _); cbn [mbind option_bind]; [|by destruct (mem_perform _ _) as [[]|]].
  destruct (ready _ _ _ _) as [[[[] d] s]|]; cbn [mbind option_bind negb]; try done.
Qed.

(** The members [evaluate] leaves in an empty EX stage do not matter. *)
Lemma execute_evaluate_eq bpe (in_ : Latch IdEx) ex_mem mem_wb fwd e :
  let id := Latch_read in_ in
  let r := if negb (ie_valid id) then
             (e <| ex_redirect_ := false |> <| ex_train_ := false |> <| ex_control_ := false |>, bubble)
           else execute bpe id
             (resolve (Latch_read ex_mem) (Latch_read mem_wb) (fw_prev_mem_wb_ fwd) (ie_rs1 id) (ie_rs1_val id))
             (resolve (Latch_read ex_mem) (Latch_read mem_wb) (fw_prev_mem_wb_ fwd) (ie_rs2 id) (ie_rs2_val id)) in
  ExecuteStage_evaluate bpe in_ ex_mem mem_wb fwd e = (r.1, Latch_write ex_mem r.2).
Proof using Type.
  cbv zeta. unfold ExecuteStage_evaluate. destruct (ie_valid (Latch_read in_)); cbn [negb]; [|done].
  unfold ForwardUnit_resolve, resolve. by destruct (execute _ _ _ _).
Qed.

Lemma hazard_evaluate_eq c : HazardUnit_evaluate (co_if_id_ c) (co_id_ex_ c) = mkHazardUnit (interlock c).
Proof using Type.
  unfold HazardUnit_evaluate, interlock, v_id, v_if.
  destruct (ie_valid (Latch_read (co_id_ex_ c))); [|done].
  destruct (is_load (ie_op (Latch_read (co_id_ex_ c)))); [|done].
  by destruct (ie_rd (Latch_read (co_id_ex_ c)) =? 0).
Qed.

Lemma writeback_eq wb (l : Latch MemWb) rf :
  Latch_read l = wb ->
  WritebackStage_latch (WritebackStage_evaluate l) rf =
    rf ← written rf wb;
    Some (mkWritebackStage false
            (if mw_valid wb && has_writeback (mw_op wb) then mw_rd wb else 0)
            (if mw_valid wb && has_writeback (mw_op wb) then mw_wb_val wb else 0), rf).
Proof using Type.
  intros <-. unfold WritebackStage_latch, WritebackStage_evaluate, written.
  by destruct (mw_valid _), (has_writeback _).
Qed.

(** ** From [Core_tick] to [cycle] *)

(** The state after the evaluate phase: only shadows, memories and the members
    written by [evaluate] have changed. *)
Definition after_evaluate c imem dmem st (f : IfId) next (id : IdEx) e (ex : ExMem) (wb : MemWb)
    (served_i served_d : bool) : core :=
  c <| co_fetch_ := (co_fetch_ c) <| ft_fetch_stall_ := negb served_i |> <| ft_next_pc_ := next |> |>
    <| co_imem_ := imem |> <| co_dmem_ := dmem |> <| co_stats_ := st |>
    <| co_if_id_ := Latch_write (co_if_id_ c) f |> <| co_id_ex_ := Latch_write (co_id_ex_ c) id |>
    <| co_ex_mem_ := Latch_write (co_ex_mem_ c) ex |> <| co_mem_wb_ := Latch_write (co_mem_wb_ c) wb |>
    <| co_fwd_ := mkForwardUnit (v_prev c) (v_wb c) |> <| co_ex_ := e |>
    <| co_mem_ := mkMemAccessStage (negb served_d) |>
    <| co_wb_ := WritebackStage_evaluate (co_mem_wb_ c) |>
    <| co_hazard_ := mkHazardUnit (interlock c) |>.

(** EX's members are those of [executed] wherever [latch] looks. *)
Definition ex_like (e r : ExecuteStage) : Prop :=
  ex_redirect_ e = ex_redirect_ r /\ ex_control_ e = ex_control_ r /\ ex_train_ e = ex_train_ r /\
  (ex_redirect_ r || ex_train_ r = true -> e = r).

Lemma evaluate_inv c c1 :
  quiescent c -> Core_evaluate c = Some c1 ->
  exists imem st1 f next id dmem1 st2 dmem2 wb served_i served_d e,
    ready (co_imem_ c) (co_stats_ c) (v_pc c) false = Some (served_i, imem, st1) /\
    fetched imem (co_bpred_ c) (v_pc c) served_i = Some (f, next) /\
    decoded (co_rf_ c) (v_if c) = Some id /\
    (if mem_request (v_ex c)
     then ready (co_dmem_ c) st1 (em_alu_out (v_ex c)) (is_store (em_op (v_ex c)))
     else Some (true, co_dmem_ c, st1)) = Some (served_d, dmem1, st2) /\
    (if served_d : bool then accessed dmem1 (v_ex c) else Some (dmem1, bubble)) = Some (dmem2, wb) /\
    ex_like e (executed c).1 /\ ma_stalling_ (co_mem_ c1) = negb served_d /\
    c1 = after_evaluate c imem dmem2 st2 f next id e (executed c).2 wb served_i served_d.
Proof using Type.
  intros (Hq1 & Hq2 & Hq3) E. unfold Core_evaluate in E.
  rewrite fetch_evaluate_eq in E by done.
  destruct (ready (co_imem_ c) (co_stats_ c) (ft_pc_ (co_fetch_ c)) false)
    as [[[served_i imem] st1]|] eqn:EI; cbn [mbind option_bind] in E; [|done].
  destruct (fetched imem (co_bpred_ c) (ft_pc_ (co_fetch_ c)) served_i) as [[f next]|] eqn:EF;
    cbn [mbind option_bind] in E; [|done].
  rewrite decode_evaluate_eq in E. cbn [co_rf_ co_if_id_ setter] in E.
  change (Latch_read (Latch_write (co_if_id_ c) f)) with (v_if c) in E.
  destruct (decoded (co_rf_ c) (v_if c)) as [id|] eqn:ED; cbn [mbind option_bind] in E; [|done].
  rewrite execute_evaluate_eq, mem_evaluate_eq in E.
  cbn [co_id_ex_ co_ex_mem_ co_mem_wb_ co_fwd_ co_ex_ co_dmem_ co_stats_ co_bpred_ setter] in E.
  change (Latch_read (Latch_write (co_ex_mem_ c) _)) with (v_ex c) in E.
  match type of E with mbind _ (mbind _ ?m) = _ =>
    destruct m as [[[served_d dmem1] st2]|] eqn:EM; cbn [mbind option_bind] in E; [|done] end.
  match type of E with mbind _ (mbind _ ?m) = _ =>
    destruct m as [[dmem2 wb]|] eqn:EA; cbn [mbind option_bind] in E; [|done] end.
  injection E as <-.
  exists imem, st1, f, next, id, dmem1, st2, dmem2, wb, served_i, served_d,
    (if negb (ie_valid (v_id c)) then
       (co_ex_ c) <| ex_redirect_ := false |> <| ex_train_ := false |> <| ex_control_ := false |>
     else (executed c).1).
  split_and!; [done|done|done|done|done| |reflexivity|].
  2:{ unfold after_evaluate. rewrite <- hazard_evaluate_eq.
      unfold executed, operand, v_id, v_ex, v_wb, v_prev. destruct c as [? ? ? ? ? ? ? [id0 ?]].
      core_simpl. cbn [Latch_read Latch_write reg_].
      destruct (ie_valid id0); reflexivity. }
  unfold executed, operand, ex_like.
  change (Latch_read (Latch_write (co_id_ex_ c) id)) with (v_id c).
  destruct (ie_valid (v_id c)); cbn; split_and!; done.
Qed.

(** The fields [Core_retire] writes. *)
Definition after_retire c (t : option Tracer) : core :=
  let wb := v_wb c in
  c <| co_tracer_ := t |>
    <| co_halted_ := if halts wb then true else co_halted_ c |>
    <| co_halt_reason_ := if halts wb then (if op_eqb (mw_op wb) EBREAK then HaltEbreak else HaltIllegal)
                          else co_halt_reason_ c |>
    <| co_halt_pc_ := if halts wb then mw_pc wb else co_halt_pc_ c |>
    <| co_halt_raw_ := if halts wb then mw_raw wb else co_halt_raw_ c |>
    <| co_stats_ := if mw_valid wb then stats_instruction (co_stats_ c) else co_stats_ c |>.

Lemma retire_inv c c1 : Core_retire c = Some c1 -> exists t, c1 = after_retire c t.
Proof using Type.
  unfold Core_retire. match goal with |- mbind _ ?m = _ -> _ => destruct m as [t|] end;
    cbn [mbind option_bind]; [|done].
  intros [= <-]. exists t. unfold after_retire, halts, v_wb. destruct c. core_simpl.
  destruct (mw_valid _ && is_halt_op _); destruct (mw_valid _); reflexivity.
Qed.

(** The latch phases, from the state the evaluate phase and [Core_retire] leave. *)
Lemma latch_stalled_inv c c' :
  Core_latch_stalled c = Some c' ->
  exists wb rf dmem st mem_wb,
    WritebackStage_latch (co_wb_ c) (co_rf_ c) = Some (wb, rf) /\
    MemAccessStage_latch (co_dmem_ c) (co_stats_ c) (co_mem_wb_ c) = Some (dmem, st, mem_wb) /\
    c' = c <| co_id_ex_ := co_id_ex_ (Core_capture_ex_operands c) |> <| co_wb_ := wb |>
           <| co_rf_ := rf |> <| co_fwd_ := ForwardUnit_latch (co_fwd_ c) |>
           <| co_dmem_ := dmem |> <| co_stats_ := stats_cycle st |> <| co_mem_wb_ := mem_wb |>.
Proof using Type.
  unfold Core_latch_stalled, Core_latch_wb_fwd. intros E.
  assert (Hc : Core_capture_ex_operands c =
    c <| co_id_ex_ := co_id_ex_ (Core_capture_ex_operands c) |>).
  { unfold Core_capture_ex_operands. destruct (negb (ie_valid _)); [|reflexivity].
    destruct c. core_simpl. reflexivity. }
  rewrite Hc in E. generalize dependent (co_id_ex_ (Core_capture_ex_operands c)). intros l E _.
  unfold Core_latch_mem in E.
  match type of E with mbind _ (mbind _ ?m) = _ =>
    change m with (WritebackStage_latch (co_wb_ c) (co_rf_ c)) in E end.
  destruct (WritebackStage_latch (co_wb_ c) (co_rf_ c)) as [[wb rf]|] eqn:Ew;
    cbn [mbind option_bind] in E; [|done].
  match type of E with mbind _ (mbind _ ?m) = _ =>
    change m with (MemAccessStage_latch (co_dmem_ c) (co_stats_ c) (co_mem_wb_ c)) in E end.
  destruct (MemAccessStage_latch (co_dmem_ c) (co_stats_ c) (co_mem_wb_ c)) as [[[dmem st] mw]|] eqn:Em;
    cbn [mbind option_bind] in E; [|done].
  injection E as <-. exists wb, rf, dmem, st, mw. split_and!; [done|done|].
  destruct c. unfold Core_count_cycle. core_simpl. reflexivity.
Qed.

Lemma latch_all_inv c c' :
  Core_latch_all c = Some c' ->
  exists wb rf e fetch dec bp st1 ex_mem dmem st2 mem_wb fetch' imem st3 if_id,
    let '(hz, fetch2, dec2) := HazardUnit_latch (co_hazard_ c) fetch dec in
    let '(dec3, id_ex) := DecodeStage_latch dec2 (co_id_ex_ c) in
    WritebackStage_latch (co_wb_ c) (co_rf_ c) = Some (wb, rf) /\
    ExecuteStage_latch (co_ex_ c) (co_fetch_ c) (co_decode_ c) (co_bpred_ c) (co_stats_ c)
      (co_ex_mem_ c) = Some (e, fetch, dec, bp, st1, ex_mem) /\
    MemAccessStage_latch (co_dmem_ c) st1 (co_mem_wb_ c) = Some (dmem, st2, mem_wb) /\
    FetchStage_latch (co_imem_ c) st2 fetch2 (co_if_id_ c) = Some (fetch', imem, st3, if_id) /\
    c' = c <| co_wb_ := wb |> <| co_rf_ := rf |> <| co_fwd_ := ForwardUnit_latch (co_fwd_ c) |>
           <| co_ex_ := e |> <| co_bpred_ := bp |> <| co_ex_mem_ := ex_mem |>
           <| co_dmem_ := dmem |> <| co_mem_wb_ := mem_wb |> <| co_hazard_ := hz |>
           <| co_decode_ := dec3 |> <| co_id_ex_ := id_ex |> <| co_fetch_ := fetch' |>
           <| co_imem_ := imem |> <| co_if_id_ := if_id |> <| co_stats_ := stats_cycle st3 |>.
Proof using Type.
  destruct c. unfold Core_latch_all, Core_latch_wb_fwd, Core_latch_mem, Core_count_cycle.
  core_simpl. intros E.
  destruct (WritebackStage_latch co_wb_ co_rf_) as [[wb rf]|] eqn:Ew;
    cbn [mbind option_bind] in E; [core_simpl_in E|done].
  destruct (ExecuteStage_latch _ _ _ _ _ _) as [[[[[[e fetch] dec] bp] st1] ex_mem]|] eqn:Ee;
    cbn [mbind option_bind] in E; [core_simpl_in E|done].
  destruct (MemAccessStage_latch _ _ _) as [[[dmem st2] mem_wb]|] eqn:Em;
    cbn [mbind option_bind] in E; [core_simpl_in E|done].
  exists wb, rf, e, fetch, dec, bp, st1, ex_mem, dmem, st2, mem_wb.
  unfold HazardUnit_latch, DecodeStage_latch in *. core_simpl_in E.
  match type of E with mbind _ ?m = _ =>
    destruct m as [[[[fetch' imem] st3] if_id]|] eqn:Ef end;
    cbn [mbind option_bind] in E; [core_simpl_in E|done].
  injection E as <-. exists fetch', imem, st3, if_id. by split_and!.
Qed.

Lemma fetch_latch_eq (imem : IM) st f out :
  FetchStage_latch imem st f out =
    '(imem, st) ← tick imem st;
    Some (f <| ft_pc_ := if ft_redirect_ f then ft_redirect_target_ f
                         else if ft_stall_ f then ft_pc_ f
                         else if ft_fetch_stall_ f then ft_pc_ f else ft_next_pc_ f |>
            <| ft_stall_ := false |> <| ft_redirect_ := false |>, imem, st,
          if ft_redirect_ f then Latch_flush out
          else if ft_stall_ f then out else Latch_latch out).
Proof using Type.
  unfold FetchStage_latch. destruct (tick imem st) as [[imem' st']|]; [cbn [mbind option_bind]|done].
  destruct f as [pc np [] [] tgt []]; reflexivity.
Qed.

(** Both latch phases end with the WB stage's part of the cycle. *)
Lemma written_of_latch c (l : Latch MemWb) wb rf :
  Latch_read l = v_wb c ->
  WritebackStage_latch (WritebackStage_evaluate l) (co_rf_ c) = Some (wb, rf) ->
  written (co_rf_ c) (v_wb c) = Some rf.
Proof using Type.
  intros Hl. rewrite (writeback_eq _ _ _ Hl).
  destruct (written (co_rf_ c) (v_wb c)); [cbn|done]. by intros [= <- <-].
Qed.

Lemma cycle_of_stall c c' imem st1 f next id dmem1 st2 e served_i t :
  quiescent c -> co_halted_ c = false ->
  ready (co_imem_ c) (co_stats_ c) (v_pc c) false = Some (served_i, imem, st1) ->
  decoded (co_rf_ c) (v_if c) = Some id ->
  mem_request (v_ex c) = true ->
  ready (co_dmem_ c) st1 (em_alu_out (v_ex c)) (is_store (em_op (v_ex c))) = Some (false, dmem1, st2) ->
  Core_latch_stalled (after_retire
    (after_evaluate c imem dmem1 st2 f next id e (executed c).2 bubble served_i false) t) = Some c' ->
  cycle c c'.
Proof using Type.
  intros (Hq1 & Hq2 & Hq3) Hh EI ED ER EM E.
  apply latch_stalled_inv in E as (wb & rf & dmem & st & mem_wb & Ew & Em & ->).
  assert (Hrf : written (co_rf_ c) (v_wb c) = Some rf).
  { apply (written_of_latch c (co_mem_wb_ c) wb); [done|]. destruct c. exact Ew. }
  assert (Hmem : tick dmem1 (if mw_valid (v_wb c) then stats_instruction st2 else st2) = Some (dmem, st) /\
    mem_wb = mkLatch bubble bubble).
  { unfold MemAccessStage_latch in Em. destruct c. unfold after_retire, after_evaluate in Em.
    core_simpl_in Em. unfold v_wb. core_simpl. cbn in Em |- *.
    destruct (tick _ _) as [[]|]; cbn in Em; [|done]. by injection Em as <- <- <-. }
  destruct Hmem as [Hmem ->]. clear Ew Em.
  unfold after_retire, after_evaluate, v_prev, v_if, v_id, v_ex, v_wb, v_pc, quiescent in *.
  destruct c as [? ? ? ? ? ? [] [id0 ?] [] [] [] ? [] ? ? ? ? ? ? ? ? ?]. core_simpl. cbn in *. subst.
  eapply cycle_stalled; cbn.
  1: constructor; cbn; try done; [by destruct (halts reg_1)|by intros ->|by intros ->].
  all: try exact EI; try done.
  unfold v_id, captured, operand, v_id, v_ex, v_wb, v_prev, Core_capture_ex_operands.
  core_simpl. cbn. by destruct (ie_valid id0).
Qed.

(** What EX's [latch] does with its signals. *)
Lemma execute_latch_eq e r fetch dec bp st out :
  ex_like e r ->
  ExecuteStage_latch e fetch dec bp st out =
    bp ← trained r bp;
    Some (e <| ex_redirect_ := false |> <| ex_train_ := false |> <| ex_control_ := false |>,
          if ex_redirect_ r then FetchStage_set_redirect true (ex_redirect_target_ r) fetch else fetch,
          if ex_redirect_ r then DecodeStage_set_flush true dec else dec, bp,
          if ex_control_ r then
            (if ex_redirect_ r then stats_branch_mispredict st else stats_branch_correct st)
          else st, Latch_latch out).
Proof using Type.
  intros (E1 & E2 & E3 & E4). unfold ExecuteStage_latch, trained. rewrite E1, E2, E3.
  destruct (ex_redirect_ r || ex_train_ r) eqn:Eor.
  - rewrite (E4 eq_refl). destruct (ex_train_ r); cbn [mbind option_bind]; [|done].
    destruct bp as [p|]; cbn [mbind option_bind]; [|done].
    by destruct (BranchPredictor_update _ _ _ _ _).
  - apply orb_false_iff in Eor as [-> ->]. done.
Qed.

Lemma execute_latch_inv e r fetch dec bp st out e' fetch' dec' bp' st' out' :
  ex_like e r -> ExecuteStage_latch e fetch dec bp st out = Some (e', fetch', dec', bp', st', out') ->
  trained r bp = Some bp' /\
  fetch' = (if ex_redirect_ r then FetchStage_set_redirect true (ex_redirect_target_ r) fetch else fetch) /\
  dec' = (if ex_redirect_ r then DecodeStage_set_flush true dec else dec) /\
  st' = (if ex_control_ r then
           (if ex_redirect_ r then stats_branch_mispredict st else stats_branch_correct st)
         else st) /\
  out' = Latch_latch out.
Proof using Type.
  intros Hl. rewrite (execute_latch_eq _ _ _ _ _ _ _ Hl).
  destruct (trained r bp) as [bp1|]; cbn [mbind option_bind]; [|done].
  by intros [= <- <- <- <- <- <-].
Qed.

Lemma mem_latch_inv (d : DM) st (out : Latch MemWb) d' st' out' :
  MemAccessStage_latch d st out = Some (d', st', out') ->
  tick d st = Some (d', st') /\ out' = Latch_latch out.
Proof using Type.
  unfold MemAccessStage_latch. destruct (tick d st) as [[]|]; cbn [mbind option_bind]; [|done].
  by intros [= <- <- <-].
Qed.

(** The halt flag and its report. *)
Lemma halt_report {A} (b : bool) (x y : A) (h : bool) :
  h = false ->
  (if b then true else h) = b /\ (b = true -> (if b then x else y) = x) /\
  (b = false -> (if b then x else y) = y).
Proof using Type. intros ->. by destruct b. Qed.

(** The front end's part of a full cycle. *)
Lemma front_end_latch (imem : IM) st fetch dec (redirect hz served : bool) target next f id
    (if_id : Latch IfId) (id_ex : Latch IdEx) fetch' imem' st' if_id' :
  ft_stall_ fetch = false -> ft_redirect_ fetch = false -> dec = mkDecodeStage false false ->
  ft_fetch_stall_ fetch = negb served -> ft_next_pc_ fetch = next ->
  let fetch1 := if redirect then FetchStage_set_redirect true target fetch else fetch in
  let dec1 := if redirect then DecodeStage_set_flush true dec else dec in
  let '(hz', fetch2, dec2) := HazardUnit_latch (mkHazardUnit hz) fetch1 dec1 in
  let '(dec3, id_ex') := DecodeStage_latch dec2 (Latch_write id_ex id) in
  FetchStage_latch imem st fetch2 (Latch_write if_id f) = Some (fetch', imem', st', if_id') ->
  tick imem st = Some (imem', st') /\ dec3 = mkDecodeStage false false /\
  Latch_read id_ex' = (if redirect || hz then bubble else id) /\
  Latch_read if_id' = (if redirect then bubble else if hz then Latch_read if_id else f) /\
  ft_pc_ fetch' = (if redirect then target else if hz then ft_pc_ fetch
                   else if served then next else ft_pc_ fetch) /\
  ft_stall_ fetch' = false /\ ft_redirect_ fetch' = false.
Proof using Type.
  intros H1 H2 -> H3 H4. cbv zeta. unfold HazardUnit_latch, DecodeStage_latch.
  rewrite fetch_latch_eq. destruct fetch as [pc np stl rd tgt fst]. cbn in H1, H2, H3, H4. subst.
  destruct (tick imem st) as [[im s]|]; [|by destruct redirect, hz].
  destruct redirect, hz, served; cbn; intros [= <- <- <- <-]; by split_and!.
Qed.

Lemma cycle_of_full c c' imem st1 f next id dmem1 st2 dmem2 wb' e served_i t :
  quiescent c -> co_halted_ c = false ->
  ready (co_imem_ c) (co_stats_ c) (v_pc c) false = Some (served_i, imem, st1) ->
  fetched imem (co_bpred_ c) (v_pc c) served_i = Some (f, next) ->
  decoded (co_rf_ c) (v_if c) = Some id ->
  (if mem_request (v_ex c)
   then ready (co_dmem_ c) st1 (em_alu_out (v_ex c)) (is_store (em_op (v_ex c)))
   else Some (true, co_dmem_ c, st1)) = Some (true, dmem1, st2) ->
  accessed dmem1 (v_ex c) = Some (dmem2, wb') ->
  ex_like e (executed c).1 ->
  Core_latch_all (after_retire
    (after_evaluate c imem dmem2 st2 f next id e (executed c).2 wb' served_i true) t) = Some c' ->
  cycle c c'.
Proof using Type.
  intros (Hq1 & Hq2 & Hq3) Hh EI EF ED EM EA Hex E.
  apply latch_all_inv in E as (wb & rf & e' & fetch & dec & bp & st4 & ex_mem & dmem & st5 & mem_wb &
    fetch' & imem' & st6 & if_id & E).
  set (c1 := after_retire _ t) in E.
  destruct (HazardUnit_latch (co_hazard_ c1) fetch dec) as [[hz fetch2] dec2] eqn:Ehz.
  destruct (DecodeStage_latch dec2 (co_id_ex_ c1)) as [dec3 id_ex] eqn:Eds.
  destruct E as (Ew & Ee & Em & Ef & ->).
  assert (Hrf : written (co_rf_ c) (v_wb c) = Some rf).
  { apply (written_of_latch c (co_mem_wb_ c) wb); [done|]. subst c1. destruct c. exact Ew. }
  assert (Hl : ex_like (co_ex_ c1) (executed c).1) by exact Hex.
  apply (execute_latch_inv _ _ _ _ _ _ _ _ _ _ _ _ _ Hl) in Ee as (Hbp & -> & -> & -> & ->).
  change (co_decode_ c1) with (co_decode_ c) in Ehz. change (co_bpred_ c1) with (co_bpred_ c) in Hbp.
  apply mem_latch_inv in Em as [Htick ->].
  pose proof (front_end_latch (co_imem_ c1) st5 (co_fetch_ c1) (co_decode_ c) (ex_redirect_ (executed c).1)
    (interlock c) served_i (ex_redirect_target_ (executed c).1) next f id (co_if_id_ c) (co_id_ex_ c)
    fetch' imem' st6 if_id Hq1 Hq2 Hq3 eq_refl eq_refl) as Hfe. cbv zeta in Hfe.
  change (mkHazardUnit (interlock c)) with (co_hazard_ c1) in Hfe. rewrite Ehz in Hfe.
  change (Latch_write (co_id_ex_ c) id) with (co_id_ex_ c1) in Hfe. rewrite Eds in Hfe.
  destruct (Hfe Ef) as (Htick' & -> & Hid & Hif & Hpc & Hs1 & Hs2).
  change (co_imem_ c1) with imem in Htick'. clear Hfe Ehz Eds Ef Ew.
  eapply cycle_full with (served_d := true); try done.
  - constructor; cbn; try done.
    + apply (proj1 (halt_report (halts (v_wb c)) 0 0 _ Hh)).
    + intros Eh. by rewrite !(fun A x y => proj1 (proj2 (@halt_report A _ x y _ Hh)) Eh).
    + intros Eh. apply (proj2 (proj2 (halt_report _ _ _ _ Hh)) Eh).
Qed.

Lemma tick_inv c b c' :
  co_halted_ c = false -> Core_tick c = Some (b, c') ->
  exists c1 c2, Core_evaluate c = Some c1 /\ Core_retire c1 = Some c2 /\
    (ma_stalling_ (co_mem_ c1) = true -> Core_latch_stalled c2 = Some c') /\
    (ma_stalling_ (co_mem_ c1) = false -> Core_latch_all c2 = Some c') /\
    b = negb (co_halted_ c').
Proof using Type.
  unfold Core_tick. intros -> E.
  destruct (Core_evaluate c) as [c1|]; cbn [mbind option_bind] in E; [cbv zeta in E|done].
  destruct (Core_retire c1) as [c2|] eqn:Er; cbn [mbind option_bind] in E; [|done].
  exists c1, c2. split; [done|]. split; [done|].
  destruct (ma_stalling_ (co_mem_ c1)).
  - destruct (Core_latch_stalled c2) as [c3|]; cbn [mbind option_bind] in E; [|done].
    by injection E as <- <-.
  - destruct (Core_latch_all c2) as [c3|]; cbn [mbind option_bind] in E; [|done].
    by injection E as <- <-.
Qed.

(** Every cycle of a running core is a [cycle]. *)
Lemma Core_tick_cycle c b c' :
  quiescent c -> co_halted_ c = false -> Core_tick c = Some (b, c') ->
  cycle c c' /\ b = negb (co_halted_ c').
Proof using Type.
  intros Hq Hh E. destruct (tick_inv c b c' Hh E) as (c1 & c2 & Eev & Ert & Els & Ela & ->).
  split; [|done]. clear E.
  destruct (evaluate_inv c c1 Hq Eev) as (imem & st1 & f & next & id & dmem1 & st2 & dmem2 & wb' &
    served_i & served_d & e & EI & EF & ED & EM & EA & Hex & Hst & Ec1).
  apply retire_inv in Ert as [t Ec2]. clear Eev.
  destruct served_d.
  - assert (El : Core_latch_all c2 = Some c') by (apply Ela; rewrite Hst; reflexivity).
    clear Els Ela. rewrite Ec2, Ec1 in El. clear Ec2 Ec1 Hst.
    exact (cycle_of_full c c' imem st1 f next id dmem1 st2 dmem2 wb' e served_i t
      Hq Hh EI EF ED EM EA Hex El).
  - assert (El : Core_latch_stalled c2 = Some c') by (apply Els; rewrite Hst; reflexivity).
    clear Els Ela. rewrite Ec2, Ec1 in El. clear Ec2 Ec1 Hst.
    injection EA as -> <-. destruct (mem_request (v_ex c)) eqn:Er; [|done].
    exact (cycle_of_stall c c' imem st1 f next id dmem2 st2 e served_i t Hq Hh EI ED Er EM El).
Qed.
End Step.
