(* ===== verification/IsaSpec.v ===== *)
(** * The RV32I machine

    An abstract specification of what a [Core] computes, independent of the
    pipeline: one instruction at a time, on a PC, 32 registers and a data
    memory, with a fixed instruction memory.  Values are given on the
    integers; FENCE and ECALL have no effect, EBREAK and an unrecognised word
    end the program. *)

From S2P Require Import Prelude Isa Regfile Config Memory.

Record arch := mkArch { a_pc : Z; a_regs : RegFile; a_mem : ram }.

(** x0 is the constant zero. *)
Definition xreg (rf : RegFile) (i : Z) : Z :=
  if i =? 0 then 0 else default 0 (regs_ rf !! Z.to_nat i).

Definition set_xreg (rf : RegFile) (i v : Z) : RegFile :=
  if i =? 0 then rf else mkRegFile (<[Z.to_nat i := v]> (regs_ rf)).

(** What an instruction asks for, from its operands. *)
Inductive effect :=
  | Write (v : Z)
  | Load (n : nat) (signed : bool) (addr : Z)
  | Store (n : nat) (addr v : Z)
  | Branch (taken : bool)
  | Jump (target : Z)
  | Nothing.

(** [x] and [y] are the values of rs1 and rs2, unsigned. *)
Definition effect_of (op : Op) (pc imm x y : Z) : effect :=
  let word z := z mod 2 ^ 32 in
  let addr := word (x + imm) in
  match op with
  | ADD => Write (word (x + y))
  | SUB => Write (word (x - y))
  | SLL => Write (word (x * 2 ^ (y mod 32)))
  | SRL => Write (x / 2 ^ (y mod 32))
  | SRA => Write (word (s32 x / 2 ^ (y mod 32)))
  | SLT => Write (Z.b2z (s32 x <? s32 y))
  | SLTU => Write (Z.b2z (x <? y))
  | AND => Write (Z.land x y)
  | OR => Write (Z.lor x y)
  | XOR => Write (Z.lxor x y)
  | ADDI => Write (word (x + imm))
  | SLTI => Write (Z.b2z (s32 x <? imm))
  | SLTIU => Write (Z.b2z (x <? word imm))
  | ANDI => Write (Z.land x (word imm))
  | ORI => Write (Z.lor x (word imm))
  | XORI => Write (Z.lxor x (word imm))
  | SLLI => Write (word (x * 2 ^ (imm mod 32)))
  | SRLI => Write (x / 2 ^ (imm mod 32))
  | SRAI => Write (word (s32 x / 2 ^ (imm mod 32)))
  | LUI => Write (word imm)
  | AUIPC => Write (word (pc + imm))
  | LB => Load 1 true addr
  | LH => Load 2 true addr
  | LW => Load 4 false addr
  | LBU => Load 1 false addr
  | LHU => Load 2 false addr
  | SB => Store 1 addr y
  | SH => Store 2 addr y
  | SW => Store 4 addr y
  | BEQ => Branch (x =? y)
  | BNE => Branch (negb (x =? y))
  | BLT => Branch (s32 x <? s32 y)
  | BGE => Branch (s32 y <=? s32 x)
  | BLTU => Branch (x <? y)
  | BGEU => Branch (y <=? x)
  | JAL => Jump (word (pc + imm))
  | JALR => Jump (addr / 2 * 2)
  | FENCE | ECALL | EBREAK | ILLEGAL => Nothing
  end.

(** What the execution of an instruction shows: the register it wrote, the
    address it read, the address and value it stored. *)
Record commit := mkCommit {
  k_pc : Z;
  k_raw : Z;
  k_op : Op;
  k_reg : option (Z * Z);
  k_load : option Z;
  k_store : option (Z * Z);
}.

Definition is_halt (op : Op) : bool := match op with EBREAK | ILLEGAL => true | _ => false end.

(** Instruction [op rd, x, y, imm], encoded as [raw], in state [s].
    [None]: an access outside the memory. *)
Definition isa_perform (s : arch) (raw : Z) (op : Op) (rd imm x y : Z) : option (commit * arch) :=
  let next := (a_pc s + 4) mod 2 ^ 32 in
  let dest v := if rd =? 0 then None else Some (rd, v) in
  let set v := set_xreg (a_regs s) rd v in
  let done := mkCommit (a_pc s) raw op in
  match effect_of op (a_pc s) imm x y with
  | Write v => Some (done (dest v) None None, mkArch next (set v) (a_mem s))
  | Load n signed a =>
      u ← ram_load n (a_mem s) a;
      let v := if signed : bool then to_signed (8 * Z.of_nat n) u mod 2 ^ 32 else u in
      Some (done (dest v) (Some a) None, mkArch next (set v) (a_mem s))
  | Store n a v =>
      m ← ram_store n (a_mem s) a v;
      Some (done None None (Some (a, v mod 2 ^ (8 * Z.of_nat n))), mkArch next (a_regs s) m)
  | Branch taken =>
      Some (done None None None,
            mkArch (if taken then (a_pc s + imm) mod 2 ^ 32 else next) (a_regs s) (a_mem s))
  | Jump target => Some (done (dest next) None None, mkArch target (set next) (a_mem s))
  | Nothing => Some (done None None None, mkArch next (a_regs s) (a_mem s))
  end.

Definition isa_step (imem : ram) (s : arch) : option (commit * arch) :=
  raw ← ram_load 4 imem (a_pc s);
  let i := decode raw (a_pc s) in
  isa_perform s raw (i_op i) (i_rd i) (i_imm i)
    (xreg (a_regs s) (i_rs1 i)) (xreg (a_regs s) (i_rs2 i)).

(** [n] instructions; the program ends with the first one that halts, so a
    longer run does not exist. *)
Fixpoint isa_steps (imem : ram) (n : nat) (s : arch) : option (list commit * arch) :=
  match n with
  | O => Some ([], s)
  | S n =>
      '(k, s) ← isa_step imem s;
      if is_halt (k_op k) && negb (Nat.eqb n 0) then None
      else '(ks, s) ← isa_steps imem n s; Some (k :: ks, s)
  end.

(** Every PC of a run is a multiple of four. *)
Definition aligned_run (imem : ram) (s : arch) : Prop :=
  forall n ks s', isa_steps imem n s = Some (ks, s') -> a_pc s' mod 4 = 0.

(** A check for programs that halt within [fuel] instructions. *)
Fixpoint aligned_check (imem : ram) (fuel : nat) (s : arch) : bool :=
  match fuel with
  | O => false
  | S fuel =>
      (a_pc s mod 4 =? 0) &&
      match isa_step imem s with
      | Some (k, s') => if is_halt (k_op k) then a_pc s' mod 4 =? 0 else aligned_check imem fuel s'
      | None => true
      end
  end.

Lemma aligned_check_sound imem fuel s : aligned_check imem fuel s = true -> aligned_run imem s.
Proof.
  revert s. induction fuel as [|fuel IH]; intros s E; [done|]. cbn [aligned_check] in E.
  apply andb_true_iff in E as [Ea E]. apply Z.eqb_eq in Ea.
  intros [|n] ks s' Es; cbn [isa_steps] in Es; [by injection Es as <- <-|].
  destruct (isa_step imem s) as [[k s1]|]; cbn [mbind option_bind] in Es; [|done].
  destruct (is_halt (k_op k)); cbn [andb] in Es.
  - destruct (Nat.eqb_spec n 0) as [->|]; [|done]. cbn in Es. injection Es as _ <-. by apply Z.eqb_eq.
  - destruct (isa_steps imem n s1) as [[ks1 s2]|] eqn:E1; cbn [mbind option_bind] in Es; [|done].
    injection Es as _ <-. by apply (IH s1 E n ks1).
Qed.

(** ** Programs the simulator can run

    The pipeline fetches past branches and past the end of the program, and
    the simulator aborts on an access outside its memory.  A program is safe
    when none of its instructions makes such an access, the words behind it
    that can be fetched exist, and the word behind its last instruction, which
    is executed, does no harm. *)

(** Four words behind [pc] can be in the pipeline with the one at [pc]. *)
Definition room (imem : ram) (pc : Z) : Prop :=
  forall j, 0 <= j <= 4 -> is_Some (ram_load 4 imem ((pc + 4 * j) mod 2 ^ 32)).

Definition is_direct (op : Op) : bool :=
  match op with BEQ | BNE | BLT | BGE | BLTU | BGEU | JAL => true | _ => false end.

Definition inert (op : Op) : bool :=
  match op with
  | LB | LH | LW | LBU | LHU | SB | SH | SW | JALR => false
  | _ => negb (is_direct op)
  end.

(** With a predictor, branch targets are fetched before the branch is taken. *)
Record safe_at (imem : ram) (predicts : Prop) (s : arch) : Prop := mkSafeAt {
  sf_step : is_Some (isa_step imem s);
  sf_room : room imem (a_pc s);
  sf_target raw : predicts -> ram_load 4 imem (a_pc s) = Some raw ->
    let i := decode raw (a_pc s) in
    is_direct (i_op i) = true -> room imem ((a_pc s + i_imm i) mod 2 ^ 32);
  sf_shadow raw raw' : ram_load 4 imem (a_pc s) = Some raw -> is_halt (i_op (decode raw (a_pc s))) = true ->
    let pc' := (a_pc s + 4) mod 2 ^ 32 in
    ram_load 4 imem pc' = Some raw' -> inert (i_op (decode raw' pc')) = true;
}.

(** The states before the end of the program. *)
Definition on_path (imem : ram) (s0 s : arch) : Prop :=
  exists ks, isa_steps imem (length ks) s0 = Some (ks, s) /\
    Forall (fun k => is_halt (k_op k) = false) ks.

Definition safe_program (imem : ram) (predicts : Prop) (s0 : arch) : Prop :=
  forall s, on_path imem s0 s -> safe_at imem predicts s.

(** The [n]-th instruction ends the program. *)
Definition isa_halts (imem : ram) (s0 : arch) (n : nat) : Prop :=
  exists ks k s, isa_steps imem n s0 = Some (ks ++ [k], s) /\
    Forall (fun k => is_halt (k_op k) = false) ks /\ is_halt (k_op k) = true.

(** A check for programs that halt within [fuel] instructions. *)
Definition room_check (imem : ram) (pc : Z) : bool :=
  forallb (fun j => bool_decide (is_Some (ram_load 4 imem ((pc + 4 * j) mod 2 ^ 32)))) [0; 1; 2; 3; 4].

Definition safe_at_check (imem : ram) (predicts : bool) (s : arch) : bool :=
  room_check imem (a_pc s) &&
  match ram_load 4 imem (a_pc s) with
  | None => true
  | Some raw =>
      let i := decode raw (a_pc s) in
      (negb (predicts && is_direct (i_op i)) || room_check imem ((a_pc s + i_imm i) mod 2 ^ 32)) &&
      (negb (is_halt (i_op i)) ||
       match ram_load 4 imem ((a_pc s + 4) mod 2 ^ 32) with
       | Some raw' => inert (i_op (decode raw' ((a_pc s + 4) mod 2 ^ 32)))
       | None => true
       end)
  end.

Fixpoint safe_check (imem : ram) (predicts : bool) (fuel : nat) (s : arch) : bool :=
  match fuel with
  | O => false
  | S fuel =>
      safe_at_check imem predicts s &&
      match isa_step imem s with
      | Some (k, s') => is_halt (k_op k) || safe_check imem predicts fuel s'
      | None => false
      end
  end.

Lemma room_check_sound imem pc : room_check imem pc = true -> room imem pc.
Proof.
  unfold room_check. intros E j Hj. rewrite forallb_forall in E.
  refine (bool_decide_eq_true_1 _ (E j _)).
  assert (j = 0 \/ j = 1 \/ j = 2 \/ j = 3 \/ j = 4) as Hx by lia. cbn. intuition.
Qed.

Lemma safe_at_check_sound imem (predicts : bool) s :
  safe_at_check imem predicts s = true -> is_Some (isa_step imem s) -> safe_at imem (predicts = true) s.
Proof.
  intros E Hs. apply andb_true_iff in E as [Er E]. constructor; [done|by apply room_check_sound|..].
  - intros raw -> Hraw i Hi. rewrite Hraw in E. apply andb_true_iff in E as [E _].
    fold i in E. rewrite Hi in E. by apply room_check_sound.
  - intros raw raw' Hraw Hh pc' Hraw'. rewrite Hraw in E. apply andb_true_iff in E as [_ E].
    rewrite Hh in E. cbn [negb orb] in E. fold pc' in E. by rewrite Hraw' in E.
Qed.

Lemma safe_program_weaken imem (P Q : Prop) s0 : (Q -> P) -> safe_program imem P s0 -> safe_program imem Q s0.
Proof.
  intros HPQ Hs s Hp. destruct (Hs s Hp) as [? ? Ht ?]. constructor; try done.
  intros raw HQ. by apply Ht, HPQ.
Qed.

Lemma on_path_inv imem s0 s :
  on_path imem s0 s ->
  s = s0 \/ exists k s1, isa_step imem s0 = Some (k, s1) /\ is_halt (k_op k) = false /\ on_path imem s1 s.
Proof.
  intros (ks & E & Hf). destruct ks as [|k ks]; [left; by injection E|right].
  cbn [length isa_steps] in E. destruct (isa_step imem s0) as [[k0 s1]|]; cbn [mbind option_bind] in E; [|done].
  destruct (_ && _); [done|].
  destruct (isa_steps imem (length ks) s1) as [[ks1 s2]|] eqn:E1; cbn [mbind option_bind] in E; [|done].
  injection E as -> -> ->. apply Forall_cons in Hf as [Hk Hf]. exists k, s1. split_and!; try done. by exists ks.
Qed.

Lemma safe_check_sound imem predicts fuel s :
  safe_check imem predicts fuel s = true -> safe_program imem (predicts = true) s.
Proof.
  revert s. induction fuel as [|fuel IH]; intros s E s' Hp; [done|]. cbn [safe_check] in E.
  apply andb_true_iff in E as [Ea E].
  destruct (isa_step imem s) as [[k s1]|] eqn:Es; [|done].
  apply on_path_inv in Hp as [->|(k' & s1' & Es' & Hk & Hp)].
  - apply safe_at_check_sound; [done|]. by rewrite Es.
  - rewrite Es in Es'. injection Es' as <- <-. rewrite Hk in E. by apply (IH s1).
Qed.

(** Every run is a prefix of the run that halts. *)
Lemma halts_before imem n s0 ks s :
  isa_halts imem s0 n -> isa_steps imem (length ks) s0 = Some (ks, s) ->
  Forall (fun k => is_halt (k_op k) = false) ks -> (length ks < n)%nat.
Proof.
  intros (ls & k & s' & E & Hf & Hk). revert n s0 ks E. induction ls as [|l ls IH]; intros n s0 ks E E2 Hf2.
  - destruct n as [|n]; [done|]. destruct ks as [|k2 ks]; cbn [length isa_steps] in *; [lia|].
    destruct (isa_step imem s0) as [[k0 s1]|]; cbn [mbind option_bind] in *; [|done].
    destruct (is_halt (k_op k0) && negb (n =? 0)%nat); [done|].
    destruct (isa_steps imem n s1) as [[? ?]|]; cbn [mbind option_bind] in *; [|done].
    injection E as -> _ _. rewrite Hk in E2.
    destruct (_ && _); [done|]. destruct (isa_steps imem (length ks) s1) as [[? ?]|];
      cbn [mbind option_bind] in E2; [|done]. injection E2 as <- _ _.
    apply Forall_cons in Hf2 as [? _]. congruence.
  - destruct n as [|n]; [done|]. destruct ks as [|k2 ks]; cbn [length isa_steps] in *; [lia|].
    destruct (isa_step imem s0) as [[k0 s1]|]; cbn [mbind option_bind] in *; [|done].
    destruct (is_halt (k_op k0) && negb (n =? 0)%nat); [done|].
    destruct (isa_steps imem n s1) as [[l1 t1]|] eqn:E1; cbn [mbind option_bind] in *; [|done].
    injection E as -> -> ->. destruct (_ && _); [done|].
    destruct (isa_steps imem (length ks) s1) as [[l2 t2]|] eqn:E3; cbn [mbind option_bind] in E2; [|done].
    injection E2 as _ -> ->. apply Forall_cons in Hf as [_ Hf], Hf2 as [_ Hf2].
    specialize (IH Hf n s1 ks E1 E3 Hf2). lia.
Qed.

Lemma isa_steps_snoc imem n s ks s1 k s2 :
  isa_steps imem n s = Some (ks, s1) -> Forall (fun k => is_halt (k_op k) = false) ks ->
  isa_step imem s1 = Some (k, s2) -> isa_steps imem (S n) s = Some (ks ++ [k], s2).
Proof.
  revert s ks. induction n as [|n IH]; intros s ks E Hf Ek.
  - injection E as <- <-. cbn. rewrite Ek. cbn. by rewrite andb_false_r.
  - remember (S n) as m. cbn [isa_steps]. subst m. cbn [isa_steps] in E.
    destruct (isa_step imem s) as [[k0 s0]|]; cbn [mbind option_bind] in *; [|done].
    destruct (is_halt (k_op k0) && negb (n =? 0)%nat); [done|].
    destruct (isa_steps imem n s0) as [[ks0 s1']|] eqn:E0; cbn [mbind option_bind] in E; [|done].
    injection E as <- <-. apply Forall_cons in Hf as [Hk Hf]. rewrite Hk. cbn [andb].
    by rewrite (IH _ _ E0 Hf Ek).
Qed.

Lemma isa_steps_length imem n s ks s' : isa_steps imem n s = Some (ks, s') -> length ks = n.
Proof.
  revert s ks. induction n as [|n IH]; intros s ks E; cbn [isa_steps] in E; [by injection E as <- <-|].
  destruct (isa_step imem s) as [[k0 s0]|]; cbn [mbind option_bind] in *; [|done].
  destruct (is_halt (k_op k0) && negb (n =? 0)%nat); [done|].
  destruct (isa_steps imem n s0) as [[ks0 s1']|] eqn:E0; cbn [mbind option_bind] in E; [|done].
  injection E as <- <-. cbn. by rewrite (IH _ _ E0).
Qed.

(** What an instruction shows of itself. *)
Lemma isa_step_shows imem s k s' :
  isa_step imem s = Some (k, s') ->
  exists raw, ram_load 4 imem (a_pc s) = Some raw /\ k_pc k = a_pc s /\ k_raw k = raw /\
    k_op k = i_op (decode raw (a_pc s)).
Proof.
  unfold isa_step, isa_perform. intros E.
  destruct (ram_load 4 imem (a_pc s)) as [raw|]; cbn [mbind option_bind] in E; [|done].
  exists raw. cbv zeta in E. generalize dependent (decode raw (a_pc s)). intros i E.
  destruct (effect_of _ _ _ _ _);
    try (match type of E with mbind _ ?m = _ => destruct m; cbn [mbind option_bind] in E; [|done] end);
    by injection E as <- <-.
Qed.

(** The last step of a run. *)
Lemma isa_steps_unsnoc imem n s ks k s' :
  isa_steps imem n s = Some (ks ++ [k], s') ->
  Forall (fun k => is_halt (k_op k) = false) ks ->
  exists s1, isa_steps imem (length ks) s = Some (ks, s1) /\ isa_step imem s1 = Some (k, s').
Proof.
  intros E Hf. revert n s E. induction ks as [|k0 ks IH]; intros n s E;
    (destruct n as [|n]; [apply isa_steps_length in E; rewrite ?length_app in E; cbn in E; lia|]);
    cbn [isa_steps] in E;
    destruct (isa_step imem s) as [[k1 s1]|] eqn:E1; cbn [mbind option_bind] in E; try done;
    destruct (is_halt (k_op k1) && negb (n =? 0)%nat) eqn:Eg; try done;
    destruct (isa_steps imem n s1) as [[ls t]|] eqn:E2; cbn [mbind option_bind] in E; try done;
    injection E as -> El <-.
  - subst ls. pose proof (isa_steps_length _ _ _ _ _ E2) as Hn. cbn in Hn. subst n.
    injection E2 as <-. exists s. by split.
  - subst ls. apply Forall_cons in Hf as [Hk0 Hf]. destruct (IH Hf n s1 E2) as (s2 & E3 & E4).
    exists s2. cbn [length isa_steps]. rewrite E1. cbn [mbind option_bind]. rewrite Hk0. cbn [andb].
    rewrite E3. by split.
Qed.

(** ** Register access *)

Section Registers.
Context (rf : RegFile) (Hwf : RegFile_wf rf).

Lemma xreg_read i : 0 <= i < 32 -> RegFile_read rf i = Some (xreg rf i).
Proof using Hwf.
  intros Hi. destruct (RegFile_read_Some rf Hwf i Hi) as (v & E & _). rewrite E. f_equal.
  unfold RegFile_read, assert_, kNumRegs in E. destruct (Z.ltb_spec i 32); [cbn in E|lia].
  unfold xreg. destruct (Z.eqb_spec i 0) as [->|].
  - pose proof (wf_x0 _ Hwf). congruence.
  - unfold vget in E. destruct (Z.ltb_spec i 0); [lia|]. by rewrite E.
Qed.

Lemma xreg_u32 i : 0 <= i < 32 -> is_u32 (xreg rf i).
Proof using Hwf.
  intros Hi. destruct (RegFile_read_Some rf Hwf i Hi) as (v & E & Hv).
  rewrite xreg_read in E by done. by injection E as ->.
Qed.

Lemma set_xreg_write i v : 0 <= i < 32 -> RegFile_write rf i v = Some (set_xreg rf i v).
Proof using Hwf.
  intros Hi. unfold RegFile_write, assert_, kNumRegs, set_xreg.
  destruct (Z.ltb_spec i 32); [cbn|lia]. destruct (Z.eqb_spec i 0); [done|].
  rewrite vset_Some; [done|]. rewrite (wf_len _ Hwf). lia.
Qed.

Lemma set_xreg_wf i v : 0 <= i < 32 -> is_u32 v -> RegFile_wf (set_xreg rf i v).
Proof using Hwf.
  intros Hi Hv. destruct (RegFile_write_Some rf Hwf i v Hi Hv) as (rf' & E & ? & _).
  rewrite set_xreg_write in E by done. by injection E as ->.
Qed.

Lemma xreg_set i v j :
  0 <= i < 32 -> 0 <= j < 32 ->
  xreg (set_xreg rf i v) j = if (i =? j) && negb (j =? 0) then v else xreg rf j.
Proof using Hwf.
  intros Hi Hj. unfold xreg, set_xreg. destruct (Z.eqb_spec j 0) as [->|]; [by rewrite andb_false_r|].
  rewrite andb_true_r. destruct (Z.eqb_spec i 0); [destruct (Z.eqb_spec i j); [lia|done]|].
  cbn. destruct (Z.eqb_spec i j) as [->|].
  - rewrite list_lookup_insert_eq; [done|]. rewrite (wf_len _ Hwf). lia.
  - by rewrite list_lookup_insert_ne by lia.
Qed.
End Registers.
