(* ===== verification/Serial.v ===== *)
(** * One instruction at a time through the stages

    The composition of the stage functions without any overlap: fetch, decode,
    execute, access, write back, then the next instruction.  It is the RV32I
    machine of [IsaSpec]; the pipeline is compared with it. *)

From S2P Require Import Prelude Isa Formats DecoderSpec Alu Regfile Config Pipe Memory.
From S2P Require Import BranchPredictor Stages Tracer Core CoreStep IsaSpec.

(** ** The ideal memory: a byte array that is always ready *)

#[export] Instance ram_IMemory : IMemory ram := {
  load_word := ram_load 4;
  load_half := ram_load 2;
  load_byte := ram_load 1;
  store_word := ram_store 4;
  store_half := ram_store 2;
  store_byte := ram_store 1;
  ready r st _ _ := Some (true, r, st);
  tick r st := Some (r, st);
}.

#[export] Instance ram_laws : MemoryLaws ram.
Proof.
  refine {| mem_inv := ram_wf; mem_ram r := r |}; try done.
  - intros m a v _ _. cbn. by destruct (ram_store 4 m a v).
  - intros m a v _ _. cbn. by destruct (ram_store 2 m a v).
  - intros m a v _ _ _. cbn. by destruct (ram_store 1 m a v).
  - intros m a v m' Hm _ [E|[E|[_ E]]]; exact (ram_store_wf m Hm _ _ _ _ E).
  - intros m st a w Hm _. by exists true, m, st.
  - intros m st Hm. by exists m, st.
Defined.

(** The served access depends on the memory through its bytes only. *)
Lemma mem_perform_ok {M} `{MemoryLaws M} (m : M) ex :
  mem_inv m -> is_u32 (em_alu_out ex) ->
  match mem_perform m ex with
  | Some (m', wb) => mem_perform (mem_ram m) ex = Some (mem_ram m', wb) /\ mem_inv m'
  | None => mem_perform (mem_ram m) ex = None
  end.
Proof.
  intros Hm Ha.
  assert (H8 : is_u8 (Z.land (em_rs2_val ex) 0xff)).
  { rewrite (land_mask _ 8) by (lia || reflexivity). apply u8_range. }
  assert (Hs : forall (r : option M) (r' : option ram) (wb : MemWb),
    mem_ram <$> r = r' -> (forall m', r = Some m' -> mem_inv m') ->
    match (m ← r; Some (m, wb)) with
    | Some (m', wb') => (m ← r'; Some (m, wb)) = Some (mem_ram m', wb') /\ mem_inv m'
    | None => (m ← r'; Some (m, wb)) = None
    end).
  { intros r r' wb <- Hi. destruct r as [m'|]; cbn; [|done]. split; [done|by apply Hi]. }
  unfold mem_perform.
  destruct (em_op ex); cbn [load_word load_half load_byte store_word store_half store_byte ram_IMemory];
    rewrite ?load_word_ram, ?load_half_ram, ?load_byte_ram by done;
    try (match goal with |- context [ram_load ?n ?r ?a] => destruct (ram_load n r a) end;
         cbn [mbind option_bind]; by try split);
    try (split; done); apply Hs;
    rewrite ?store_word_ram, ?store_half_ram, ?store_byte_ram by done; try done;
    intros m' E; eapply store_inv; eauto.
Qed.

(** ** The composition *)

(** The payloads of the instruction [raw] in state [s]. *)
Definition in_decode (s : arch) (raw : Z) (predicted : bool) : IdEx :=
  let i := decode raw (a_pc s) in
  mkIdEx (a_pc s) raw (i_op i) (i_rd i) (i_rs1 i) (i_rs2 i) (i_imm i)
    (xreg (a_regs s) (i_rs1 i)) (xreg (a_regs s) (i_rs2 i)) true predicted.

Definition in_execute (s : arch) (raw : Z) : ExMem :=
  let id := in_decode s raw false in
  (execute false id (ie_rs1_val id) (ie_rs2_val id)).2.

Definition next_pc (s : arch) (ex : ExMem) : Z :=
  if em_branch_taken ex then em_branch_target ex else u32 (a_pc s + 4).

(** MEM, WB and the PC after EX computed [ex]. *)
Definition serial_from (s : arch) (ex : ExMem) : option (MemWb * arch) :=
  '(mem, wb) ← mem_perform (a_mem s) ex;
  rf ← written (a_regs s) wb;
  Some (wb, mkArch (next_pc s ex) rf mem).

Definition serial_step (imem : ram) (s : arch) : option (MemWb * arch) :=
  raw ← ram_load 4 imem (a_pc s); serial_from s (in_execute s raw).

Lemma serial_from_parts s ex wb s' :
  serial_from s ex = Some (wb, s') ->
  mem_perform (a_mem s) ex = Some (a_mem s', wb) /\
  written (a_regs s) wb = Some (a_regs s') /\ a_pc s' = next_pc s ex.
Proof.
  intros ([m w] & Em & E)%bind_Some. apply bind_Some in E as (rf & Ew & E).
  apply Some_inj, pair_equal_spec in E as [<- <-].
  split; [exact Em|]. split; [exact Ew|exact eq_refl].
Qed.

Lemma serial_step_parts imem s wb s' :
  serial_step imem s = Some (wb, s') ->
  exists raw, ram_load 4 imem (a_pc s) = Some raw /\
    mem_perform (a_mem s) (in_execute s raw) = Some (a_mem s', wb) /\
    written (a_regs s) wb = Some (a_regs s') /\ a_pc s' = next_pc s (in_execute s raw).
Proof.
  intros (raw & Hraw & E)%bind_Some. exists raw. split; [exact Hraw|].
  exact (serial_from_parts _ _ _ _ E).
Qed.

(** What a retiring payload shows. *)
Definition commit_of (wb : MemWb) : commit :=
  mkCommit (mw_pc wb) (mw_raw wb) (mw_op wb)
    (if has_writeback (mw_op wb) && negb (mw_rd wb =? 0) then Some (mw_rd wb, mw_wb_val wb) else None)
    (if is_load (mw_op wb) then Some (mw_mem_addr wb) else None)
    (if mw_is_store wb then Some (mw_mem_addr wb, mw_mem_val wb) else None).

(** ** The machine of the specification *)

Lemma shift_amount b : Z.land b 0x1f = b mod 32.
Proof. by rewrite (land_mask _ 5) by (lia || reflexivity). Qed.

Lemma u32_shift_amount b : u32 b mod 32 = b mod 32.
Proof. unfold u32. zdm. Qed.

Lemma clear_bit0 a : is_u32 a -> Z.land a 0xfffffffe = a / 2 * 2.
Proof.
  intros Ha. change 0xfffffffe with (Z.ones 0 + Z.ones 31 * 2 ^ 1).
  rewrite land_low_high, Z.land_ones by lia. unfold is_u32 in Ha. zdm.
Qed.

Lemma b2z_if (b : bool) : (if b then 1 else 0) = Z.b2z b.
Proof. by destruct b. Qed.

Lemma le_bytes_mod n v : le_bytes n (v mod 2 ^ (8 * Z.of_nat n)) = le_bytes n v.
Proof.
  revert v. induction n as [|n IH]; intros v; [done|]. cbn [le_bytes].
  replace (8 * Z.of_nat (S n)) with (8 + 8 * Z.of_nat n) by lia.
  rewrite Z.pow_add_r, Z.rem_mul_r by lia. f_equal.
  - rewrite (Z.mul_comm (2 ^ 8)), Z.mod_add, Z.mod_mod by lia. done.
  - rewrite (Z.mul_comm (2 ^ 8)), Z.div_add, (Z.div_small (v mod 2 ^ 8)) by (try apply Z.mod_pos_bound; lia).
    by rewrite Z.add_0_l, IH.
Qed.

Lemma ram_store_mod n r a v : ram_store n r a (v mod 2 ^ (8 * Z.of_nat n)) = ram_store n r a v.
Proof. unfold ram_store. by rewrite le_bytes_mod. Qed.

(** EX computes the effect of the instruction. *)
Lemma execute_effect id x y :
  is_u32 x -> is_u32 y -> is_s32 (ie_imm id) ->
  let ex := (execute false id x y).2 in
  match effect_of (ie_op id) (ie_pc id) (ie_imm id) x y with
  | Write v => em_alu_out ex = v /\ em_branch_taken ex = false
  | Load _ _ a => em_alu_out ex = a /\ em_branch_taken ex = false
  | Store _ a v => em_alu_out ex = a /\ em_rs2_val ex = v /\ em_branch_taken ex = false
  | Branch taken => em_branch_taken ex = taken /\ em_branch_target ex = (ie_pc id + ie_imm id) mod 2 ^ 32
  | Jump target => em_branch_taken ex = true /\ em_branch_target ex = target /\
      em_alu_out ex = (ie_pc id + 4) mod 2 ^ 32
  | Nothing => em_branch_taken ex = false
  end.
Proof.
  intros Hx Hy Hi. assert (Hs : s32 (u32 (ie_imm id)) = ie_imm id).
  { rewrite s32_u32. by apply s32_id. }
  assert (Hsr : forall a, Z.shiftr a (Z.land y 0x1f) = a / 2 ^ (y mod 32)).
  { intros a. rewrite shift_amount, Z.shiftr_div_pow2; [done|]. apply Z.mod_pos_bound. lia. }
  assert (Hsl : forall a, Z.shiftl a (Z.land y 0x1f) = a * 2 ^ (y mod 32)).
  { intros a. rewrite shift_amount, Z.shiftl_mul_pow2; [done|]. apply Z.mod_pos_bound. lia. }
  assert (Hir : forall a, Z.shiftr a (Z.land (u32 (ie_imm id)) 0x1f) = a / 2 ^ (ie_imm id mod 32)).
  { intros a. rewrite shift_amount, u32_shift_amount, Z.shiftr_div_pow2; [done|]. apply Z.mod_pos_bound. lia. }
  assert (Hil : forall a, Z.shiftl a (Z.land (u32 (ie_imm id)) 0x1f) = a * 2 ^ (ie_imm id mod 32)).
  { intros a. rewrite shift_amount, u32_shift_amount, Z.shiftl_mul_pow2; [done|]. apply Z.mod_pos_bound. lia. }
  unfold execute. destruct id as [pc raw op rd r1 r2 imm v1 v2 valid pred]. cbn [ie_op ie_imm ie_pc ie_raw ie_rd] in *.
  destruct op; cbn [effect_of op_eqb uses_imm alu_op_for alu_exec is_cond_branch branch_taken orb
    em_alu_out em_branch_taken em_branch_target em_rs2_val snd];
    rewrite ?Hs, ?Hsr, ?Hsl, ?Hir, ?Hil, ?b2z_if, ?u32_add_r; try (split_and!; reflexivity); try reflexivity.
  split_and!; [done| |done]. apply clear_bit0, u32_range.
Qed.

Lemma execute_fields bpe id x y :
  let ex := (execute bpe id x y).2 in
  em_pc ex = ie_pc id /\ em_raw ex = ie_raw id /\ em_op ex = ie_op id /\ em_rd ex = ie_rd id /\
  em_rs2_val ex = y /\ em_valid ex = true.
Proof. unfold execute. by destruct (_ || _). Qed.

(** The stages agree with the effect classes on memory and write-back. *)
Lemma mem_perform_effect (m : ram) ex pc imm x y :
  is_u32 (em_rs2_val ex) ->
  match effect_of (em_op ex) pc imm x y with
  | Load n signed a => is_load (em_op ex) = true /\
      mem_perform m ex = (u ← ram_load n m (em_alu_out ex);
        Some (m, wb_load ex (if signed : bool then u32 (to_signed (8 * Z.of_nat n) u) else u)))
  | Store n a v => is_load (em_op ex) = false /\
      mem_perform m ex = (let v := em_rs2_val ex mod 2 ^ (8 * Z.of_nat n) in
        m ← ram_store n m (em_alu_out ex) (em_rs2_val ex); Some (m, wb_store ex v))
  | _ => is_load (em_op ex) = false /\
      mem_perform m ex =
        Some (m, mkMemWb (em_pc ex) (em_raw ex) (em_op ex) (em_rd ex) (em_alu_out ex) 0 0 false true)
  end.
Proof.
  intros Hv. unfold mem_perform.
  destruct (em_op ex); cbn [effect_of]; (split; [done|]); try done;
    cbn [store_word store_half store_byte ram_IMemory]; cbv zeta.
  - rewrite (land_mask _ 8 0xff) by (lia || reflexivity). by rewrite <- (ram_store_mod 1 m _ (em_rs2_val ex)).
  - rewrite (land_mask _ 16 0xffff) by (lia || reflexivity). by rewrite <- (ram_store_mod 2 m _ (em_rs2_val ex)).
  - by rewrite Z.mod_small by exact Hv.
Qed.

Lemma has_writeback_effect op pc imm x y :
  has_writeback op =
    match effect_of op pc imm x y with Write _ | Load _ _ _ | Jump _ => true | _ => false end.
Proof. by destruct op. Qed.

(** MEM, WB and the next PC, for any EX/MEM payload that carries the effect. *)
Lemma perform_effect s op rd imm x y ex :
  RegFile_wf (a_regs s) -> 0 <= rd < 32 -> is_u32 y ->
  match effect_of op (a_pc s) imm x y with
  | Write v => em_alu_out ex = v /\ em_branch_taken ex = false
  | Load _ _ a => em_alu_out ex = a /\ em_branch_taken ex = false
  | Store _ a v => em_alu_out ex = a /\ em_rs2_val ex = v /\ em_branch_taken ex = false
  | Branch taken => em_branch_taken ex = taken /\ em_branch_target ex = (a_pc s + imm) mod 2 ^ 32
  | Jump target => em_branch_taken ex = true /\ em_branch_target ex = target /\
      em_alu_out ex = (a_pc s + 4) mod 2 ^ 32
  | Nothing => em_branch_taken ex = false
  end ->
  em_pc ex = a_pc s -> em_op ex = op -> em_rd ex = rd -> em_rs2_val ex = y ->
  isa_perform s (em_raw ex) op rd imm x y =
    ('(mem, wb) ← mem_perform (a_mem s) ex;
     rf ← written (a_regs s) wb;
     Some (commit_of wb, mkArch (next_pc s ex) rf mem)).
Proof.
  intros Hr Hd Hy He F1 F3 F4 F5.
  assert (Hm := mem_perform_effect (a_mem s) ex (a_pc s) imm x y ltac:(by rewrite F5)).
  assert (HR : forall v, RegFile_write (a_regs s) rd v = Some (set_xreg (a_regs s) rd v))
    by (intros v; by apply set_xreg_write).
  pose proof (has_writeback_effect op (a_pc s) imm x y) as Hw.
  unfold isa_perform, next_pc, written, commit_of, wb_load, wb_store in *. cbv zeta in *. rewrite F3 in Hm.
  destruct (effect_of _ _ _ _ _); destruct_and?;
    match goal with E : mem_perform _ _ = _ |- _ => rewrite E end; simplify_eq;
    repeat match goal with
      | |- context [ram_load ?n ?m ?a] => destruct (ram_load n m a); cbn [mbind option_bind]
      | |- context [ram_store ?n ?m ?a ?v] => destruct (ram_store n m a v); cbn [mbind option_bind]
      end; try done;
    repeat (progress (cbn [mbind option_bind andb mw_valid mw_op mw_rd mw_wb_val mw_pc mw_raw
      mw_mem_addr mw_mem_val mw_is_store]; rewrite ?F1, ?F3, ?F4, ?F5, ?Hw, ?HR));
    repeat match goal with E : is_load _ = _ |- _ => rewrite E; clear E
      | E : em_branch_taken _ = _ |- _ => rewrite E; clear E
      | E : em_branch_target _ = _ |- _ => rewrite E; clear E
      | E : em_alu_out _ = _ |- _ => rewrite E; clear E end; try reflexivity;
    try (destruct (em_rd _ =? 0); reflexivity).
Qed.

Lemma serial_from_commit s ex :
  ('(wb, s') ← serial_from s ex; Some (commit_of wb, s')) =
  ('(mem, wb) ← mem_perform (a_mem s) ex; rf ← written (a_regs s) wb;
   Some (commit_of wb, mkArch (next_pc s ex) rf mem)).
Proof.
  unfold serial_from. destruct (mem_perform _ _) as [[m wb]|]; [|done]. cbn.
  by destruct (written (a_regs s) wb).
Qed.

(** The composition of the stages is the RV32I step. *)
Lemma serial_step_spec imem s :
  ram_wf imem -> RegFile_wf (a_regs s) ->
  isa_step imem s = ('(wb, s') ← serial_step imem s; Some (commit_of wb, s')).
Proof.
  intros Hi Hr. unfold isa_step. destruct (ram_load 4 imem (a_pc s)) as [raw|] eqn:El.
  - unfold serial_step. rewrite El. cbn [mbind option_bind].
    rewrite serial_from_commit. cbv zeta.
    pose proof (ram_load_range _ Hi _ _ _ El) as Hraw.
    destruct (decode_post_ok raw (a_pc s) Hraw) as (_ & _ & (Hd & H1 & H2 & Himm) & _).
    pose proof (execute_effect (in_decode s raw false) _ _ (xreg_u32 _ Hr _ H1) (xreg_u32 _ Hr _ H2) Himm) as He.
    destruct (execute_fields false (in_decode s raw false) (xreg (a_regs s) (i_rs1 (decode raw (a_pc s))))
      (xreg (a_regs s) (i_rs2 (decode raw (a_pc s))))) as (F1 & F2 & F3 & F4 & F5 & _).
    change (in_execute s raw) with (execute false (in_decode s raw false)
      (xreg (a_regs s) (i_rs1 (decode raw (a_pc s)))) (xreg (a_regs s) (i_rs2 (decode raw (a_pc s))))).2.
    cbn [in_decode ie_op ie_pc ie_raw ie_rd ie_imm] in He, F1, F2, F3, F4.
    cbv zeta in *. revert He F1 F2 F3 F4 F5. generalize (execute false (in_decode s raw false)
      (xreg (a_regs s) (i_rs1 (decode raw (a_pc s)))) (xreg (a_regs s) (i_rs2 (decode raw (a_pc s))))).2 as ex.
    intros ex He F1 F2 F3 F4 F5. rewrite <- F2 at 1.
    exact (perform_effect s _ _ _ _ _ ex Hr Hd (xreg_u32 _ Hr _ H2) He F1 F3 F4 F5).
  - unfold serial_step. by rewrite El.
Qed.
