(* ===== verification/CoreInv.v ===== *)
(** * Well-formed cores

    Every register of the pipeline, on the right path or not, holds values of
    its C++ type: 32-bit words, register numbers below 32, sign-extended
    immediates.  Addresses reaching the memories are therefore 32-bit words,
    and the invariants of the memories, of the register file and of the
    predictor are kept by every cycle. *)

From S2P Require Import Prelude Isa Formats DecoderSpec Alu Regfile Config Pipe Memory.
From S2P Require Import BranchPredictor Stages Tracer Core CoreStep IsaSpec Serial.

Definition IfId_wf (f : IfId) : Prop := is_u32 (if_pc f) /\ is_u32 (if_raw f).

Definition IdEx_wf (d : IdEx) : Prop :=
  is_u32 (ie_pc d) /\ is_u32 (ie_raw d) /\ 0 <= ie_rd d < 32 /\ is_s32 (ie_imm d) /\
  is_u32 (ie_rs1_val d) /\ is_u32 (ie_rs2_val d).

Definition ExMem_wf (e : ExMem) : Prop :=
  is_u32 (em_pc e) /\ is_u32 (em_raw e) /\ 0 <= em_rd e < 32 /\ is_u32 (em_alu_out e) /\
  is_u32 (em_rs2_val e).

Definition target_u32 (pc target : Z) (cond : bool) : Prop := is_u32 target.

Definition predictor_wf (bp : option BranchPredictor) : Prop :=
  match bp with
  | None => True
  | Some p => exists k, BranchPredictor_inv k p /\ btb_sound target_u32 k p
  end.

Lemma is_u32_0 : is_u32 0.
Proof. unfold is_u32; lia. Qed.
Lemma u32_is_u32 z : is_u32 (u32 z).
Proof. apply u32_range. Qed.
#[export] Hint Resolve is_u32_0 u32_is_u32 : words.

Lemma bubble_if_wf : IfId_wf bubble.
Proof. split; cbn; auto with words. Qed.
Lemma bubble_id_wf : IdEx_wf bubble.
Proof. unfold IdEx_wf, is_s32; cbn. split_and!; auto with words; lia. Qed.
Lemma bubble_ex_wf : ExMem_wf bubble.
Proof. unfold ExMem_wf; cbn. split_and!; auto with words; lia. Qed.
Lemma bubble_wb_wf : MemWb_wf bubble.
Proof. unfold MemWb_wf; cbn. split_and!; auto with words; lia. Qed.
#[export] Hint Resolve bubble_if_wf bubble_id_wf bubble_ex_wf bubble_wb_wf : core.

(** ** The stage functions on well-formed payloads *)

Lemma resolve_u32 ex wb prev r v :
  ExMem_wf ex -> MemWb_wf wb -> MemWb_wf prev -> is_u32 v -> is_u32 (resolve ex wb prev r v).
Proof.
  intros He Hw Hp Hv. unfold resolve.
  repeat case_match; auto with words; [apply He|apply Hw|apply Hp].
Qed.

Lemma land_u32 a b : is_u32 b -> is_u32 (Z.land a b).
Proof. unfold is_u32. intros Hb. pose proof (land_le a b). lia. Qed.

Lemma execute_wf bpe id x y :
  IdEx_wf id -> is_u32 x -> is_u32 y ->
  ExMem_wf (execute bpe id x y).2 /\ is_u32 (ex_redirect_target_ (execute bpe id x y).1) /\
  is_u32 (ex_train_target_ (execute bpe id x y).1) /\ is_u32 (ex_train_pc_ (execute bpe id x y).1) /\
  (ex_train_ (execute bpe id x y).1 = true -> bpe = true).
Proof.
  intros (Hpc & Hraw & Hrd & Him & _) Hx Hy.
  assert (Ha : is_u32 (if op_eqb (ie_op id) AUIPC then ie_pc id else x)) by (by destruct (op_eqb _ _)).
  assert (Hb : is_u32 (if uses_imm (ie_op id) then u32 (ie_imm id) else y))
    by (destruct (uses_imm _); auto with words).
  pose proof (alu_exec_range (alu_op_for (ie_op id)) _ _ Ha Hb) as Halu.
  unfold execute. destruct (op_eqb (ie_op id) JAL || op_eqb (ie_op id) JALR) eqn:Ej;
    cbn; unfold ExMem_wf; cbn; split_and!; auto with words; try lia;
    repeat case_match; auto with words; try (apply land_u32; unfold is_u32; lia);
    by intros [? _]%andb_true_iff.
Qed.

Lemma decoded_wf rf f id :
  RegFile_wf rf -> IfId_wf f -> decoded rf f = Some id -> IdEx_wf id.
Proof.
  intros Hr [Hpc Hraw] E. unfold decoded in E. destruct (if_valid f); cbn [negb] in E;
    [|injection E as <-; auto].
  destruct (decode_post_ok (if_raw f) (if_pc f) Hraw) as (_ & _ & (Hd & H1 & H2 & Him) & _).
  rewrite !xreg_read in E by done. cbn [mbind option_bind] in E. injection E as <-.
  unfold IdEx_wf. cbn. split_and!; try done; try apply Hd; try apply Him; by apply xreg_u32.
Qed.

Lemma decoded_total rf f : RegFile_wf rf -> IfId_wf f -> is_Some (decoded rf f).
Proof.
  intros Hr [Hpc Hraw]. unfold decoded. destruct (if_valid f); cbn [negb]; [|done].
  destruct (decode_post_ok (if_raw f) (if_pc f) Hraw) as (_ & _ & (Hd & H1 & H2 & Him) & _).
  by rewrite !xreg_read by done.
Qed.

Lemma mem_perform_wb_wf {M} `{MemoryLaws M} (m : M) ex m' wb :
  mem_inv m -> ExMem_wf ex -> mem_perform m ex = Some (m', wb) -> MemWb_wf wb.
Proof.
  intros Hm (Hpc & Hraw & Hrd & Ha & Hv) E.
  pose proof (mem_perform_ok m ex Hm Ha) as Hok. rewrite E in Hok. destruct Hok as [Er _].
  clear E. revert Er. generalize (mem_ram_wf m Hm). generalize (mem_ram m'), (mem_ram m).
  intros r' r Hr Er.
  assert (Hl : forall n a v, (n <= 4)%nat -> ram_load n r a = Some v -> is_u32 v).
  { intros n a v Hn E. apply ram_load_range in E; [|done]. unfold is_u32.
    assert (2 ^ (8 * Z.of_nat n) <= 2 ^ 32) by (apply Z.pow_le_mono_r; lia). lia. }
  unfold mem_perform in Er. cbn [load_word load_half load_byte store_word store_half store_byte ram_IMemory] in Er.
  destruct (em_op ex);
    try (match type of Er with context [ram_load ?n ?r ?a] =>
           destruct (ram_load n r a) as [v|] eqn:El; [|done]; cbn [mbind option_bind] in Er;
           apply Hl in El; [|lia] end);
    try (match type of Er with context [ram_store ?n ?r ?a ?v] =>
           destruct (ram_store n r a v) as [r1|]; [|done]; cbn [mbind option_bind] in Er end);
    injection Er as <- <-; unfold MemWb_wf; cbn; split_and!; auto with words; try lia;
    apply land_u32; unfold is_u32; lia.
Qed.

Lemma written_wf rf wb rf' :
  RegFile_wf rf -> MemWb_wf wb -> written rf wb = Some rf' -> RegFile_wf rf'.
Proof.
  intros Hr (_ & _ & Hd & Hv & _) E. unfold written in E.
  destruct (mw_valid wb && has_writeback (mw_op wb)); [|by injection E as <-].
  rewrite set_xreg_write in E by done. injection E as <-. by apply set_xreg_wf.
Qed.

Lemma written_total rf wb : RegFile_wf rf -> MemWb_wf wb -> is_Some (written rf wb).
Proof.
  intros Hr (_ & _ & Hd & Hv & _). unfold written. case_match; [|done].
  by rewrite set_xreg_write.
Qed.

(** ** The memories, call by call *)

Section Memory.
Context {M : Type} `{MemoryLaws M}.

Lemma ready_keeps (m : M) st a w b m' st' :
  mem_inv m -> is_u32 a -> ready m st a w = Some (b, m', st') ->
  mem_inv m' /\ mem_ram m' = mem_ram m /\ core_counters st' = core_counters st.
Proof using Type.
  intros Hm Ha E. destruct (ready_ok m st a w Hm Ha) as (b1 & m1 & st1 & E1 & ?).
  rewrite E1 in E. by injection E as <- <- <-.
Qed.

Lemma tick_keeps (m : M) st m' st' :
  mem_inv m -> tick m st = Some (m', st') ->
  mem_inv m' /\ mem_ram m' = mem_ram m /\ core_counters st' = core_counters st.
Proof using Type.
  intros Hm E. destruct (tick_ok m st Hm) as (m1 & st1 & E1 & ?).
  rewrite E1 in E. by injection E as <- <-.
Qed.

(** MEM's request, which an instruction without an access does not make. *)
Lemma request_keeps (m : M) st ex b m' st' :
  mem_inv m -> ExMem_wf ex ->
  (if mem_request ex then ready m st (em_alu_out ex) (is_store (em_op ex)) else Some (true, m, st)) =
    Some (b, m', st') ->
  mem_inv m' /\ mem_ram m' = mem_ram m /\ core_counters st' = core_counters st.
Proof using Type.
  intros Hm Hex E. destruct (mem_request ex).
  - apply (ready_keeps _ _ _ _ _ _ _ Hm) in E; [done|apply Hex].
  - by injection E as <- <- <-.
Qed.

Lemma accessed_keeps (m : M) ex m' wb :
  mem_inv m -> ExMem_wf ex -> accessed m ex = Some (m', wb) -> mem_inv m' /\ MemWb_wf wb.
Proof using Type.
  intros Hm Hex E. unfold accessed in E.
  destruct (em_valid ex); cbn [negb] in E; [|injection E as <- <-; auto].
  split; [|exact (mem_perform_wb_wf m ex m' wb Hm Hex E)].
  pose proof (mem_perform_ok m ex Hm) as Hok. rewrite E in Hok. apply Hok, Hex.
Qed.
End Memory.

(** ** The core *)

Section Invariant.
Context {IM DM : Type} `{MemoryLaws IM} `{MemoryLaws DM}.
Abbreviation core := (Core IM DM).
Implicit Type c : core.

Record core_wf c : Prop := mkCoreWf {
  cw_quiescent : quiescent c;
  cw_imem : mem_inv (co_imem_ c);
  cw_dmem : mem_inv (co_dmem_ c);
  cw_rf : RegFile_wf (co_rf_ c);
  cw_bp : predictor_wf (co_bpred_ c);
  cw_if : IfId_wf (v_if c);
  cw_id : IdEx_wf (v_id c);
  cw_ex : ExMem_wf (v_ex c);
  cw_wb : MemWb_wf (v_wb c);
  cw_prev : MemWb_wf (v_prev c);
  cw_pc : is_u32 (v_pc c);
}.

Lemma operand_u32 c r v : core_wf c -> is_u32 v -> is_u32 (operand c r v).
Proof using Type. intros Hc Hv. apply resolve_u32; [apply Hc..|done]. Qed.

Lemma executed_wf c :
  core_wf c ->
  ExMem_wf (executed c).2 /\ is_u32 (ex_redirect_target_ (executed c).1) /\
  is_u32 (ex_train_target_ (executed c).1) /\ is_u32 (ex_train_pc_ (executed c).1) /\
  (ex_train_ (executed c).1 = true -> is_Some (co_bpred_ c)).
Proof using Type.
  intros Hc. unfold executed. destruct (ie_valid (v_id c)); cbn [negb].
  - pose proof (cw_id c Hc) as Hid.
    pose proof (execute_wf (bool_decide (is_Some (co_bpred_ c))) (v_id c)
      (operand c (ie_rs1 (v_id c)) (ie_rs1_val (v_id c)))
      (operand c (ie_rs2 (v_id c)) (ie_rs2_val (v_id c))) Hid) as Hx.
    destruct Hx as (? & ? & ? & ? & Ht); [by apply operand_u32, Hid..|].
    split_and!; try done. intros E. by apply Ht, bool_decide_eq_true in E.
  - cbn. split_and!; auto with words. done.
Qed.

Lemma captured_wf c : core_wf c -> IdEx_wf (captured c).
Proof using Type.
  intros Hc. pose proof (cw_id c Hc) as Hid. unfold captured.
  destruct (ie_valid (v_id c)); cbn [negb]; [|done].
  destruct Hid as (? & ? & ? & ? & ? & ?). unfold IdEx_wf. cbn. split_and!; (done || lia || by apply operand_u32).
Qed.

Lemma fetched_wf (imem : IM) bp pc served f next :
  mem_inv imem -> predictor_wf bp -> is_u32 pc -> fetched imem bp pc served = Some (f, next) ->
  IfId_wf f /\ is_u32 next.
Proof using Type.
  intros Hm Hb Hpc E. unfold fetched in E. destruct served; cbn [negb] in E;
    [|injection E as <- <-; auto].
  rewrite load_word_ram in E by done.
  destruct (ram_load 4 (mem_ram imem) pc) as [raw|] eqn:El; cbn [mbind option_bind] in E; [|done].
  apply ram_load_range in El; [|by apply mem_ram_wf]. change (is_u32 raw) in El.
  destruct bp as [p|].
  - destruct Hb as (k & Hk & Hs). rewrite (predict_spec k p Hk pc Hpc) in E.
    destruct (btb_lookup k p pc) as [[t cond]|] eqn:Eb; cbn in E.
    + apply Hs in Eb. destruct cond; [destruct (2 <=? _)|]; cbn in E; injection E as <- <-;
        (split; [by split|auto with words]).
    + injection E as <- <-. split; [by split|auto with words].
  - injection E as <- <-. split; [by split|auto with words].
Qed.

Lemma trained_wf c bp :
  core_wf c -> trained (executed c).1 (co_bpred_ c) = Some bp -> predictor_wf bp.
Proof using Type.
  intros Hc E. pose proof (executed_wf c Hc) as (_ & _ & Ht & Hpc & _).
  pose proof (cw_bp c Hc) as Hb. unfold trained in E. destruct (ex_train_ _); [|by injection E as <-].
  destruct (co_bpred_ c) as [p|]; cbn [mbind option_bind] in E; [|done].
  destruct Hb as (k & Hk & Hs).
  match type of E with context [BranchPredictor_update p ?a ?b ?d ?e] =>
    destruct (update_spec k p a b d e Hk Hpc) as (p' & Eu & Hk' & _) end.
  rewrite Eu in E. injection E as <-. exists k. split; [done|].
  exact (btb_sound_update target_u32 k p _ _ _ _ p' Hk Hpc Hs Ht Eu).
Qed.

Lemma retired_wf c c' : core_wf c -> retired c c' -> RegFile_wf (co_rf_ c') /\ MemWb_wf (v_prev c').
Proof using Type.
  intros Hc Hr. split.
  - eapply written_wf; [apply Hc|apply Hc|apply Hr].
  - rewrite (rt_prev _ _ Hr). apply Hc.
Qed.

(** The invariant is kept, and the instruction memory never changes. *)
Lemma cycle_wf c c' :
  core_wf c -> cycle c c' -> core_wf c' /\ mem_ram (co_imem_ c') = mem_ram (co_imem_ c).
Proof using Type.
  intros Hc Hcy. pose proof (executed_wf c Hc) as (Hxe & Hxt & _).
  destruct Hcy as [served_i st1 dmem1 st2 st3 Hret EI ED ER EM ET _ Eif Eid Eex Ewb Epc Ebp
    | served_i imem1 st1 f next id served_d dmem1 st2 dmem2 st4 st5 st6 Hret EI EF ED EM _ EA EB ET _ EU _
      Eex Eid Eif Epc];
    destruct (retired_wf c c' Hc Hret) as [Hrf Hprev];
    apply ready_keeps in EI as (Hi & Hir & _); [|apply Hc|apply Hc| |apply Hc|apply Hc].
  - apply ready_keeps in EM as (Hd & Hdr & _); [|apply Hc|apply (cw_ex c Hc)].
    apply tick_keeps in ET as (Hd' & _ & _); [|done]. split; [|done].
    constructor; rewrite ?Eif, ?Eid, ?Eex, ?Ewb, ?Epc, ?Ebp; auto.
    1: apply Hret. 3: by apply captured_wf. all: apply Hc.
  - apply request_keeps in EM as (Hd & _ & _); [|apply Hc|apply Hc].
    apply accessed_keeps in EA as [Hd2 Hwb]; [|done|apply Hc].
    apply tick_keeps in ET as (Hd' & _ & _); [|done].
    apply tick_keeps in EU as (Hi' & Hir' & _); [|done]. split; [|congruence].
    apply fetched_wf in EF as [Hf Hn]; [|done|apply Hc|apply Hc].
    apply decoded_wf in ED; [|apply Hc|apply Hc].
    constructor; rewrite ?Eif, ?Eid, ?Eex, ?Epc; auto.
    + apply Hret.
    + by eapply trained_wf.
    + destruct (ex_redirect_ _), (interlock c); auto; apply Hc.
    + destruct (ex_redirect_ _), (interlock c); auto; apply Hc.
    + destruct (ex_redirect_ _), (interlock c), served_i; auto; apply Hc.
Qed.
End Invariant.
