(* ===== verification/SerialFacts.v ===== *)
(** * Facts about the serial machine

    What one serial step does to the PC, to a register and to memory, in terms
    of the payloads the pipeline carries. *)

From S2P Require Import Prelude Isa Formats DecoderSpec Alu Regfile Config Pipe Memory.
From S2P Require Import BranchPredictor Stages Tracer Core CoreStep IsaSpec Serial CoreInv.

Record arch_wf (s : arch) : Prop := mkArchWf {
  aw_pc : is_u32 (a_pc s);
  aw_regs : RegFile_wf (a_regs s);
  aw_mem : ram_wf (a_mem s);
}.

(** The two readings of a register across a payload: in MEM/WB it carries the
    value; in EX/MEM it does unless it is a load of that register. *)
Definition wrote_wb (wb : MemWb) (s s' : arch) : Prop :=
  forall r, 0 <= r < 32 -> xreg (a_regs s') r =
    if mw_valid wb && (mw_rd wb =? r) && negb (r =? 0) then mw_wb_val wb else xreg (a_regs s) r.

Definition wrote_ex (ex : ExMem) (s s' : arch) : Prop :=
  forall r, 0 <= r < 32 -> (em_valid ex && is_load (em_op ex) = true -> em_rd ex <> r) ->
    xreg (a_regs s') r =
    if em_valid ex && (em_rd ex =? r) && negb (r =? 0) then em_alu_out ex else xreg (a_regs s) r.

(** The payload MEM produces. *)
Lemma mem_perform_fields {M} `{IMemory M} (m : M) ex m' wb :
  mem_perform m ex = Some (m', wb) ->
  mw_pc wb = em_pc ex /\ mw_raw wb = em_raw ex /\ mw_op wb = em_op ex /\ mw_rd wb = em_rd ex /\
  mw_valid wb = true /\ (is_mem_op (em_op ex) = false -> mw_wb_val wb = em_alu_out ex).
Proof.
  unfold mem_perform. intros E.
  destruct (em_op ex) eqn:Eo; inv_binds; try discriminate; simplify_eq; cbn; rewrite ?Eo; by split_and!.
Qed.

Section Step.
Context (im : ram) (Him : ram_wf im).

Section At.
Context (s : arch) (Hs : arch_wf s) (raw : Z) (Hraw : ram_load 4 im (a_pc s) = Some raw).
Abbreviation i := (decode raw (a_pc s)).
Abbreviation ex := (in_execute s raw).

Lemma raw_u32 : is_u32 raw.
Proof using Him Hraw. exact (ram_load_range im Him _ _ _ Hraw). Qed.

Lemma in_decode_wf predicted : IdEx_wf (in_decode s raw predicted).
Proof using Him Hraw Hs.
  destruct (decode_post_ok raw (a_pc s) raw_u32) as (_ & _ & (Hd & H1 & H2 & Hi) & _).
  unfold IdEx_wf, in_decode. cbn.
  split_and!; try apply Hs; try apply raw_u32; try lia; try apply Hi; by apply xreg_u32; [apply Hs|].
Qed.

Lemma in_execute_wf : ExMem_wf ex.
Proof using Him Hraw Hs.
  pose proof (in_decode_wf false) as Hd. apply execute_wf; [done|apply Hd..].
Qed.

Lemma in_execute_fields :
  em_pc ex = a_pc s /\ em_raw ex = raw /\ em_op ex = i_op i /\ em_rd ex = i_rd i /\
  em_rs2_val ex = xreg (a_regs s) (i_rs2 i) /\ em_valid ex = true.
Proof using Type. apply (execute_fields false (in_decode s raw false)). Qed.

(** The access decides whether the step exists. *)
Lemma serial_step_access :
  serial_step im s =
    '(mem, wb) ← mem_perform (a_mem s) ex;
    rf ← written (a_regs s) wb; Some (wb, mkArch (next_pc s ex) rf mem).
Proof using Hraw. unfold serial_step. by rewrite Hraw. Qed.

Lemma serial_step_inv wb s' :
  serial_step im s = Some (wb, s') ->
  mem_perform (a_mem s) ex = Some (a_mem s', wb) /\ a_pc s' = next_pc s ex /\
  a_regs s' = (if has_writeback (em_op ex) then set_xreg (a_regs s) (em_rd ex) (mw_wb_val wb)
               else a_regs s) /\ MemWb_wf wb /\ arch_wf s'.
Proof using Him Hraw Hs.
  rewrite serial_step_access. intros E. pose proof in_execute_wf as Hex.
  destruct (mem_perform (a_mem s) ex) as [[mem wb']|] eqn:Em; cbn [mbind option_bind] in E; [|done].
  pose proof (mem_perform_wb_wf (a_mem s) ex mem wb' (aw_mem s Hs) Hex Em) as Hwb.
  pose proof (mem_perform_ok (a_mem s) ex (aw_mem s Hs)) as Hok. rewrite Em in Hok.
  destruct (written (a_regs s) wb') as [rf|] eqn:Ew; cbn [mbind option_bind] in E; [|done].
  pose proof (written_wf _ _ _ (aw_regs s Hs) Hwb Ew) as Hrf.
  injection E as <- <-. destruct (mem_perform_fields _ _ _ _ Em) as (_ & _ & Fo & Fd & Fv & _).
  cbn [a_mem a_pc a_regs]. split_and!; try done.
  - unfold written in Ew. rewrite Fv, Fo, Fd in Ew. cbn [andb] in Ew.
    destruct (has_writeback _); [|by injection Ew].
    rewrite set_xreg_write in Ew; [by injection Ew|apply Hs|apply Hex].
  - constructor; cbn [a_mem a_pc a_regs]; [|done|apply Hok, Hex].
    unfold next_pc. destruct (em_branch_taken ex) eqn:Et; [|auto with words].
    unfold in_execute, execute in *. cbn [in_decode ie_op ie_pc ie_imm] in *.
    destruct (_ || _); cbn in *; [|auto with words]. destruct (op_eqb _ _); [|auto with words].
    apply land_u32. unfold is_u32; lia.
Qed.

(** An instruction that does not write back names x0. *)
Lemma rd_without_writeback : is_halt_op (i_op i) = false -> has_writeback (i_op i) = false -> i_rd i = 0.
Proof using Him Hraw.
  intros Hh Hw. destruct (decode_post_ok raw (a_pc s) raw_u32) as (_ & _ & _ & _ & _ & Hrd).
  apply Hrd; [by destruct (i_op i)|]. intros E. by rewrite E in Hh.
Qed.

Lemma serial_step_wrote wb s' :
  serial_step im s = Some (wb, s') -> is_halt_op (i_op i) = false ->
  wrote_wb wb s s' /\ wrote_ex ex s s'.
Proof using Him Hraw Hs.
  intros E Hh. destruct (serial_step_inv wb s' E) as (Em & _ & Hregs & _ & _).
  destruct (mem_perform_fields _ _ _ _ Em) as (_ & _ & Fo & Fd & Fv & Fw).
  pose proof in_execute_wf as (_ & _ & Hrd & _).
  destruct in_execute_fields as (_ & _ & Eo & Ed & _ & Ev).
  pose proof (rd_without_writeback Hh) as H0. rewrite <- Eo, <- Ed in H0.
  assert (Hx : forall r, 0 <= r < 32 -> xreg (a_regs s') r =
    if (em_rd ex =? r) && negb (r =? 0) then mw_wb_val wb else xreg (a_regs s) r).
  { intros r Hr. rewrite Hregs. destruct (has_writeback (em_op ex)); [apply xreg_set; (apply Hs || done)|].
    rewrite H0 by done. destruct (Z.eqb_spec 0 r) as [<-|]; done. }
  split; intros r Hr.
  - by rewrite Hx, Fv, Fd.
  - rewrite Ev. cbn [andb]. intros Hl. rewrite Hx by done.
    destruct (Z.eqb_spec (em_rd ex) r) as [Er|]; [cbn [andb]|done].
    destruct (Z.eqb_spec r 0) as [|Hr0]; [done|cbn [negb]]. apply Fw.
    destruct (is_load (em_op ex)) eqn:El; [by destruct (Hl eq_refl)|].
    destruct (has_writeback (em_op ex)) eqn:Hw; [by destruct (em_op ex)|].
    rewrite H0 in Er by done. lia.
Qed.
End At.

(** A step is a step of the specification. *)
Lemma serial_step_isa s wb s' :
  arch_wf s -> serial_step im s = Some (wb, s') -> isa_step im s = Some (commit_of wb, s').
Proof using Him. intros Hs E. rewrite serial_step_spec; [|done|apply Hs]. by rewrite E. Qed.

Lemma serial_step_raw s wb s' :
  serial_step im s = Some (wb, s') -> exists raw, ram_load 4 im (a_pc s) = Some raw.
Proof using Type. unfold serial_step. destruct (ram_load 4 im (a_pc s)); eauto. done. Qed.
End Step.
