(* ===== verification/CoreTotal.v ===== *)
(** * Cycles that cannot fault

    A tick of a well-formed core succeeds when the word being fetched exists
    and the access in MEM is inside the memory: no other assertion, array
    access or null dereference of the simulator can fail. *)

From S2P Require Import Prelude Isa Formats DecoderSpec Alu Regfile Config Pipe Memory.
From S2P Require Import BranchPredictor Stages Tracer Core CoreStep IsaSpec Serial CoreInv.

(** ** The tracer *)

Lemma disasm_total size raw pc : is_u32 raw -> is_Some (disasm size raw pc).
Proof.
  intros Hraw. destruct (decode_post_ok raw pc Hraw) as (_ & _ & (Hd & H1 & H2 & _) & _).
  unfold disasm. destruct (abi_name_Some _ Hd) as [? ->], (abi_name_Some _ H1) as [? ->],
    (abi_name_Some _ H2) as [? ->]. cbn [mbind option_bind]. by eexists.
Qed.

Lemma Tracer_record_total t wb cycle : MemWb_wf wb -> is_Some (Tracer_record t wb cycle).
Proof.
  intros (_ & Hraw & _). unfold Tracer_record.
  destruct (tr_fmt_ t), (negb (mw_valid wb)); try by eexists.
  destruct (disasm_total 40 (mw_raw wb) (mw_pc wb) Hraw) as [? ->]. by eexists.
Qed.

Section Total.
Context {IM DM : Type} `{MemoryLaws IM} `{MemoryLaws DM}.
Abbreviation core := (Core IM DM).
Implicit Type c : core.

(** ** The stages *)

Lemma fetched_total (imem : IM) bp pc served :
  mem_inv imem -> predictor_wf bp -> is_u32 pc ->
  (served = true -> is_Some (ram_load 4 (mem_ram imem) pc)) -> is_Some (fetched imem bp pc served).
Proof using Type.
  intros Hm Hb Hpc Hl. unfold fetched. destruct served; cbn [negb]; [|done].
  rewrite load_word_ram by done. destruct (Hl eq_refl) as [raw ->]. cbn [mbind option_bind].
  destruct bp as [p|]; [|done]. destruct Hb as (k & Hk & _). rewrite (predict_spec k p Hk pc Hpc).
  cbn [mbind option_bind]. by case_match.
Qed.

Lemma accessed_total (dmem : DM) ex :
  mem_inv dmem -> ExMem_wf ex ->
  (em_valid ex = true -> is_Some (mem_perform (mem_ram dmem) ex)) -> is_Some (accessed dmem ex).
Proof using Type.
  intros Hm Hex Hp. unfold accessed. destruct (em_valid ex); cbn [negb]; [|done].
  destruct (Hp eq_refl) as [r Er]. assert (Ha : is_u32 (em_alu_out ex)) by apply Hex.
  pose proof (mem_perform_ok dmem ex Hm Ha) as Hok.
  destruct (mem_perform dmem ex) as [[m wb]|]; [done|]. congruence.
Qed.

Lemma trained_total c : core_wf c -> is_Some (trained (executed c).1 (co_bpred_ c)).
Proof using Type.
  intros Hc. pose proof (executed_wf c Hc) as (_ & _ & _ & Hpc & Ht).
  pose proof (cw_bp c Hc) as Hb. unfold trained. destruct (ex_train_ (executed c).1); [|done].
  destruct (Ht eq_refl) as [p Ep]. rewrite Ep in *. destruct Hb as (k & Hk & _). cbn [mbind option_bind].
  by destruct (update_spec k p _ (ex_train_cond_ (executed c).1) (ex_train_taken_ (executed c).1)
    (ex_train_target_ (executed c).1) Hk Hpc) as (p' & -> & _).
Qed.

(** ** The phases of a tick *)

Lemma evaluate_total c imem st1 served_i p id served_d dmem1 st2 r :
  quiescent c ->
  ready (co_imem_ c) (co_stats_ c) (v_pc c) false = Some (served_i, imem, st1) ->
  fetched imem (co_bpred_ c) (v_pc c) served_i = Some p ->
  decoded (co_rf_ c) (v_if c) = Some id ->
  (if mem_request (v_ex c)
   then ready (co_dmem_ c) st1 (em_alu_out (v_ex c)) (is_store (em_op (v_ex c)))
   else Some (true, co_dmem_ c, st1)) = Some (served_d, dmem1, st2) ->
  (if served_d : bool then accessed dmem1 (v_ex c) else Some (dmem1, bubble)) = Some r ->
  is_Some (Core_evaluate c).
Proof using Type.
  intros (Hq1 & Hq2 & Hq3) EI EF ED EM EA. unfold Core_evaluate.
  unfold v_pc in *. destruct p as [f next], r as [dmem2 wb].
  rewrite fetch_evaluate_eq by done. rewrite EI. cbn [mbind option_bind]. rewrite EF.
  cbn [mbind option_bind]. rewrite decode_evaluate_eq. cbn [co_rf_ co_if_id_ setter].
  change (Latch_read (Latch_write (co_if_id_ c) f)) with (v_if c). rewrite ED.
  cbn [mbind option_bind]. rewrite execute_evaluate_eq, mem_evaluate_eq.
  cbn [co_id_ex_ co_ex_mem_ co_mem_wb_ co_fwd_ co_ex_ co_dmem_ co_stats_ co_bpred_ setter].
  change (Latch_read (Latch_write (co_ex_mem_ c) _)) with (v_ex c).
  rewrite EM. cbn [mbind option_bind]. rewrite EA. cbn [mbind option_bind]. by eexists.
Qed.

Lemma retire_total c : MemWb_wf (v_wb c) -> is_Some (Core_retire c).
Proof using Type.
  intros Hwb. unfold Core_retire. destruct (co_tracer_ c) as [t|]; [|by eexists].
  destruct (Tracer_record_total t (v_wb c) (cycles (co_stats_ c)) Hwb) as [t' Et].
  unfold v_wb in Et. rewrite Et. cbn [mbind option_bind]. by eexists.
Qed.

Lemma latch_stalled_total c wr mr :
  WritebackStage_latch (co_wb_ c) (co_rf_ c) = Some wr ->
  MemAccessStage_latch (co_dmem_ c) (co_stats_ c) (co_mem_wb_ c) = Some mr ->
  is_Some (Core_latch_stalled c).
Proof using Type.
  intros Ew Em. unfold Core_latch_stalled, Core_latch_wb_fwd, Core_latch_mem.
  assert (Hc : Core_capture_ex_operands c =
    c <| co_id_ex_ := co_id_ex_ (Core_capture_ex_operands c) |>).
  { unfold Core_capture_ex_operands. destruct (negb (ie_valid _)); [destruct c; reflexivity|].
    destruct c. core_simpl. reflexivity. }
  rewrite Hc. generalize (co_id_ex_ (Core_capture_ex_operands c)). intros l. clear Hc.
  destruct c. core_simpl. core_simpl_in Ew. core_simpl_in Em. rewrite Ew. destruct wr as [wb rf].
  cbn [mbind option_bind]. core_simpl. rewrite Em. destruct mr as [[dmem st] mw].
  cbn [mbind option_bind]. by eexists.
Qed.

Lemma latch_all_total c wr er :
  WritebackStage_latch (co_wb_ c) (co_rf_ c) = Some wr ->
  ExecuteStage_latch (co_ex_ c) (co_fetch_ c) (co_decode_ c) (co_bpred_ c) (co_stats_ c)
    (co_ex_mem_ c) = Some er ->
  (forall st l, is_Some (MemAccessStage_latch (co_dmem_ c) st l)) ->
  (forall st f l, is_Some (FetchStage_latch (co_imem_ c) st f l)) ->
  is_Some (Core_latch_all c).
Proof using Type.
  intros Ew Ee Em Ef. destruct c. unfold Core_latch_all, Core_latch_wb_fwd, Core_latch_mem.
  core_simpl. core_simpl_in Ew. core_simpl_in Ee. core_simpl_in Em. core_simpl_in Ef.
  rewrite Ew. destruct wr as [wb rf]. cbn [mbind option_bind]. core_simpl.
  rewrite Ee. destruct er as [[[[[e fetch] dec] bp] st1] ex_mem]. cbn [mbind option_bind]. core_simpl.
  destruct (Em st1 co_mem_wb_) as [[[dmem st2] mem_wb] ->]. cbn [mbind option_bind]. core_simpl.
  unfold HazardUnit_latch, DecodeStage_latch. core_simpl.
  match goal with |- is_Some (mbind _ (FetchStage_latch _ ?st ?f ?l)) =>
    destruct (Ef st f l) as [[[[fetch' imem] st3] if_id] ->] end.
  cbn [mbind option_bind]. by eexists.
Qed.

(** ** A tick *)

(** What the cycle needs of the program. *)
Record cycle_safe c : Prop := mkCycleSafe {
  cs_fetch : is_Some (ram_load 4 (mem_ram (co_imem_ c)) (v_pc c));
  cs_access : em_valid (v_ex c) = true -> is_Some (mem_perform (mem_ram (co_dmem_ c)) (v_ex c));
}.

(** The requests to the memories. *)
Lemma requests_total c :
  core_wf c ->
  exists served_i imem st1 served_d dmem1 st2,
    ready (co_imem_ c) (co_stats_ c) (v_pc c) false = Some (served_i, imem, st1) /\
    mem_inv imem /\ mem_ram imem = mem_ram (co_imem_ c) /\
    (if mem_request (v_ex c)
     then ready (co_dmem_ c) st1 (em_alu_out (v_ex c)) (is_store (em_op (v_ex c)))
     else Some (true, co_dmem_ c, st1)) = Some (served_d, dmem1, st2) /\
    mem_inv dmem1 /\ mem_ram dmem1 = mem_ram (co_dmem_ c).
Proof using Type.
  intros Hc.
  destruct (ready_ok (co_imem_ c) (co_stats_ c) (v_pc c) false (cw_imem c Hc) (cw_pc c Hc))
    as (served_i & imem & st1 & -> & Hi & Hir & _).
  exists served_i, imem, st1. destruct (mem_request (v_ex c)).
  - assert (Ha : is_u32 (em_alu_out (v_ex c))) by apply (cw_ex c Hc).
    destruct (ready_ok (co_dmem_ c) st1 _ (is_store (em_op (v_ex c))) (cw_dmem c Hc) Ha)
      as (served_d & dmem1 & st2 & -> & Hd & Hdr & _). by exists served_d, dmem1, st2.
  - exists true, (co_dmem_ c), st1. split_and!; try done. apply (cw_dmem c Hc).
Qed.

Lemma evaluate_safe c : core_wf c -> cycle_safe c -> is_Some (Core_evaluate c).
Proof using Type.
  intros Hc [Hf Ha].
  destruct (requests_total c Hc) as (served_i & imem & st1 & served_d & dmem1 & st2 &
    EI & Hi & Hir & EM & Hd & Hdr).
  destruct (fetched_total imem (co_bpred_ c) (v_pc c) served_i Hi (cw_bp c Hc) (cw_pc c Hc)) as [p EF].
  { intros _. by rewrite Hir. }
  destruct (decoded_total (co_rf_ c) (v_if c) (cw_rf c Hc) (cw_if c Hc)) as [id ED].
  assert (EA : is_Some (if served_d : bool then accessed dmem1 (v_ex c) else Some (dmem1, bubble))).
  { destruct served_d; [|done]. apply accessed_total; [done|apply (cw_ex c Hc)|by rewrite Hdr]. }
  destruct EA as [r EA]. by eapply evaluate_total; [apply (cw_quiescent c Hc)|..].
Qed.

(** The write-back of a cycle, in either latch order. *)
Lemma writeback_total c :
  core_wf c -> is_Some (WritebackStage_latch (WritebackStage_evaluate (co_mem_wb_ c)) (co_rf_ c)).
Proof using Type.
  intros Hc. rewrite (writeback_eq (v_wb c)) by done.
  destruct (written_total (co_rf_ c) (v_wb c) (cw_rf c Hc) (cw_wb c Hc)) as [rf ->].
  cbn [mbind option_bind]. by eexists.
Qed.

Lemma mem_latch_total (m : DM) st l : mem_inv m -> is_Some (MemAccessStage_latch m st l).
Proof using Type.
  intros Hm. unfold MemAccessStage_latch. destruct (tick_ok m st Hm) as (m' & st' & -> & _).
  cbn [mbind option_bind]. by eexists.
Qed.

Lemma fetch_latch_total (m : IM) st f l : mem_inv m -> is_Some (FetchStage_latch m st f l).
Proof using Type.
  intros Hm. rewrite fetch_latch_eq. destruct (tick_ok m st Hm) as (m' & st' & -> & _).
  cbn [mbind option_bind]. by eexists.
Qed.

Lemma latch_safe c c1 t imem f next id st2 dmem2 wb served_i served_d e :
  core_wf c -> mem_inv imem -> mem_inv dmem2 ->
  ex_like e (executed c).1 ->
  c1 = after_retire (after_evaluate c imem dmem2 st2 f next id e (executed c).2 wb served_i served_d) t ->
  is_Some (if negb served_d then Core_latch_stalled c1 else Core_latch_all c1).
Proof using Type.
  intros Hc Hi Hd Hex ->. destruct (writeback_total c Hc) as [wr Ew].
  set (c1 := after_retire _ t).
  assert (Ew1 : WritebackStage_latch (co_wb_ c1) (co_rf_ c1) = Some wr) by (destruct c; exact Ew).
  assert (Edm : co_dmem_ c1 = dmem2) by (by destruct c).
  assert (Eim : co_imem_ c1 = imem) by (by destruct c).
  destruct served_d; cbn [negb].
  - destruct (trained_total c Hc) as [bp Eb].
    assert (Hl : ex_like (co_ex_ c1) (executed c).1) by exact Hex.
    assert (Ee : is_Some (ExecuteStage_latch (co_ex_ c1) (co_fetch_ c1) (co_decode_ c1)
      (co_bpred_ c1) (co_stats_ c1) (co_ex_mem_ c1))).
    { rewrite (execute_latch_eq _ _ _ _ _ _ _ Hl).
      change (co_bpred_ c1) with (co_bpred_ c). rewrite Eb. cbn [mbind option_bind]. by eexists. }
    destruct Ee as [er Ee]. apply (latch_all_total c1 wr er Ew1 Ee).
    + intros st l. rewrite Edm. by apply mem_latch_total.
    + intros st f' l. rewrite Eim. by apply fetch_latch_total.
  - destruct (mem_latch_total (co_dmem_ c1) (co_stats_ c1) (co_mem_wb_ c1)) as [mr Em];
      [by rewrite Edm|].
    exact (latch_stalled_total c1 wr mr Ew1 Em).
Qed.

Lemma tick_total c :
  core_wf c -> co_halted_ c = false -> cycle_safe c -> is_Some (Core_tick c).
Proof using Type.
  intros Hc Hh Hs. destruct (evaluate_safe c Hc Hs) as [c1 Ev].
  destruct (evaluate_inv c c1 (cw_quiescent c Hc) Ev) as (imem & st1 & f & next & id & dmem1 & st2 &
    dmem2 & wb & served_i & served_d & e & EI & EF & ED & EM & EA & Hex & Hst & Ec1).
  pose proof EI as EI'. apply ready_keeps in EI' as (Hi & _ & _); [|apply (cw_imem c Hc)|apply (cw_pc c Hc)].
  apply request_keeps in EM as (Hd & _ & _); [|apply (cw_dmem c Hc)|apply (cw_ex c Hc)].
  assert (Hd2 : mem_inv dmem2).
  { destruct served_d; [|by injection EA as <- _].
    by apply (accessed_keeps _ _ _ _ Hd (cw_ex c Hc) EA). }
  assert (Hwb : v_wb c1 = v_wb c) by (rewrite Ec1; by destruct c).
  destruct (retire_total c1) as [c2 Er]; [rewrite Hwb; apply (cw_wb c Hc)|].
  destruct (retire_inv c1 c2 Er) as [t Ec2]. rewrite Ec1 in Ec2.
  pose proof (latch_safe c c2 t imem f next id st2 dmem2 wb served_i served_d e Hc Hi Hd2 Hex Ec2)
    as [c3 El].
  unfold Core_tick. rewrite Hh, Ev. cbn [mbind option_bind]. rewrite Er. cbn [mbind option_bind].
  rewrite Hst, El. cbn [mbind option_bind]. by eexists.
Qed.
End Total.
