(* ===== verification/Refine.v ===== *)
(** * The pipeline follows the serial machine

    A simulation between a core and the serial machine.  The retired state is
    the one the register file holds; from it the contents of MEM/WB, EX/MEM,
    ID/EX and IF/ID determine, in program order, the states before each of the
    younger instructions, down to the PC being fetched.  A younger instruction
    is on the right path only while no older one halts the program or was
    predicted in the wrong direction; off the right path nothing is claimed. *)

From S2P Require Import Prelude Isa Formats DecoderSpec Alu Regfile Config Pipe Memory.
From S2P Require Import BranchPredictor Stages Tracer Core CoreStep IsaSpec Serial CoreInv SerialFacts.

(** ** Forwarding *)

Lemma xreg_0 rf : xreg rf 0 = 0.
Proof. done. Qed.

Lemma wrote_wb_bubble s : wrote_wb bubble s s.
Proof. by intros r Hr. Qed.
Lemma wrote_ex_bubble s : wrote_ex bubble s s.
Proof. by intros r Hr _. Qed.

(** The value [resolve] selects is the register after the three instructions
    ahead, whatever has already reached the register file. *)
Lemma forwarding ex wb prev s0 s1 s2 s3 r :
  0 <= r < 32 -> wrote_wb prev s0 s1 -> wrote_wb wb s1 s2 -> wrote_ex ex s2 s3 ->
  (r <> 0 -> em_valid ex && is_load (em_op ex) = true -> em_rd ex <> r) ->
  resolve ex wb prev r (xreg (a_regs s0) r) = xreg (a_regs s3) r.
Proof.
  intros Hr H1 H2 H3 Hl. unfold resolve. destruct (Z.eqb_spec r 0) as [->|Hne]; [done|].
  rewrite (H3 r Hr (Hl Hne)), (H2 r Hr), (H1 r Hr).
  destruct (Z.eqb_spec r 0); [done|]. cbn [negb]. by rewrite !andb_true_r.
Qed.

(** On a MEM stall the captured value is what forwarding gave. *)
Lemma capture_stable ex wb prev r v :
  resolve ex bubble wb r (resolve ex wb prev r v) = resolve ex wb prev r v.
Proof. unfold resolve. cbn. by repeat case_match. Qed.

(** ** EX on the right path *)

(** An ID/EX payload holding instruction [raw] of state [s], operands aside. *)
Definition holds_insn (id : IdEx) (s : arch) (raw : Z) : Prop :=
  let i := decode raw (a_pc s) in
  ie_pc id = a_pc s /\ ie_raw id = raw /\ ie_op id = i_op i /\ ie_rd id = i_rd i /\
  ie_rs1 id = i_rs1 i /\ ie_rs2 id = i_rs2 i /\ ie_imm id = i_imm i.

Lemma execute_on_path bpe id s raw x y :
  holds_insn id s raw ->
  x = xreg (a_regs s) (i_rs1 (decode raw (a_pc s))) ->
  y = xreg (a_regs s) (i_rs2 (decode raw (a_pc s))) ->
  let e := (execute bpe id x y).1 in
  (execute bpe id x y).2 = in_execute s raw /\
  ex_redirect_ e = negb (Bool.eqb (em_branch_taken (in_execute s raw)) (ie_predicted_taken id)) /\
  ex_redirect_target_ e = next_pc s (in_execute s raw) /\
  (ex_train_ e = true ->
     ex_train_pc_ e = a_pc s /\ ex_train_target_ e = u32 (a_pc s + i_imm (decode raw (a_pc s))) /\
     (if ex_train_cond_ e then is_cond_branch (i_op (decode raw (a_pc s))) = true
      else i_op (decode raw (a_pc s)) = JAL)).
Proof.
  intros (E1 & E2 & E3 & E4 & E5 & E6 & E7) -> ->. unfold in_execute, next_pc, execute, in_decode.
  cbn [ie_op ie_pc ie_raw ie_rd ie_imm ie_rs1_val ie_rs2_val]. rewrite E1, E2, E3, E4, E7.
  destruct (op_eqb _ JAL || op_eqb _ JALR) eqn:Ej; cbn; split_and!; try done.
  - intros [Hb Ht]%andb_true_iff. rewrite !u32_add_r.
    destruct (is_cond_branch (i_op (decode raw (a_pc s)))) eqn:Ec.
    + split_and!; [done| |done]. by destruct (i_op (decode raw (a_pc s))).
    + cbn in Ht. unfold op_eqb in *. apply bool_decide_eq_true in Ht. rewrite Ht. by split_and!.
  - intros [Hb Ht]%andb_true_iff. rewrite !u32_add_r. split_and!; [done..|].
    apply orb_false_iff in Ej as [Ej _]. rewrite Ej, orb_false_r in Ht. by rewrite Ht.
Qed.

(** ** The states ahead *)

Section Ahead.
Context (im : ram) (Him : ram_wf im).

(** The state after the next instruction, if the program goes on. *)
Definition advance (o : option arch) : option arch :=
  s ← o;
  '(wb, s') ← serial_step im s;
  if is_halt_op (mw_op wb) then None else Some s'.

(** Whether the instruction at [s] leaves the straight line. *)
Definition direction (s : arch) : bool :=
  match ram_load 4 im (a_pc s) with
  | Some raw => em_branch_taken (in_execute s raw)
  | None => false
  end.

(** The same, if the front end predicted it. *)
Definition follow (predicted : bool) (o : option arch) : option arch :=
  s ← o; if Bool.eqb (direction s) predicted then advance (Some s) else None.

Definition after_ex (ex : ExMem) (o : option arch) : option arch :=
  if em_valid ex then advance o else o.
Definition after_id (id : IdEx) (o : option arch) : option arch :=
  if ie_valid id then follow (ie_predicted_taken id) o else o.
Definition after_if (f : IfId) (o : option arch) : option arch :=
  if if_valid f then follow (if_predicted_taken f) o else o.

Lemma advance_None : advance None = None.
Proof. done. Qed.

(** What a BTB entry for the word [w] says of the instruction there. *)
Definition trained_branch (w target : Z) (cond : bool) : Prop :=
  forall raw, ram_load 4 im (4 * w) = Some raw ->
    target = u32 (4 * w + i_imm (decode raw (4 * w))) /\
    (if cond then is_cond_branch (i_op (decode raw (4 * w))) = true
     else i_op (decode raw (4 * w)) = JAL).

Definition predictor_sound (bp : option BranchPredictor) : Prop :=
  forall p k, bp = Some p -> BranchPredictor_inv k p -> btb_sound trained_branch k p.

(** A branch or JAL taken goes to the trained target. *)
Lemma trained_next s raw target cond :
  arch_wf s -> ram_load 4 im (a_pc s) = Some raw -> a_pc s mod 4 = 0 ->
  trained_branch (a_pc s / 4) target cond -> direction s = true ->
  next_pc s (in_execute s raw) = target.
Proof using Him.
  intros Hs Hraw Ha Ht Hd.
  assert (Ea : 4 * (a_pc s / 4) = a_pc s) by (pose proof (Z.div_mod (a_pc s) 4); lia).
  unfold trained_branch in Ht. rewrite Ea in Ht. destruct (Ht raw Hraw) as [-> Hc].
  unfold direction in Hd. rewrite Hraw in Hd. unfold next_pc. rewrite Hd.
  assert (Hop : op_eqb (i_op (decode raw (a_pc s))) JALR = false).
  { destruct cond; [|by rewrite Hc]. by destruct (i_op (decode raw (a_pc s))). }
  unfold in_execute, execute, in_decode. cbn [ie_op ie_pc ie_imm]. rewrite Hop.
  destruct (_ || false); cbn; by rewrite u32_add_r.
Qed.

End Ahead.

(** ** The simulation *)

Section Simulation.
Context {IM DM : Type} `{MemoryLaws IM} `{MemoryLaws DM}.
Abbreviation core := (Core IM DM).
Implicit Type c : core.
Context (im : ram) (Him : ram_wf im).

(** States on the path of the program: well formed, closed under [advance],
    and at aligned PCs when a predictor is used. *)
Context (good : arch -> Prop) (predicts : Prop).
Context (good_wf : forall s, good s -> arch_wf s).
Context (good_advance : forall s s', good s -> advance im (Some s) = Some s' -> good s').
Context (good_aligned : forall s, good s -> predicts -> a_pc s mod 4 = 0).

(** The states before the instructions in EX/MEM, ID/EX, IF/ID and the one
    being fetched, from the state [s1] after the one in MEM/WB. *)
Definition o_ex c (s1 : arch) : option arch := if halts (v_wb c) then None else Some s1.
Definition o_id c s1 : option arch := after_ex im (v_ex c) (o_ex c s1).
Definition o_if c s1 : option arch := after_id im (v_id c) (o_id c s1).
Definition o_pc c s1 : option arch := after_if im (v_if c) (o_if c s1).

(** [s0] is the retired state, [s1] the state after the instruction in
    MEM/WB, which has accessed memory but not yet written its register. *)
Record tracks c (s0 s1 : arch) : Prop := mkTracks {
  tk_good : good s0;
  tk_wb : if mw_valid (v_wb c) then serial_step im s0 = Some (v_wb c, s1) else s1 = s0;
  tk_rf : co_rf_ c = a_regs s0;
  tk_mem : mem_ram (co_dmem_ c) = a_mem s1;
  tk_ex s : em_valid (v_ex c) = true -> o_ex c s1 = Some s ->
    exists raw, ram_load 4 im (a_pc s) = Some raw /\ v_ex c = in_execute s raw;
  tk_id s : ie_valid (v_id c) = true -> o_id c s1 = Some s ->
    exists raw, ram_load 4 im (a_pc s) = Some raw /\ holds_insn (v_id c) s raw /\
      operand c (ie_rs1 (v_id c)) (ie_rs1_val (v_id c)) = xreg (a_regs s) (ie_rs1 (v_id c)) /\
      operand c (ie_rs2 (v_id c)) (ie_rs2_val (v_id c)) = xreg (a_regs s) (ie_rs2 (v_id c));
  tk_if s : if_valid (v_if c) = true -> o_if c s1 = Some s ->
    if_pc (v_if c) = a_pc s /\ ram_load 4 im (a_pc s) = Some (if_raw (v_if c));
  tk_pc s : o_pc c s1 = Some s -> v_pc c = a_pc s;
  tk_bp : o_id c s1 <> None -> predictor_sound im (co_bpred_ c);
  tk_predicts : is_Some (co_bpred_ c) -> predicts;
}.

Lemma serial_step_good s wb s' :
  good s -> serial_step im s = Some (wb, s') -> is_halt_op (mw_op wb) = false -> good s'.
Proof using good_advance.
  intros Hs E Hh. apply (good_advance s); [done|]. unfold advance. cbn [mbind option_bind].
  rewrite E. cbn [mbind option_bind]. by rewrite Hh.
Qed.

Lemma advance_good o s : (forall s, o = Some s -> good s) -> advance im o = Some s -> good s.
Proof using good_advance.
  intros Ho E. destruct o as [s0|]; [|done]. by apply (good_advance s0); [apply Ho|].
Qed.

Lemma follow_advance p o s : follow im p o = Some s -> advance im o = Some s.
Proof using Type. unfold follow. destruct o as [s0|]; cbn; [|done]. by destruct (Bool.eqb _ _). Qed.

(** The state ahead of MEM/WB. *)
Lemma tracks_s1 c s0 s1 :
  tracks c s0 s1 -> halts (v_wb c) = false -> good s1 /\ wrote_wb (v_wb c) s0 s1.
Proof using good_wf good_advance Him.
  intros Ht Hh. pose proof (tk_wb _ _ _ Ht) as Hwb. pose proof (tk_good _ _ _ Ht) as Hg.
  unfold halts in Hh. destruct (mw_valid (v_wb c)) eqn:Ev; cbn [andb] in Hh.
  - split; [by eapply serial_step_good|].
    destruct (serial_step_raw im _ _ _ Hwb) as [raw Hraw].
    destruct (serial_step_inv im Him s0 (good_wf _ Hg) raw Hraw _ _ Hwb) as (Em & _).
    destruct (mem_perform_fields _ _ _ _ Em) as (_ & _ & Fo & _).
    destruct (in_execute_fields s0 raw) as (_ & _ & Eo & _).
    eapply (serial_step_wrote im Him s0 (good_wf _ Hg) raw Hraw); [done|congruence].
  - subst s1. split; [done|]. intros r Hr. by rewrite Ev.
Qed.

(** The register file after this cycle's write-back. *)
Lemma retired_rf c c' s0 s1 :
  tracks c s0 s1 -> retired c c' -> co_rf_ c' = a_regs s1.
Proof using Type.
  intros Ht Hr. pose proof (tk_wb _ _ _ Ht) as Hwb. pose proof (rt_rf _ _ Hr) as Hw.
  rewrite (tk_rf _ _ _ Ht) in Hw. destruct (mw_valid (v_wb c)) eqn:Ev.
  - destruct (serial_step_parts _ _ _ _ Hwb) as (raw & _ & _ & Ew & _).
    rewrite Ew in Hw. by apply Some_inj in Hw.
  - subst s1. unfold written in Hw. rewrite Ev in Hw. by injection Hw.
Qed.

(** *** A stalled cycle *)

Lemma tracks_stalled c c' s0 s1 :
  tracks c s0 s1 -> halts (v_wb c) = false -> retired c c' ->
  mem_ram (co_dmem_ c') = mem_ram (co_dmem_ c) ->
  v_if c' = v_if c -> v_id c' = captured c -> v_ex c' = v_ex c -> v_wb c' = bubble ->
  v_pc c' = v_pc c -> co_bpred_ c' = co_bpred_ c ->
  tracks c' s1 s1.
Proof using good_wf good_advance Him.
  intros Ht Hh Hr Hm Eif Eid Eex Ewb Epc Ebp.
  assert (O1 : o_ex c' s1 = o_ex c s1) by (unfold o_ex; by rewrite Ewb, Hh).
  assert (O2 : o_id c' s1 = o_id c s1) by (unfold o_id; by rewrite O1, Eex).
  assert (Hcap : ie_valid (captured c) = ie_valid (v_id c) /\
    ie_predicted_taken (captured c) = ie_predicted_taken (v_id c)).
  { unfold captured. by destruct (ie_valid (v_id c)) eqn:E; cbn; rewrite ?E. }
  destruct Hcap as [Hv Hp].
  assert (O3 : o_if c' s1 = o_if c s1) by (unfold o_if, after_id; by rewrite O2, Eid, Hv, Hp).
  assert (O4 : o_pc c' s1 = o_pc c s1) by (unfold o_pc; by rewrite O3, Eif).
  assert (Hop : forall r v, operand c' r (operand c r v) = operand c r v).
  { intros r v. unfold operand. rewrite Eex, Ewb, (rt_prev _ _ Hr). apply capture_stable. }
  constructor; rewrite ?O1, ?O2, ?O3, ?O4, ?Eif, ?Eex, ?Epc, ?Ebp; try apply Ht.
  - by apply (tracks_s1 c s0 s1).
  - by rewrite Ewb.
  - by apply (retired_rf c c' s0).
  - rewrite Hm. apply Ht.
  - intros s Hs Ho. rewrite Eid, Hv in Hs. destruct (tk_id _ _ _ Ht s Hs Ho) as (raw & Hraw & Hi & H1' & H2').
    exists raw. rewrite Eid. unfold captured. rewrite Hs. cbn. rewrite !Hop. done.
Qed.

(** *** A full cycle, stage by stage *)

Lemma executed_valid c : em_valid (executed c).2 = ie_valid (v_id c).
Proof using Type.
  unfold executed. destruct (ie_valid (v_id c)); cbn [negb]; [|done]. apply execute_fields.
Qed.

Lemma executed_on_path c s0 s1 s :
  tracks c s0 s1 -> ie_valid (v_id c) = true -> o_id c s1 = Some s ->
  exists raw, ram_load 4 im (a_pc s) = Some raw /\ (executed c).2 = in_execute s raw /\
    ex_redirect_ (executed c).1 = negb (Bool.eqb (direction im s) (ie_predicted_taken (v_id c))) /\
    ex_redirect_target_ (executed c).1 = next_pc s (in_execute s raw) /\
    (ex_train_ (executed c).1 = true ->
       ex_train_pc_ (executed c).1 = a_pc s /\
       ex_train_target_ (executed c).1 = u32 (a_pc s + i_imm (decode raw (a_pc s))) /\
       (if ex_train_cond_ (executed c).1 then is_cond_branch (i_op (decode raw (a_pc s))) = true
        else i_op (decode raw (a_pc s)) = JAL)).
Proof using Type.
  intros Ht Hv Ho. destruct (tk_id _ _ _ Ht s Hv Ho) as (raw & Hraw & Hi & H1' & H2').
  exists raw. split; [done|]. unfold executed, direction. rewrite Hv, Hraw. cbn [negb].
  destruct Hi as (E1 & E2 & E3 & E4 & E5 & E6 & E7).
  apply execute_on_path; [by split_and!|congruence|congruence].
Qed.

(** Past EX, a cycle without redirect continues the right path. *)
Lemma no_redirect c s0 s1 :
  tracks c s0 s1 -> ex_redirect_ (executed c).1 = false ->
  after_ex im (executed c).2 (o_id c s1) = o_if c s1.
Proof using Type.
  intros Ht Hr. unfold after_ex, o_if, after_id. rewrite executed_valid.
  destruct (ie_valid (v_id c)) eqn:Hv; [|done]. destruct (o_id c s1) as [s|] eqn:Ho; [|done].
  destruct (executed_on_path c s0 s1 s Ht Hv Ho) as (raw & _ & _ & Hx & _). rewrite Hx in Hr.
  unfold follow. cbn [mbind option_bind]. by destruct (Bool.eqb _ _).
Qed.

(** A redirect restarts the front end at the next PC. *)
Lemma redirect c s0 s1 s :
  tracks c s0 s1 -> ex_redirect_ (executed c).1 = true ->
  after_ex im (executed c).2 (o_id c s1) = Some s -> ex_redirect_target_ (executed c).1 = a_pc s.
Proof using good_wf good_advance Him.
  intros Ht Hr Ha. unfold after_ex in Ha. rewrite executed_valid in Ha.
  destruct (ie_valid (v_id c)) eqn:Hv; [|unfold executed in Hr; by rewrite Hv in Hr].
  destruct (o_id c s1) as [s2|] eqn:Ho; [|done].
  destruct (executed_on_path c s0 s1 s2 Ht Hv Ho) as (raw & Hraw & _ & _ & -> & _).
  unfold advance in Ha. cbn [mbind option_bind] in Ha.
  destruct (serial_step im s2) as [[wb s3]|] eqn:Es; cbn [mbind option_bind] in Ha; [|done].
  destruct (is_halt_op (mw_op wb)); [done|]. apply Some_inj in Ha as <-.
  destruct (serial_step_parts _ _ _ _ Es) as (raw' & Hraw' & _ & _ & ->).
  rewrite Hraw in Hraw'. by apply Some_inj in Hraw' as <-.
Qed.

(** MEM performs the access of the next instruction. *)
Lemma full_mem c s0 s1 dmem1 dmem2 wb' :
  tracks c s0 s1 -> core_wf c -> halts (v_wb c) = false ->
  mem_inv dmem1 -> mem_ram dmem1 = mem_ram (co_dmem_ c) ->
  accessed dmem1 (v_ex c) = Some (dmem2, wb') ->
  exists s2, (if mw_valid wb' then serial_step im s1 = Some (wb', s2) else s2 = s1) /\
    mem_ram dmem2 = a_mem s2 /\ (if halts wb' then None else Some s2) = o_id c s1.
Proof using good_wf good_advance Him.
  intros Ht Hc Hh Hd Hdr E. destruct (tracks_s1 c s0 s1 Ht Hh) as [Hg _].
  unfold accessed in E. unfold o_id, o_ex, after_ex. rewrite Hh.
  destruct (em_valid (v_ex c)) eqn:Hv; cbn [negb] in E.
  - destruct (tk_ex _ _ _ Ht s1 Hv) as (raw & Hraw & Hex); [unfold o_ex; by rewrite Hh|].
    pose proof (mem_perform_ok dmem1 (v_ex c) Hd) as Hok. rewrite E, Hdr, (tk_mem _ _ _ Ht), Hex in Hok.
    destruct Hok as [Hm _]; [rewrite <- Hex; apply (cw_ex c Hc)|].
    pose proof (mem_perform_fields _ _ _ _ Hm) as (_ & _ & _ & _ & Fv & _). rewrite Fv.
    destruct (written_total (a_regs s1) wb') as [rf Hrf]; [apply (good_wf _ Hg)| |].
    { eapply mem_perform_wb_wf; [exact Hd|apply (cw_ex c Hc)|exact E]. }
    assert (Es : serial_step im s1 = Some (wb', mkArch (next_pc s1 (in_execute s1 raw)) rf (mem_ram dmem2))).
    { rewrite (serial_step_access im s1 raw Hraw), Hm. cbn [mbind option_bind]. by rewrite Hrf. }
    eexists. split; [exact Es|]. split; [done|]. unfold advance, halts. cbn [mbind option_bind].
    rewrite Es, Fv. done.
  - injection E as <- <-. exists s1. split; [done|]. rewrite Hdr. split; [apply Ht|done].
Qed.

(** The predictor stays sound while the instruction in EX is on the path. *)
Lemma trained_sound c s0 s1 bp :
  tracks c s0 s1 -> core_wf c -> halts (v_wb c) = false ->
  trained (executed c).1 (co_bpred_ c) = Some bp -> o_id c s1 <> None -> predictor_sound im bp.
Proof using good_wf good_advance good_aligned Him.
  intros Ht Hc Hh E Ho. pose proof (tk_bp _ _ _ Ht Ho) as Hs. unfold trained in E.
  destruct (ex_train_ (executed c).1) eqn:Et; [|by injection E as <-].
  destruct (co_bpred_ c) as [p|] eqn:Ebp; cbn [mbind option_bind] in E; [|done].
  match type of E with context [BranchPredictor_update p ?a ?b ?d ?e] =>
    destruct (BranchPredictor_update p a b d e) as [p'|] eqn:Eu; cbn [mbind option_bind] in E; [|done] end.
  injection E as <-. pose proof (cw_bp c Hc) as Hb. rewrite Ebp in Hb. destruct Hb as (k & Hk & _).
  pose proof (executed_wf c Hc) as (_ & _ & _ & Hpc & _).
  destruct (update_spec k p _ (ex_train_cond_ (executed c).1) (ex_train_taken_ (executed c).1)
    (ex_train_target_ (executed c).1) Hk Hpc) as (p1 & E1 & Hk' & _). rewrite E1 in Eu. injection Eu as ->.
  intros p2 k2 [= <-] Hk2. assert (k2 = k) as -> by (rewrite <- (bi_index_bits _ _ Hk2); apply Hk').
  eapply btb_sound_update; [exact Hk|exact Hpc|by apply Hs| |exact E1].
  destruct (ie_valid (v_id c)) eqn:Hv; [|unfold executed in Et; by rewrite Hv in Et].
  destruct (o_id c s1) as [s|] eqn:Eo; [|done].
  destruct (executed_on_path c s0 s1 s Ht Hv Eo) as (raw & Hraw & _ & _ & _ & Htr).
  destruct (Htr Et) as (-> & -> & Hcond).
  assert (Hg : good s).
  { destruct (tracks_s1 c s0 s1 Ht Hh) as [Hg _]. unfold o_id, o_ex, after_ex in Eo. rewrite Hh in Eo.
    destruct (em_valid (v_ex c)); [by apply (good_advance s1)|by injection Eo as <-]. }
  assert (Ea : 4 * (a_pc s / 4) = a_pc s).
  { pose proof (good_aligned s Hg (tk_predicts _ _ _ Ht ltac:(rewrite Ebp; done))).
    pose proof (Z.div_mod (a_pc s) 4). lia. }
  intros raw' Hraw'. rewrite Ea in *. rewrite Hraw in Hraw'. by injection Hraw' as <-.
Qed.

(** The transitions seen by forwarding next cycle. *)
Lemma wrote_next_wb s wb s' :
  good s -> (if mw_valid wb then serial_step im s = Some (wb, s') else s' = s) ->
  halts wb = false -> good s' /\ wrote_wb wb s s'.
Proof using good_wf good_advance Him.
  intros Hg E Hh. unfold halts in Hh. destruct (mw_valid wb) eqn:Ev; cbn [andb] in Hh.
  - split; [by eapply serial_step_good|].
    destruct (serial_step_raw im _ _ _ E) as [raw Hraw].
    destruct (serial_step_inv im Him s (good_wf _ Hg) raw Hraw _ _ E) as (Em & _).
    destruct (mem_perform_fields _ _ _ _ Em) as (_ & _ & Fo & _).
    destruct (in_execute_fields s raw) as (_ & _ & Eo & _).
    eapply (serial_step_wrote im Him s (good_wf _ Hg) raw Hraw); [done|congruence].
  - subst s'. split; [done|]. intros r Hr. by rewrite Ev.
Qed.

Lemma wrote_next_ex c s0 s1 s2 s3 :
  tracks c s0 s1 -> good s2 -> o_id c s1 = Some s2 ->
  after_ex im (executed c).2 (o_id c s1) = Some s3 -> wrote_ex (executed c).2 s2 s3.
Proof using good_wf Him.
  intros Ht Hg Eo E. rewrite Eo in E. unfold after_ex in E. rewrite executed_valid in E.
  destruct (ie_valid (v_id c)) eqn:Hv.
  - destruct (executed_on_path c s0 s1 s2 Ht Hv Eo) as (raw & Hraw & -> & _).
    unfold advance in E. cbn [mbind option_bind] in E.
    destruct (serial_step im s2) as [[wb s3']|] eqn:Es; cbn [mbind option_bind] in E; [|done].
    destruct (is_halt_op (mw_op wb)) eqn:Eh; [done|]. injection E as ->.
    destruct (serial_step_inv im Him s2 (good_wf _ Hg) raw Hraw _ _ Es) as (Em & _).
    destruct (mem_perform_fields _ _ _ _ Em) as (_ & _ & Fo & _).
    destruct (in_execute_fields s2 raw) as (_ & _ & Fe & _).
    eapply (serial_step_wrote im Him s2 (good_wf _ Hg) raw Hraw); [done|congruence].
  - injection E as <-. intros r Hr _. by rewrite executed_valid, Hv.
Qed.

(** The interlock leaves no operand waiting for a load. *)
Lemma no_interlock c r :
  interlock c = false -> core_wf c ->
  r = rs1 (if_raw (v_if c)) \/ r = rs2 (if_raw (v_if c)) ->
  r <> 0 -> em_valid (executed c).2 && is_load (em_op (executed c).2) = true ->
  em_rd (executed c).2 <> r.
Proof using Type.
  intros Hi Hc Hr Hne Hl Er. rewrite executed_valid in Hl. apply andb_true_iff in Hl as [Hv Hl].
  unfold executed in Hl, Er. rewrite Hv in Hl, Er. cbn [negb] in Hl, Er.
  destruct (execute_fields (bool_decide (is_Some (co_bpred_ c))) (v_id c)
    (operand c (ie_rs1 (v_id c)) (ie_rs1_val (v_id c))) (operand c (ie_rs2 (v_id c)) (ie_rs2_val (v_id c))))
    as (_ & _ & Fo & Fd & _). rewrite Fo in Hl. rewrite Fd in Er.
  unfold interlock in Hi. rewrite Hv, Hl, Er in Hi. destruct (Z.eqb_spec r 0); [done|].
  cbn [andb negb] in Hi. apply orb_false_iff in Hi as [H1' H2'].
  pose proof (reg_fields_range (if_raw (v_if c))) as (_ & Hr1 & Hr2).
  change (Z.land (Z.shiftr (if_raw (v_if c)) 15) 31) with (rs1 (if_raw (v_if c))) in H1'.
  change (Z.land (Z.shiftr (if_raw (v_if c)) 20) 31) with (rs2 (if_raw (v_if c))) in H2'.
  rewrite u8_reg in H1', H2' by done. destruct Hr as [-> | ->]; by rewrite Z.eqb_refl in *.
Qed.

(** ID reads operands that forwarding will complete. *)
Lemma full_decode c s0 s1 s2 s3 wb' id :
  tracks c s0 s1 -> core_wf c -> halts (v_wb c) = false -> interlock c = false ->
  (if mw_valid wb' then serial_step im s1 = Some (wb', s2) else s2 = s1) ->
  (if halts wb' then None else Some s2) = o_id c s1 ->
  decoded (co_rf_ c) (v_if c) = Some id -> if_valid (v_if c) = true ->
  after_ex im (executed c).2 (o_id c s1) = Some s3 -> o_if c s1 = Some s3 ->
  exists raw, ram_load 4 im (a_pc s3) = Some raw /\ holds_insn id s3 raw /\
    resolve (executed c).2 wb' (v_wb c) (ie_rs1 id) (ie_rs1_val id) = xreg (a_regs s3) (ie_rs1 id) /\
    resolve (executed c).2 wb' (v_wb c) (ie_rs2 id) (ie_rs2_val id) = xreg (a_regs s3) (ie_rs2 id).
Proof using good_wf good_advance Him.
  intros Ht Hc Hh Hi Hw Ho ED Hv E3 Eif. destruct (tk_if _ _ _ Ht s3 Hv Eif) as [Hpc Hraw].
  destruct (tracks_s1 c s0 s1 Ht Hh) as [Hg1 W1].
  destruct (halts wb') eqn:Hh'; [by rewrite <- Ho in E3; unfold after_ex in E3; destruct (em_valid _)|].
  destruct (wrote_next_wb s1 wb' s2 Hg1 Hw Hh') as [Hg2 W2]. symmetry in Ho.
  pose proof (wrote_next_ex c s0 s1 s2 s3 Ht Hg2 Ho E3) as W3.
  exists (if_raw (v_if c)). split; [done|].
  unfold decoded in ED. rewrite Hv in ED. cbn [negb] in ED. rewrite Hpc in ED.
  destruct (decode_post_ok (if_raw (v_if c)) (a_pc s3) (proj2 (cw_if c Hc)))
    as (_ & _ & (_ & Hr1 & Hr2 & _) & Hs1 & Hs2 & _).
  rewrite !xreg_read in ED by (try apply Hc; done). cbn [mbind option_bind] in ED.
  injection ED as <-. rewrite (tk_rf _ _ _ Ht). unfold holds_insn. cbn.
  split; [by split_and!|].
  split; apply (forwarding _ _ _ s0 s1 s2 s3); try done; intros Hne;
    apply (no_interlock c); try done; [destruct Hs1|destruct Hs2]; auto; congruence.
Qed.

(** IF fetches the next instruction and guesses the PC after it. *)
Lemma full_fetch c s (imem1 : IM) f next served :
  core_wf c -> good s -> (is_Some (co_bpred_ c) -> predicts) -> predictor_sound im (co_bpred_ c) ->
  mem_inv imem1 -> mem_ram imem1 = im ->
  v_pc c = a_pc s -> fetched imem1 (co_bpred_ c) (v_pc c) served = Some (f, next) ->
  if served then
    if_valid f = true /\ if_pc f = a_pc s /\ ram_load 4 im (a_pc s) = Some (if_raw f) /\
    (forall s', follow im (if_predicted_taken f) (Some s) = Some s' -> next = a_pc s')
  else f = bubble /\ next = v_pc c.
Proof using good_wf good_aligned Him.
  intros Hc Hg Hp Hs Hm Er Epc E. unfold fetched in E. destruct served; cbn [negb] in E;
    [|by injection E as <- <-].
  rewrite load_word_ram, Er, Epc in E by (try done; rewrite ?Epc; apply (good_wf _ Hg)).
  destruct (ram_load 4 im (a_pc s)) as [raw|] eqn:Hraw; cbn [mbind option_bind] in E; [|done].
  assert (Hfol : forall p s', follow im p (Some s) = Some s' ->
    direction im s = p /\ a_pc s' = next_pc s (in_execute s raw)).
  { intros p s' E'. pose proof (follow_advance _ _ _ E') as Ea. unfold follow in E'. cbn in E'.
    destruct (Bool.eqb_spec (direction im s) p) as [Ed|]; [|done]. split; [done|].
    unfold advance in Ea. cbn [mbind option_bind] in Ea.
    destruct (serial_step im s) as [[wb s2]|] eqn:Es; cbn [mbind option_bind] in Ea; [|done].
    destruct (is_halt_op (mw_op wb)); [done|]. injection Ea as <-.
    by destruct (serial_step_inv im Him s (good_wf _ Hg) raw Hraw _ _ Es) as (_ & -> & _). }
  assert (Hseq : forall s', follow im false (Some s) = Some s' -> u32 (a_pc s + 4) = a_pc s').
  { intros s' E'. destruct (Hfol _ _ E') as [Ed ->]. unfold direction in Ed. rewrite Hraw in Ed.
    unfold next_pc. by rewrite Ed. }
  destruct (co_bpred_ c) as [p|] eqn:Ebp.
  - pose proof (cw_bp c Hc) as Hb. rewrite Ebp in Hb. destruct Hb as (k & Hk & _).
    rewrite (predict_spec k p Hk) in E by apply (good_wf _ Hg).
    cbn [mbind option_bind] in E. specialize (Hs p k eq_refl Hk (a_pc s)).
    destruct (btb_lookup k p (a_pc s)) as [[t cond]|] eqn:Eb;
      [|cbn in E; injection E as <- <-; split_and!; done].
    specialize (Hs t cond eq_refl). cbn [p_taken p_target] in E.
    destruct (if cond then _ else true); cbn [mbind option_bind] in E; injection E as <- <-;
      split_and!; try done.
    intros s' E'. cbn in E'. destruct (Hfol _ _ E') as [Ed ->].
    symmetry. eapply trained_next; [exact Him|apply (good_wf _ Hg)|exact Hraw| |exact Hs|exact Ed].
    apply good_aligned; [done|]. by apply Hp.
  - cbn in E. injection E as <- <-. split_and!; done.
Qed.

(** *** The front end after a full cycle *)

(** The state before the instruction in EX next cycle, seen from this cycle:
    [o_if] unless the front end is redirected. *)
Definition o_next c s1 : option arch := after_ex im (executed c).2 (o_id c s1).

Lemma o_next_good c s0 s1 s :
  tracks c s0 s1 -> halts (v_wb c) = false -> o_next c s1 = Some s -> good s.
Proof using good_wf good_advance Him.
  intros Ht Hh E. destruct (tracks_s1 c s0 s1 Ht Hh) as [Hg _].
  assert (Hid : forall s, o_id c s1 = Some s -> good s).
  { intros s' E'. unfold o_id, o_ex, after_ex in E'. rewrite Hh in E'.
    destruct (em_valid (v_ex c)); [by apply (good_advance s1)|by injection E' as <-]. }
  unfold o_next, after_ex in E. destruct (em_valid _); [by eapply advance_good|by apply Hid].
Qed.

Lemma follow_good p o s : (forall s, o = Some s -> good s) -> follow im p o = Some s -> good s.
Proof using good_advance. intros Ho E. eapply advance_good; [exact Ho|by eapply follow_advance]. Qed.

Lemma decoded_shape rf f id :
  decoded rf f = Some id ->
  ie_valid id = if_valid f /\ (if_valid f = true -> ie_predicted_taken id = if_predicted_taken f).
Proof using Type.
  unfold decoded. destruct (if_valid f); cbn [negb]; [|by intros [= <-]].
  intros E. inv_binds. simplify_eq. done.
Qed.

(** The states ahead after a full cycle. *)
Lemma full_paths c c' s0 s1 s2 id :
  tracks c s0 s1 -> o_ex c' s2 = o_id c s1 -> decoded (co_rf_ c) (v_if c) = Some id ->
  v_ex c' = (executed c).2 ->
  v_id c' = (if ex_redirect_ (executed c).1 || interlock c then bubble else id) ->
  o_id c' s2 = o_next c s1 /\ (ex_redirect_ (executed c).1 = false -> o_next c s1 = o_if c s1) /\
  o_if c' s2 = (if ex_redirect_ (executed c).1 then o_next c s1
                else if interlock c then o_if c s1 else o_pc c s1).
Proof using Type.
  intros Ht O1 ED Eex Eid. destruct (decoded_shape _ _ _ ED) as [Hidv Hidp].
  assert (O2 : o_id c' s2 = o_next c s1) by (unfold o_id, o_next; by rewrite O1, Eex).
  split; [done|]. unfold o_if at 2. rewrite O2, Eid.
  destruct (ex_redirect_ (executed c).1) eqn:Er; [done|]. cbn [orb].
  pose proof (no_redirect c s0 s1 Ht Er) as O3. fold (o_next c s1) in O3. split; [done|].
  destruct (interlock c); [done|]. unfold o_pc, after_id, after_if. rewrite O3, Hidv.
  destruct (if_valid (v_if c)); [by rewrite Hidp|done].
Qed.

Lemma o_pc_some c s1 s : o_pc c s1 = Some s -> o_if c s1 <> None.
Proof using Type. unfold o_pc, after_if. destruct (if_valid _); [|congruence]. by destruct (o_if c s1). Qed.

Lemma o_next_some c s1 : o_next c s1 <> None -> o_id c s1 <> None.
Proof using Type. unfold o_next, after_ex. destruct (em_valid _); [by destruct (o_id c s1)|done]. Qed.

(** What IF fetches when the front end is on the path and moves. *)
Lemma fetch_on_path c s0 s1 s (imem1 : IM) f next served :
  tracks c s0 s1 -> core_wf c -> halts (v_wb c) = false -> ex_redirect_ (executed c).1 = false ->
  mem_inv imem1 -> mem_ram imem1 = im ->
  fetched imem1 (co_bpred_ c) (v_pc c) served = Some (f, next) -> o_pc c s1 = Some s ->
  if served then if_valid f = true /\ if_pc f = a_pc s /\ ram_load 4 im (a_pc s) = Some (if_raw f) /\
    (forall s', follow im (if_predicted_taken f) (Some s) = Some s' -> next = a_pc s')
  else f = bubble /\ next = v_pc c.
Proof using good_wf good_advance good_aligned Him.
  intros Ht Hc Hh Er Hmi Hri EF E.
  pose proof (no_redirect c s0 s1 Ht Er) as O3. fold (o_next c s1) in O3.
  apply (full_fetch c s imem1 f next served Hc); try done;
    [|by apply (tk_predicts _ _ _ Ht)|apply (tk_bp _ _ _ Ht)|by apply (tk_pc _ _ _ Ht)].
  - unfold o_pc, after_if in E. rewrite <- O3 in E. destruct (if_valid (v_if c)).
    + eapply follow_good; [|exact E]. intros s'. by apply (o_next_good c s0).
    + by apply (o_next_good c s0 s1).
  - apply o_next_some. rewrite O3. by eapply o_pc_some.
Qed.

Lemma tracks_full c c' s0 s1 served (imem1 : IM) f next id (dmem1 dmem2 : DM) :
  tracks c s0 s1 -> core_wf c -> halts (v_wb c) = false -> retired c c' ->
  mem_inv imem1 -> mem_ram imem1 = im ->
  fetched imem1 (co_bpred_ c) (v_pc c) served = Some (f, next) ->
  decoded (co_rf_ c) (v_if c) = Some id ->
  mem_inv dmem1 -> mem_ram dmem1 = mem_ram (co_dmem_ c) ->
  accessed dmem1 (v_ex c) = Some (dmem2, v_wb c') ->
  trained (executed c).1 (co_bpred_ c) = Some (co_bpred_ c') ->
  (is_Some (co_bpred_ c') -> predicts) ->
  mem_ram (co_dmem_ c') = mem_ram dmem2 ->
  v_ex c' = (executed c).2 ->
  v_id c' = (if ex_redirect_ (executed c).1 || interlock c then bubble else id) ->
  v_if c' = (if ex_redirect_ (executed c).1 then bubble else if interlock c then v_if c else f) ->
  v_pc c' = (if ex_redirect_ (executed c).1 then ex_redirect_target_ (executed c).1
             else if interlock c then v_pc c else if served then next else v_pc c) ->
  exists s2, tracks c' s1 s2.
Proof using good_wf good_advance good_aligned Him.
  intros Ht Hc Hh Hret Hmi Hri EF ED Hmd Hrd EA EB Hp Hm Eex Eid Eif Epc.
  destruct (full_mem c s0 s1 dmem1 dmem2 (v_wb c') Ht Hc Hh Hmd Hrd EA) as (s2 & Hw & Hms & Ho).
  exists s2. assert (O1 : o_ex c' s2 = o_id c s1) by done.
  destruct (full_paths c c' s0 s1 s2 id Ht O1 ED Eex Eid) as (O2 & On & O3).
  constructor; rewrite ?O1, ?O2; try done.
  - by apply (tracks_s1 c s0 s1).
  - by apply (retired_rf c c' s0).
  - by rewrite Hm.
  - intros s Hv Eo. rewrite Eex, executed_valid in Hv.
    destruct (executed_on_path c s0 s1 s Ht Hv Eo) as (raw & ? & ? & _). exists raw. by rewrite Eex.
  - intros s Hv E. destruct (decoded_shape _ _ _ ED) as [Hidv _].
    destruct (ex_redirect_ (executed c).1), (interlock c) eqn:Ei; cbn [orb] in Eid; rewrite Eid in *;
      [done..|].
    rewrite Hidv in Hv. unfold operand. rewrite Eex, (rt_prev _ _ Hret).
    eapply (full_decode c s0 s1 s2 s (v_wb c') id); eauto. by rewrite <- On.
  - rewrite O3. destruct (ex_redirect_ (executed c).1) eqn:Er; [by rewrite Eif|].
    destruct (interlock c); rewrite Eif; [apply Ht|]. intros s Hv E.
    pose proof (fetch_on_path c s0 s1 s imem1 f next served Ht Hc Hh Er Hmi Hri EF E) as Hf.
    destruct served; [by destruct Hf as (_ & ? & ? & _)|by destruct Hf as [-> _]].
  - intros s E. unfold o_pc in E. rewrite O3, Eif in E. rewrite Epc.
    destruct (ex_redirect_ (executed c).1) eqn:Er; [by apply (redirect c s0 s1)|].
    destruct (interlock c); [by apply Ht|].
    destruct (o_pc c s1) as [s4|] eqn:E4; [|unfold after_if in E; by destruct (if_valid f)].
    pose proof (fetch_on_path c s0 s1 s4 imem1 f next served Ht Hc Hh Er Hmi Hri EF E4) as Hf.
    destruct served.
    + destruct Hf as (Hv & _ & _ & Hn). unfold after_if in E. rewrite Hv in E. by apply Hn.
    + destruct Hf as [-> _]. cbn in E. injection E as <-. by apply Ht.
  - intros Hne. eapply trained_sound; eauto. by apply o_next_some.
Qed.

Lemma trained_some e bp bp' : trained e bp = Some bp' -> is_Some bp' -> is_Some bp.
Proof using Type.
  unfold trained. destruct (ex_train_ e); [|by intros [= ->]]. by destruct bp.
Qed.

(** Whatever simulates the next cycle, its first state ahead is the one after
    the instruction MEM has just served. *)
Lemma o_ex_full c c' s0 s1 s2 (dmem1 dmem2 : DM) :
  tracks c s0 s1 -> halts (v_wb c) = false -> tracks c' s1 s2 ->
  accessed dmem1 (v_ex c) = Some (dmem2, v_wb c') -> o_ex c' s2 = o_id c s1.
Proof using Type.
  intros Ht Hh Ht' EA. pose proof (tk_wb _ _ _ Ht') as Hw. unfold accessed in EA.
  unfold o_id, o_ex, after_ex. rewrite Hh. destruct (em_valid (v_ex c)); cbn [negb] in EA.
  - destruct (mem_perform_fields _ _ _ _ EA) as (_ & _ & _ & _ & Fv & _). rewrite Fv in Hw.
    unfold advance, halts. cbn [mbind option_bind]. by rewrite Hw, Fv.
  - injection EA as _ Eb. rewrite <- Eb in *. cbn in Hw. by subst.
Qed.

(** One cycle of a running core. *)
Lemma cycle_tracks c c' s0 s1 :
  tracks c s0 s1 -> core_wf c -> mem_ram (co_imem_ c) = im -> halts (v_wb c) = false ->
  cycle c c' -> exists s2, tracks c' s1 s2.
Proof using good_wf good_advance good_aligned Him.
  intros Ht Hc Hi Hh [served_i st1 dmem1 st2 st3 Hret EI ED ER EM ET _ Eif Eid Eex Ewb Epc Ebp
    | served_i imem1 st1 f next id served_d dmem1 st2 dmem2 st4 st5 st6 Hret EI EF ED EM _ EA EB ET _ EU _
      Eex Eid Eif Epc].
  - exists s1. apply ready_keeps in EM as (Hd & Hdr & _); [|apply Hc|apply (cw_ex c Hc)].
    apply tick_keeps in ET as (_ & Hdr' & _); [|done].
    apply (tracks_stalled c c' s0 s1); try done. congruence.
  - apply ready_keeps in EI as (Hi1 & Hir & _); [|apply Hc|apply Hc].
    apply request_keeps in EM as (Hd & Hdr & _); [|apply Hc|apply Hc].
    pose proof (accessed_keeps _ _ _ _ Hd (cw_ex c Hc) EA) as [Hd2 _].
    apply tick_keeps in ET as (_ & Hdr' & _); [|done].
    eapply (tracks_full c c' s0 s1 served_i imem1 f next id dmem1 dmem2); eauto; [congruence|].
    intros Hs. apply (tk_predicts _ _ _ Ht). by eapply trained_some.
Qed.
End Simulation.
