(* ===== verification/Shadow.v ===== *)
(** * In the shadow of the end of the program

    When EBREAK or an unrecognised word retires, the instructions behind it
    are already in the pipeline.  They are the words that follow it in memory:
    every payload in the pipeline is the decoding of the word at its PC, and
    the one behind a halting instruction is at the next word. *)

From S2P Require Import Prelude Isa Formats DecoderSpec Alu Regfile Config Pipe Memory.
From S2P Require Import BranchPredictor Stages Tracer Core CoreStep IsaSpec Serial CoreInv SerialFacts Refine.

Lemma is_direct_trained op (cond : bool) :
  (if cond then is_cond_branch op = true else op = JAL) -> is_direct op = true.
Proof. destruct cond; [|by intros ->]. by destruct op. Qed.

Lemma direct_not_halt op : is_halt_op op = true -> is_direct op = true -> False.
Proof. by destruct op. Qed.

Section Shadow.
Context {IM DM : Type} `{MemoryLaws IM} `{MemoryLaws DM}.
Abbreviation core := (Core IM DM).
Implicit Type c : core.
Context (im : ram) (Him : ram_wf im).

(** ** Provenance *)

Definition from_memory (pc raw : Z) (op : Op) : Prop :=
  ram_load 4 im pc = Some raw /\ op = i_op (decode raw pc).

Record provenance c : Prop := mkProvenance {
  pv_if : if_valid (v_if c) = true -> ram_load 4 im (if_pc (v_if c)) = Some (if_raw (v_if c));
  pv_id : ie_valid (v_id c) = true -> from_memory (ie_pc (v_id c)) (ie_raw (v_id c)) (ie_op (v_id c));
  pv_ex : em_valid (v_ex c) = true -> from_memory (em_pc (v_ex c)) (em_raw (v_ex c)) (em_op (v_ex c));
  pv_wb : mw_valid (v_wb c) = true -> from_memory (mw_pc (v_wb c)) (mw_raw (v_wb c)) (mw_op (v_wb c));
}.

Lemma executed_fields c :
  ie_valid (v_id c) = true ->
  em_pc (executed c).2 = ie_pc (v_id c) /\ em_raw (executed c).2 = ie_raw (v_id c) /\
  em_op (executed c).2 = ie_op (v_id c).
Proof using Type.
  intros Hv. unfold executed. rewrite Hv. cbn [negb].
  destruct (execute_fields (bool_decide (is_Some (co_bpred_ c))) (v_id c)
    (operand c (ie_rs1 (v_id c)) (ie_rs1_val (v_id c))) (operand c (ie_rs2 (v_id c)) (ie_rs2_val (v_id c))))
    as (? & ? & ? & _). done.
Qed.

Lemma captured_fields c :
  ie_valid (captured c) = ie_valid (v_id c) /\ ie_pc (captured c) = ie_pc (v_id c) /\
  ie_raw (captured c) = ie_raw (v_id c) /\ ie_op (captured c) = ie_op (v_id c).
Proof using Type. unfold captured. by destruct (ie_valid (v_id c)) eqn:E; cbn; rewrite ?E. Qed.

Lemma decoded_fields rf f id :
  decoded rf f = Some id -> if_valid f = true ->
  ie_valid id = true /\ ie_pc id = if_pc f /\ ie_raw id = if_raw f /\
  ie_op id = i_op (decode (if_raw f) (if_pc f)).
Proof using Type. unfold decoded. intros E Hv. rewrite Hv in E. cbn [negb] in E. inv_binds. by simplify_eq. Qed.

Lemma fetched_fields (imem : IM) bp pc served f next :
  mem_inv imem -> is_u32 pc -> fetched imem bp pc served = Some (f, next) -> if_valid f = true ->
  served = true /\ if_pc f = pc /\ ram_load 4 (mem_ram imem) pc = Some (if_raw f) /\
  (if_predicted_taken f = false -> next = u32 (pc + 4)).
Proof using Type.
  intros Hm Hpc E Hv. unfold fetched in E. destruct served; cbn [negb] in E; [|by injection E as <- _].
  rewrite load_word_ram in E by done.
  destruct (ram_load 4 (mem_ram imem) pc) as [raw|]; cbn [mbind option_bind] in E; [|done].
  destruct bp as [p|]; [destruct (BranchPredictor_predict p pc) as [[[] t]|]|]; cbn in E;
    [..|done|]; by injection E as <- <-.
Qed.

Lemma cycle_provenance c c' :
  core_wf c -> mem_ram (co_imem_ c) = im -> provenance c -> cycle c c' -> provenance c'.
Proof using Type.
  intros Hc Hi [Pif Pid Pex Pwb] [served_i st1 dmem1 st2 st3 Hret EI ED ER EM ET _ Eif Eid Eex Ewb Epc Ebp
    | served_i imem1 st1 f next id served_d dmem1 st2 dmem2 st4 st5 st6 Hret EI EF ED EM _ EA EB ET _ EU _
      Eex Eid Eif Epc].
  - destruct (captured_fields c) as (Cv & Cp & Cr & Co).
    constructor; rewrite ?Eif, ?Eid, ?Eex, ?Ewb, ?Cv, ?Cp, ?Cr, ?Co; done.
  - apply ready_keeps in EI as (Hi1 & Hir & _); [|apply Hc|apply Hc]. constructor.
    + rewrite Eif. destruct (ex_redirect_ _); [done|]. destruct (interlock c); [done|].
      intros Hv. destruct (fetched_fields _ _ _ _ _ _ Hi1 (cw_pc c Hc) EF Hv) as (_ & -> & Hl & _).
      congruence.
    + rewrite Eid. destruct (ex_redirect_ _ || interlock c); [done|]. intros Hv.
      destruct (decoded_shape _ _ _ ED) as [Hv' _]. rewrite Hv in Hv'. symmetry in Hv'.
      destruct (decoded_fields _ _ _ ED Hv') as (_ & -> & -> & ->). split; [by apply Pif|done].
    + rewrite Eex, executed_valid. intros Hv. destruct (executed_fields c Hv) as (-> & -> & ->). by apply Pid.
    + unfold accessed in EA. destruct (em_valid (v_ex c)) eqn:Hv; cbn [negb] in EA.
      * destruct (mem_perform_fields _ _ _ _ EA) as (-> & -> & -> & _). intros _. by apply Pex.
      * by injection EA as _ <-.
Qed.

(** ** The shadow *)

Section Path.
Context (good : arch -> Prop) (predicts : Prop).
Context (good_wf : forall s, good s -> arch_wf s).
Context (good_advance : forall s s', good s -> advance im (Some s) = Some s' -> good s').
Context (good_aligned : forall s, good s -> predicts -> a_pc s mod 4 = 0).
Abbreviation tracks := (tracks im good predicts).

Record shadow c (s1 : arch) : Prop := mkShadow {
  sh_pc : if_valid (v_if c) = true -> o_if im c s1 <> None ->
    is_halt_op (i_op (decode (if_raw (v_if c)) (if_pc (v_if c)))) = true ->
    v_pc c = u32 (if_pc (v_if c) + 4);
  sh_if : ie_valid (v_id c) = true -> o_id im c s1 <> None -> is_halt_op (ie_op (v_id c)) = true ->
    if_valid (v_if c) = true -> if_pc (v_if c) = u32 (ie_pc (v_id c) + 4);
  sh_id : em_valid (v_ex c) = true -> halts (v_wb c) = false -> is_halt_op (em_op (v_ex c)) = true ->
    ie_valid (v_id c) = true -> ie_pc (v_id c) = u32 (em_pc (v_ex c) + 4);
  sh_ex : halts (v_wb c) = true -> em_valid (v_ex c) = true -> em_pc (v_ex c) = u32 (mw_pc (v_wb c) + 4);
}.

Lemma shadow_stalled c c' s0 s1 :
  tracks c s0 s1 -> halts (v_wb c) = false -> shadow c s1 ->
  v_if c' = v_if c -> v_id c' = captured c -> v_ex c' = v_ex c -> v_wb c' = bubble ->
  v_pc c' = v_pc c -> shadow c' s1.
Proof using Type.
  intros Ht Hh [S1 S2 S3 S4] Eif Eid Eex Ewb Epc.
  destruct (captured_fields c) as (Cv & Cp & Cr & Co).
  assert (Hp : ie_predicted_taken (captured c) = ie_predicted_taken (v_id c))
    by (unfold captured; by destruct (ie_valid (v_id c))).
  assert (O2 : o_id im c' s1 = o_id im c s1) by (unfold o_id, o_ex; by rewrite Ewb, Hh, Eex).
  assert (O3 : o_if im c' s1 = o_if im c s1) by (unfold o_if, after_id; by rewrite O2, Eid, Cv, Hp).
  constructor; rewrite ?O2, ?O3, ?Eif, ?Eid, ?Eex, ?Epc, ?Cv, ?Cp, ?Co; try done.
  - intros Hv _. by apply S3.
  - by rewrite Ewb.
Qed.

(** Only a branch or a JAL is predicted taken. *)
Lemma predicted_branch c (imem1 : IM) served f next :
  core_wf c -> predictor_sound im (co_bpred_ c) -> v_pc c mod 4 = 0 ->
  fetched imem1 (co_bpred_ c) (v_pc c) served = Some (f, next) -> if_predicted_taken f = true ->
  ram_load 4 im (v_pc c) = Some (if_raw f) ->
  is_direct (i_op (decode (if_raw f) (v_pc c))) = true.
Proof using Type.
  intros Hc Hs Ha E Hp Hraw. unfold fetched in E. destruct served; cbn [negb] in E; [|by injection E as <- _].
  destruct (load_word imem1 (v_pc c)) as [raw|]; cbn [mbind option_bind] in E; [|done].
  destruct (co_bpred_ c) as [p|] eqn:Ebp; [|by injection E as <- _].
  pose proof (cw_bp c Hc) as Hb. rewrite Ebp in Hb. destruct Hb as (k & Hk & _).
  rewrite (predict_spec k p Hk _ (cw_pc c Hc)) in E. cbn [mbind option_bind] in E.
  specialize (Hs p k eq_refl Hk (v_pc c)).
  destruct (btb_lookup k p (v_pc c)) as [[t cond]|]; [|by injection E as <- _].
  specialize (Hs t cond eq_refl (if_raw f)).
  assert (Ea : 4 * (v_pc c / 4) = v_pc c) by (pose proof (Z.div_mod (v_pc c) 4); lia).
  rewrite Ea in Hs. destruct (Hs Hraw) as [_ Hop]. by eapply is_direct_trained.
Qed.

Lemma shadow_full c c' s0 s1 s2 served (imem1 : IM) f next id (dmem1 dmem2 : DM) :
  tracks c s0 s1 -> core_wf c -> halts (v_wb c) = false -> shadow c s1 -> provenance c ->
  tracks c' s1 s2 ->
  mem_inv imem1 -> mem_ram imem1 = im ->
  fetched imem1 (co_bpred_ c) (v_pc c) served = Some (f, next) ->
  decoded (co_rf_ c) (v_if c) = Some id ->
  accessed dmem1 (v_ex c) = Some (dmem2, v_wb c') ->
  v_ex c' = (executed c).2 ->
  v_id c' = (if ex_redirect_ (executed c).1 || interlock c then bubble else id) ->
  v_if c' = (if ex_redirect_ (executed c).1 then bubble else if interlock c then v_if c else f) ->
  v_pc c' = (if ex_redirect_ (executed c).1 then ex_redirect_target_ (executed c).1
             else if interlock c then v_pc c else if served then next else v_pc c) ->
  shadow c' s2.
Proof using good_wf good_advance good_aligned Him.
  intros Ht Hc Hh [S1 S2 S3 _] [_ _ Pex _] Ht' Hmi Hri EF ED EA Eex Eid Eif Epc.
  pose proof (o_ex_full im good predicts c c' s0 s1 s2 dmem1 dmem2 Ht Hh Ht' EA) as O1.
  destruct (full_paths im good predicts c c' s0 s1 s2 id Ht O1 ED Eex Eid) as (O2 & On & O3).
  destruct (decoded_shape _ _ _ ED) as [Hidv _].
  constructor; rewrite ?O2, ?O3.
  - rewrite Eif, Epc. destruct (ex_redirect_ (executed c).1) eqn:Er; [done|].
    destruct (interlock c); [done|]. intros Hv Ho Hhalt.
    destruct (o_pc im c s1) as [s|] eqn:Es; [|done].
    pose proof (fetch_on_path im Him good predicts good_wf good_advance good_aligned
      c s0 s1 s imem1 f next served Ht Hc Hh Er Hmi Hri EF Es) as Hf.
    destruct (fetched_fields _ _ _ _ _ _ Hmi (cw_pc c Hc) EF Hv) as (-> & Hpc & Hl & Hn).
    rewrite Hpc. apply Hn. destruct (if_predicted_taken f) eqn:Hp; [|done].
    rewrite Hri in Hl. rewrite Hpc in Hhalt.
    apply direct_not_halt in Hhalt; [done|]. apply (predicted_branch c imem1 true f next); try done.
    + apply (tk_bp _ _ _ _ _ _ Ht), o_next_some. rewrite On by done. by eapply o_pc_some.
    + rewrite (tk_pc _ _ _ _ _ _ Ht s Es). apply good_aligned.
      * unfold o_pc, after_if in Es. rewrite <- On in Es by done. destruct (if_valid (v_if c)).
        -- eapply follow_good; [exact good_advance| |exact Es].
           intros s'. by apply (o_next_good im Him good predicts good_wf good_advance c s0).
        -- by apply (o_next_good im Him good predicts good_wf good_advance c s0 s1).
      * apply (tk_predicts _ _ _ _ _ _ Ht). unfold fetched in EF. cbn [negb] in EF.
        destruct (co_bpred_ c); [done|]. destruct (load_word imem1 (v_pc c)); [|done].
        injection EF as <- _. done.
  - rewrite Eif, Eid. destruct (ex_redirect_ (executed c).1) eqn:Er; [done|].
    destruct (interlock c); [done|]. cbn [orb]. rewrite Hidv. intros Hv Ho Hhalt Hvf.
    destruct (fetched_fields _ _ _ _ _ _ Hmi (cw_pc c Hc) EF Hvf) as (_ & -> & _).
    destruct (decoded_fields _ _ _ ED Hv) as (_ & -> & _ & Eop). rewrite Eop in Hhalt.
    apply S1; try done. by rewrite <- On.
  - rewrite Eex, Eid, executed_valid. intros Hv Hh' Hhalt Hvi.
    destruct (ex_redirect_ (executed c).1 || interlock c); [done|]. rewrite Hidv in Hvi.
    destruct (executed_fields c Hv) as (-> & _ & Eop). rewrite Eop in Hhalt.
    destruct (decoded_fields _ _ _ ED Hvi) as (_ & -> & _). apply S2; try done.
    rewrite <- O1. unfold o_ex. by rewrite Hh'.
  - rewrite Eex, executed_valid. intros Hh' Hv. destruct (executed_fields c Hv) as (-> & _ & _).
    unfold accessed in EA. destruct (em_valid (v_ex c)) eqn:Hve; cbn [negb] in EA.
    + destruct (mem_perform_fields _ _ _ _ EA) as (-> & _ & Eop & _).
      apply S3; try done. unfold halts in Hh'. rewrite Eop in Hh'. by apply andb_true_iff in Hh' as [_ ?].
    + injection EA as _ Eb. by rewrite <- Eb in Hh'.
Qed.

Lemma cycle_shadow c c' s0 s1 s2 :
  tracks c s0 s1 -> core_wf c -> mem_ram (co_imem_ c) = im -> halts (v_wb c) = false ->
  provenance c -> shadow c s1 -> cycle c c' -> tracks c' s1 s2 -> shadow c' s2.
Proof using good_wf good_advance good_aligned Him.
  intros Ht Hc Hi Hh Hp Hs [served_i st1 dmem1 st2 st3 Hret EI ED ER EM ET _ Eif Eid Eex Ewb Epc Ebp
    | served_i imem1 st1 f next id served_d dmem1 st2 dmem2 st4 st5 st6 Hret EI EF ED EM _ EA EB ET _ EU _
      Eex Eid Eif Epc] Ht'.
  - assert (s2 = s1) as ->.
    { pose proof (tk_wb _ _ _ _ _ _ Ht') as Hw. by rewrite Ewb in Hw. }
    by apply (shadow_stalled c c' s0).
  - apply ready_keeps in EI as (Hi1 & Hir & _); [|apply Hc|apply Hc].
    apply (shadow_full c c' s0 s1 s2 served_i imem1 f next id dmem1 dmem2); try done. congruence.
Qed.
End Path.
End Shadow.
