(* ===== verification/Correct.v ===== *)
(** * The core runs the program

    From reset, every run of [Core_tick] retires the instructions of the RV32I
    machine of [IsaSpec], in order, with the same register writes, loads and
    stores, whatever the memories, caches and predictor do to the timing; it
    halts on the same instruction, and leaves the same registers and memory. *)

From S2P Require Import Prelude Isa Formats DecoderSpec Alu Regfile Config Pipe Memory.
From S2P Require Import BranchPredictor Stages Tracer Core CoreStep IsaSpec Serial CoreInv SerialFacts.
From S2P Require Import Refine Shadow.

Lemma is_halt_commit wb : is_halt (k_op (commit_of wb)) = is_halt_op (mw_op wb).
Proof. cbn. by destruct (mw_op wb). Qed.

Section Run.
Context {IM DM : Type} `{MemoryLaws IM} `{MemoryLaws DM}.
Abbreviation core := (Core IM DM).
Implicit Type c : core.

(** The instruction a cycle retires, as the tracer sees it. *)
Definition retiring c : list commit :=
  if negb (co_halted_ c) && mw_valid (v_wb c) then [commit_of (v_wb c)] else [].

(** [n] calls of [tick], with the instructions retired. *)
Fixpoint ticks (n : nat) c : option (list commit * core) :=
  match n with
  | O => Some ([], c)
  | S n =>
      '(_, c') ← Core_tick c;
      '(ks, c'') ← ticks n c';
      Some (retiring c ++ ks, c'')
  end.

(** An empty pipeline about to fetch the first instruction. *)
Record Core_start c : Prop := mkCoreStart {
  st_wf : core_wf c;
  st_running : co_halted_ c = false;
  st_if : if_valid (v_if c) = false;
  st_id : ie_valid (v_id c) = false;
  st_ex : em_valid (v_ex c) = false;
  st_wb : mw_valid (v_wb c) = false;
  st_bp : forall Q p k, co_bpred_ c = Some p -> BranchPredictor_inv k p -> btb_sound Q k p;
  st_instructions : 0 <= instructions (co_stats_ c) < 2 ^ 64;
}.

Definition start_state c : arch := mkArch (v_pc c) (co_rf_ c) (mem_ram (co_dmem_ c)).

(** ** The counters *)

Lemma cycle_counters c c' :
  core_wf c -> cycle c c' ->
  cycles (co_stats_ c') = incr64 (cycles (co_stats_ c)) /\
  instructions (co_stats_ c') =
    if mw_valid (v_wb c) then incr64 (instructions (co_stats_ c)) else instructions (co_stats_ c).
Proof using Type.
  intros Hc [served_i st1 dmem1 st2 st3 Hret EI ED ER EM ET ES _ _ _ _ _ _
    | served_i imem1 st1 f next id served_d dmem1 st2 dmem2 st4 st5 st6 Hret EI EF ED EM _ EA EB ET E4 EU ES
      _ _ _ _];
    apply ready_keeps in EI as (Hi1 & _ & C1); [|apply Hc|apply Hc| |apply Hc|apply Hc].
  - apply ready_keeps in EM as (Hd1 & _ & C2); [|apply Hc|apply (cw_ex c Hc)].
    apply tick_keeps in ET as (_ & _ & C3); [|done]. rewrite ES.
    destruct (mw_valid (v_wb c)); injection C1; injection C2; injection C3; cbn; intros; split; congruence.
  - apply request_keeps in EM as (Hd1 & _ & C2); [|apply Hc|apply Hc].
    apply accessed_keeps in EA as [Hd2 _]; [|done|apply Hc].
    apply tick_keeps in ET as (_ & _ & C3); [|done]. apply tick_keeps in EU as (_ & _ & C4); [|done].
    rewrite ES. subst st4. destruct (mw_valid (v_wb c)), (ex_control_ (executed c).1), (ex_redirect_ (executed c).1);
      injection C1; injection C2; injection C3; injection C4; cbn; intros; split; congruence.
Qed.

(** ** States of the program *)

Section Program.
Context (c0 : core) (Hstart : Core_start c0).
Abbreviation im := (mem_ram (co_imem_ c0)).
Abbreviation s_init := (start_state c0).

Definition reached (ks : list commit) (s : arch) : Prop :=
  isa_steps im (length ks) s_init = Some (ks, s) /\ Forall (fun k => is_halt (k_op k) = false) ks.

Definition good (s : arch) : Prop := arch_wf s /\ exists ks, reached ks s.

Lemma im_wf : ram_wf im.
Proof using Hstart. apply mem_ram_wf, Hstart. Qed.

Lemma s_init_wf : arch_wf s_init.
Proof using Hstart. constructor; [apply Hstart|apply Hstart|apply mem_ram_wf, Hstart]. Qed.

Lemma reached_step ks s wb s' :
  arch_wf s -> reached ks s -> serial_step im s = Some (wb, s') ->
  isa_steps im (length (ks ++ [commit_of wb])) s_init = Some (ks ++ [commit_of wb], s') /\
  (is_halt_op (mw_op wb) = false -> reached (ks ++ [commit_of wb]) s').
Proof using Hstart.
  intros Hs [E Hf] Es. apply (serial_step_isa im im_wf s wb s' Hs) in Es.
  pose proof (isa_steps_snoc _ _ _ _ _ _ _ E Hf Es) as E'.
  rewrite length_app, Nat.add_1_r. split; [done|]. intros Hh. split.
  - by rewrite length_app, Nat.add_1_r.
  - apply Forall_app. split; [done|]. constructor; [|done]. by rewrite is_halt_commit.
Qed.

Lemma arch_wf_step s wb s' : arch_wf s -> serial_step im s = Some (wb, s') -> arch_wf s'.
Proof using Hstart.
  intros Hs Es. destruct (serial_step_raw im _ _ _ Es) as [raw Hraw].
  by destruct (serial_step_inv im im_wf s Hs raw Hraw _ _ Es) as (_ & _ & _ & _ & ?).
Qed.

Lemma good_advance s s' : good s -> advance im (Some s) = Some s' -> good s'.
Proof using Hstart.
  intros [Hs [ks Hr]] E. unfold advance in E. cbn [mbind option_bind] in E.
  destruct (serial_step im s) as [[wb s1]|] eqn:Es; cbn [mbind option_bind] in E; [|done].
  destruct (is_halt_op (mw_op wb)) eqn:Eh; [done|]. injection E as <-.
  split; [by eapply arch_wf_step|]. exists (ks ++ [commit_of wb]). by apply (reached_step ks s).
Qed.

Definition predicts : Prop := is_Some (co_bpred_ c0).

Context (Haligned : co_bpred_ c0 = None \/ aligned_run im s_init).

Lemma good_aligned s : good s -> predicts -> a_pc s mod 4 = 0.
Proof using Haligned.
  intros [_ (ks & E & _)] [p Hp]. destruct Haligned as [E0|Ha]; [congruence|]. by eapply Ha.
Qed.

(** ** The invariant of a run *)

Record running (ks : list commit) c : Prop := mkRunning {
  rn_wf : core_wf c;
  rn_imem : mem_ram (co_imem_ c) = im;
  rn_halted : co_halted_ c = false;
  rn_provenance : provenance im c;
  rn_instructions : instructions (co_stats_ c) = u64 (instructions (co_stats_ c0) + Z.of_nat (length ks));
  rn_path : exists s0 s1, tracks im good predicts c s0 s1 /\ shadow im c s1 /\ reached ks s0;
}.

Lemma start_running : running [] c0.
Proof using Hstart Haligned.
  destruct Hstart. constructor; try done.
  - constructor; congruence.
  - cbn. rewrite Z.add_0_r. unfold u64. by rewrite Z.mod_small.
  - exists s_init, s_init.
    assert (Hr : reached [] s_init) by done.
    assert (O1 : o_ex c0 s_init = Some s_init) by (unfold o_ex, halts; by rewrite st_wb0).
    assert (O2 : o_id im c0 s_init = Some s_init) by (unfold o_id, after_ex; by rewrite st_ex0).
    assert (O3 : o_if im c0 s_init = Some s_init) by (unfold o_if, after_id; by rewrite st_id0).
    assert (O4 : o_pc im c0 s_init = Some s_init) by (unfold o_pc, after_if; by rewrite st_if0).
    split_and!; [| |done].
    + constructor; rewrite ?O1, ?O2, ?O3, ?O4; try congruence; try done.
      * split; [apply s_init_wf|by exists []].
      * by rewrite st_wb0.
      * by intros s [= <-].
      * intros _ p k Ep Hk. by apply st_bp0.
    + constructor; try congruence; unfold halts; by rewrite st_wb0.
Qed.

(** What holds once the program has ended: [k] is the halting instruction, [s]
    the state after it.  A store right behind it would already be in MEM. *)
Record finished (ks : list commit) c : Prop := mkFinished {
  fn_halted : co_halted_ c = true;
  fn_wf : core_wf c;
  fn_instructions : instructions (co_stats_ c) = u64 (instructions (co_stats_ c0) + Z.of_nat (length ks));
  fn_state : exists ks1 k s,
    ks = ks1 ++ [k] /\ Forall (fun k => is_halt (k_op k) = false) ks1 /\ is_halt (k_op k) = true /\
    isa_steps im (length ks) s_init = Some (ks, s) /\ co_rf_ c = a_regs s /\
    co_halt_reason_ c = (if op_eqb (k_op k) EBREAK then HaltEbreak else HaltIllegal) /\
    co_halt_pc_ c = k_pc k /\ co_halt_raw_ c = k_raw k /\
    ((forall raw, ram_load 4 im (u32 (k_pc k + 4)) = Some raw ->
        is_store (i_op (decode raw (u32 (k_pc k + 4)))) = false) ->
     mem_ram (co_dmem_ c) = a_mem s);
}.

Lemma u64_incr n : incr64 (u64 n) = u64 (n + 1).
Proof using Type. unfold incr64, u64. by rewrite Zplus_mod_idemp_l. Qed.

Lemma count_retired ks c c' :
  running ks c -> cycle c c' ->
  instructions (co_stats_ c') =
    u64 (instructions (co_stats_ c0) + Z.of_nat (length (ks ++ retiring c))).
Proof using Type.
  intros Hr Hcy. destruct (cycle_counters c c' (rn_wf _ _ Hr) Hcy) as [_ ->].
  rewrite (rn_instructions _ _ Hr), length_app. unfold retiring. rewrite (rn_halted _ _ Hr). cbn [negb andb].
  destruct (mw_valid (v_wb c)); cbn [length]; [|by rewrite Nat.add_0_r].
  rewrite u64_incr. f_equal. lia.
Qed.

(** The data memory in the halting cycle. *)
Lemma halting_memory c c' s0 s1 :
  tracks im good predicts c s0 s1 -> core_wf c -> provenance im c -> shadow im c s1 -> cycle c c' ->
  halts (v_wb c) = true ->
  (forall raw, ram_load 4 im (u32 (mw_pc (v_wb c) + 4)) = Some raw ->
     is_store (i_op (decode raw (u32 (mw_pc (v_wb c) + 4)))) = false) ->
  mem_ram (co_dmem_ c') = a_mem s1.
Proof using Type.
  intros Ht Hc Hp Hs Hcy Hh Hst. rewrite <- (tk_mem _ _ _ _ _ _ Ht).
  destruct Hcy as [served_i st1 dmem1 st2 st3 Hret EI ED ER EM ET _ Eif Eid Eex Ewb Epc Ebp
    | served_i imem1 st1 f next id served_d dmem1 st2 dmem2 st4 st5 st6 Hret EI EF ED EM _ EA EB ET _ EU _
      Eex Eid Eif Epc].
  - apply ready_keeps in EM as (Hd & Hdr & _); [|apply Hc|apply (cw_ex c Hc)].
    apply tick_keeps in ET as (_ & Hdr' & _); [|done]. congruence.
  - apply request_keeps in EM as (Hd & Hdr & _); [|apply Hc|apply Hc].
    pose proof (accessed_keeps _ _ _ _ Hd (cw_ex c Hc) EA) as [Hd2 _].
    apply tick_keeps in ET as (_ & Hdr' & _); [|done]. rewrite Hdr', <- Hdr.
    unfold accessed in EA. destruct (em_valid (v_ex c)) eqn:Hv; cbn [negb] in EA; [|by injection EA as <- _].
    destruct (pv_ex _ _ Hp Hv) as [Hraw Hop]. rewrite (sh_ex _ _ _ Hs Hh Hv) in Hraw, Hop.
    specialize (Hst _ Hraw). rewrite <- Hop in Hst. unfold mem_perform in EA.
    destruct (em_op (v_ex c)); try done; inv_binds; by simplify_eq.
Qed.

Lemma retired_state ks c s0 s1 :
  tracks im good predicts c s0 s1 -> mw_valid (v_wb c) = true -> reached ks s0 ->
  isa_steps im (length (ks ++ [commit_of (v_wb c)])) s_init = Some (ks ++ [commit_of (v_wb c)], s1) /\
  (halts (v_wb c) = false -> reached (ks ++ [commit_of (v_wb c)]) s1).
Proof using Hstart.
  intros Ht Hv Hr. pose proof (tk_wb _ _ _ _ _ _ Ht) as Hw. rewrite Hv in Hw.
  unfold halts. rewrite Hv. cbn [andb]. apply (reached_step ks s0); try done.
  apply (tk_good _ _ _ _ _ _ Ht).
Qed.

(** One tick, running or halting. *)
Lemma running_tick ks c b c' :
  running ks c -> Core_tick c = Some (b, c') ->
  if co_halted_ c' then finished (ks ++ retiring c) c' else running (ks ++ retiring c) c'.
Proof using Hstart Haligned.
  intros Hr E. pose proof (rn_wf _ _ Hr) as Hc.
  destruct (Core_tick_cycle c b c' (cw_quiescent c Hc) (rn_halted _ _ Hr) E) as [Hcy _].
  destruct (cycle_wf c c' Hc Hcy) as [Hc' Hi']. pose proof (count_retired ks c c' Hr Hcy) as Hn.
  assert (Hret : retired c c') by (by destruct Hcy).
  destruct (rn_path _ _ Hr) as (s0 & s1 & Ht & Hs & Hk).
  rewrite (rt_halted _ _ Hret). destruct (halts (v_wb c)) eqn:Hh.
  - assert (Hv : mw_valid (v_wb c) = true) by (by unfold halts in Hh; apply andb_true_iff in Hh as [? _]).
    assert (Er : retiring c = [commit_of (v_wb c)]) by (unfold retiring; by rewrite (rn_halted _ _ Hr), Hv).
    destruct (rt_reason _ _ Hret Hh) as (R1 & R2 & R3). rewrite Er in *.
    destruct (retired_state ks c s0 s1 Ht Hv Hk) as [Ek _].
    constructor; [by rewrite (rt_halted _ _ Hret), Hh|done|done|].
    exists ks, (commit_of (v_wb c)), s1. split_and!; try done; [apply Hk| | |].
    + rewrite is_halt_commit. by unfold halts in Hh; rewrite Hv in Hh.
    + by apply (retired_rf im good predicts c c' s0).
    + by apply (halting_memory c c' s0 s1 Ht Hc (rn_provenance _ _ Hr) Hs Hcy Hh).
  - destruct (cycle_tracks im im_wf good predicts (fun s Hg => proj1 Hg) good_advance
      good_aligned c c' s0 s1 Ht Hc (rn_imem _ _ Hr) Hh Hcy) as [s2 Ht'].
    constructor; [done|by rewrite Hi'; apply Hr|by rewrite (rt_halted _ _ Hret)| |done|].
    + apply (cycle_provenance im c c'); try done; apply Hr.
    + exists s1, s2. split; [done|]. split.
      * apply (cycle_shadow im im_wf good predicts (fun s Hg => proj1 Hg) good_advance
          good_aligned c c' s0 s1 s2); try done; apply Hr.
      * unfold retiring. rewrite (rn_halted _ _ Hr). cbn [negb andb].
        destruct (mw_valid (v_wb c)) eqn:Hv; [by apply (retired_state ks c s0 s1 Ht Hv Hk)|].
        pose proof (tk_wb _ _ _ _ _ _ Ht) as Hw. rewrite Hv in Hw. subst. by rewrite app_nil_r.
Qed.

Lemma halted_ticks n c ls c' : co_halted_ c = true -> ticks n c = Some (ls, c') -> ls = [] /\ c' = c.
Proof using Type.
  intros Hh. revert ls c'. induction n as [|n IH]; intros ls c' E; cbn [ticks] in E; [by injection E as <- <-|].
  unfold Core_tick in E. rewrite Hh in E. cbn [mbind option_bind] in E.
  destruct (ticks n c) as [[ls1 c1]|]; cbn [mbind option_bind] in E; [|done].
  injection E as <- <-. destruct (IH ls1 c1 eq_refl) as [-> ->]. unfold retiring. by rewrite Hh.
Qed.

Lemma ticks_running n ks c ls c' :
  running ks c -> ticks n c = Some (ls, c') ->
  if co_halted_ c' then finished (ks ++ ls) c' else running (ks ++ ls) c'.
Proof using Hstart Haligned.
  revert ks c ls. induction n as [|n IH]; intros ks c ls Hr E; cbn [ticks] in E.
  { injection E as <- <-. by rewrite (rn_halted _ _ Hr), app_nil_r. }
  destruct (Core_tick c) as [[b c1]|] eqn:Et; cbn [mbind option_bind] in E; [|done].
  destruct (ticks n c1) as [[ls1 c2]|] eqn:E1; cbn [mbind option_bind] in E; [|done].
  injection E as <- <-. pose proof (running_tick ks c b c1 Hr Et) as H1'. rewrite app_assoc.
  destruct (co_halted_ c1) eqn:Eh.
  - destruct (halted_ticks n c1 ls1 c2 Eh E1) as [-> ->]. by rewrite Eh, app_nil_r.
  - by apply (IH _ c1).
Qed.

End Program.
End Run.
