(* ===== verification/Safe.v ===== *)
(** * Safe programs never fault

    The front end runs ahead of the program: past branches predicted the wrong
    way and past its last instruction.  The PC being fetched is never more than
    four words behind an instruction of the program or, with a predictor, the
    target of one of its branches, and the distance grows only while the path is
    lost.  On a safe program every cycle therefore succeeds. *)

From S2P Require Import Prelude Isa Formats DecoderSpec Alu Regfile Config Pipe Memory.
From S2P Require Import BranchPredictor Stages Tracer Core CoreStep IsaSpec Serial CoreInv SerialFacts.
From S2P Require Import CoreTotal Refine Shadow.

Lemma is_halt_op_eq op : is_halt_op op = is_halt op.
Proof. by destruct op. Qed.

(** An inert instruction does not move the front end or the predictor, and MEM
    passes it through. *)
Lemma execute_inert bpe id x y :
  inert (ie_op id) = true -> ie_predicted_taken id = false ->
  ex_redirect_ (execute bpe id x y).1 = false /\ ex_train_ (execute bpe id x y).1 = false.
Proof.
  intros Hi Hp. unfold execute. rewrite Hp. destruct (ie_op id); try done; cbn; by rewrite ?andb_false_r.
Qed.

Lemma mem_perform_inert {M} `{IMemory M} (m : M) ex :
  inert (em_op ex) = true -> is_Some (mem_perform m ex).
Proof. intros Hi. unfold mem_perform. destruct (em_op ex); try done; by eexists. Qed.

Section Safe.
Context {IM DM : Type} `{MemoryLaws IM} `{MemoryLaws DM}.
Abbreviation core := (Core IM DM).
Implicit Type c : core.
Context (im : ram) (Him : ram_wf im).
Context (good : arch -> Prop) (predicts : Prop).
Context (good_wf : forall s, good s -> arch_wf s).
Context (good_advance : forall s s', good s -> advance im (Some s) = Some s' -> good s').
Context (good_aligned : forall s, good s -> predicts -> a_pc s mod 4 = 0).
Context (good_safe : forall s, good s -> safe_at im predicts s).
Abbreviation tracks := (tracks im good predicts).

(** Where the front end can be sent. *)
Inductive entry : Z -> Prop :=
  | entry_pc s : good s -> entry (a_pc s)
  | entry_target s raw : good s -> predicts -> ram_load 4 im (a_pc s) = Some raw ->
      is_direct (i_op (decode raw (a_pc s))) = true ->
      entry (u32 (a_pc s + i_imm (decode raw (a_pc s)))).

Lemma entry_room e : entry e -> room im e.
Proof using good_safe.
  intros [s Hs|s raw Hs Hp Hraw Hd]; [apply good_safe, Hs|].
  exact (sf_target _ _ _ (good_safe s Hs) raw Hp Hraw Hd).
Qed.

Lemma entry_u32 e : entry e -> is_u32 e.
Proof using good_wf. intros [s Hs|s raw Hs Hp Hraw Hd]; [apply (good_wf s Hs)|auto with words]. Qed.

Lemma good_serial s : good s -> exists wb s', serial_step im s = Some (wb, s').
Proof using good_wf good_safe Him.
  intros Hs. destruct (sf_step _ _ _ (good_safe s Hs)) as [[k s'] E].
  rewrite serial_step_spec in E by (done || apply (good_wf s Hs)).
  destruct (serial_step im s) as [[wb s2]|]; [by exists wb, s2|done].
Qed.

(** How long the path has been lost, in stages. *)
Definition depth c s1 : Z :=
  match o_pc im c s1 with
  | Some _ => 0
  | None =>
      match o_if im c s1 with
      | Some _ => 1
      | None => match o_id im c s1 with Some _ => 2 | None => match o_ex c s1 with Some _ => 3 | None => 4 end end
      end
  end.

Record front c s1 : Prop := mkFront {
  fr_pc : exists e j, entry e /\ 0 <= j <= depth c s1 /\ v_pc c = u32 (e + 4 * j);
  fr_bp p k : co_bpred_ c = Some p -> BranchPredictor_inv k p -> btb_sound (fun _ t _ => entry t) k p;
  fr_if : ie_valid (v_id c) = true -> o_id im c s1 <> None -> is_halt_op (ie_op (v_id c)) = true ->
    if_valid (v_if c) = true -> if_predicted_taken (v_if c) = false;
  fr_id : em_valid (v_ex c) = true -> halts (v_wb c) = false -> is_halt_op (em_op (v_ex c)) = true ->
    ie_valid (v_id c) = true -> ie_predicted_taken (v_id c) = false;
}.

Lemma depth_range c s1 : 0 <= depth c s1 <= 4.
Proof using Type. unfold depth. repeat case_match; lia. Qed.

(** ** The states ahead are on the path *)

Lemma o_id_good c s0 s1 s :
  tracks c s0 s1 -> halts (v_wb c) = false -> o_id im c s1 = Some s -> good s.
Proof using good_wf good_advance Him.
  intros Ht Hh E. destruct (tracks_s1 im Him good predicts good_wf good_advance c s0 s1 Ht Hh) as [Hg _].
  unfold o_id, o_ex, after_ex in E. rewrite Hh in E.
  destruct (em_valid (v_ex c)); [by apply (good_advance s1)|by injection E as <-].
Qed.

Lemma o_pc_good c s0 s1 s :
  tracks c s0 s1 -> halts (v_wb c) = false -> o_pc im c s1 = Some s -> good s.
Proof using good_wf good_advance Him.
  intros Ht Hh E.
  assert (Hif : forall s, o_if im c s1 = Some s -> good s).
  { intros s' E'. unfold o_if, after_id in E'. destruct (ie_valid (v_id c)); [|by eapply o_id_good].
    eapply follow_good; [exact good_advance| |exact E']. intros s2. by apply (o_id_good c s0 s1). }
  unfold o_pc, after_if in E. destruct (if_valid (v_if c)); [|by apply Hif].
  by eapply follow_good; [exact good_advance|exact Hif|].
Qed.

(** The instruction behind a halting one in MEM. *)
Lemma behind_halt c s0 s1 :
  tracks c s0 s1 -> core_wf c -> provenance im c -> shadow im c s1 -> halts (v_wb c) = false ->
  o_id im c s1 = None -> ie_valid (v_id c) = true ->
  em_valid (v_ex c) = true /\ is_halt_op (em_op (v_ex c)) = true /\ inert (ie_op (v_id c)) = true.
Proof using good_wf good_advance good_safe Him.
  intros Ht Hc Hp Hs Hh Eo Hvi.
  destruct (tracks_s1 im Him good predicts good_wf good_advance c s0 s1 Ht Hh) as [Hg _].
  unfold o_id, o_ex, after_ex in Eo. rewrite Hh in Eo. destruct (em_valid (v_ex c)) eqn:Hve; [|done].
  destruct (good_serial s1 Hg) as (wb & s2 & Es). unfold advance in Eo. cbn [mbind option_bind] in Eo.
  rewrite Es in Eo. cbn [mbind option_bind] in Eo.
  destruct (is_halt_op (mw_op wb)) eqn:Eh; [|done].
  destruct (tk_ex _ _ _ _ _ _ Ht s1 Hve) as (raw & Hraw & Ex); [unfold o_ex; by rewrite Hh|].
  destruct (serial_step_parts _ _ _ _ Es) as (raw' & Hraw' & Em & _). rewrite Hraw in Hraw'.
  apply Some_inj in Hraw' as <-. destruct (mem_perform_fields _ _ _ _ Em) as (_ & _ & Fo & _).
  rewrite Fo, <- Ex in Eh. split; [done|]. split; [done|].
  pose proof (sh_id _ _ _ Hs Hve Hh Eh Hvi) as Epc.
  destruct (in_execute_fields s1 raw) as (Fpc & _ & Fop & _). rewrite Ex, Fpc in Epc.
  destruct (pv_id _ _ Hp Hvi) as [Hl ->]. rewrite Epc in *.
  apply (sf_shadow _ _ _ (good_safe s1 Hg) raw _ Hraw); [|exact Hl].
  rewrite <- is_halt_op_eq, <- Fop, <- Ex. exact Eh.
Qed.

(** EX leaves the path only behind a halting instruction, and then does not
    redirect. *)
Lemma off_path_quiet c s0 s1 :
  tracks c s0 s1 -> core_wf c -> provenance im c -> shadow im c s1 -> front c s1 ->
  halts (v_wb c) = false -> o_id im c s1 = None ->
  ex_redirect_ (executed c).1 = false /\ ex_train_ (executed c).1 = false.
Proof using good_wf good_advance good_safe Him.
  intros Ht Hc Hp Hs Hf Hh Eo. unfold executed. destruct (ie_valid (v_id c)) eqn:Hvi; cbn [negb]; [|done].
  destruct (behind_halt c s0 s1 Ht Hc Hp Hs Hh Eo Hvi) as (Hve & Heh & Hin).
  apply execute_inert; [done|]. by apply (fr_id _ _ Hf).
Qed.

(** ** A cycle keeps the front end close *)

Lemma front_stalled c c' s1 :
  front c s1 -> halts (v_wb c) = false ->
  v_if c' = v_if c -> v_id c' = captured c -> v_ex c' = v_ex c -> v_wb c' = bubble ->
  v_pc c' = v_pc c -> co_bpred_ c' = co_bpred_ c -> front c' s1.
Proof using Type.
  intros [F1 F2 F3 F4] Hh Eif Eid Eex Ewb Epc Ebp.
  destruct (captured_fields c) as (Cv & _ & _ & Co).
  assert (Hp : ie_predicted_taken (captured c) = ie_predicted_taken (v_id c))
    by (unfold captured; by destruct (ie_valid (v_id c))).
  assert (O1 : o_ex c' s1 = o_ex c s1) by (unfold o_ex; by rewrite Ewb, Hh).
  assert (O2 : o_id im c' s1 = o_id im c s1) by (unfold o_id; by rewrite O1, Eex).
  assert (O3 : o_if im c' s1 = o_if im c s1) by (unfold o_if, after_id; by rewrite O2, Eid, Cv, Hp).
  assert (O4 : o_pc im c' s1 = o_pc im c s1) by (unfold o_pc; by rewrite O3, Eif).
  constructor; rewrite ?Epc, ?Ebp, ?O2, ?Eif, ?Eid, ?Eex, ?Cv, ?Co, ?Hp; try done.
  - unfold depth. by rewrite O1, O2, O3, O4.
  - intros Hv _. by apply F4.
Qed.

(** The path lost one stage further. *)
Lemma depth_full c c' s1 s2 :
  o_ex c' s2 = o_id im c s1 -> o_id im c' s2 = o_if im c s1 ->
  o_if im c' s2 = o_pc im c s1 \/ o_if im c' s2 = o_if im c s1 /\ o_pc im c' s2 = o_pc im c s1 ->
  o_pc im c' s2 = None -> halts (v_wb c) = false -> depth c s1 <= depth c' s2 /\
  (o_if im c' s2 = o_pc im c s1 -> depth c' s2 = depth c s1 + 1).
Proof using Type.
  intros O1 O2 O3 O4 Hh.
  assert (Hi : o_if im c s1 = None -> o_pc im c s1 = None)
    by (unfold o_pc, after_if; intros ->; by destruct (if_valid _)).
  assert (Hd : o_id im c s1 = None -> o_if im c s1 = None)
    by (unfold o_if, after_id; intros ->; by destruct (ie_valid _)).
  assert (Hx : o_ex c s1 = Some s1) by (unfold o_ex; by rewrite Hh).
  unfold depth. rewrite O4, O1, O2, Hx.
  destruct O3 as [-> | [-> O3]]; [|rewrite O4 in O3; rewrite <- O3].
  - destruct (o_pc im c s1), (o_if im c s1), (o_id im c s1); try (by (try (specialize (Hi eq_refl)); try (specialize (Hd eq_refl)))); split; try intros _; lia.
  - destruct (o_if im c s1), (o_id im c s1); try (by specialize (Hd eq_refl)); split; try lia; intros E; try discriminate E; lia.
Qed.

(** The next fetch address: sequential or trained. *)
Lemma fetched_next (imem : IM) bp pc served f next :
  predictor_wf bp -> is_u32 pc ->
  (forall p k, bp = Some p -> BranchPredictor_inv k p -> btb_sound (fun _ t _ => entry t) k p) ->
  fetched imem bp pc served = Some (f, next) ->
  if served then next = u32 (pc + 4) \/ entry next else next = pc.
Proof using Type.
  intros Hb Hpc Hs E. unfold fetched in E. destruct served; cbn [negb] in E; [|by injection E as _ <-].
  destruct (load_word imem pc); cbn [mbind option_bind] in E; [|done].
  destruct bp as [p|]; [|injection E as _ <-; by left].
  destruct Hb as (k & Hk & _). rewrite (predict_spec k p Hk pc Hpc) in E. cbn [mbind option_bind] in E.
  specialize (Hs p k eq_refl Hk pc). destruct (btb_lookup k p pc) as [[t cond]|].
  - cbn [p_taken p_target] in E. destruct (if cond : bool then _ else true); cbn in E; injection E as _ <-;
      [right; by apply (Hs t cond)|by left].
  - cbn in E. injection E as _ <-. by left.
Qed.

Lemma trained_entries c s0 s1 bp :
  tracks c s0 s1 -> core_wf c -> provenance im c -> shadow im c s1 -> front c s1 ->
  halts (v_wb c) = false -> trained (executed c).1 (co_bpred_ c) = Some bp ->
  forall p k, bp = Some p -> BranchPredictor_inv k p -> btb_sound (fun _ t _ => entry t) k p.
Proof using good_wf good_advance good_safe Him.
  intros Ht Hc Hp Hs Hf Hh E p2 k2 -> Hk2. unfold trained in E.
  destruct (ex_train_ (executed c).1) eqn:Et; [|injection E as E; by apply (fr_bp _ _ Hf)].
  destruct (o_id im c s1) as [s|] eqn:Eo.
  2:{ destruct (off_path_quiet c s0 s1 Ht Hc Hp Hs Hf Hh Eo) as [_ Hq]. congruence. }
  destruct (co_bpred_ c) as [p|] eqn:Ebp; cbn [mbind option_bind] in E; [|done].
  pose proof (cw_bp c Hc) as Hb. rewrite Ebp in Hb. destruct Hb as (k & Hk & _).
  pose proof (executed_wf c Hc) as (_ & _ & _ & Hpc & _).
  destruct (update_spec k p _ (ex_train_cond_ (executed c).1) (ex_train_taken_ (executed c).1)
    (ex_train_target_ (executed c).1) Hk Hpc) as (p1 & E1 & Hk' & _).
  rewrite E1 in E. cbn [mbind option_bind] in E. injection E as ->.
  assert (k2 = k) as -> by (rewrite <- (bi_index_bits _ _ Hk2); apply Hk').
  eapply btb_sound_update; [exact Hk|exact Hpc|by apply (fr_bp _ _ Hf)| |exact E1].
  destruct (ie_valid (v_id c)) eqn:Hv; [|unfold executed in Et; by rewrite Hv in Et].
  destruct (executed_on_path im good predicts c s0 s1 s Ht Hv Eo) as (raw & Hraw & _ & _ & _ & Htr).
  destruct (Htr Et) as (_ & -> & Hcond). cbv beta.
  apply entry_target; [by apply (o_id_good c s0 s1)| |done|by eapply is_direct_trained].
  apply (tk_predicts _ _ _ _ _ _ Ht). by rewrite Ebp.
Qed.

(** A halting instruction is followed by the next word. *)
Lemma halt_next s raw :
  is_halt_op (i_op (decode raw (a_pc s))) = true -> next_pc s (in_execute s raw) = u32 (a_pc s + 4).
Proof using Type.
  intros Hh. unfold next_pc, in_execute, execute, in_decode. cbn [ie_op ie_pc ie_imm].
  by destruct (i_op (decode raw (a_pc s))).
Qed.

(** A redirect that does not rejoin the path comes from a halting instruction. *)
Lemma redirect_off c s0 s1 :
  tracks c s0 s1 -> core_wf c -> provenance im c -> shadow im c s1 -> front c s1 ->
  halts (v_wb c) = false -> ex_redirect_ (executed c).1 = true -> o_next im c s1 = None ->
  exists s, o_id im c s1 = Some s /\ good s /\ ex_redirect_target_ (executed c).1 = u32 (a_pc s + 4).
Proof using good_wf good_advance good_safe Him.
  intros Ht Hc Hp Hs Hf Hh Er En. destruct (o_id im c s1) as [s|] eqn:Eo.
  2:{ destruct (off_path_quiet c s0 s1 Ht Hc Hp Hs Hf Hh Eo) as [Hq _]. congruence. }
  exists s. pose proof (o_id_good c s0 s1 s Ht Hh Eo) as Hg. split; [done|]. split; [done|].
  destruct (ie_valid (v_id c)) eqn:Hv; [|unfold executed in Er; by rewrite Hv in Er].
  destruct (executed_on_path im good predicts c s0 s1 s Ht Hv Eo) as (raw & Hraw & _ & _ & -> & _).
  apply halt_next. unfold o_next, after_ex in En. rewrite executed_valid, Hv, Eo in En.
  destruct (good_serial s Hg) as (wb & s2 & Es). unfold advance in En. cbn [mbind option_bind] in En.
  rewrite Es in En. cbn [mbind option_bind] in En.
  destruct (is_halt_op (mw_op wb)) eqn:Eh; [|done].
  destruct (serial_step_parts _ _ _ _ Es) as (raw' & Hraw' & Em & _). rewrite Hraw in Hraw'.
  apply Some_inj in Hraw' as <-. destruct (mem_perform_fields _ _ _ _ Em) as (_ & _ & Fo & _).
  destruct (in_execute_fields s raw) as (_ & _ & Fop & _). by rewrite Fo, Fop in Eh.
Qed.

(** The word behind a halting instruction is not predicted taken. *)
Lemma shadow_not_taken c s0 s1 s (imem1 : IM) served f next :
  tracks c s0 s1 -> core_wf c -> shadow im c s1 -> halts (v_wb c) = false ->
  mem_inv imem1 -> mem_ram imem1 = im ->
  fetched imem1 (co_bpred_ c) (v_pc c) served = Some (f, next) -> if_valid f = true ->
  if_valid (v_if c) = true -> o_if im c s1 = Some s -> good s ->
  is_halt_op (i_op (decode (if_raw (v_if c)) (if_pc (v_if c)))) = true -> if_predicted_taken f = false.
Proof using good_safe good_aligned Him.
  intros Ht Hc Hs Hh Hmi Hri EF Hvf Hv Eo Hg Hhalt. destruct (if_predicted_taken f) eqn:Hp; [|done].
  destruct (tk_if _ _ _ _ _ _ Ht s Hv Eo) as [Epc Hraw].
  assert (Hne : o_if im c s1 <> None) by (by rewrite Eo).
  pose proof (sh_pc _ _ _ Hs Hv Hne Hhalt) as Hpc. rewrite Epc in Hpc, Hhalt.
  destruct (fetched_fields _ _ _ _ _ _ Hmi (cw_pc c Hc) EF Hvf) as (_ & _ & Hl & _). rewrite Hri in Hl.
  assert (Hsome : is_Some (co_bpred_ c)).
  { destruct (co_bpred_ c) eqn:Eb; [done|]. unfold fetched in EF. destruct served; cbn [negb] in EF;
      [|injection EF as <- _; done]. destruct (load_word imem1 (v_pc c)); [|done]. by injection EF as <- _. }
  assert (Ha : v_pc c mod 4 = 0).
  { pose proof (good_aligned s Hg (tk_predicts _ _ _ _ _ _ Ht Hsome)). rewrite Hpc. unfold u32. zdm. }
  assert (Hd : is_direct (i_op (decode (if_raw f) (v_pc c))) = true).
  { apply (predicted_branch im c imem1 served f next); try done. apply (tk_bp _ _ _ _ _ _ Ht).
    intros En. unfold o_if, after_id in Eo. rewrite En in Eo. by destruct (ie_valid (v_id c)). }
  pose proof (sf_shadow _ _ _ (good_safe s Hg) (if_raw (v_if c)) (if_raw f) Hraw) as Hi.
  rewrite <- is_halt_op_eq in Hi. cbv zeta in Hi. change ((a_pc s + 4) mod 2 ^ 32) with (u32 (a_pc s + 4)) in Hi.
  rewrite <- Hpc in Hi. specialize (Hi Hhalt Hl). by destruct (i_op (decode (if_raw f) (v_pc c))).
Qed.

Lemma front_full_pc c c' s0 s1 s2 served (imem1 : IM) f next id :
  tracks c s0 s1 -> core_wf c -> provenance im c -> shadow im c s1 -> front c s1 ->
  halts (v_wb c) = false -> tracks c' s1 s2 ->
  o_ex c' s2 = o_id im c s1 -> decoded (co_rf_ c) (v_if c) = Some id ->
  fetched imem1 (co_bpred_ c) (v_pc c) served = Some (f, next) ->
  v_ex c' = (executed c).2 ->
  v_id c' = (if ex_redirect_ (executed c).1 || interlock c then bubble else id) ->
  v_if c' = (if ex_redirect_ (executed c).1 then bubble else if interlock c then v_if c else f) ->
  v_pc c' = (if ex_redirect_ (executed c).1 then ex_redirect_target_ (executed c).1
             else if interlock c then v_pc c else if served then next else v_pc c) ->
  exists e j, entry e /\ 0 <= j <= depth c' s2 /\ v_pc c' = u32 (e + 4 * j).
Proof using good_wf good_advance good_safe Him.
  intros Ht Hc Hp Hs Hf Hh Ht' O1 ED EF Eex Eid Eif Epc.
  destruct (full_paths im good predicts c c' s0 s1 s2 id Ht O1 ED Eex Eid) as (O2 & On & O3).
  pose proof (depth_range c' s2) as Hdr.
  destruct (o_pc im c' s2) as [s|] eqn:E4.
  { exists (a_pc s), 0. rewrite Z.add_0_r. pose proof (tk_pc _ _ _ _ _ _ Ht' s E4) as ->.
    assert (Hg : good s).
    { apply (o_pc_good c' s1 s2); [done| |done]. destruct (halts (v_wb c')) eqn:E; [|done].
      unfold o_pc, o_if, o_id, o_ex, after_if, after_id, after_ex in E4. rewrite E in E4.
      by destruct (if_valid _), (ie_valid _), (em_valid _). }
    split_and!; [by apply entry_pc|lia|lia|]. symmetry. apply u32_id, (good_wf s Hg). }
  destruct (fr_pc _ _ Hf) as (e & j & He & Hj & Ej).
  destruct (ex_redirect_ (executed c).1) eqn:Er.
  - assert (En : o_next im c s1 = None).
    { unfold o_pc, after_if in E4. rewrite Eif in E4. cbn in E4. by rewrite <- O3. }
    destruct (redirect_off c s0 s1 Ht Hc Hp Hs Hf Hh Er En) as (s & Eo & Hg & Et).
    exists (a_pc s), 1. rewrite Epc, Et. split_and!; [by apply entry_pc|lia| |done].
    unfold depth. rewrite E4, O3, O2, En, O1, Eo. lia.
  - rewrite On in O2 by done. destruct (interlock c).
    + exists e, j. rewrite Epc. split_and!; try done; [lia|].
      assert (O4 : o_pc im c' s2 = o_pc im c s1) by (unfold o_pc; by rewrite O3, Eif).
      destruct (depth_full c c' s1 s2 O1 O2 (or_intror (conj O3 O4)) E4 Hh). lia.
    + destruct (depth_full c c' s1 s2 O1 O2 (or_introl O3) E4 Hh) as [_ Hd]. specialize (Hd O3).
      pose proof (fetched_next imem1 (co_bpred_ c) (v_pc c) served f next (cw_bp c Hc) (cw_pc c Hc)
        (fr_bp _ _ Hf) EF) as Hn. rewrite Epc. destruct served.
      * destruct Hn as [-> |Hn].
        -- exists e, (j + 1). rewrite Ej, u32_add_l. split_and!; [done|lia|lia|f_equal; lia].
        -- exists next, 0. rewrite Z.add_0_r. split_and!; [done|lia|lia|].
           symmetry. by apply u32_id, entry_u32.
      * exists e, j. split_and!; (done || lia).
Qed.

Lemma front_full c c' s0 s1 s2 served (imem1 : IM) f next id (dmem1 dmem2 : DM) :
  tracks c s0 s1 -> core_wf c -> provenance im c -> shadow im c s1 -> front c s1 ->
  halts (v_wb c) = false -> tracks c' s1 s2 ->
  mem_inv imem1 -> mem_ram imem1 = im ->
  fetched imem1 (co_bpred_ c) (v_pc c) served = Some (f, next) ->
  decoded (co_rf_ c) (v_if c) = Some id ->
  accessed dmem1 (v_ex c) = Some (dmem2, v_wb c') ->
  trained (executed c).1 (co_bpred_ c) = Some (co_bpred_ c') ->
  v_ex c' = (executed c).2 ->
  v_id c' = (if ex_redirect_ (executed c).1 || interlock c then bubble else id) ->
  v_if c' = (if ex_redirect_ (executed c).1 then bubble else if interlock c then v_if c else f) ->
  v_pc c' = (if ex_redirect_ (executed c).1 then ex_redirect_target_ (executed c).1
             else if interlock c then v_pc c else if served then next else v_pc c) ->
  front c' s2.
Proof using good_wf good_advance good_safe good_aligned Him.
  intros Ht Hc Hp Hs Hf Hh Ht' Hmi Hri EF ED EA EB Eex Eid Eif Epc.
  pose proof (o_ex_full im good predicts c c' s0 s1 s2 dmem1 dmem2 Ht Hh Ht' EA) as O1.
  destruct (full_paths im good predicts c c' s0 s1 s2 id Ht O1 ED Eex Eid) as (O2 & On & O3).
  destruct (decoded_shape _ _ _ ED) as [Hidv Hidp].
  constructor.
  - by eapply (front_full_pc c c' s0 s1 s2).
  - intros p k E. by apply (trained_entries c s0 s1 (co_bpred_ c') Ht Hc Hp Hs Hf Hh EB).
  - rewrite Eif, Eid. destruct (ex_redirect_ (executed c).1) eqn:Er; [done|].
    destruct (interlock c); [done|]. cbn [orb]. rewrite O2, On, Hidv by done.
    intros Hv Ho Hhalt Hvf. destruct (decoded_fields _ _ _ ED Hv) as (_ & _ & _ & Eop). rewrite Eop in Hhalt.
    destruct (o_if im c s1) as [s|] eqn:Eo; [|done].
    apply (shadow_not_taken c s0 s1 s imem1 served f next); try done.
    unfold o_if, after_id in Eo. destruct (ie_valid (v_id c)); [|by apply (o_id_good c s0 s1)].
    eapply follow_good; [exact good_advance| |exact Eo]. intros s'. by apply (o_id_good c s0 s1).
  - rewrite Eex, Eid, executed_valid. intros Hv Hh' Hhalt Hvi.
    destruct (ex_redirect_ (executed c).1 || interlock c); [done|]. rewrite Hidv in Hvi.
    rewrite Hidp by done. destruct (executed_fields c Hv) as (_ & _ & Eop). rewrite Eop in Hhalt.
    apply (fr_if _ _ Hf); try done. rewrite <- O1. unfold o_ex. by rewrite Hh'.
Qed.

Lemma cycle_front c c' s0 s1 s2 :
  tracks c s0 s1 -> core_wf c -> mem_ram (co_imem_ c) = im -> halts (v_wb c) = false ->
  provenance im c -> shadow im c s1 -> front c s1 -> cycle c c' -> tracks c' s1 s2 -> front c' s2.
Proof using good_wf good_advance good_safe good_aligned Him.
  intros Ht Hc Hi Hh Hp Hs Hf [served_i st1 dmem1 st2 st3 Hret EI ED ER EM ET _ Eif Eid Eex Ewb Epc Ebp
    | served_i imem1 st1 f next id served_d dmem1 st2 dmem2 st4 st5 st6 Hret EI EF ED EM _ EA EB ET _ EU _
      Eex Eid Eif Epc] Ht'.
  - assert (s2 = s1) as ->.
    { pose proof (tk_wb _ _ _ _ _ _ Ht') as Hw. by rewrite Ewb in Hw. }
    by apply (front_stalled c c').
  - apply ready_keeps in EI as (Hi1 & Hir & _); [|apply (cw_imem c Hc)|apply (cw_pc c Hc)].
    apply (front_full c c' s0 s1 s2 served_i imem1 f next id dmem1 dmem2); try done. congruence.
Qed.

(** ** No fault *)

Lemma front_cycle_safe c s0 s1 :
  tracks c s0 s1 -> core_wf c -> mem_ram (co_imem_ c) = im -> provenance im c -> shadow im c s1 ->
  front c s1 -> cycle_safe c.
Proof using good_wf good_advance good_safe Him.
  intros Ht Hc Hi Hp Hs Hf. constructor.
  - destruct (fr_pc _ _ Hf) as (e & j & He & Hj & ->). rewrite Hi. apply (entry_room e He j).
    pose proof (depth_range c s1). lia.
  - intros Hve. destruct (halts (v_wb c)) eqn:Hh.
    + apply mem_perform_inert. pose proof (sh_ex _ _ _ Hs Hh Hve) as Epc.
      destruct (pv_ex _ _ Hp Hve) as [Hl ->]. rewrite Epc in *.
      pose proof Hh as Hh'. unfold halts in Hh'. apply andb_true_iff in Hh' as [Hv Hhalt].
      pose proof (tk_wb _ _ _ _ _ _ Ht) as Hw. rewrite Hv in Hw.
      destruct (pv_wb _ _ Hp Hv) as [Hlw Hop].
      destruct (serial_step_parts _ _ _ _ Hw) as (raw & Hraw & Em & _).
      destruct (mem_perform_fields _ _ _ _ Em) as (Fpc & _ & _ & _).
      destruct (in_execute_fields s0 raw) as (Gpc & _). rewrite Gpc in Fpc. rewrite Fpc in *.
      apply (sf_shadow _ _ _ (good_safe s0 (tk_good _ _ _ _ _ _ Ht)) _ _ Hlw); [|exact Hl].
      by rewrite <- is_halt_op_eq, <- Hop.
    + destruct (tracks_s1 im Him good predicts good_wf good_advance c s0 s1 Ht Hh) as [Hg _].
      destruct (tk_ex _ _ _ _ _ _ Ht s1 Hve) as (raw & Hraw & ->); [unfold o_ex; by rewrite Hh|].
      destruct (good_serial s1 Hg) as (wb & s2 & Es).
      destruct (serial_step_parts _ _ _ _ Es) as (raw' & Hraw' & Em & _). rewrite Hraw in Hraw'.
      apply Some_inj in Hraw' as <-. rewrite (tk_mem _ _ _ _ _ _ Ht), Em. by eexists.
Qed.
End Safe.
