(* ===== verification/Progress.v ===== *)
(** * Progress

    The pipeline cannot stall for ever.  Between two retirements the oldest
    instruction moves one stage per cycle, except while the data memory (for
    the instruction in MEM) or, in an empty pipeline, the instruction memory
    has not answered; over memories that answer, the number of cycles is
    bounded by the number of instructions retired. *)

From S2P Require Import Prelude Isa Formats DecoderSpec Alu Regfile Config Pipe Memory MemoryLive.
From S2P Require Import BranchPredictor Stages Tracer Core CoreStep IsaSpec Serial CoreInv SerialFacts.
From S2P Require Import Refine Shadow Correct.

(** The access of MEM keeps the data memory live. *)
Lemma mem_perform_live {M} `{MemoryLive M} (m : M) ex m' wb :
  live m -> mem_perform m ex = Some (m', wb) ->
  live m' /\ worst m' = worst m.
Proof.
  intros Hl E. unfold mem_perform in E.
  destruct (em_op ex); inv_binds; simplify_eq; try done;
    (eapply store_live; [exact Hl|eauto]).
Qed.

Section Progress.
Context {IM DM : Type} `{MemoryLive IM} `{MemoryLive DM}.
Abbreviation core := (Core IM DM).
Implicit Type c : core.

Record core_live c : Prop := mkCoreLive {
  lv_wf : core_wf c;
  lv_imem : live (co_imem_ c);
  lv_dmem : live (co_dmem_ c);
}.

(** The most cycles between two retirements: an instruction fetch, ID, EX, a
    data access and WB. *)
Definition budget c : Z := 4 + worst (co_imem_ c) + worst (co_dmem_ c).

(** How far the oldest instruction is from WB. *)
Definition distance c : Z :=
  if mw_valid (v_wb c) then 0
  else if em_valid (v_ex c) then 1 + delay (co_dmem_ c)
  else if ie_valid (v_id c) then 2 + worst (co_dmem_ c)
  else if if_valid (v_if c) then 3 + worst (co_dmem_ c)
  else 4 + worst (co_dmem_ c) + delay (co_imem_ c).

Lemma distance_range c : core_live c -> 0 <= distance c <= budget c.
Proof using Type.
  intros [Hc Hi Hd]. pose proof (delay_range _ (cw_imem c Hc) Hi).
  pose proof (delay_range _ (cw_dmem c Hc) Hd). unfold distance, budget. repeat case_match; lia.
Qed.

(** Both memories stay live over a cycle. *)
Lemma cycle_live c c' :
  core_live c -> cycle c c' ->
  core_live c' /\ worst (co_imem_ c') = worst (co_imem_ c) /\ worst (co_dmem_ c') = worst (co_dmem_ c).
Proof using Type.
  intros [Hc Hi Hd] Hcy. destruct (cycle_wf c c' Hc Hcy) as [Hc' _].
  assert (Hx : (live (co_imem_ c') /\ worst (co_imem_ c') = worst (co_imem_ c)) /\
    (live (co_dmem_ c') /\ worst (co_dmem_ c') = worst (co_dmem_ c))).
  { destruct Hcy as [served_i st1 dmem1 st2 st3 Hret EI ED ER EM ET _ Eif Eid Eex Ewb Epc Ebp
    | served_i imem1 st1 f next id served_d dmem1 st2 dmem2 st4 st5 st6 Hret EI EF ED EM _ EA EB ET _ EU _
      Eex Eid Eif Epc].
    - split; [exact (ready_live _ _ _ _ _ _ _ (cw_imem c Hc) Hi (cw_pc c Hc) EI)|].
      assert (Ha : is_u32 (em_alu_out (v_ex c))) by apply (cw_ex c Hc).
      by destruct (round_keeps _ _ _ _ _ _ _ _ _ _ (cw_dmem c Hc) Hd Ha EM ET) as (_ & ? & ? & _).
    - split; [by destruct (round_keeps _ _ _ _ _ _ _ _ _ _ (cw_imem c Hc) Hi (cw_pc c Hc) EI EU) as (_ & ? & ? & _)|].
      assert (Ha : is_u32 (em_alu_out (v_ex c))) by apply (cw_ex c Hc).
      assert (H1' : mem_inv dmem1 /\ live dmem1 /\ worst dmem1 = worst (co_dmem_ c)).
      { destruct (mem_request (v_ex c)); [|injection EM as _ <- _; split_and!; [apply (cw_dmem c Hc)|done|done]].
        pose proof EM as EM'. apply ready_keeps in EM' as (? & _); [|apply (cw_dmem c Hc)|done].
        split; [done|]. exact (ready_live _ _ _ _ _ _ _ (cw_dmem c Hc) Hd Ha EM). }
      destruct H1' as (Hd1 & Hl1 & <-).
      assert (H2' : mem_inv dmem2 /\ live dmem2 /\ worst dmem2 = worst dmem1).
      { pose proof EA as EA'. apply accessed_keeps in EA' as [Hd2 _]; [|done|apply (cw_ex c Hc)].
        split; [done|]. unfold accessed in EA. destruct (em_valid (v_ex c)); cbn [negb] in EA;
          [|by injection EA as <- _]. by eapply mem_perform_live; [exact Hl1|exact EA]. }
      destruct H2' as (Hd2 & Hl2 & <-). by eapply tick_live; [exact Hd2|exact Hl2|exact ET]. }
  destruct Hx as [[? ?] [? ?]]. split; [by constructor|done].
Qed.

Lemma accessed_valid (m : DM) ex m' wb : accessed m ex = Some (m', wb) -> mw_valid wb = em_valid ex.
Proof using Type.
  unfold accessed. destruct (em_valid ex); cbn [negb]; [|by intros [= <- <-]].
  intros E. by apply mem_perform_fields in E as (_ & _ & _ & _ & ? & _).
Qed.

(** A cycle that retires nothing brings the oldest instruction closer. *)
Lemma cycle_distance c c' :
  core_live c -> cycle c c' -> mw_valid (v_wb c) = false -> distance c' < distance c.
Proof using Type.
  intros Hlc Hcy Hv. destruct (cycle_live c c' Hlc Hcy) as ([Hc' Hi' Hd'] & Wi & Wd).
  destruct Hlc as [Hc Hi Hd].
  pose proof (delay_range _ (cw_imem c Hc) Hi). pose proof (delay_range _ (cw_dmem c Hc) Hd).
  pose proof (delay_range _ (cw_imem c' Hc') Hi'). pose proof (delay_range _ (cw_dmem c' Hc') Hd').
  assert (Ha : is_u32 (em_alu_out (v_ex c))) by apply (cw_ex c Hc).
  destruct Hcy as [served_i st1 dmem1 st2 st3 Hret EI ED ER EM ET _ Eif Eid Eex Ewb Epc Ebp
    | served_i imem1 st1 f next id served_d dmem1 st2 dmem2 st4 st5 st6 Hret EI EF ED EM _ EA EB ET _ EU _
      Eex Eid Eif Epc]; unfold distance; rewrite Hv.
  - unfold mem_request in ER. apply andb_true_iff in ER as [Hve _]. rewrite Ewb, Eex, Hve. cbn.
    pose proof (unserved_delay _ _ _ _ _ _ _ _ _ (cw_dmem c Hc) Hd Ha EM ET). lia.
  - rewrite (accessed_valid _ _ _ _ EA). destruct (em_valid (v_ex c)); [lia|].
    rewrite Eex, executed_valid. destruct (ie_valid (v_id c)) eqn:Hvi; [lia|].
    assert (Er : ex_redirect_ (executed c).1 = false) by (unfold executed; by rewrite Hvi).
    assert (El : interlock c = false) by (unfold interlock; by rewrite Hvi).
    rewrite Eid, Eif, Er, El. cbn [orb]. destruct (decoded_shape _ _ _ ED) as [-> _].
    destruct (if_valid (v_if c)); [lia|]. destruct served_i.
    + assert (Hf : if_valid f = true); [|rewrite Hf; lia].
      unfold fetched in EF. cbn [negb] in EF. destruct (load_word imem1 (v_pc c)); [|done].
      cbn [mbind option_bind] in EF. match type of EF with mbind _ ?m = _ => destruct m as [[]|] end;
        cbn [mbind option_bind] in EF; [by injection EF as <- _|done].
    + pose proof (unserved_delay _ _ _ _ _ _ _ _ _ (cw_imem c Hc) Hi (cw_pc c Hc) EI EU).
      unfold fetched in EF. injection EF as <- _. cbn. lia.
Qed.

(** ** Cycles per instruction *)

Lemma ticks_distance n c ks c' :
  core_live c -> co_halted_ c = false -> ticks n c = Some (ks, c') -> co_halted_ c' = false ->
  core_live c' /\ Z.of_nat n + distance c' <= distance c + (budget c + 1) * Z.of_nat (length ks).
Proof using Type.
  revert c ks. induction n as [|n IH]; intros c ks Hl Hh E Hh'; cbn [ticks] in E.
  { injection E as <- <-. split; [done|]. cbn [length]. lia. }
  destruct (Core_tick c) as [[b c1]|] eqn:Et; cbn [mbind option_bind] in E; [|done].
  destruct (ticks n c1) as [[ks1 c2]|] eqn:E1; cbn [mbind option_bind] in E; [|done].
  injection E as <- <-. destruct (co_halted_ c1) eqn:Eh.
  { destruct (halted_ticks n c1 ks1 c2 Eh E1) as [_ ->]. congruence. }
  destruct (Core_tick_cycle c b c1 (cw_quiescent c (lv_wf c Hl)) Hh Et) as [Hcy _].
  destruct (cycle_live c c1 Hl Hcy) as (Hl1 & Wi & Wd).
  destruct (IH c1 ks1 Hl1 Eh E1 Hh') as [Hl' IH']. split; [done|].
  assert (Eb : budget c1 = budget c) by (unfold budget; by rewrite Wi, Wd). rewrite Eb in IH'.
  pose proof (distance_range c Hl). pose proof (distance_range c1 Hl1).
  unfold retiring. rewrite Hh. cbn [negb andb]. destruct (mw_valid (v_wb c)) eqn:Hv.
  - rewrite length_app. cbn [length]. lia.
  - pose proof (cycle_distance c c1 Hl Hcy Hv). cbn [app]. lia.
Qed.
End Progress.
