(* ===== verification/Termination.v ===== *)
(** * Runs end

    On a safe program no tick faults, and over memories that answer, the core
    halts after a number of cycles bounded by the number of instructions;
    [Core_run] stops there when its cycle limit allows it, and at its limit
    otherwise. *)

From S2P Require Import Prelude Isa Formats DecoderSpec Alu Regfile Config Pipe Memory MemoryLive.
From S2P Require Import BranchPredictor Stages Tracer Core CoreStep IsaSpec Serial CoreInv SerialFacts.
From S2P Require Import CoreTotal Refine Shadow Safe Correct Progress.

(** ** The simulation loop *)

Section Loop.
Context {IM DM : Type} `{MemoryLaws IM} `{MemoryLaws DM}.
Abbreviation core := (Core IM DM).
Implicit Type c : core.

Lemma halted_run fuel c max : co_halted_ c = true -> Core_run fuel c max = Some c.
Proof using Type. intros Hh. by destruct fuel; cbn [Core_run]; rewrite Hh. Qed.

(** One more cycle on the counter. *)
Lemma tick_counts c b c' :
  core_wf c -> co_halted_ c = false -> Core_tick c = Some (b, c') ->
  0 <= cycles (co_stats_ c) < 2 ^ 64 - 1 ->
  core_wf c' /\ cycles (co_stats_ c') = cycles (co_stats_ c) + 1.
Proof using Type.
  intros Hc Hh E Hr. destruct (Core_tick_cycle c b c' (cw_quiescent c Hc) Hh E) as [Hcy _].
  split; [by apply (cycle_wf c c')|]. destruct (cycle_counters c c' Hc Hcy) as [-> _].
  unfold incr64, u64. apply Z.mod_small. lia.
Qed.

(** The halt report is not touched before the core halts. *)
Lemma ticks_reason n c ks c' :
  core_wf c -> co_halted_ c = false -> ticks n c = Some (ks, c') -> co_halted_ c' = false ->
  co_halt_reason_ c' = co_halt_reason_ c.
Proof using Type.
  revert c ks. induction n as [|n IH]; intros c ks Hc Hh E Hh'; cbn [ticks] in E; [by injection E as _ <-|].
  destruct (Core_tick c) as [[b c1]|] eqn:Et; cbn [mbind option_bind] in E; [|done].
  destruct (ticks n c1) as [[ks1 c2]|] eqn:E1; cbn [mbind option_bind] in E; [|done].
  injection E as _ <-. destruct (co_halted_ c1) eqn:Eh1.
  { destruct (halted_ticks n c1 ks1 c2 Eh1 E1) as [_ ->]. by rewrite Hh' in Eh1. }
  destruct (Core_tick_cycle c b c1 (cw_quiescent c Hc) Hh Et) as [Hcy _].
  rewrite (IH c1 ks1 (proj1 (cycle_wf c c1 Hc Hcy)) Eh1 E1 Hh').
  assert (Hret : retired c c1) by (by destruct Hcy). apply (rt_running _ _ Hret).
  by rewrite <- (rt_halted _ _ Hret).
Qed.

(** A run that halts within the limit is the result of [Core_run]. *)
Lemma run_of_ticks n fuel c max ks c' :
  core_wf c -> ticks n c = Some (ks, c') -> co_halted_ c' = true ->
  0 <= cycles (co_stats_ c) -> cycles (co_stats_ c) + Z.of_nat n <= max < 2 ^ 64 -> (n <= fuel)%nat ->
  Core_run fuel c max = Some c' /\ cycles (co_stats_ c') <= cycles (co_stats_ c) + Z.of_nat n.
Proof using Type.
  revert fuel c ks. induction n as [|n IH]; intros fuel c ks Hc E Hh Hz Hm Hf; cbn [ticks] in E.
  { injection E as <- <-. split; [by apply halted_run|lia]. }
  destruct (co_halted_ c) eqn:Ec.
  { assert (Et : ticks (S n) c = Some (ks, c')) by exact E.
    destruct (halted_ticks (S n) c ks c' Ec Et) as [_ ->]. split; [by apply halted_run|lia]. }
  destruct (Core_tick c) as [[b c1]|] eqn:Et; cbn [mbind option_bind] in E; [|done].
  destruct (ticks n c1) as [[ks1 c2]|] eqn:E1; cbn [mbind option_bind] in E; [|done].
  injection E as _ <-. destruct (tick_counts c b c1 Hc Ec Et ltac:(lia)) as [Hc1 Hn].
  destruct fuel as [|fuel]; [lia|]. cbn [Core_run]. rewrite Ec.
  destruct (Z.ltb_spec (cycles (co_stats_ c)) max); [|lia]. cbn [negb andb]. rewrite Et.
  cbn [mbind option_bind].
  destruct (IH fuel c1 ks1 Hc1 E1 Hh ltac:(lia) ltac:(lia) ltac:(lia)) as [-> ?]. split; [done|lia].
Qed.

(** The loop takes one iteration per cycle: it ends by itself, halted or at the
    limit, unless a tick faults. *)
Lemma run_ends fuel c max :
  core_wf c -> 0 <= cycles (co_stats_ c) <= max -> max < 2 ^ 64 ->
  max - cycles (co_stats_ c) <= Z.of_nat fuel ->
  exists n ks c', ticks n c = Some (ks, c') /\ (n <= fuel)%nat /\ core_wf c' /\
    match Core_run fuel c max with
    | Some c1 => c1 = c' /\ (co_halted_ c' = true \/
        co_halted_ c' = false /\ cycles (co_stats_ c') = max /\ Z.of_nat n = max - cycles (co_stats_ c))
    | None => co_halted_ c' = false /\ Core_tick c' = None
    end.
Proof using Type.
  revert c. induction fuel as [|fuel IH]; intros c Hc Hz Hm Hf; cbn [Core_run];
    destruct (co_halted_ c) eqn:Ec; cbn [negb andb];
    try (exists 0%nat, [], c; split_and!; try done; try lia; by left).
  - destruct (Z.ltb_spec (cycles (co_stats_ c)) max); [lia|].
    exists 0%nat, [], c. split_and!; try done. right. split_and!; [done|lia|lia].
  - destruct (Z.ltb_spec (cycles (co_stats_ c)) max) as [Hlt|].
    2:{ exists 0%nat, [], c. split_and!; try done; [lia|]. right. split_and!; [done|lia|lia]. }
    destruct (Core_tick c) as [[b c1]|] eqn:Et; cbn [mbind option_bind].
    2:{ exists 0%nat, [], c. split_and!; try done. lia. }
    destruct (tick_counts c b c1 Hc Ec Et ltac:(lia)) as [Hc1 Hn].
    destruct (IH c1 Hc1 ltac:(lia) Hm ltac:(lia)) as (n & ks & c2 & E2 & Hle & Hc2 & Hr).
    exists (S n), (retiring c ++ ks), c2. split; [cbn [ticks]; rewrite Et; cbn [mbind option_bind]; by rewrite E2|].
    split; [lia|]. split; [done|]. destruct (Core_run fuel c1 max); [|done].
    destruct Hr as [-> [Hr|(Hr & Hcy & Hk)]]; (split; [done|]); [by left|right]. split_and!; [done|done|lia].
Qed.
End Loop.

(** ** Safe programs *)

Section Program.
Context {IM DM : Type} `{MemoryLaws IM} `{MemoryLaws DM}.
Abbreviation core := (Core IM DM).
Implicit Type c : core.
Context (c0 : core) (Hstart : Core_start c0).
Abbreviation im := (mem_ram (co_imem_ c0)).
Abbreviation s_init := (start_state c0).
Context (Haligned : co_bpred_ c0 = None \/ aligned_run im s_init).
Context (Hsafe : safe_program im (is_Some (co_bpred_ c0)) s_init).

Lemma good_safe s : good c0 s -> safe_at im (predicts c0) s.
Proof using Hsafe. intros [_ (ks & E & Hf)]. apply Hsafe. by exists ks. Qed.

Record secure (ks : list commit) c : Prop := mkSecure {
  sc_running : running c0 ks c;
  sc_path : exists s0 s1, tracks im (good c0) (predicts c0) c s0 s1 /\ shadow im c s1 /\
    front im (good c0) (predicts c0) c s1;
}.

Lemma start_secure : secure [] c0.
Proof using Hstart Haligned.
  pose proof (start_running c0 Hstart Haligned) as Hr. constructor; [done|].
  destruct (rn_path _ _ _ Hr) as (s0 & s1 & Ht & Hs & Hk). exists s0, s1. split; [done|]. split; [done|].
  destruct Hstart. pose proof (tk_wb _ _ _ _ _ _ Ht) as Hw. rewrite st_wb in Hw. subst s1.
  assert (O1 : o_ex c0 s0 = Some s0) by (unfold o_ex, halts; by rewrite st_wb).
  assert (O2 : o_id im c0 s0 = Some s0) by (unfold o_id, after_ex; by rewrite st_ex).
  assert (O3 : o_if im c0 s0 = Some s0) by (unfold o_if, after_id; by rewrite st_id).
  assert (O4 : o_pc im c0 s0 = Some s0) by (unfold o_pc, after_if; by rewrite st_if).
  constructor; try congruence.
  - exists (a_pc s0), 0. unfold depth. rewrite O4, Z.add_0_r.
    split_and!; [apply entry_pc, (tk_good _ _ _ _ _ _ Ht)|lia|lia|].
    rewrite (tk_pc _ _ _ _ _ _ Ht s0 O4). symmetry. apply u32_id, (proj1 (tk_good _ _ _ _ _ _ Ht)).
  - intros p k Ep Hk'. by apply st_bp.
Qed.

(** A tick of a secure core does not fault. *)
Lemma secure_tick ks c :
  secure ks c ->
  exists b c', Core_tick c = Some (b, c') /\
    if co_halted_ c' then finished c0 (ks ++ retiring c) c' else secure (ks ++ retiring c) c'.
Proof using Hstart Haligned Hsafe.
  intros [Hr (s0 & s1 & Ht & Hs & Hf)]. pose proof (rn_wf _ _ _ Hr) as Hc.
  pose proof (im_wf c0 Hstart) as Him.
  pose proof (front_cycle_safe im Him (good c0) (predicts c0) (fun s Hg => proj1 Hg)
    (good_advance c0 Hstart) good_safe c s0 s1 Ht Hc (rn_imem _ _ _ Hr) (rn_provenance _ _ _ Hr) Hs Hf) as Hcs.
  destruct (tick_total c Hc (rn_halted _ _ _ Hr) Hcs) as [[b c'] E].
  exists b, c'. split; [done|].
  pose proof (running_tick c0 Hstart Haligned ks c b c' Hr E) as Hr'.
  destruct (co_halted_ c') eqn:Eh'; [done|]. constructor; [done|].
  destruct (Core_tick_cycle c b c' (cw_quiescent c Hc) (rn_halted _ _ _ Hr) E) as [Hcy _].
  assert (Hh : halts (v_wb c) = false).
  { assert (Hret : retired c c') by (by destruct Hcy). by rewrite <- (rt_halted _ _ Hret). }
  destruct (cycle_tracks im Him (good c0) (predicts c0) (fun s Hg => proj1 Hg) (good_advance c0 Hstart)
    (good_aligned c0 Haligned) c c' s0 s1 Ht Hc (rn_imem _ _ _ Hr) Hh Hcy) as [s2 Ht'].
  exists s1, s2. split; [done|]. split.
  - apply (cycle_shadow im Him (good c0) (predicts c0) (fun s Hg => proj1 Hg) (good_advance c0 Hstart)
      (good_aligned c0 Haligned) c c' s0 s1 s2); try done; apply Hr.
  - apply (cycle_front im Him (good c0) (predicts c0) (fun s Hg => proj1 Hg) (good_advance c0 Hstart)
      (good_aligned c0 Haligned) good_safe c c' s0 s1 s2); try done; apply Hr.
Qed.

Lemma halted_ticks_exist n c : co_halted_ c = true -> ticks n c = Some ([], c).
Proof using Type.
  intros Hh. induction n as [|n IH]; [done|]. cbn [ticks]. unfold Core_tick. rewrite Hh.
  cbn [mbind option_bind]. rewrite IH. cbn [mbind option_bind]. unfold retiring. by rewrite Hh.
Qed.

Lemma secure_ticks n ks c :
  secure ks c ->
  exists ls c', ticks n c = Some (ls, c') /\
    if co_halted_ c' then finished c0 (ks ++ ls) c' else secure (ks ++ ls) c'.
Proof using Hstart Haligned Hsafe.
  revert ks c. induction n as [|n IH]; intros ks c Hc.
  { exists [], c. split; [done|]. rewrite app_nil_r. by rewrite (rn_halted _ _ _ (sc_running _ _ Hc)). }
  destruct (secure_tick ks c Hc) as (b & c1 & Et & H1'). cbn [ticks]. rewrite Et. cbn [mbind option_bind].
  destruct (co_halted_ c1) eqn:Eh.
  - exists (retiring c ++ []), c1. rewrite (halted_ticks_exist n c1 Eh). cbn [mbind option_bind].
    split; [done|]. by rewrite Eh, app_nil_r.
  - destruct (IH _ c1 H1') as (ls & c' & E2 & H2'). exists (retiring c ++ ls), c'. rewrite E2.
    cbn [mbind option_bind]. split; [done|]. by rewrite app_assoc.
Qed.
End Program.

Section Halting.
Context {IM DM : Type} `{MemoryLive IM} `{MemoryLive DM}.
Abbreviation core := (Core IM DM).

(** Enough cycles for [n] instructions. *)
Definition enough (c : core) (n : nat) : Z := (budget c + 1) * Z.of_nat n.

Lemma ticks_halt (c : core) n (N : nat) :
  Core_start c -> core_live c ->
  co_bpred_ c = None \/ aligned_run (mem_ram (co_imem_ c)) (start_state c) ->
  safe_program (mem_ram (co_imem_ c)) (is_Some (co_bpred_ c)) (start_state c) ->
  isa_halts (mem_ram (co_imem_ c)) (start_state c) N -> enough c N <= Z.of_nat n ->
  exists ks c', ticks n c = Some (ks, c') /\ finished c ks c'.
Proof using Type.
  intros Hst Hl Ha Hs Hn Hle.
  destruct (secure_ticks c Hst Ha Hs n [] c (start_secure c Hst Ha)) as (ks & c' & E & Hr).
  exists ks, c'. split; [done|]. cbn [app] in Hr. destruct (co_halted_ c') eqn:Eh; [done|].
  destruct (ticks_distance n c ks c' Hl (st_running _ Hst) E Eh) as [Hl' Hd].
  destruct (rn_path _ _ _ (sc_running _ _ _ Hr)) as (s0 & _ & _ & _ & Es & Hf).
  pose proof (halts_before _ _ _ _ _ Hn Es Hf) as Hlt.
  pose proof (distance_range c Hl). pose proof (distance_range c' Hl'). unfold enough in Hle.
  assert ((budget c + 1) * (Z.of_nat (length ks) + 1) <= (budget c + 1) * Z.of_nat N)
    by (apply Z.mul_le_mono_nonneg_l; lia).
  lia.
Qed.
End Halting.
