(* ===== verification/Build.v ===== *)
(** * Building a core

    The memory ports of a configuration satisfy the memory contract, so the
    constructor yields a core ready to run, and loading a program fixes the
    instruction memory it runs. *)

From S2P Require Import Prelude Isa Regfile Config Pipe Memory FlatMem TreePlru Geometry.
From S2P Require Import Cache CacheLaws CacheTiming BranchPredictor Stages Tracer Elf Core CoreStep.
From S2P Require Import IsaSpec Serial CoreInv SerialFacts Refine Shadow Correct MemoryLive Progress.

(** ** Ports *)

Definition Port_inv (p : Port) : Prop :=
  match p with PFlat m => mem_inv m | PCache c => mem_inv c end.

Definition Port_ram (p : Port) : ram :=
  match p with PFlat m => mem_ram m | PCache c => mem_ram c end.

#[export, refine] Instance Port_laws : MemoryLaws Port := {
  mem_inv := Port_inv;
  mem_ram := Port_ram;
}.
Proof.
  - intros [m|c]; exact (mem_ram_wf _).
  - intros [m|c] a; exact (load_word_ram _ a).
  - intros [m|c] a; exact (load_half_ram _ a).
  - intros [m|c] a; exact (load_byte_ram _ a).
  - intros [m|c] a v Hm Ha.
    + refine (eq_trans _ (store_word_ram m a v Hm Ha)).
      cbn [store_word Port_IMemory]. unfold Port_store. by destruct (store_word m a v).
    + refine (eq_trans _ (store_word_ram c a v Hm Ha)).
      cbn [store_word Port_IMemory]. unfold Port_store. by destruct (store_word c a v).
  - intros [m|c] a v Hm Ha.
    + refine (eq_trans _ (store_half_ram m a v Hm Ha)).
      cbn [store_half Port_IMemory]. unfold Port_store. by destruct (store_half m a v).
    + refine (eq_trans _ (store_half_ram c a v Hm Ha)).
      cbn [store_half Port_IMemory]. unfold Port_store. by destruct (store_half c a v).
  - intros [m|c] a v Hm Ha Hv.
    + refine (eq_trans _ (store_byte_ram m a v Hm Ha Hv)).
      cbn [store_byte Port_IMemory]. unfold Port_store. by destruct (store_byte m a v).
    + refine (eq_trans _ (store_byte_ram c a v Hm Ha Hv)).
      cbn [store_byte Port_IMemory]. unfold Port_store. by destruct (store_byte c a v).
  - intros [m|c] a v p' Hm Ha Hs; cbn in Hs.
    + assert (Hx : exists m', p' = PFlat m' /\ (store_word m a v = Some m' \/ store_half m a v = Some m' \/
        (is_u8 v /\ store_byte m a v = Some m'))).
      { cbn. destruct Hs as [E|[E|[Hv E]]]; unfold Port_store in E;
          match type of E with fmap _ ?o = _ => destruct o as [m'|]; [|done] end;
          injection E as <-; exists m'; auto. }
      destruct Hx as (m' & -> & Hx). exact (store_inv m a v m' Hm Ha Hx).
    + assert (Hx : exists m', p' = PCache m' /\ (store_word c a v = Some m' \/ store_half c a v = Some m' \/
        (is_u8 v /\ store_byte c a v = Some m'))).
      { destruct Hs as [E|[E|[Hv E]]]; unfold Port_store in E;
          match type of E with fmap _ ?o = _ => destruct o as [m'|] eqn:Eo; [|done] end;
          injection E as <-; exists m'; auto. }
      destruct Hx as (m' & -> & Hx). exact (store_inv c a v m' Hm Ha Hx).
  - intros [m|c] st a w Hm Ha; cbn [ready Port_IMemory].
    + destruct (ready_ok m st a w Hm Ha) as (b & m' & st' & -> & ?). by exists b, (PFlat m'), st'.
    + destruct (ready_ok c st a w Hm Ha) as (b & m' & st' & -> & ?). by exists b, (PCache m'), st'.
  - intros [m|c] st Hm; cbn [tick Port_IMemory].
    + destruct (tick_ok m st Hm) as (m' & st' & -> & ?). by exists (PFlat m'), st'.
    + destruct (tick_ok c st Hm) as (m' & st' & -> & ?). by exists (PCache m'), st'.
Defined.

#[export, refine] Instance Port_live : MemoryLive Port := {
  live p := match p with PFlat m => live m | PCache c => live c end;
  delay p := match p with PFlat m => delay m | PCache c => delay c end;
  worst p := match p with PFlat m => worst m | PCache c => worst c end;
}.
Proof.
  - intros [m|c]; [exact (delay_range m)|exact (delay_range c)].
  - intros [m|c] st a w b p' st' Hm Hl Ha E; cbn [ready Port_IMemory] in E.
    + change (mem_inv m) in Hm.
      destruct (ready m st a w) as [[[b1 m1] s1]|] eqn:Er; cbn [mbind option_bind] in E; [|done].
      injection E as <- <- <-. exact (ready_live _ _ _ _ _ _ _ Hm Hl Ha Er).
    + change (mem_inv c) in Hm.
      destruct (ready c st a w) as [[[b1 c1] s1]|] eqn:Er; cbn [mbind option_bind] in E; [|done].
      injection E as <- <- <-. exact (ready_live _ _ _ _ _ _ _ Hm Hl Ha Er).
  - intros [m|c] st p' st' Hm Hl E; cbn [tick Port_IMemory] in E.
    + change (mem_inv m) in Hm.
      destruct (tick m st) as [[m1 s1]|] eqn:Et; cbn [mbind option_bind] in E; [|done].
      injection E as <- <-. exact (tick_live _ _ _ _ Hm Hl Et).
    + change (mem_inv c) in Hm.
      destruct (tick c st) as [[c1 s1]|] eqn:Et; cbn [mbind option_bind] in E; [|done].
      injection E as <- <-. exact (tick_live _ _ _ _ Hm Hl Et).
  - intros [m|c] a v p' Hl E; cbn [store_word store_half store_byte Port_IMemory] in E;
      unfold Port_store in E.
    + assert (Hx : exists m', p' = PFlat m' /\
        (store_word m a v = Some m' \/ store_half m a v = Some m' \/ store_byte m a v = Some m')).
      { destruct E as [E|[E|E]]; match type of E with fmap _ ?o = _ => destruct o as [m'|] eqn:Eo; [|done] end;
          injection E as <-; eauto. }
      destruct Hx as (m' & -> & Hx). exact (store_live _ a v _ Hl Hx).
    + assert (Hx : exists c', p' = PCache c' /\
        (store_word c a v = Some c' \/ store_half c a v = Some c' \/ store_byte c a v = Some c')).
      { destruct E as [E|[E|E]]; match type of E with fmap _ ?o = _ => destruct o as [c'|] eqn:Eo; [|done] end;
          injection E as <-; eauto. }
      destruct Hx as (c' & -> & Hx). exact (store_live _ a v _ Hl Hx).
  - intros [m|c] st a w p1 st1 st2 p2 st3 Hm Hl Ha E1 E2; cbn [ready tick Port_IMemory] in E1, E2.
    + change (mem_inv m) in Hm.
      destruct (ready m st a w) as [[[b m1] s1]|] eqn:Er; cbn [mbind option_bind] in E1; [|done]. injection E1 as -> <- <-.
      destruct (tick m1 st2) as [[m2 s2]|] eqn:Et; cbn [mbind option_bind] in E2; [|done]. injection E2 as <- <-.
      exact (unserved_delay _ _ _ _ _ _ _ _ _ Hm Hl Ha Er Et).
    + change (mem_inv c) in Hm.
      destruct (ready c st a w) as [[[b c1] s1]|] eqn:Er; cbn [mbind option_bind] in E1; [|done].
      injection E1 as -> <- <-.
      destruct (tick c1 st2) as [[c2 s2]|] eqn:Et; cbn [mbind option_bind] in E2; [|done].
      injection E2 as <- <-. exact (unserved_delay _ _ _ _ _ _ _ _ _ Hm Hl Ha Er Et).
Defined.

(** ** Construction *)

Definition predictor_ok (bht btb : Z) : Prop :=
  0 < bht < 2 ^ 32 /\ is_u32 btb /\ pow2_check btb = true.

Definition cache_ok (line_bytes sets hit_latency ways : Z) : Prop :=
  is_u32 line_bytes /\ is_u32 sets /\ is_u32 ways /\ 0 <= hit_latency < 2 ^ 31 /\
  geometry_ok line_bytes sets ways = true /\ line_bytes * sets < 2 ^ 32.

(** The configurations whose components can be built. *)
Record config_ok (cfg : SimConfig) : Prop := mkConfigOk {
  ok_base : is_u32 (ram_base_addr cfg);
  ok_size : is_u32 (ram_size_bytes cfg);
  ok_ilat : 0 <= imem_latency_cycles cfg < 2 ^ 31;
  ok_dlat : 0 <= dmem_latency_cycles cfg < 2 ^ 31;
  ok_icache : icache_enabled cfg = true ->
    cache_ok (icache_line_bytes cfg) (icache_sets cfg) (icache_hit_latency_cycles cfg) (icache_ways cfg);
  ok_dcache : dcache_enabled cfg = true ->
    cache_ok (dcache_line_bytes cfg) (dcache_sets cfg) (dcache_hit_latency_cycles cfg) (dcache_ways cfg);
  ok_bpred : bpred_enabled cfg = true -> predictor_ok (bpred_bht_entries cfg) (bpred_btb_entries cfg);
}.

Definition blank_ram (cfg : SimConfig) : ram :=
  mkRam (ram_base_addr cfg) (replicate (Z.to_nat (ram_size_bytes cfg)) 0).

Lemma FlatMem_new_ok base size latency :
  is_u32 base -> 0 <= latency < 2 ^ 31 ->
  FlatMem_inv (FlatMem_new base size latency) /\
  FlatMem_ram (FlatMem_new base size latency) = mkRam base (replicate (Z.to_nat size) 0).
Proof.
  intros Hb Hl. split; [|done]. constructor; cbn; try done; [|destruct (Z.eqb_spec latency 0); lia].
  split; [done|]. apply Forall_replicate. unfold is_u8; lia.
Qed.

(** The port of a configuration: the cache or the memory behind it. *)
Lemma port_ok (m : FlatMem) (enabled : bool) line_bytes sets lat ways pf degree probe :
  FlatMem_inv m -> (enabled = true -> cache_ok line_bytes sets lat ways) ->
  exists p, (if enabled then PCache <$> Cache_new m line_bytes sets lat ways pf degree probe
             else Some (PFlat m)) = Some p /\
    mem_inv p /\ mem_ram p = FlatMem_ram m /\ Port_flat p = m.
Proof.
  intros Hm Hok. destruct enabled; [|by exists (PFlat m)].
  destruct (Hok eq_refl) as (H1 & H2 & H3 & H4 & H5 & H6).
  pose proof (Hm : mem_inv m) as Hm'.
  destruct (Cache_new_inv m line_bytes sets lat ways pf degree probe H1 H2 H3 H4 H5 H6 Hm')
    as (c & -> & Hc & Hb & _).
  exists (PCache c). split_and!; [done|exact Hc| |exact Hb]. cbn. by rewrite Hb.
Qed.

Lemma predictor_new_ok bht btb :
  predictor_ok bht btb ->
  exists p, BranchPredictor_new bht btb = Some p /\
    forall Q, exists k, BranchPredictor_inv k p /\ btb_sound Q k p.
Proof.
  intros (Hb & Ht & Hp). apply pow2_check_spec in Hp as (k & Hk & ->); [|done].
  destruct (BranchPredictor_new_inv bht (Z.of_nat k) Hb ltac:(lia)) as (p & E & Hinv & _).
  exists p. split; [done|]. intros Q. exists (Z.of_nat k). split; [done|].
  intros pc t cond El. unfold BranchPredictor_new in E.
  destruct (log2_exact _) as [n|]; cbn [mbind option_bind] in E; [|done]. injection E as <-.
  unfold btb_lookup in El. cbn [bp_btb_] in El.
  destruct (vget _ _) as [e|] eqn:Ev; cbn [mbind option_bind] in El; [|done].
  unfold vget in Ev. destruct (_ <? 0); [done|]. by apply lookup_replicate in Ev as [-> _].
Qed.

(** A buildable configuration gives a core at the start of an empty program. *)
Lemma Core_new_start cfg :
  config_ok cfg ->
  exists c, Core_new cfg = Some c /\ Core_start c /\ co_base_ c = ram_base_addr cfg /\
    Core_pc c = ram_base_addr cfg /\ co_rf_ c = RegFile_new /\
    mem_ram (co_imem_ c) = blank_ram cfg /\ mem_ram (co_dmem_ c) = blank_ram cfg /\
    (bpred_enabled cfg = false -> co_bpred_ c = None) /\
    mem_inv (Port_flat (co_imem_ c)) /\ co_halt_reason_ c = HaltNone.
Proof.
  intros [Hb Hsz Hil Hdl Hic Hdc Hbp]. unfold Core_new.
  destruct (FlatMem_new_ok (ram_base_addr cfg) (ram_size_bytes cfg) (imem_latency_cycles cfg) Hb Hil) as [Hi Hir].
  destruct (FlatMem_new_ok (ram_base_addr cfg) (ram_size_bytes cfg) (dmem_latency_cycles cfg) Hb Hdl) as [Hd Hdr].
  destruct (port_ok _ _ _ _ _ _ (icache_prefetch_enabled cfg) (icache_prefetch_degree cfg) true Hi Hic)
    as (ip & -> & Hip & Hipr & Hipf).
  cbn [mbind option_bind].
  destruct (port_ok _ _ _ _ _ _ false 1 false Hd Hdc) as (dp & -> & Hdp & Hdpr & _).
  cbn [mbind option_bind].
  assert (Hbp' : exists bp, (if bpred_enabled cfg
      then Some <$> BranchPredictor_new (bpred_bht_entries cfg) (bpred_btb_entries cfg)
      else Some None) = Some bp /\ (bpred_enabled cfg = false -> bp = None) /\
      forall Q p, bp = Some p -> exists k, BranchPredictor_inv k p /\ btb_sound Q k p).
  { destruct (bpred_enabled cfg); [|by exists None].
    destruct (predictor_new_ok _ _ (Hbp eq_refl)) as (p & -> & Hp). exists (Some p).
    split_and!; try done. intros Q p' [= <-]. apply Hp. }
  destruct Hbp' as (bp & -> & Hoff & Hsound). cbn [mbind option_bind].
  eexists. split; [reflexivity|].
  split_and!; try done; try exact (eq_trans Hipr Hir);
    try exact (eq_trans Hdpr Hdr); [|cbn; by rewrite Hipf].
  constructor; try done.
  - constructor; cbn; try done; try auto.
    + apply RegFile_new_wf.
    + destruct bp as [p|]; [|done]. by apply Hsound.
  - intros Q p k Ep Hk. cbn in Ep. destruct (Hsound Q p Ep) as (k' & Hk' & Hs).
    assert (k = k') as -> by (rewrite <- (bi_index_bits _ _ Hk); apply Hk'). done.
Qed.

(** ** Loading a program *)

Definition program_bytes (words : list Z) : list Z := words ≫= le_bytes 4.

Lemma program_bytes_length words : length (program_bytes words) = (4 * length words)%nat.
Proof.
  induction words as [|w words IH]; [done|]. unfold program_bytes in *. cbn [mbind list_bind].
  rewrite length_app, le_bytes_length, IH. cbn [length]. lia.
Qed.

Lemma store_words_ok (m : FlatMem) addr words :
  mem_inv m -> ram_covers (mem_ram m) addr (4 * Z.of_nat (length words)) ->
  exists m', store_words m addr words = Some m' /\ mem_inv m' /\
    mem_ram m' = ram_place (mem_ram m) addr (program_bytes words).
Proof.
  revert m addr. induction words as [|w words IH]; intros m addr Hm Hc; cbn [store_words].
  { exists m. split_and!; try done. by rewrite ram_place_nil by apply Hc. }
  assert (Ha : is_u32 addr).
  { destruct (mem_ram_wf m Hm) as [Hb _]. destruct Hc as (? & ? & ?). cbn [length] in *. unfold is_u32 in *. lia. }
  assert (Es : ram_store 4 (mem_ram m) addr w = Some (ram_place (mem_ram m) addr (le_bytes 4 w))).
  { destruct Hc as (? & ? & ?). cbn [length] in *. unfold ram_store.
    bool_cases; cbn [andb]; try lia. done. }
  pose proof (store_word_ram m addr w Hm Ha) as E. rewrite Es in E.
  destruct (store_word m addr w) as [m1|] eqn:Em; [|done].
  assert (Er : mem_ram m1 = ram_place (mem_ram m) addr (le_bytes 4 w)) by exact (Some_inj _ _ E).
  clear E. rename Er into E.
  assert (Hm1 : mem_inv m1) by (eapply store_inv; [exact Hm|exact Ha|by left]).
  cbn [mbind option_bind].
  assert (Hl : ram_covers (mem_ram m) addr (Z.of_nat (length (le_bytes 4 w)))).
  { rewrite le_bytes_length. destruct Hc as (? & ? & ?). cbn [length] in *. unfold ram_covers. lia. }
  assert (Hc' : ram_covers (mem_ram m1) (addr + 4) (4 * Z.of_nat (length words))).
  { rewrite E. unfold ram_covers in *. rewrite ram_place_length by done. cbn [ram_base ram_place length] in *. lia. }
  assert (Hn : exists m', store_words m1 (u32 (addr + 4)) words = Some m' /\ mem_inv m' /\
    mem_ram m' = ram_place (mem_ram m1) (addr + 4) (program_bytes words)).
  { destruct words as [|w2 words]; [|rewrite u32_id; [by apply IH|]].
    - exists m1. split_and!; try done. by rewrite ram_place_nil by apply Hc'.
    - unfold ram_covers, is_u32 in *. cbn [length] in *. lia. }
  destruct Hn as (m' & Es' & Hm' & Er). exists m'. split; [exact Es'|]. split; [exact Hm'|].
  rewrite Er, E.
  change (program_bytes (w :: words)) with (le_bytes 4 w ++ program_bytes words).
  apply (ram_place_app (mem_ram m) addr (le_bytes 4 w)).
  rewrite le_bytes_length, program_bytes_length. unfold ram_covers in *. cbn [length] in *. lia.
Qed.

Lemma Port_set_flat_ok p (m : FlatMem) :
  mem_inv p -> mem_inv m ->
  mem_inv (Port_set_flat p m) /\ mem_ram (Port_set_flat p m) = mem_ram m.
Proof.
  intros Hp Hm. destruct p as [m0|c]; [done|]. split; [|done].
  exact (inv_with_backing c m Hp Hm).
Qed.

(** The simulator of [tools/bench_run.cpp] and the tests: a new core with a
    program in its instruction memory. *)
Definition boot (cfg : SimConfig) (words : list Z) : option (Core Port Port) :=
  c ← Core_new cfg; Core_load_program c words.

Definition program_fits (cfg : SimConfig) (words : list Z) : Prop :=
  4 * Z.of_nat (length words) <= ram_size_bytes cfg /\
  ram_base_addr cfg + 4 * Z.of_nat (length words) <= 2 ^ 32.

Definition program_ram (cfg : SimConfig) (words : list Z) : ram :=
  ram_place (blank_ram cfg) (ram_base_addr cfg) (program_bytes words).

Definition boot_state (cfg : SimConfig) : arch := mkArch (ram_base_addr cfg) RegFile_new (blank_ram cfg).

Lemma boot_start cfg words :
  config_ok cfg -> program_fits cfg words ->
  exists c, boot cfg words = Some c /\ Core_start c /\ start_state c = boot_state cfg /\
    mem_ram (co_imem_ c) = program_ram cfg words /\
    (bpred_enabled cfg = false -> co_bpred_ c = None) /\ co_stats_ c = SimStats_new.
Proof.
  intros Hok [Hsz Htop]. destruct (Core_new_start cfg Hok)
    as (c & E & Hst & Hbase & Hpc & Hrf & Him & Hdm & Hbp & Hflat & _).
  assert (Hs : co_stats_ c = SimStats_new).
  { unfold Core_new in E. inv_binds. by simplify_eq. }
  unfold boot. rewrite E. cbn [mbind option_bind]. unfold Core_load_program. rewrite Hbase.
  assert (Hfr : mem_ram (Port_flat (co_imem_ c)) = mem_ram (co_imem_ c)) by (by destruct (co_imem_ c)).
  destruct (store_words_ok (Port_flat (co_imem_ c)) (ram_base_addr cfg) words Hflat) as (m & -> & Hm & Hmr).
  { rewrite Hfr, Him. unfold ram_covers, blank_ram. cbn. rewrite length_replicate. lia. }
  cbn [mbind option_bind]. eexists. split; [reflexivity|].
  pose proof (cw_imem _ (st_wf _ Hst)) as Hi.
  destruct (Port_set_flat_ok (co_imem_ c) m Hi Hm) as [Hi' Hr'].
  assert (Hpc' : v_pc c = ram_base_addr cfg) by exact Hpc.
  split_and!.
  - destruct Hst as [[]]. constructor; try done; constructor; done.
  - unfold boot_state. rewrite <- Hpc', <- Hrf, <- Hdm. reflexivity.
  - exact (eq_trans Hr' (eq_trans Hmr (f_equal (fun r => ram_place r _ _) (eq_trans Hfr Him)))).
  - exact Hbp.
  - exact Hs.
Qed.

(** ** Waiting times *)

(** The longest wait of the port of a configuration. *)
Definition port_wait (latency : Z) (cached : bool) (hit_latency : Z) : Z :=
  let l := Z.max 1 latency - 1 in
  if cached then 2 * l + 1 + Z.max 1 hit_latency else l.

(** Enough cycles for [n] instructions. *)
Definition cycle_bound (cfg : SimConfig) (n : nat) : Z :=
  (5 + port_wait (imem_latency_cycles cfg) (icache_enabled cfg) (icache_hit_latency_cycles cfg)
     + port_wait (dmem_latency_cycles cfg) (dcache_enabled cfg) (dcache_hit_latency_cycles cfg))
  * Z.of_nat n.

Lemma max_1 l : 0 <= l -> (if l =? 0 then 1 else l) = Z.max 1 l.
Proof. intros. destruct (Z.eqb_spec l 0); lia. Qed.

Lemma port_live (base size latency : Z) (enabled : bool) line_bytes sets lat ways pf degree probe p :
  0 <= latency -> (enabled = true -> 0 <= lat) ->
  (if enabled
   then PCache <$> Cache_new (FlatMem_new base size latency) line_bytes sets lat ways pf degree probe
   else Some (PFlat (FlatMem_new base size latency))) = Some p ->
  live p /\ worst p = port_wait latency enabled lat.
Proof.
  intros Hl Hlat E. unfold port_wait. destruct enabled.
  - destruct (Cache_new _ _ _ _ _ _ _ _) as [c|] eqn:Ec; cbn in E; [|done]. injection E as <-.
    assert (Hf : live (FlatMem_new base size latency)) by exact I.
    destruct (Cache_new_live _ _ _ _ _ _ _ _ _ Hf Ec) as [Hc Hw]. split; [exact Hc|].
    refine (eq_trans Hw _). cbn [worst FlatMem_live FlatMem_new fm_latency_].
    rewrite !max_1 by auto. done.
  - injection E as <-. split; [done|]. cbn. by rewrite max_1.
Qed.

Lemma store_words_latency (m : FlatMem) addr words m' :
  store_words m addr words = Some m' -> fm_latency_ m' = fm_latency_ m.
Proof.
  revert m addr. induction words as [|w words IH]; intros m addr E; cbn [store_words] in E;
    [by injection E as <-|].
  destruct (store_word m addr w) as [m1|] eqn:Em; cbn [mbind option_bind] in E; [|done].
  rewrite (IH m1 _ E). by eapply FlatMem_store_fields; left.
Qed.

Lemma set_flat_live p (m : FlatMem) :
  fm_latency_ m = fm_latency_ (Port_flat p) -> live p ->
  live (Port_set_flat p m) /\ worst (Port_set_flat p m) = worst p.
Proof.
  intros E Hl. destruct p as [m0|c]; cbn in *; [by rewrite E|].
  split; [destruct Hl; by constructor|]. unfold Cache_worst. cbn. by rewrite E.
Qed.

(** A new core is live, and its budget is the configuration's. *)
Lemma new_live cfg c :
  config_ok cfg -> Core_new cfg = Some c ->
  live (co_imem_ c) /\ live (co_dmem_ c) /\ co_stats_ c = SimStats_new /\
  forall n, (budget c + 1) * Z.of_nat n = cycle_bound cfg n.
Proof.
  intros Hok E. destruct Hok as [_ _ Hil Hdl Hic Hdc _]. unfold Core_new in E.
  match type of E with mbind _ ?o = _ => destruct o as [ip|] eqn:Ei end; cbn [mbind option_bind] in E; [|done].
  match type of E with mbind _ ?o = _ => destruct o as [dp|] eqn:Ed end; cbn [mbind option_bind] in E; [|done].
  match type of E with mbind _ ?o = _ => destruct o as [bp|] end; cbn [mbind option_bind] in E; [|done].
  injection E as <-.
  apply port_live in Ei as [Hi Wi]; [|lia|intros Hen; apply Hic in Hen as (_ & _ & _ & ? & _); lia].
  apply port_live in Ed as [Hd Wd]; [|lia|intros Hen; apply Hdc in Hen as (_ & _ & _ & ? & _); lia].
  split; [exact Hi|]. split; [exact Hd|]. split; [done|]. intros n.
  unfold budget, cycle_bound. cbn [co_imem_ co_dmem_ Core_wire]. rewrite Wi, Wd. f_equal. lia.
Qed.

Lemma boot_live cfg words c n :
  config_ok cfg -> program_fits cfg words -> boot cfg words = Some c ->
  core_live c /\ (budget c + 1) * Z.of_nat n = cycle_bound cfg n.
Proof.
  intros Hok Hfit E. destruct (boot_start cfg words Hok Hfit) as (c' & E' & Hst & _).
  rewrite E in E'. injection E' as <-.
  unfold boot in E. destruct (Core_new cfg) as [c0|] eqn:E0; cbn [mbind option_bind] in E; [|done].
  destruct (new_live cfg c0 Hok E0) as (Hi & Hd & _ & Hb). rewrite <- Hb. unfold Core_load_program in E.
  destruct (store_words _ _ words) as [m|] eqn:Em; cbn [mbind option_bind] in E; [|done].
  injection E as <-.
  destruct (set_flat_live (co_imem_ c0) m (store_words_latency _ _ _ _ Em) Hi) as [Hi' Wi'].
  split; [constructor; [apply Hst|exact Hi'|exact Hd]|].
  unfold budget. change (co_imem_ _) with (Port_set_flat (co_imem_ c0) m) at 1. rewrite Wi'. done.
Qed.
