(* ===== verification/Program.v ===== *)
(** * Programs

    The theorems about whole runs: against the RV32I machine for any lawful
    memories, and for every configuration of the simulator. *)

From S2P Require Import Prelude Isa Regfile Config Pipe Memory FlatMem BranchPredictor Stages Tracer.
From S2P Require Import Core CoreStep IsaSpec Serial CoreInv SerialFacts Refine Shadow Correct Build.

(** ** Shared forms *)

Section Generic.
Context {IM DM : Type} `{MemoryLaws IM} `{MemoryLaws DM}.

Lemma run_state (c : Core IM DM) n ks c' :
  Core_start c ->
  co_bpred_ c = None \/ aligned_run (mem_ram (co_imem_ c)) (start_state c) ->
  ticks n c = Some (ks, c') ->
  if co_halted_ c' then finished c ks c' else running c ks c'.
Proof using Type.
  intros Hst Ha E. pose proof (start_running c Hst Ha) as Hr.
  exact (ticks_running c Hst Ha n [] c ks c' Hr E).
Qed.

Lemma isa_halt_unique imem s n1 n2 ks1 k1 s1 ks2 k2 s2 :
  isa_steps imem n1 s = Some (ks1 ++ [k1], s1) -> isa_steps imem n2 s = Some (ks2 ++ [k2], s2) ->
  Forall (fun k => is_halt (k_op k) = false) ks1 -> is_halt (k_op k1) = true ->
  Forall (fun k => is_halt (k_op k) = false) ks2 -> is_halt (k_op k2) = true ->
  ks1 = ks2 /\ k1 = k2 /\ s1 = s2.
Proof using Type.
  revert n1 n2 s ks2. induction ks1 as [|k ks1 IH]; intros [|n1] [|n2] s ks2 E1 E2 F1 H1' F2 H2';
    cbn [isa_steps] in E1, E2; try (by (injection E1 as Ex; apply (f_equal length) in Ex; rewrite ?length_app in Ex; cbn in Ex; lia));
    try (by (injection E2 as Ex; apply (f_equal length) in Ex; rewrite ?length_app in Ex; cbn in Ex; lia)).
  all: destruct (isa_step imem s) as [[k0 s0]|]; cbn [mbind option_bind] in E1, E2; [|done].
  all: destruct (is_halt (k_op k0) && negb (n1 =? 0)%nat) eqn:G1; [done|].
  all: destruct (is_halt (k_op k0) && negb (n2 =? 0)%nat) eqn:G2; [done|].
  all: destruct (isa_steps imem n1 s0) as [[ls1 t1]|] eqn:D1; cbn [mbind option_bind] in E1; [|done].
  all: destruct (isa_steps imem n2 s0) as [[ls2 t2]|] eqn:D2; cbn [mbind option_bind] in E2; [|done].
  - injection E1 as -> -> ->. rewrite H1' in G1, G2. cbn in G1, G2.
    apply negb_false_iff, Nat.eqb_eq in G1, G2. subst.
    injection D1 as <-. injection D2 as <- <-. destruct ks2 as [|k ks2].
    + by injection E2 as -> ->.
    + injection E2 as -> E2 _. by destruct ks2.
  - injection E1 as -> -> ->. destruct ks2 as [|k' ks2].
    + injection E2 as -> -> ->. apply Forall_cons in F1 as [F1 _]. congruence.
    + injection E2 as -> -> ->. apply Forall_cons in F1 as [_ F1]. apply Forall_cons in F2 as [_ F2].
      by destruct (IH _ _ _ _ D1 D2 F1 H1' F2 H2') as (-> & -> & ->).
Qed.
End Generic.

(** ** Against the instruction set *)

(** C2: from reset, over any lawful instruction and data memories and with or
    without a branch predictor, the instructions retired by [n] clock cycles
    are, one by one and with the same register writes, loads and stores, the
    first instructions of the RV32I execution of the program; the register
    file is that of the RV32I machine after them, and the retired-instruction
    counter is their number.  With a predictor the PCs of the execution must be
    word-aligned. *)
Theorem Core_refines_isa {IM DM : Type} `{MemoryLaws IM} `{MemoryLaws DM}
    (c : Core IM DM) n ks c' :
  Core_start c ->
  co_bpred_ c = None \/ aligned_run (mem_ram (co_imem_ c)) (start_state c) ->
  ticks n c = Some (ks, c') ->
  exists s, isa_steps (mem_ram (co_imem_ c)) (length ks) (start_state c) = Some (ks, s) /\
    co_rf_ c' = a_regs s /\
    instructions (co_stats_ c') = u64 (instructions (co_stats_ c) + Z.of_nat (length ks)).
Proof.
  intros Hst Ha E. pose proof (run_state c n ks c' Hst Ha E) as Hr.
  destruct (co_halted_ c').
  - destruct Hr as [_ _ Hn (ks1 & k & s & _ & _ & _ & Es & Hrf & _)]. by exists s.
  - destruct Hr as [_ _ _ _ Hn (s0 & s1 & Ht & _ & [Es _])]. exists s0.
    split_and!; try done. apply (tk_rf _ _ _ _ _ _ Ht).
Qed.

(** A loop with a taken backward branch, a store and a load, run with an
    instruction cache that prefetches, a data cache and a predictor. *)
Definition example_config : SimConfig := {|
  ram_base_addr := 0x80000000; ram_size_bytes := 64;
  dmem_latency_cycles := 3; dcache_enabled := true; dcache_line_bytes := 8; dcache_sets := 2;
  dcache_hit_latency_cycles := 1; dcache_ways := 2;
  imem_latency_cycles := 2; icache_enabled := true; icache_line_bytes := 8; icache_sets := 2;
  icache_hit_latency_cycles := 1; icache_ways := 1; icache_prefetch_enabled := true;
  icache_prefetch_degree := 2;
  bpred_enabled := true; bpred_bht_entries := 4; bpred_btb_entries := 4 |}.

Definition example_program : list Z := [
  0x800001B7;  (* lui  x3, 0x80000   *)
  0x00200093;  (* addi x1, x0, 2     *)
  0x00510113;  (* addi x2, x2, 5     *)
  0xFFF08093;  (* addi x1, x1, -1    *)
  0xFE009CE3;  (* bne  x1, x0, -8    *)
  0x0221A823;  (* sw   x2, 48(x3)    *)
  0x0301A203;  (* lw   x4, 48(x3)    *)
  0x00120293;  (* addi x5, x4, 1     *)
  0x00100073   (* ebreak             *)
].

Definition example_core : Core Port Port :=
  match boot example_config example_program with Some c => c
  | None => Core_wire 0 (PFlat (FlatMem_new 0 0 0)) (PFlat (FlatMem_new 0 0 0)) None end.

Lemma example_config_ok : config_ok example_config.
Proof.
  constructor; try (unfold is_u32; cbn; lia); intros _; unfold cache_ok, predictor_ok, is_u32; cbn;
    split_and!; (lia || reflexivity).
Qed.

Lemma example_program_fits : program_fits example_config example_program.
Proof. unfold program_fits; cbn. lia. Qed.

Lemma example_boot : boot example_config example_program = Some example_core.
Proof. vm_compute. reflexivity. Qed.

Lemma example_core_start :
  Core_start example_core /\ start_state example_core = boot_state example_config /\
  mem_ram (co_imem_ example_core) = program_ram example_config example_program.
Proof.
  destruct (boot_start _ _ example_config_ok example_program_fits) as (c & E & Hst & Hs & Hi & _).
  rewrite example_boot in E. apply Some_inj in E. subst c. exact (conj Hst (conj Hs Hi)).
Qed.

Lemma example_aligned : aligned_run (mem_ram (co_imem_ example_core)) (start_state example_core).
Proof. apply (aligned_check_sound _ 20). vm_compute. reflexivity. Qed.

Lemma Core_refines_isa_witness :
  exists ks c s, ticks 40 example_core = Some (ks, c) /\ co_halted_ c = true /\ length ks = 12%nat /\
    isa_steps (mem_ram (co_imem_ example_core)) 12 (start_state example_core) = Some (ks, s) /\
    co_rf_ c = a_regs s.
Proof.
  destruct (ticks 40 example_core) as [[ks c]|] eqn:E.
  - destruct (Core_refines_isa example_core 40 ks c (proj1 example_core_start)
      (or_intror example_aligned) E) as (s & Es & Hrf & _).
    assert (Hl : (co_halted_ c, length ks) = (true, 12%nat)).
    { assert (Hx : match ticks 40 example_core with
        | Some (ks, c) => (co_halted_ c, length ks) | None => (false, 0%nat) end = (true, 12%nat))
        by (vm_compute; reflexivity).
      by rewrite E in Hx. }
    injection Hl as Hh Hl. rewrite Hl in Es. exists ks, c, s.
    exact (conj eq_refl (conj Hh (conj Hl (conj Es Hrf)))).
  - assert (Hx : match ticks 40 example_core with Some _ => true | None => false end = true)
      by (vm_compute; reflexivity).
    by rewrite E in Hx.
Defined.

(** C3: the core halts exactly on the instruction on which the RV32I execution
    ends, an EBREAK or an unrecognised word, and reports which of the two, its
    PC and its encoding.  If the word after it is not a store, the data memory
    is the one the execution leaves; if it is one, the core may have started it
    ([halting_cycle_performs_access]).  With a predictor the execution must keep
    to word-aligned PCs. *)
Theorem Core_halts_with_isa {IM DM : Type} `{MemoryLaws IM} `{MemoryLaws DM}
    (c : Core IM DM) n ks c' :
  Core_start c ->
  co_bpred_ c = None \/ aligned_run (mem_ram (co_imem_ c)) (start_state c) ->
  ticks n c = Some (ks, c') ->
  if co_halted_ c' then
    exists ks1 k s, ks = ks1 ++ [k] /\ Forall (fun k => is_halt (k_op k) = false) ks1 /\
      is_halt (k_op k) = true /\
      isa_steps (mem_ram (co_imem_ c)) (length ks) (start_state c) = Some (ks, s) /\
      co_halt_reason_ c' = (if op_eqb (k_op k) EBREAK then HaltEbreak else HaltIllegal) /\
      co_halt_pc_ c' = k_pc k /\ co_halt_raw_ c' = k_raw k /\
      ((forall raw, ram_load 4 (mem_ram (co_imem_ c)) (u32 (k_pc k + 4)) = Some raw ->
          is_store (i_op (decode raw (u32 (k_pc k + 4)))) = false) ->
       mem_ram (co_dmem_ c') = a_mem s)
  else Forall (fun k => is_halt (k_op k) = false) ks.
Proof.
  intros Hst Ha E. pose proof (run_state c n ks c' Hst Ha E) as Hr.
  destruct (co_halted_ c').
  - destruct Hr as [_ _ _ (ks1 & k & s & -> & Hf & Hk & Es & _ & H1' & H2' & H3' & Hm)].
    exists ks1, k, s. by split_and!.
  - by destruct Hr as [_ _ _ _ _ (s0 & s1 & _ & _ & [_ Hf])].
Qed.

(** Facts about the finished run of [example_core], by evaluation. *)
Lemma example_finished :
  exists ks c, ticks 40 example_core = Some (ks, c) /\ co_halted_ c = true /\
    co_halt_reason_ c = HaltEbreak /\ co_halt_pc_ c = 0x80000020.
Proof.
  destruct (ticks 40 example_core) as [[ks c]|] eqn:E.
  - assert (Hx : match ticks 40 example_core with
      | Some (_, c) => (co_halted_ c, co_halt_reason_ c, co_halt_pc_ c)
      | None => (false, HaltNone, 0) end = (true, HaltEbreak, 0x80000020)) by (vm_compute; reflexivity).
    rewrite E in Hx. injection Hx as H1 H2 H3. exists ks, c.
    exact (conj eq_refl (conj H1 (conj H2 H3))).
  - assert (Hx : match ticks 40 example_core with Some _ => true | None => false end = true)
      by (vm_compute; reflexivity).
    by rewrite E in Hx.
Qed.

Lemma Core_halts_with_isa_witness :
  exists ks c s, ticks 40 example_core = Some (ks, c) /\ co_halt_pc_ c = 0x80000020 /\
    isa_steps (mem_ram (co_imem_ example_core)) (length ks) (start_state example_core) = Some (ks, s) /\
    mem_ram (co_dmem_ c) = a_mem s.
Proof.
  destruct example_finished as (ks & c & E & Hh & _ & Hpc).
  pose proof (Core_halts_with_isa example_core 40 ks c (proj1 example_core_start)
    (or_intror example_aligned) E) as Hr.
  rewrite Hh in Hr. destruct Hr as (ks1 & k & s & _ & _ & _ & Es & _ & Hk & _ & Hm).
  exists ks, c, s. split; [exact E|]. split; [exact Hpc|]. split; [exact Es|].
  apply Hm. rewrite <- Hk, Hpc. clear - Hm.
  assert (Hw : ram_load 4 (mem_ram (co_imem_ example_core)) (u32 (0x80000020 + 4)) = Some 0)
    by (vm_compute; reflexivity).
  intros raw Hraw. rewrite Hw in Hraw. apply Some_inj in Hraw. rewrite <- Hraw. vm_compute. reflexivity.
Defined.

(** C10: what the configuration cannot change: for any two configurations that
    agree on the RAM's base and size, with any latencies, caches, prefetching
    and predictors, two finished runs of the same program, if its execution
    keeps to word-aligned PCs, retired the same instructions with the same
    effects and ended with the same registers, halt report and instruction
    count.  They end with the same data memory if the word after the halting
    instruction is not a store; whether such a store is performed depends on
    the latencies. *)
Theorem configuration_independence cfg1 cfg2 words c1 c2 n1 n2 ks1 ks2 d1 d2 :
  config_ok cfg1 -> config_ok cfg2 -> program_fits cfg1 words ->
  ram_base_addr cfg2 = ram_base_addr cfg1 -> ram_size_bytes cfg2 = ram_size_bytes cfg1 ->
  aligned_run (program_ram cfg1 words) (boot_state cfg1) ->
  boot cfg1 words = Some c1 -> boot cfg2 words = Some c2 ->
  ticks n1 c1 = Some (ks1, d1) -> ticks n2 c2 = Some (ks2, d2) ->
  co_halted_ d1 = true -> co_halted_ d2 = true ->
  ks1 = ks2 /\ co_rf_ d1 = co_rf_ d2 /\ co_halt_reason_ d1 = co_halt_reason_ d2 /\
  co_halt_pc_ d1 = co_halt_pc_ d2 /\ co_halt_raw_ d1 = co_halt_raw_ d2 /\
  instructions (co_stats_ d1) = instructions (co_stats_ d2) /\
  ((forall raw, ram_load 4 (program_ram cfg1 words) (u32 (co_halt_pc_ d1 + 4)) = Some raw ->
      is_store (i_op (decode raw (u32 (co_halt_pc_ d1 + 4)))) = false) ->
   mem_ram (co_dmem_ d1) = mem_ram (co_dmem_ d2)).
Proof.
  intros Hok1 Hok2 Hf1 Hb Hsz Ha B1 B2 E1 E2 Hh1 Hh2.
  assert (Hf2 : program_fits cfg2 words) by (unfold program_fits in *; by rewrite Hb, Hsz).
  assert (Hi : program_ram cfg2 words = program_ram cfg1 words)
    by (unfold program_ram, blank_ram; by rewrite Hb, Hsz).
  assert (Hs : boot_state cfg2 = boot_state cfg1) by (unfold boot_state, blank_ram; by rewrite Hb, Hsz).
  destruct (boot_start cfg1 words Hok1 Hf1) as (c & Ec & S1 & I1 & M1 & _ & T1).
  rewrite B1 in Ec. injection Ec as <-.
  destruct (boot_start cfg2 words Hok2 Hf2) as (c & Ec & S2 & I2 & M2 & _ & T2).
  rewrite B2 in Ec. injection Ec as <-. rewrite Hs in I2. rewrite Hi in M2.
  pose proof (run_state c1 n1 ks1 d1 S1 ltac:(right; by rewrite M1, I1) E1) as R1.
  pose proof (run_state c2 n2 ks2 d2 S2 ltac:(right; by rewrite M2, I2) E2) as R2.
  rewrite Hh1 in R1. rewrite Hh2 in R2.
  destruct R1 as [_ _ N1 (l1 & k1 & s1 & -> & F1 & K1 & P1 & G1 & A1 & A2 & A3 & A4)].
  destruct R2 as [_ _ N2 (l2 & k2 & s2 & -> & F2 & K2 & P2 & G2 & A1' & A2' & A3' & A4')].
  rewrite M1, I1 in P1. rewrite M2, I2 in P2.
  destruct (isa_halt_unique _ _ _ _ _ _ _ _ _ _ P1 P2 F1 K1 F2 K2) as (-> & -> & ->).
  split_and!; try congruence.
  intros Hst. rewrite A4, A4'; [done| |]; [rewrite M2, <- A2|rewrite M1, <- A2]; exact Hst.
Qed.

(** The same RAM without caches, predictor or latencies. *)
Definition example_config_plain : SimConfig :=
  let d := SimConfig_default in
  mkSimConfig 0x80000000 64 1 false (dcache_line_bytes d) (dcache_sets d) 1 1 1 false
    (icache_line_bytes d) (icache_sets d) 1 1 false 1 false 256 64.

Definition example_core_plain : Core Port Port :=
  match boot example_config_plain example_program with Some c => c | None => example_core end.

Lemma example_plain_boot : boot example_config_plain example_program = Some example_core_plain.
Proof. vm_compute. reflexivity. Qed.

Lemma example_plain_ok : config_ok example_config_plain.
Proof. constructor; try (unfold is_u32; cbn; lia); done. Qed.

Lemma example_plain_finished :
  exists ks c, ticks 60 example_core_plain = Some (ks, c) /\ co_halted_ c = true.
Proof.
  destruct (ticks 60 example_core_plain) as [[ks c]|] eqn:E.
  - assert (Hx : match ticks 60 example_core_plain with Some (_, c) => co_halted_ c | None => false end = true)
      by (vm_compute; reflexivity).
    rewrite E in Hx. exists ks, c. exact (conj eq_refl Hx).
  - assert (Hx : match ticks 60 example_core_plain with Some _ => true | None => false end = true)
      by (vm_compute; reflexivity).
    by rewrite E in Hx.
Qed.

Lemma example_boot_aligned : aligned_run (program_ram example_config example_program) (boot_state example_config).
Proof. apply (aligned_check_sound _ 20). vm_compute. reflexivity. Qed.

Lemma configuration_independence_witness :
  exists ks d1 d2, ticks 40 example_core = Some (ks, d1) /\ ticks 60 example_core_plain = Some (ks, d2) /\
    co_rf_ d1 = co_rf_ d2.
Proof.
  destruct example_finished as (ks1 & d1 & E1 & Hh1 & _).
  destruct example_plain_finished as (ks2 & d2 & E2 & Hh2).
  destruct (configuration_independence example_config example_config_plain example_program
    example_core example_core_plain 40 60 ks1 ks2 d1 d2 example_config_ok example_plain_ok
    example_program_fits eq_refl eq_refl example_boot_aligned example_boot example_plain_boot E1 E2 Hh1 Hh2)
    as (Hks & Hrf & _).
  subst ks2. exists ks1, d1, d2. exact (conj E1 (conj E2 Hrf)).
Defined.

(** ** A store behind the end of the program *)

Definition ticked (n : nat) (c : Core Port Port) : Core Port Port :=
  Nat.iter n (fun c => match Core_tick c with Some (_, c) => c | None => c end) c.

Lemma ticked_wf n c : core_wf c -> core_wf (ticked n c).
Proof.
  intros Hc. unfold ticked. induction n as [|n IH]; [done|]. cbn [Nat.iter nat_rect].
  set (d := Nat.iter n _ c) in *. change (nat_rect _ c _ n) with d. destruct (Core_tick d) as [[b d']|] eqn:E; [|done].
  destruct (co_halted_ d) eqn:Hh; [unfold Core_tick in E; rewrite Hh in E; by injection E as _ <-|].
  destruct (Core_tick_cycle d b d' (cw_quiescent d IH) Hh E) as [Hcy _]. by apply (cycle_wf d d').
Qed.

Definition shadow_program : list Z := [
  0x800000B7;  (* lui  x1, 0x80000 *)
  0x00700113;  (* addi x2, x0, 7   *)
  0x00100073;  (* ebreak           *)
  0x0220A823   (* sw   x2, 48(x1)  *)
].

Definition shadow_core : Core Port Port :=
  match boot example_config_plain shadow_program with Some c => c | None => example_core end.

(** When a store follows EBREAK, MEM performs it in the cycle in which EBREAK
    retires: the core halts on the EBREAK with the store's value in memory,
    although the execution of the program has stopped before it. *)
Example store_after_ebreak_executes :
  match ticks 20 shadow_core, isa_steps (mem_ram (co_imem_ shadow_core)) 3 (start_state shadow_core) with
  | Some (ks, c), Some (ks', s) =>
      (k_pc <$> ks, k_pc <$> ks', co_halted_ c, co_halt_reason_ c, co_halt_pc_ c,
       ram_load 4 (a_mem s) 0x80000030, Core_load_word c 0x80000030) =
      ([0x80000000; 0x80000004; 0x80000008], [0x80000000; 0x80000004; 0x80000008],
       true, HaltEbreak, 0x80000008, Some 0, Some 7)
  | _, _ => False
  end.
Proof. vm_compute. reflexivity. Qed.

(** C37: the cycle that retires EBREAK or an unrecognised word still runs MEM.
    Whatever instruction is behind it performs its access, a store included,
    unless the memory makes it wait; only then does the core stop. *)
Theorem halting_cycle_performs_access {IM DM : Type} `{MemoryLaws IM} `{MemoryLaws DM} (c : Core IM DM) b c' :
  core_wf c -> co_halted_ c = false -> halts (v_wb c) = true -> em_valid (v_ex c) = true ->
  Core_tick c = Some (b, c') ->
  b = false /\ co_halted_ c' = true /\
  (mem_perform (mem_ram (co_dmem_ c)) (v_ex c) = Some (mem_ram (co_dmem_ c'), v_wb c') \/
   is_mem_op (em_op (v_ex c)) = true /\ v_wb c' = bubble /\ mem_ram (co_dmem_ c') = mem_ram (co_dmem_ c)).
Proof.
  intros Hc Hh Hw Hv E. destruct (Core_tick_cycle c b c' (cw_quiescent c Hc) Hh E) as [Hcy Hb].
  assert (Hret : retired c c') by (by destruct Hcy). pose proof (rt_halted _ _ Hret) as Hh'. rewrite Hw in Hh'.
  split; [by rewrite Hb, Hh'|]. split; [done|].
  destruct Hcy as [served_i st1 dmem1 st2 st3 _ EI ED ER EM ET _ _ _ _ Ewb _ _
    | served_i imem1 st1 f next id served_d dmem1 st2 dmem2 st4 st5 st6 _ EI EF ED EM _ EA EB ET _ EU _ _ _ _ _].
  - right. unfold mem_request in ER. rewrite Hv in ER.
    apply ready_keeps in EM as (Hd & Hdr & _); [|apply Hc|apply (cw_ex c Hc)].
    apply tick_keeps in ET as (_ & Hdr' & _); [|done]. split_and!; [done|done|congruence].
  - left. apply request_keeps in EM as (Hd & Hdr & _); [|apply Hc..].
    unfold accessed in EA. rewrite Hv in EA. cbn [negb] in EA.
    pose proof (mem_perform_ok dmem1 (v_ex c) Hd) as Hok. rewrite EA, Hdr in Hok.
    destruct Hok as [Hm Hd2]; [apply (cw_ex c Hc)|].
    apply tick_keeps in ET as (_ & Hdr' & _); [|done]. by rewrite Hdr'.
Qed.

Lemma halting_cycle_performs_access_witness :
  let c := ticked 6 shadow_core in
  exists b c', Core_tick c = Some (b, c') /\ co_halted_ c' = true /\ em_op (v_ex c) = SW /\
    Core_load_word c 0x80000030 = Some 0 /\ Core_load_word c' 0x80000030 = Some 7.
Proof.
  cbv zeta. set (c := ticked 6 shadow_core).
  assert (Hc : core_wf c).
  { apply ticked_wf. assert (Hfit : program_fits example_config_plain shadow_program)
      by (unfold program_fits; cbn; lia).
    destruct (boot_start _ _ example_plain_ok Hfit) as (d & E & Hst & _).
    assert (Es : boot example_config_plain shadow_program = Some shadow_core) by (vm_compute; reflexivity).
    rewrite Es in E. apply Some_inj in E. subst d. exact (st_wf _ Hst). }
  destruct (Core_tick c) as [[b c']|] eqn:E.
  - assert (X : (co_halted_ c, halts (v_wb c), em_valid (v_ex c), em_op (v_ex c), Core_load_word c 0x80000030) =
      (false, true, true, SW, Some 0)) by (vm_compute; reflexivity).
    assert (Y : match Core_tick c with Some (_, c') => Core_load_word c' 0x80000030 | None => None end = Some 7)
      by (vm_compute; reflexivity).
    rewrite E in Y. apply pair_equal_spec in X as [X X5]. apply pair_equal_spec in X as [X X4].
    apply pair_equal_spec in X as [X X3]. apply pair_equal_spec in X as [X1 X2].
    destruct (halting_cycle_performs_access c b c' Hc X1 X2 X3 E) as (_ & Hh & _).
    exists b, c'. exact (conj eq_refl (conj Hh (conj X4 (conj X5 Y)))).
  - assert (Y : match Core_tick c with Some _ => true | None => false end = true) by (vm_compute; reflexivity).
    by rewrite E in Y.
Defined.
