(* ===== verification/TwoPhase.v ===== *)
(** * The two-phase clock

    Models the base class of [include/cpusim/uarch/stage.h] and the protocol it
    prescribes: within a cycle every unit's [evaluate] is called, then every
    unit's [latch].  The units are virtual objects over one shared state, so a
    stage is a pair of operations on the whole core.  Which orders of the calls
    are equivalent is a question about dependencies alone: calls that touch
    disjoint members commute. *)

From S2P Require Import Prelude Isa Regfile Config Pipe Memory FlatMem BranchPredictor Stages Tracer Core CoreStep.
From S2P Require Import IsaSpec Serial CoreInv SerialFacts Refine Shadow Correct Build Program.

(** ** Sequences of calls

    Two sequences of calls in which dependent calls appear in the same order
    have the same effect. *)

Section Trace.
Context {S C : Type} `{EqDecision S} (call : S -> C -> option C) (dep : S -> S -> bool).

Fixpoint run_calls (order : list S) (c : C) : option C :=
  match order with
  | [] => Some c
  | s :: order => c ← call s c; run_calls order c
  end.

(** The calls of [a] and [b] in the order in which they are made. *)
Definition restrict (a b : S) (order : list S) : list S :=
  filter (fun s => s = a \/ s = b) order.

(** Dependent calls (every call with itself, in particular) are made equally
    often and in the same order. *)
Definition same_dependencies (order1 order2 : list S) : Prop :=
  forall a b, dep a b = true -> restrict a b order1 = restrict a b order2.

Definition commute (a b : S) : Prop :=
  forall c, (c ← call a c; call b c) = (c ← call b c; call a c).

Context (dep_refl : forall a, dep a a = true) (dep_sym : forall a b, dep a b = true -> dep b a = true)
        (dep_commute : forall a b, dep a b = false -> commute a b).

Lemma run_calls_app order1 order2 c :
  run_calls (order1 ++ order2) c = c ← run_calls order1 c; run_calls order2 c.
Proof using Type.
  revert c. induction order1 as [|s order1 IH]; intros c; [done|]. cbn [app run_calls].
  destruct (call s c); cbn [mbind option_bind]; [apply IH|done].
Qed.

(** A call moves to the front of calls it does not depend on. *)
Lemma run_calls_front p a q c :
  Forall (fun b => dep a b = false) p -> run_calls (p ++ a :: q) c = run_calls (a :: p ++ q) c.
Proof using dep_commute.
  intros Hp. revert c. induction Hp as [|b p Hb Hp IH]; intros c; [done|].
  transitivity (c ← call b c; run_calls (a :: p ++ q) c).
  { cbn [app run_calls]. destruct (call b c); cbn [mbind option_bind]; [apply IH|done]. }
  pose proof (dep_commute a b Hb c) as Hc. cbn [app run_calls].
  destruct (call a c) as [ca|], (call b c) as [cb|]; cbn [mbind option_bind] in *; try done.
  - destruct (call b ca), (call a cb); cbn [mbind option_bind] in *; congruence.
  - by destruct (call b ca).
  - by destruct (call a cb).
Qed.

Lemma restrict_nil a b p : Forall (fun x => x <> a /\ x <> b) p -> restrict a b p = [].
Proof using Type.
  unfold restrict. induction 1 as [|x p [H1 H2] _ IH]; [done|]. rewrite filter_cons_False; [done|]. by intros [?|?].
Qed.

(** The first call of one sequence is made in the other, behind calls it does
    not depend on only. *)
Lemma same_dependencies_front order1 a order2 :
  same_dependencies order1 (a :: order2) ->
  exists p q, order1 = p ++ a :: q /\ Forall (fun b => dep a b = false) p.
Proof using dep_refl.
  intros Hs. pose proof (Hs a a (dep_refl a)) as Ha. unfold restrict in Ha.
  rewrite (filter_cons_True _ a) in Ha by naive_solver.
  assert (Hin : a ∈ order1).
  { assert (Hx : a ∈ filter (fun s => s = a \/ s = a) order1) by (rewrite Ha; left).
    by apply list_elem_of_filter in Hx as [_ ?]. }
  apply list_elem_of_split_l in Hin as (p & q & -> & Hp). exists p, q. split; [done|].
  apply Forall_forall. intros b Hb. destruct (dep a b) eqn:Hd; [|done]. exfalso.
  apply list_elem_of_split_l in Hb as (p1 & p2 & -> & Hp1). specialize (Hs a b Hd).
  assert (Hne : Forall (fun x => x <> a /\ x <> b) p1).
  { apply Forall_forall. intros x Hx. split; intros ->; [|done]. apply Hp, elem_of_app. by left. }
  rewrite <- app_assoc in Hs. unfold restrict in Hs. rewrite filter_app in Hs.
  fold (restrict a b p1) in Hs. rewrite (restrict_nil a b p1 Hne) in Hs. cbn [app] in Hs.
  rewrite (filter_cons_True _ b), (filter_cons_True _ a) in Hs by naive_solver.
  injection Hs as -> _. apply Hp, elem_of_app. right. left.
Qed.

Lemma same_dependencies_rest p a q order2 :
  Forall (fun b => dep a b = false) p ->
  same_dependencies (p ++ a :: q) (a :: order2) -> same_dependencies (p ++ q) order2.
Proof using dep_refl dep_sym.
  intros Hp Hs x y Hd. specialize (Hs x y Hd). unfold restrict in *.
  rewrite filter_app, !filter_cons in Hs. rewrite filter_app.
  destruct (decide (a = x \/ a = y)) as [Ha|Ha]; [|done].
  assert (Hn : Forall (fun z => z <> x /\ z <> y) p).
  { apply Forall_forall. intros z Hz. rewrite Forall_forall in Hp. specialize (Hp z Hz).
    pose proof (dep_refl a) as Haa. pose proof (dep_sym x y Hd) as Hd'.
    destruct Ha as [<-|<-]; split; intros ->; congruence. }
  fold (restrict x y p) in Hs |- *. rewrite (restrict_nil x y p Hn) in Hs |- *. cbn [app] in *.
  by injection Hs.
Qed.

Lemma run_calls_order order1 order2 c :
  same_dependencies order1 order2 -> run_calls order1 c = run_calls order2 c.
Proof using dep_refl dep_sym dep_commute.
  revert order1 c. induction order2 as [|a order2 IH]; intros order1 c Hs.
  { destruct order1 as [|b order1]; [done|]. specialize (Hs b b (dep_refl b)).
    unfold restrict in Hs. by rewrite filter_cons_True in Hs by naive_solver. }
  destruct (same_dependencies_front order1 a order2 Hs) as (p & q & -> & Hp).
  rewrite run_calls_front by done. cbn [run_calls]. destruct (call a c) as [c'|]; [|done].
  cbn [mbind option_bind]. apply IH. by apply (same_dependencies_rest p a q order2).
Qed.
End Trace.

(** ** stage.h *)

(** The two virtual functions of [class Stage]. *)
Record Stage (C : Type) := mkStage { Stage_evaluate : C -> option C; Stage_latch : C -> option C }.
Arguments mkStage {C} _ _.
Arguments Stage_evaluate {C} _ _.
Arguments Stage_latch {C} _ _.

(** The members of [Core] that are stages. *)
Inductive StageId := FETCH | DECODE | FORWARD | EXECUTE | MEMORY | WRITEBACK | HAZARD.
#[export] Instance StageId_eq_dec : EqDecision StageId.
Proof. solve_decision. Defined.

Section Units.
Context {IM DM : Type} `{IMemory IM} `{IMemory DM}.
Abbreviation core := (Core IM DM).
Implicit Type c : core.

Definition fetch_stage : Stage core := mkStage
  (fun c => '(fetch, imem, st, if_id) ←
     FetchStage_evaluate (co_imem_ c) (co_bpred_ c) (co_stats_ c) (co_fetch_ c) (co_if_id_ c);
   Some (c <| co_fetch_ := fetch |> <| co_imem_ := imem |> <| co_stats_ := st |> <| co_if_id_ := if_id |>))
  (fun c => '(fetch, imem, st, if_id) ←
     FetchStage_latch (co_imem_ c) (co_stats_ c) (co_fetch_ c) (co_if_id_ c);
   Some (c <| co_fetch_ := fetch |> <| co_imem_ := imem |> <| co_stats_ := st |> <| co_if_id_ := if_id |>)).

Definition decode_stage : Stage core := mkStage
  (fun c => id_ex ← DecodeStage_evaluate (co_rf_ c) (co_if_id_ c) (co_id_ex_ c);
   Some (c <| co_id_ex_ := id_ex |>))
  (fun c => let '(dec, id_ex) := DecodeStage_latch (co_decode_ c) (co_id_ex_ c) in
   Some (c <| co_decode_ := dec |> <| co_id_ex_ := id_ex |>)).

Definition forward_unit : Stage core := mkStage
  (fun c => Some (c <| co_fwd_ := ForwardUnit_evaluate (co_mem_wb_ c) (co_fwd_ c) |>))
  (fun c => Some (c <| co_fwd_ := ForwardUnit_latch (co_fwd_ c) |>)).

Definition execute_stage : Stage core := mkStage
  (fun c => let '(ex, ex_mem) :=
     ExecuteStage_evaluate (bool_decide (is_Some (co_bpred_ c))) (co_id_ex_ c) (co_ex_mem_ c)
       (co_mem_wb_ c) (co_fwd_ c) (co_ex_ c) in
   Some (c <| co_ex_ := ex |> <| co_ex_mem_ := ex_mem |>))
  (fun c => '(ex, fetch, dec, bp, st, ex_mem) ←
     ExecuteStage_latch (co_ex_ c) (co_fetch_ c) (co_decode_ c) (co_bpred_ c) (co_stats_ c) (co_ex_mem_ c);
   Some (c <| co_ex_ := ex |> <| co_fetch_ := fetch |> <| co_decode_ := dec |>
           <| co_bpred_ := bp |> <| co_stats_ := st |> <| co_ex_mem_ := ex_mem |>)).

Definition mem_access_stage : Stage core := mkStage
  (fun c => '(mem, dmem, st, mem_wb) ←
     MemAccessStage_evaluate (co_dmem_ c) (co_stats_ c) (co_ex_mem_ c) (co_mem_wb_ c);
   Some (c <| co_mem_ := mem |> <| co_dmem_ := dmem |> <| co_stats_ := st |> <| co_mem_wb_ := mem_wb |>))
  Core_latch_mem.

Definition writeback_stage : Stage core := mkStage
  (fun c => Some (c <| co_wb_ := WritebackStage_evaluate (co_mem_wb_ c) |>))
  (fun c => '(wb, rf) ← WritebackStage_latch (co_wb_ c) (co_rf_ c);
   Some (c <| co_wb_ := wb |> <| co_rf_ := rf |>)).

Definition hazard_unit : Stage core := mkStage
  (fun c => Some (c <| co_hazard_ := HazardUnit_evaluate (co_if_id_ c) (co_id_ex_ c) |>))
  (fun c => let '(hz, fetch, dec) := HazardUnit_latch (co_hazard_ c) (co_fetch_ c) (co_decode_ c) in
   Some (c <| co_hazard_ := hz |> <| co_fetch_ := fetch |> <| co_decode_ := dec |>)).

Definition unit_stage (u : StageId) : Stage core :=
  match u with
  | FETCH => fetch_stage | DECODE => decode_stage | FORWARD => forward_unit
  | EXECUTE => execute_stage | MEMORY => mem_access_stage | WRITEBACK => writeback_stage
  | HAZARD => hazard_unit
  end.

(** A phase: one of the two functions of every unit, in the given order. *)
Definition evaluate_phase (order : list StageId) c : option core :=
  run_calls (fun u => Stage_evaluate (unit_stage u)) order c.
Definition latch_phase (order : list StageId) c : option core :=
  run_calls (fun u => Stage_latch (unit_stage u)) order c.

(** The orders of [Core::tick]. *)
Definition evaluate_order : list StageId := [FETCH; DECODE; FORWARD; EXECUTE; MEMORY; WRITEBACK; HAZARD].
Definition latch_order : list StageId := [WRITEBACK; FORWARD; EXECUTE; MEMORY; HAZARD; DECODE; FETCH].
Definition stalled_latch_order : list StageId := [WRITEBACK; FORWARD; MEMORY].

Lemma evaluate_phase_eq c : Core_evaluate c = evaluate_phase evaluate_order c.
Proof using Type.
  unfold Core_evaluate, evaluate_phase, evaluate_order. cbn [run_calls unit_stage].
  unfold fetch_stage, decode_stage, forward_unit, execute_stage, mem_access_stage, writeback_stage, hazard_unit.
  cbn [Stage_evaluate].
  destruct (FetchStage_evaluate _ _ _ _ _) as [[[[f i] s] l]|]; cbn [mbind option_bind]; [|done].
  destruct (DecodeStage_evaluate _ _ _) as [id|]; cbn [mbind option_bind]; [|done].
  destruct (ExecuteStage_evaluate _ _ _ _ _ _) as [e ex]. cbn [mbind option_bind].
  by destruct (MemAccessStage_evaluate _ _ _ _) as [[[[m d] s2] mw]|].
Qed.

Lemma latch_phase_eq c :
  Core_latch_all c = c ← latch_phase latch_order c; Some (Core_count_cycle c).
Proof using Type.
  unfold Core_latch_all, Core_latch_wb_fwd, latch_phase, latch_order. cbn [run_calls unit_stage].
  unfold fetch_stage, decode_stage, forward_unit, execute_stage, mem_access_stage, writeback_stage, hazard_unit.
  cbn [Stage_latch].
  destruct (WritebackStage_latch _ _) as [[w rf]|]; cbn [mbind option_bind]; [|done].
  destruct (ExecuteStage_latch _ _ _ _ _ _) as [[[[[[e f] d] bp] st] l]|]; cbn [mbind option_bind]; [|done].
  destruct (Core_latch_mem _) as [c1|]; cbn [mbind option_bind]; [|done].
  destruct (HazardUnit_latch _ _ _) as [[h f1] d1]. cbn [mbind option_bind].
  destruct (DecodeStage_latch _ _) as [d2 id]. cbn [mbind option_bind].
  by destruct (FetchStage_latch _ _ _ _) as [[[[f2 i] s] l2]|].
Qed.

Lemma latch_stalled_phase_eq c :
  Core_latch_stalled c =
    c ← latch_phase stalled_latch_order (Core_capture_ex_operands c); Some (Core_count_cycle c).
Proof using Type.
  unfold Core_latch_stalled, Core_latch_wb_fwd, latch_phase, stalled_latch_order. cbn [run_calls unit_stage].
  unfold forward_unit, mem_access_stage, writeback_stage. cbn [Stage_latch].
  destruct (WritebackStage_latch _ _) as [[w rf]|]; cbn [mbind option_bind]; [|done].
  by destruct (Core_latch_mem _) as [c1|].
Qed.

(** ** Which calls commute *)

(** [evaluate] reads registered values and writes shadows: the only member two
    [evaluate]s share is the statistics, which IF and MEM hand to their memories. *)
Definition evaluate_dep (a b : StageId) : bool :=
  bool_decide (a = b) ||
  match a, b with FETCH, MEMORY | MEMORY, FETCH => true | _, _ => false end.

(** [latch] raises signals in other units: EX and the hazard unit in IF and ID. *)
Definition latch_dep (a b : StageId) : bool :=
  bool_decide (a = b) ||
  match a, b with
  | EXECUTE, (MEMORY | DECODE | FETCH) | (MEMORY | DECODE | FETCH), EXECUTE => true
  | HAZARD, (DECODE | FETCH) | (DECODE | FETCH), HAZARD => true
  | MEMORY, FETCH | FETCH, MEMORY => true
  | _, _ => false
  end.

Lemma evaluate_dep_refl a : evaluate_dep a a = true.
Proof using Type. by destruct a. Qed.
Lemma evaluate_dep_sym a b : evaluate_dep a b = true -> evaluate_dep b a = true.
Proof using Type. by destruct a, b. Qed.
Lemma latch_dep_refl a : latch_dep a a = true.
Proof using Type. by destruct a. Qed.
Lemma latch_dep_sym a b : latch_dep a b = true -> latch_dep b a = true.
Proof using Type. by destruct a, b. Qed.

Lemma fetch_evaluate_writes (imem : IM) bp st f out :
  FetchStage_evaluate imem bp st f out =
    '(f, imem, st, l) ← FetchStage_evaluate imem bp st f Latch_new;
    Some (f, imem, st, Latch_write out (shadow_ l)).
Proof using Type.
  unfold FetchStage_evaluate. destruct (ready imem st (ft_pc_ f) false) as [[[[] i] s]|]; try done.
  cbn [mbind option_bind]. destruct (ft_fetch_stall_ _); [done|].
  destruct (load_word i _) as [raw|]; cbn [mbind option_bind]; [|done].
  destruct bp as [p|]; [|done]. cbn [mbind option_bind].
  by destruct (BranchPredictor_predict p _) as [[[] t]|].
Qed.

Lemma mem_evaluate_writes (dmem : DM) st in_ out :
  MemAccessStage_evaluate dmem st in_ out =
    '(m, dmem, st, l) ← MemAccessStage_evaluate dmem st in_ Latch_new;
    Some (m, dmem, st, Latch_write out (shadow_ l)).
Proof using Type.
  rewrite !mem_evaluate_eq. destruct (if mem_request _ then _ else _) as [[[[] d] s]|]; try done.
  cbn [mbind option_bind]. by destruct (accessed _ _) as [[]|].
Qed.

(** The evaluate functions on registered values, with their writes explicit. *)
Definition evaluate_writes (u : StageId) c : option core :=
  match u with
  | FETCH =>
      '(f, i, s, l) ← FetchStage_evaluate (co_imem_ c) (co_bpred_ c) (co_stats_ c) (co_fetch_ c) Latch_new;
      Some (c <| co_fetch_ := f |> <| co_imem_ := i |> <| co_stats_ := s |>
              <| co_if_id_ := Latch_write (co_if_id_ c) (shadow_ l) |>)
  | DECODE =>
      id ← decoded (co_rf_ c) (v_if c); Some (c <| co_id_ex_ := Latch_write (co_id_ex_ c) id |>)
  | FORWARD => Some (c <| co_fwd_ := mkForwardUnit (v_prev c) (v_wb c) |>)
  | EXECUTE =>
      let r := if negb (ie_valid (v_id c)) then
                 ((co_ex_ c) <| ex_redirect_ := false |> <| ex_train_ := false |> <| ex_control_ := false |>, bubble)
               else executed c in
      Some (c <| co_ex_ := r.1 |> <| co_ex_mem_ := Latch_write (co_ex_mem_ c) r.2 |>)
  | MEMORY =>
      '(m, d, s, l) ← MemAccessStage_evaluate (co_dmem_ c) (co_stats_ c) (mkLatch (v_ex c) bubble) Latch_new;
      Some (c <| co_mem_ := m |> <| co_dmem_ := d |> <| co_stats_ := s |>
              <| co_mem_wb_ := Latch_write (co_mem_wb_ c) (shadow_ l) |>)
  | WRITEBACK => Some (c <| co_wb_ := WritebackStage_evaluate (mkLatch (v_wb c) bubble) |>)
  | HAZARD => Some (c <| co_hazard_ := mkHazardUnit (interlock c) |>)
  end.

Lemma stage_evaluate_eq u c : Stage_evaluate (unit_stage u) c = evaluate_writes u c.
Proof using Type.
  destruct u; cbn [unit_stage]; unfold fetch_stage, decode_stage, forward_unit, execute_stage,
    mem_access_stage, writeback_stage, hazard_unit; cbn [Stage_evaluate evaluate_writes].
  - rewrite fetch_evaluate_writes. by destruct (FetchStage_evaluate _ _ _ _ Latch_new) as [[[[] ?] ?]|].
  - rewrite decode_evaluate_eq. by destruct (decoded _ _).
  - done.
  - rewrite execute_evaluate_eq. cbv zeta. unfold executed, operand, v_id, v_ex, v_wb, v_prev.
    by destruct (ie_valid _).
  - rewrite mem_evaluate_writes. rewrite !mem_evaluate_eq. cbn [Latch_read reg_]. unfold v_ex.
    destruct (if mem_request _ then _ else _) as [[[[] d] s]|]; try done.
    cbn [mbind option_bind]. by destruct (accessed _ _) as [[]|].
  - done.
  - by rewrite hazard_evaluate_eq.
Qed.

(** The latch functions: only EX and the hazard unit leave their own members. *)
Definition latch_writes (u : StageId) c : option core :=
  match u with
  | FETCH =>
      '(f, i, s, l) ← FetchStage_latch (co_imem_ c) (co_stats_ c) (co_fetch_ c) (co_if_id_ c);
      Some (c <| co_fetch_ := f |> <| co_imem_ := i |> <| co_stats_ := s |> <| co_if_id_ := l |>)
  | DECODE =>
      Some (c <| co_decode_ := (DecodeStage_latch (co_decode_ c) (co_id_ex_ c)).1 |>
              <| co_id_ex_ := (DecodeStage_latch (co_decode_ c) (co_id_ex_ c)).2 |>)
  | FORWARD => Some (c <| co_fwd_ := ForwardUnit_latch (co_fwd_ c) |>)
  | EXECUTE =>
      let e := co_ex_ c in
      bp ← trained e (co_bpred_ c);
      Some (c <| co_ex_ := e <| ex_redirect_ := false |> <| ex_train_ := false |> <| ex_control_ := false |> |>
        <| co_fetch_ := mkFetchStage (ft_pc_ (co_fetch_ c)) (ft_next_pc_ (co_fetch_ c)) (ft_stall_ (co_fetch_ c))
             (ex_redirect_ e || ft_redirect_ (co_fetch_ c))
             (if ex_redirect_ e then ex_redirect_target_ e else ft_redirect_target_ (co_fetch_ c))
             (ft_fetch_stall_ (co_fetch_ c)) |>
        <| co_decode_ := mkDecodeStage (ds_stall_ (co_decode_ c)) (ex_redirect_ e || ds_flush_ (co_decode_ c)) |>
        <| co_bpred_ := bp |>
        <| co_stats_ := if ex_control_ e then
             (if ex_redirect_ e then stats_branch_mispredict (co_stats_ c) else stats_branch_correct (co_stats_ c))
           else co_stats_ c |>
        <| co_ex_mem_ := Latch_latch (co_ex_mem_ c) |>)
  | MEMORY =>
      '(d, s) ← tick (co_dmem_ c) (co_stats_ c);
      Some (c <| co_dmem_ := d |> <| co_stats_ := s |> <| co_mem_wb_ := Latch_latch (co_mem_wb_ c) |>)
  | WRITEBACK =>
      '(wb, rf) ← WritebackStage_latch (co_wb_ c) (co_rf_ c);
      Some (c <| co_wb_ := wb |> <| co_rf_ := rf |>)
  | HAZARD =>
      Some (c <| co_hazard_ := mkHazardUnit false |>
        <| co_fetch_ := mkFetchStage (ft_pc_ (co_fetch_ c)) (ft_next_pc_ (co_fetch_ c))
             (hz_stall_ (co_hazard_ c) || ft_stall_ (co_fetch_ c))
             (ft_redirect_ (co_fetch_ c)) (ft_redirect_target_ (co_fetch_ c)) (ft_fetch_stall_ (co_fetch_ c)) |>
        <| co_decode_ := mkDecodeStage (ds_stall_ (co_decode_ c))
             (hz_stall_ (co_hazard_ c) || ds_flush_ (co_decode_ c)) |>)
  end.

Lemma stage_latch_eq u c : Stage_latch (unit_stage u) c = latch_writes u c.
Proof using Type.
  destruct u; cbn [unit_stage]; unfold fetch_stage, decode_stage, forward_unit, execute_stage,
    mem_access_stage, writeback_stage, hazard_unit; cbn [Stage_latch latch_writes].
  - done.
  - done.
  - done.
  - unfold ExecuteStage_latch, trained. destruct c as [? ? ? ? ? ? ? ? ? ? [] [] ? ex]. core_simpl.
    destruct (ex_train_ ex), (ex_redirect_ ex); try done.
    all: destruct co_bpred_ as [p|]; cbn [mbind option_bind]; try done.
    all: by destruct (BranchPredictor_update p _ _ _ _).
  - unfold Core_latch_mem, MemAccessStage_latch. by destruct (tick _ _) as [[]|].
  - done.
  - unfold HazardUnit_latch. destruct c as [? ? ? ? ? ? ? ? ? ? [] [] ? ? ? ? []]. core_simpl.
    by destruct hz_stall_.
Qed.

(** The two calls act on disjoint members once the latches are read through. *)
Ltac commute_by_cases c :=
  destruct c; cbv [evaluate_writes latch_writes v_if v_id v_ex v_wb v_prev executed interlock operand Latch_read Latch_write];
  core_simpl; cbn [reg_ shadow_ fw_prev_mem_wb_];
  repeat first
   [ reflexivity
   | match goal with E : ?x = _ |- context [?x] => rewrite E end
   | match goal with
     | |- context [FetchStage_evaluate ?a ?b ?c ?d ?e] =>
         destruct (FetchStage_evaluate a b c d e) as [[[[? ?] ?] ?]|] eqn:?
     | |- context [MemAccessStage_evaluate ?a ?b ?c ?d] =>
         destruct (MemAccessStage_evaluate a b c d) as [[[[? ?] ?] ?]|] eqn:?
     | |- context [decoded ?a ?b] => destruct (decoded a b) eqn:?
     | |- context [FetchStage_latch ?a ?b ?c ?d] =>
         destruct (FetchStage_latch a b c d) as [[[[? ?] ?] ?]|] eqn:?
     | |- context [WritebackStage_latch ?a ?b] => destruct (WritebackStage_latch a b) as [[? ?]|] eqn:?
     | |- context [tick ?a ?b] => destruct (tick a b) as [[? ?]|] eqn:?
     | |- context [trained ?a ?b] => destruct (trained a b) eqn:?
     end
   | progress (cbn [mbind option_bind]; core_simpl;
       cbn [reg_ shadow_ fw_prev_mem_wb_ ds_stall_ ds_flush_ ft_pc_ ft_next_pc_ ft_stall_ ft_redirect_
            ft_redirect_target_ ft_fetch_stall_])
   | rewrite !orb_assoc, (orb_comm (hz_stall_ _) (ex_redirect_ _)) ].

Lemma evaluate_commute a b :
  evaluate_dep a b = false -> commute (fun u => Stage_evaluate (unit_stage u)) a b.
Proof using Type.
  intros Hd c.
  assert (T : forall a b, (c ← Stage_evaluate (unit_stage a) c; Stage_evaluate (unit_stage b) c) =
    (c ← evaluate_writes a c; evaluate_writes b c)).
  { intros a' b'. rewrite stage_evaluate_eq. destruct (evaluate_writes a' c); [apply stage_evaluate_eq|done]. }
  rewrite !T. clear T.
  destruct a, b; try discriminate Hd; clear Hd.
  all: commute_by_cases c.
Qed.

Lemma latch_commute a b :
  latch_dep a b = false -> commute (fun u => Stage_latch (unit_stage u)) a b.
Proof using Type.
  intros Hd c.
  assert (T : forall a b, (c ← Stage_latch (unit_stage a) c; Stage_latch (unit_stage b) c) =
    (c ← latch_writes a c; latch_writes b c)).
  { intros a' b'. rewrite stage_latch_eq. destruct (latch_writes a' c); [apply stage_latch_eq|done]. }
  rewrite !T. clear T.
  destruct a, b; try discriminate Hd; clear Hd.
  all: commute_by_cases c.
Qed.

(** ** The clock with any order of calls *)

(** [Core::tick] with the calls of its three phases in the orders given. *)
Definition tick_in (evaluates latches stalled_latches : list StageId) c : option (bool * core) :=
  if co_halted_ c then Some (false, c) else
  c ← evaluate_phase evaluates c;
  let mem_stall := ma_stalling_ (co_mem_ c) in
  c ← Core_retire c;
  c ← (if mem_stall : bool then latch_phase stalled_latches (Core_capture_ex_operands c)
       else latch_phase latches c);
  Some (negb (co_halted_ c), Core_count_cycle c).

(** C9: the order of the calls does not matter, except for the dependencies
    listed.  [Core::tick] may make its [evaluate] calls in any order that keeps
    IF before MEM (both count events), and its [latch] calls in any order that
    keeps EX before MEM before IF, and EX and the hazard unit before ID and IF,
    whose signals they raise: state, statistics and faults are the same.  Every
    stage sees the registers of the previous cycle. *)
Theorem Core_phase_order evaluates latches stalled_latches c :
  same_dependencies evaluate_dep evaluates evaluate_order ->
  same_dependencies latch_dep latches latch_order ->
  same_dependencies latch_dep stalled_latches stalled_latch_order ->
  tick_in evaluates latches stalled_latches c = Core_tick c.
Proof using Type.
  intros He Hl Hs.
  assert (E1 : forall c, evaluate_phase evaluates c = Core_evaluate c).
  { intros c1. rewrite evaluate_phase_eq.
    exact (run_calls_order _ _ evaluate_dep_refl evaluate_dep_sym evaluate_commute _ _ c1 He). }
  assert (E2 : forall o1 o2 c, same_dependencies latch_dep o1 o2 -> latch_phase o1 c = latch_phase o2 c).
  { intros o1 o2 c1 H12. exact (run_calls_order _ _ latch_dep_refl latch_dep_sym latch_commute _ _ c1 H12). }
  unfold tick_in, Core_tick. destruct (co_halted_ c); [done|]. rewrite E1.
  destruct (Core_evaluate c) as [c1|]; [|done]. cbn [mbind option_bind].
  destruct (Core_retire c1) as [c2|]; [|done]. cbn [mbind option_bind].
  rewrite latch_phase_eq, latch_stalled_phase_eq, (E2 _ _ _ Hl), (E2 _ _ _ Hs).
  destruct (ma_stalling_ (co_mem_ c1)).
  - by destruct (latch_phase _ _).
  - by destruct (latch_phase _ _).
Qed.

End Units.

(** ** The contract of [evaluate] *)

Section Contract.
Context {IM DM : Type} `{MemoryLaws IM} `{MemoryLaws DM}.
Abbreviation core := (Core IM DM).
Implicit Type c : core.

(** What the other stages see of a core within a cycle. *)
Definition visible c :=
  (co_rf_ c, co_bpred_ c, (v_if c, v_id c, v_ex c, v_wb c), (v_prev c, v_pc c), (co_decode_ c, co_halted_ c)).

Lemma mem_perform_loads (d : DM) ex d' wb :
  mem_perform d ex = Some (d', wb) -> is_store (em_op ex) = false -> d' = d.
Proof using Type.
  unfold mem_perform. intros E Hs. destruct (em_op ex); cbn in Hs; try discriminate Hs;
    try (injection E as <- _; done).
  all: match type of E with mbind _ ?m = _ => destruct m end; cbn [mbind option_bind] in E; [|done].
  all: by injection E as <- _.
Qed.

(** C19: [evaluate] is combinational, but for stores.  No stage's [evaluate]
    changes a pipeline register, the register file, the predictor, the PC, a
    raised signal or the contents of the instruction memory; the contents of the
    data memory change only in MEM's [evaluate], for a valid store, which is thus
    committed before the clock edge. *)
Theorem Stage_evaluate_contract u c c' :
  core_wf c -> Stage_evaluate (unit_stage u) c = Some c' ->
  visible c' = visible c /\ mem_ram (co_imem_ c') = mem_ram (co_imem_ c) /\
  (mem_ram (co_dmem_ c') = mem_ram (co_dmem_ c) \/
   u = MEMORY /\ em_valid (v_ex c) = true /\ is_store (em_op (v_ex c)) = true).
Proof using All.
  intros Hc E. rewrite stage_evaluate_eq in E. unfold evaluate_writes in E. destruct u.
  - rewrite fetch_evaluate_eq in E by apply (cw_quiescent c Hc).
    destruct (ready _ _ _ _) as [[[b i] s]|] eqn:ER; cbn [mbind option_bind] in E; [|done].
    apply ready_keeps in ER as (_ & Hr & _); [|apply (cw_imem c Hc)|apply (cw_pc c Hc)].
    destruct (fetched _ _ _ _) as [[p next]|]; cbn [mbind option_bind] in E; [|done].
    injection E as <-. destruct c. split_and!; [done|done|by left].
  - destruct (decoded _ _); cbn [mbind option_bind] in E; [|done]. injection E as <-. destruct c. auto.
  - injection E as <-. destruct c. auto.
  - injection E as <-. destruct c. auto.
  - rewrite mem_evaluate_eq in E. cbn [Latch_read reg_] in E.
    destruct (if mem_request _ then _ else _) as [[[b d] s]|] eqn:ER; cbn [mbind option_bind] in E; [|done].
    apply request_keeps in ER as (_ & Hr & _); [|apply (cw_dmem c Hc)|apply (cw_ex c Hc)].
    destruct (if b then _ else _) as [[d' wb]|] eqn:EA; cbn [mbind option_bind] in E; [|done].
    injection E as <-. split_and!; [by destruct c|by destruct c|].
    destruct b; [|left; injection EA as <- _; destruct c; exact Hr].
    unfold accessed in EA. destruct (em_valid (v_ex c)) eqn:Ev; cbn [negb] in EA;
      [|left; injection EA as <- _; destruct c; exact Hr].
    destruct (is_store (em_op (v_ex c))) eqn:Es; [by right|left].
    apply mem_perform_loads in EA as ->; [|done]. destruct c; exact Hr.
  - injection E as <-. destruct c. auto.
  - injection E as <-. destruct c. auto.
Qed.
End Contract.

(** ** Concrete cycles *)

Lemma Core_phase_order_witness :
  tick_in [HAZARD; WRITEBACK; EXECUTE; FETCH; FORWARD; MEMORY; DECODE]
          [HAZARD; EXECUTE; MEMORY; FETCH; DECODE; FORWARD; WRITEBACK]
          [MEMORY; FORWARD; WRITEBACK] (ticked 24 example_core) = Core_tick (ticked 24 example_core).
Proof.
  apply Core_phase_order; intros [] [] Hd; vm_compute in Hd; try discriminate Hd; vm_compute; reflexivity.
Defined.

(** The dependencies are real: in the load-use cycle a hazard unit latched after
    ID raises its signals too late, and the instruction that uses the load enters
    EX without waiting. *)
Example hazard_latched_late :
  let c := ticked 25 example_core in
  match tick_in evaluate_order [WRITEBACK; FORWARD; EXECUTE; MEMORY; DECODE; HAZARD; FETCH]
          stalled_latch_order c, Core_tick c with
  | Some (_, c1), Some (_, c2) => ie_valid (v_id c1) = true /\ ie_valid (v_id c2) = false
  | _, _ => False
  end.
Proof. vm_compute. done. Qed.

(** A store is in the data memory before any [latch] is called. *)
Lemma Stage_evaluate_contract_witness :
  let c := ticked 24 example_core in
  exists c', Stage_evaluate (unit_stage MEMORY) c = Some c' /\ visible c' = visible c /\
    load_word (co_dmem_ c) 0x80000030 = Some 0 /\ load_word (co_dmem_ c') 0x80000030 = Some 10.
Proof.
  cbv zeta. destruct (Stage_evaluate (unit_stage MEMORY) (ticked 24 example_core)) as [c'|] eqn:E.
  - assert (Hx : match Stage_evaluate (unit_stage MEMORY) (ticked 24 example_core) with
      | Some c' => (load_word (co_dmem_ (ticked 24 example_core)) 0x80000030, load_word (co_dmem_ c') 0x80000030)
      | None => (None, None) end = (Some 0, Some 10)) by (vm_compute; reflexivity).
    rewrite E in Hx. apply pair_equal_spec in Hx as [X1 X2]. exists c'.
    exact (conj eq_refl (conj (proj1 (Stage_evaluate_contract MEMORY (ticked 24 example_core) c'
      (ticked_wf 24 example_core (st_wf _ (proj1 example_core_start))) E)) (conj X1 X2))).
  - assert (Hx : match Stage_evaluate (unit_stage MEMORY) (ticked 24 example_core) with
      | Some _ => true | None => false end = true) by (vm_compute; reflexivity).
    by rewrite E in Hx.
Defined.

(** Both stalls in one cycle: a load waits in MEM while IF waits for its word. *)
Definition slow_config : SimConfig :=
  let d := SimConfig_default in
  mkSimConfig 0x80000000 64 3 false (dcache_line_bytes d) (dcache_sets d) 1 1 2 false
    (icache_line_bytes d) (icache_sets d) 1 1 false 1 false 256 64.

Example stalls_coincide :
  match boot slow_config example_program with
  | Some c =>
      match Core_evaluate (ticked 22 c) with
      | Some c => ma_stalling_ (co_mem_ c) = true /\ ft_fetch_stall_ (co_fetch_ c) = true
      | None => False
      end
  | None => False
  end.
Proof. vm_compute. done. Qed.
