(* ===== verification/Simulator.v ===== *)
(** * The simulator

    Total correctness: on a safe program every tick succeeds, [Core_run] ends
    within a cycle bound computed from the configuration, and its result is the
    RV32I one.  With it, the invariant of a tick, what the data memory holds
    while instructions are in flight, and the cost in cycles per instruction. *)

From S2P Require Import Prelude Isa Formats DecoderSpec Alu Regfile Config Pipe Memory FlatMem MemoryLive.
From S2P Require Import BranchPredictor Stages Tracer Core CoreStep IsaSpec Serial CoreInv SerialFacts.
From S2P Require Import CoreTotal Refine Shadow Safe Correct Progress Termination Build Program.

(** ** Whole runs *)

Lemma safe_halting_memory {IM DM : Type} `{MemoryLaws IM} `{MemoryLaws DM} (c c' : Core IM DM) ks :
  Core_start c -> safe_program (mem_ram (co_imem_ c)) (is_Some (co_bpred_ c)) (start_state c) ->
  finished c ks c' ->
  exists ks1 k s, ks = ks1 ++ [k] /\ Forall (fun k => is_halt (k_op k) = false) ks1 /\
    is_halt (k_op k) = true /\
    isa_steps (mem_ram (co_imem_ c)) (length ks) (start_state c) = Some (ks, s) /\
    co_rf_ c' = a_regs s /\ mem_ram (co_dmem_ c') = a_mem s /\
    co_halt_reason_ c' = (if op_eqb (k_op k) EBREAK then HaltEbreak else HaltIllegal) /\
    co_halt_pc_ c' = k_pc k /\ co_halt_raw_ c' = k_raw k.
Proof.
  intros Hst Hs [_ _ _ (ks1 & k & s & -> & Hf & Hk & Es & Hrf & H1' & H2' & H3' & Hm)].
  exists ks1, k, s. split_and!; try done. apply Hm. intros raw Hraw.
  destruct (isa_steps_unsnoc _ _ _ _ _ _ Es Hf) as (s1 & E1 & Ek).
  assert (Hp : on_path (mem_ram (co_imem_ c)) (start_state c) s1) by (by exists ks1).
  destruct (isa_step_shows _ _ _ _ Ek) as (rk & Hrk & Epc & Eraw & Eop).
  rewrite Epc in *. pose proof (sf_shadow _ _ _ (Hs s1 Hp) rk raw Hrk) as Hi.
  rewrite <- Eop in Hi. specialize (Hi Hk Hraw). cbv zeta in Hi.
  change ((a_pc s1 + 4) mod 2 ^ 32) with (u32 (a_pc s1 + 4)) in Hi.
  by destruct (i_op (decode raw (u32 (a_pc s1 + 4)))).
Qed.

(** The final state of a core is the one the program ends in, with its [n]-th
    instruction [k]. *)
Definition isa_result {IM DM : Type} `{MemoryLaws IM} `{MemoryLaws DM}
    (c' : Core IM DM) (n : nat) (k : commit) (s : arch) : Prop :=
  co_halted_ c' = true /\ instructions (co_stats_ c') = Z.of_nat n /\
  co_rf_ c' = a_regs s /\ mem_ram (co_dmem_ c') = a_mem s /\
  co_halt_reason_ c' = (if op_eqb (k_op k) EBREAK then HaltEbreak else HaltIllegal) /\
  co_halt_pc_ c' = k_pc k /\ co_halt_raw_ c' = k_raw k.

Lemma run_computes {IM DM : Type} `{MemoryLive IM} `{MemoryLive DM} (c : Core IM DM)
    n ks k s max fuel :
  Core_start c -> core_live c -> co_stats_ c = SimStats_new ->
  co_bpred_ c = None \/ aligned_run (mem_ram (co_imem_ c)) (start_state c) ->
  safe_program (mem_ram (co_imem_ c)) (is_Some (co_bpred_ c)) (start_state c) ->
  isa_steps (mem_ram (co_imem_ c)) n (start_state c) = Some (ks ++ [k], s) ->
  Forall (fun k => is_halt (k_op k) = false) ks -> is_halt (k_op k) = true ->
  enough c n <= max < 2 ^ 64 -> enough c n <= Z.of_nat fuel ->
  exists c' m, Core_run fuel c max = Some c' /\ isa_result c' n k s /\
    cycles (co_stats_ c') <= enough c n /\ ticks m c = Some (ks ++ [k], c') /\ Z.of_nat m <= enough c n.
Proof.
  intros Hst Hl St Ha Hs Es Hf Hk Hm Hfuel. pose proof (distance_range c Hl) as Hd.
  assert (Hpos : Z.of_nat n <= enough c n) by (unfold enough; nia).
  destruct (ticks_halt c (Z.to_nat (enough c n)) n Hst Hl Ha Hs) as (ls & c' & Et & Hfin).
  { by exists ks, k, s. }
  { lia. }
  exists c', (Z.to_nat (enough c n)). pose proof (fn_halted _ _ _ Hfin) as Hh.
  destruct (run_of_ticks _ fuel c max ls c' (st_wf _ Hst) Et Hh) as [Er Hc];
    [rewrite St; done|rewrite St; cbn; lia|lia|].
  rewrite St in Hc. cbn [cycles SimStats_new] in Hc.
  pose proof (fn_instructions _ _ _ Hfin) as Hi. rewrite St in Hi. cbn [instructions SimStats_new] in Hi.
  destruct (safe_halting_memory c c' ls Hst Hs Hfin)
    as (ks1 & k1 & s1 & -> & Hf1 & Hk1 & Es1 & Hrf & Hmem & R1 & R2 & R3).
  destruct (isa_halt_unique _ _ _ _ _ _ _ _ _ _ Es Es1 Hf Hk Hf1 Hk1) as (-> & -> & ->).
  pose proof (isa_steps_length _ _ _ _ _ Es) as Hlen.
  split; [done|]. split; [|split; [lia|split; [done|lia]]]. unfold isa_result. split_and!; try done.
  rewrite Hi, Hlen. unfold u64. apply Z.mod_small. lia.
Qed.

(** C1: total correctness of the simulator.  For every configuration it can be
    built with and every safe program that ends with its [n]-th instruction,
    [Core_run] returns (no assertion fails, and the loop ends) with the core
    halted on that instruction within [cycle_bound cfg n] cycles; the register
    file, the data memory, the halt report and the instruction count are those
    of the RV32I execution. *)
Theorem Core_run_computes_isa cfg words c n ks k s max fuel :
  config_ok cfg -> program_fits cfg words -> boot cfg words = Some c ->
  bpred_enabled cfg = false \/ aligned_run (program_ram cfg words) (boot_state cfg) ->
  safe_program (program_ram cfg words) (bpred_enabled cfg = true) (boot_state cfg) ->
  isa_steps (program_ram cfg words) n (boot_state cfg) = Some (ks ++ [k], s) ->
  Forall (fun k => is_halt (k_op k) = false) ks -> is_halt (k_op k) = true ->
  cycle_bound cfg n <= max < 2 ^ 64 -> cycle_bound cfg n <= Z.of_nat fuel ->
  exists c', Core_run fuel c max = Some c' /\ isa_result c' n k s /\
    cycles (co_stats_ c') <= cycle_bound cfg n.
Proof.
  intros Hok Hfit E Ha Hs Es Hf Hk Hm Hfuel.
  destruct (boot_start cfg words Hok Hfit) as (c1 & E1 & Hst & I1 & M1 & Hbp & St1).
  rewrite E in E1. injection E1 as <-. destruct (boot_live cfg words c n Hok Hfit E) as [Hl Hb].
  rewrite <- I1, <- M1 in Ha, Hs, Es. change ((budget c + 1) * Z.of_nat n) with (enough c n) in Hb.
  rewrite <- Hb in *. destruct (run_computes c n ks k s max fuel) as (c' & _ & Hr & Hi & Hc & _); try done.
  - destruct Ha as [Ha|Ha]; [left; by apply Hbp|by right].
  - revert Hs. apply safe_program_weaken. intros [p Ep]. destruct (bpred_enabled cfg); [done|].
    rewrite Hbp in Ep by done. done.
  - by exists c'.
Qed.

Lemma example_safe :
  safe_program (program_ram example_config example_program) (bpred_enabled example_config = true)
    (boot_state example_config).
Proof. apply (safe_check_sound _ _ 20). vm_compute. reflexivity. Qed.

(** The RV32I execution of the example ends with its twelfth instruction. *)
Lemma example_execution :
  exists ks k s, isa_steps (program_ram example_config example_program) 12 (boot_state example_config) =
      Some (ks ++ [k], s) /\ Forall (fun k => is_halt (k_op k) = false) ks /\
    is_halt (k_op k) = true /\ k_pc k = 0x80000020 /\ xreg (a_regs s) 5 = 11.
Proof.
  destruct (isa_steps (program_ram example_config example_program) 12 (boot_state example_config))
    as [[ls s]|] eqn:E.
  - assert (Hx : match isa_steps (program_ram example_config example_program) 12 (boot_state example_config) with
      | Some (ls, s) => (forallb (fun k => negb (is_halt (k_op k))) (take 11 ls),
          (fun k => (is_halt (k_op k), k_pc k)) <$> drop 11 ls, xreg (a_regs s) 5)
      | None => (false, [], 0) end = (true, [(true, 0x80000020)], 11)) by (vm_compute; reflexivity).
    rewrite E in Hx. apply pair_equal_spec in Hx as [Hx X3]. apply pair_equal_spec in Hx as [X1 X2].
    destruct (drop 11 ls) as [|k [|? ?]] eqn:Ed; [discriminate X2| |discriminate X2].
    injection X2 as X2 X4. exists (take 11 ls), k, s.
    split; [by rewrite <- Ed, take_drop|]. split; [|exact (conj X2 (conj X4 X3))].
    apply Forall_forall. intros k' Hk'. rewrite forallb_forall in X1.
    apply negb_true_iff, X1. by apply list_elem_of_In.
  - assert (Hx : match isa_steps (program_ram example_config example_program) 12 (boot_state example_config) with
      | Some _ => true | None => false end = true) by (vm_compute; reflexivity).
    by rewrite E in Hx.
Qed.

Lemma Core_run_computes_isa_witness :
  cycle_bound example_config 12 = 180 /\
  exists c', Core_run 200 example_core 1000 = Some c' /\ co_halted_ c' = true /\
    instructions (co_stats_ c') = 12 /\ xreg (co_rf_ c') 5 = 11 /\ co_halt_pc_ c' = 0x80000020.
Proof.
  split; [reflexivity|].
  destruct example_execution as (ks & k & s & Es & Hf & Hk & Hpc & Hx).
  assert (Hb : cycle_bound example_config 12 = 180) by reflexivity.
  destruct (Core_run_computes_isa example_config example_program example_core 12 ks k s 1000 200
    example_config_ok example_program_fits example_boot (or_intror example_boot_aligned) example_safe
    Es Hf Hk) as (c' & Er & (Hh & Hi & Hrf & _ & _ & Hp & _) & _);
    [rewrite Hb; lia|rewrite Hb; lia|].
  exists c'. rewrite Hrf, Hp. exact (conj Er (conj Hh (conj Hi (conj Hx Hpc)))).
Defined.

(** C4: on a safe program no tick ever faults: no assertion of the simulator
    fails, no access leaves the memory and no null pointer is followed, wherever
    the front end runs ahead, for as many ticks as one likes. *)
Theorem Core_never_faults {IM DM : Type} `{MemoryLaws IM} `{MemoryLaws DM} (c : Core IM DM) n :
  Core_start c ->
  co_bpred_ c = None \/ aligned_run (mem_ram (co_imem_ c)) (start_state c) ->
  safe_program (mem_ram (co_imem_ c)) (is_Some (co_bpred_ c)) (start_state c) ->
  exists ks c', ticks n c = Some (ks, c') /\ core_wf c'.
Proof.
  intros Hst Ha Hs. destruct (secure_ticks c Hst Ha Hs n [] c (start_secure c Hst Ha)) as (ks & c' & E & Hr).
  exists ks, c'. split; [done|]. destruct (co_halted_ c'); [apply Hr|apply (rn_wf _ _ _ (sc_running _ _ _ Hr))].
Qed.

Lemma example_core_safe :
  safe_program (mem_ram (co_imem_ example_core)) (is_Some (co_bpred_ example_core)) (start_state example_core).
Proof.
  destruct example_core_start as (_ & -> & ->).
  refine (safe_program_weaken _ _ _ _ _ example_safe).
  intros _. reflexivity.
Qed.

Lemma Core_never_faults_witness : exists ks c', ticks 1000 example_core = Some (ks, c') /\ core_wf c'.
Proof.
  exact (Core_never_faults example_core 1000 (proj1 example_core_start) (or_intror example_aligned)
    example_core_safe).
Defined.

(** C5: the pipeline makes progress whatever program it runs: over memories that
    answer, [n] ticks that have not halted the core have retired at least one
    instruction every [budget + 1] cycles, where the budget is the four stages
    an instruction passes and the longest waits of the two memories. *)
Theorem Core_cycles_per_instruction {IM DM : Type} `{MemoryLive IM} `{MemoryLive DM}
    (c : Core IM DM) n ks c' :
  core_wf c -> live (co_imem_ c) -> live (co_dmem_ c) -> co_halted_ c = false ->
  ticks n c = Some (ks, c') -> co_halted_ c' = false ->
  Z.of_nat n < (5 + worst (co_imem_ c) + worst (co_dmem_ c)) * (Z.of_nat (length ks) + 1).
Proof.
  intros Hc Hi Hd Hh E Hh'. assert (Hl : core_live c) by by constructor.
  destruct (ticks_distance n c ks c' Hl Hh E Hh') as [Hl' Hx].
  pose proof (distance_range c Hl). pose proof (distance_range c' Hl'). unfold budget in *. lia.
Qed.

Lemma example_core_live : core_live example_core.
Proof. exact (proj1 (boot_live _ _ _ 0 example_config_ok example_program_fits example_boot)). Qed.

Lemma Core_cycles_per_instruction_witness :
  exists ks c', ticks 20 example_core = Some (ks, c') /\ 20 < 15 * (Z.of_nat (length ks) + 1).
Proof.
  destruct (ticks 20 example_core) as [[ks c']|] eqn:E.
  - assert (Hx : match ticks 20 example_core with Some (_, c) => co_halted_ c | None => true end = false)
      by (vm_compute; reflexivity).
    rewrite E in Hx. exists ks, c'. split; [exact eq_refl|].
    pose proof (Core_cycles_per_instruction example_core 20 ks c' (lv_wf _ example_core_live)
      (lv_imem _ example_core_live) (lv_dmem _ example_core_live) (st_running _ (proj1 example_core_start))
      E Hx) as Hn.
    assert (Hw : (worst (co_imem_ example_core), worst (co_dmem_ example_core)) = (4, 6)) by (vm_compute; reflexivity).
    apply pair_equal_spec in Hw as [W1 W2]. rewrite W1, W2 in Hn. exact Hn.
  - assert (Hx : match ticks 20 example_core with Some _ => true | None => false end = true)
      by (vm_compute; reflexivity).
    by rewrite E in Hx.
Defined.

(** C13: the simulation loop ends for every program: with as many iterations as
    cycles are left, [Core_run] returns a halted core, or one whose cycle
    counter has exactly reached the limit; it has no result only if a tick
    faulted.  The state is the one the ticks of that many cycles lead to. *)
Theorem Core_run_terminates {IM DM : Type} `{MemoryLaws IM} `{MemoryLaws DM} (c : Core IM DM) fuel max :
  core_wf c -> 0 <= cycles (co_stats_ c) <= max -> max < 2 ^ 64 ->
  max - cycles (co_stats_ c) <= Z.of_nat fuel ->
  exists n ks c', ticks n c = Some (ks, c') /\ (n <= fuel)%nat /\
    match Core_run fuel c max with
    | Some c1 => c1 = c' /\ (co_halted_ c' = true \/
        co_halted_ c' = false /\ cycles (co_stats_ c') = max /\ Z.of_nat n = max - cycles (co_stats_ c))
    | None => co_halted_ c' = false /\ Core_tick c' = None
    end.
Proof.
  intros Hc Hz Hm Hf. destruct (run_ends fuel c max Hc Hz Hm Hf) as (n & ks & c' & E & Hn & _ & Hr).
  by exists n, ks, c'.
Qed.

(** Stopped by its limit. *)
Lemma Core_run_terminates_witness :
  exists n ks c', ticks n example_core = Some (ks, c') /\ Core_run 10 example_core 10 = Some c' /\
    (co_halted_ c' = true \/ co_halted_ c' = false /\ cycles (co_stats_ c') = 10 /\ Z.of_nat n = 10 - 0).
Proof.
  assert (Hz : cycles (co_stats_ example_core) = 0) by (vm_compute; reflexivity).
  destruct (Core_run_terminates example_core 10 10 (lv_wf _ example_core_live)) as (n & ks & c' & E & _ & Hr);
    [rewrite Hz; lia|lia|rewrite Hz; cbn; lia|].
  assert (Hx : match Core_run 10 example_core 10 with Some _ => true | None => false end = true)
    by (vm_compute; reflexivity).
  rewrite Hz in Hr. exists n, ks, c'. destruct (Core_run 10 example_core 10) as [c1|]; [|discriminate Hx].
  destruct Hr as [-> Hr]. exact (conj E (conj eq_refl Hr)).
Defined.

(** ** One tick *)

(** C11: the invariant of the pipeline.  A tick of a well-formed running core
    succeeds if the word being fetched is in memory and the access of the
    instruction in MEM, if it makes one, is too; it leaves a well-formed core
    with the same instruction memory, having counted one cycle and the
    instruction in WB, and halts exactly when that instruction is EBREAK or
    unrecognised.  Its result says whether the core is still running. *)
Theorem Core_tick_invariant {IM DM : Type} `{MemoryLaws IM} `{MemoryLaws DM} (c : Core IM DM) :
  core_wf c -> co_halted_ c = false ->
  is_Some (ram_load 4 (mem_ram (co_imem_ c)) (v_pc c)) ->
  (em_valid (v_ex c) = true -> is_Some (mem_perform (mem_ram (co_dmem_ c)) (v_ex c))) ->
  exists c', Core_tick c = Some (negb (halts (v_wb c)), c') /\ core_wf c' /\
    mem_ram (co_imem_ c') = mem_ram (co_imem_ c) /\ co_halted_ c' = halts (v_wb c) /\
    cycles (co_stats_ c') = incr64 (cycles (co_stats_ c)) /\
    instructions (co_stats_ c') = (if mw_valid (v_wb c) then incr64 (instructions (co_stats_ c))
                                   else instructions (co_stats_ c)).
Proof.
  intros Hc Hh Hf Ha. destruct (tick_total c Hc Hh (mkCycleSafe _ Hf Ha)) as [[b c'] E].
  destruct (Core_tick_cycle c b c' (cw_quiescent c Hc) Hh E) as [Hcy ->].
  destruct (cycle_wf c c' Hc Hcy) as [Hc' Hi]. destruct (cycle_counters c c' Hc Hcy) as [N1 N2].
  assert (Hret : retired c c') by (by destruct Hcy). rewrite (rt_halted _ _ Hret) in E.
  exists c'. split_and!; try done. apply (rt_halted _ _ Hret).
Qed.

Lemma Core_tick_invariant_witness : exists c', Core_tick example_core = Some (true, c') /\ core_wf c'.
Proof.
  destruct (Core_tick_invariant example_core (lv_wf _ example_core_live)
    (st_running _ (proj1 example_core_start))) as (c' & E & Hc' & _).
  - rewrite (proj2 (proj2 example_core_start)). eexists. vm_compute. reflexivity.
  - intros Hv. rewrite (st_ex _ (proj1 example_core_start)) in Hv. discriminate Hv.
  - exists c'. unfold halts in E. rewrite (st_wb _ (proj1 example_core_start)) in E. exact (conj E Hc').
Defined.

(** C18: memory is precise while the core runs: at every cycle the data memory is
    the one the RV32I execution has after the retired instructions and, if
    there is one, the instruction in WB; no younger instruction has touched it. *)
Theorem Core_memory_precise {IM DM : Type} `{MemoryLaws IM} `{MemoryLaws DM} (c : Core IM DM) n ks c' :
  Core_start c ->
  co_bpred_ c = None \/ aligned_run (mem_ram (co_imem_ c)) (start_state c) ->
  ticks n c = Some (ks, c') -> co_halted_ c' = false ->
  exists s, mem_ram (co_dmem_ c') = a_mem s /\
    if mw_valid (v_wb c')
    then isa_steps (mem_ram (co_imem_ c)) (length ks + 1) (start_state c) = Some (ks ++ [commit_of (v_wb c')], s)
    else isa_steps (mem_ram (co_imem_ c)) (length ks) (start_state c) = Some (ks, s).
Proof.
  intros Hst Ha E Hh. pose proof (run_state c n ks c' Hst Ha E) as Hr. rewrite Hh in Hr.
  destruct (rn_path _ _ _ Hr) as (s0 & s1 & Ht & _ & Hk). exists s1.
  split; [apply (tk_mem _ _ _ _ _ _ Ht)|]. destruct (mw_valid (v_wb c')) eqn:Hv.
  - destruct (retired_state c Hst ks c' s0 s1 Ht Hv Hk) as [Es _]. rewrite length_app in Es. exact Es.
  - pose proof (tk_wb _ _ _ _ _ _ Ht) as Hw. rewrite Hv in Hw. subst s1. apply Hk.
Qed.

Lemma Core_memory_precise_witness :
  exists ks c' s, ticks 6 example_core_plain = Some (ks, c') /\ mem_ram (co_dmem_ c') = a_mem s /\
    isa_steps (mem_ram (co_imem_ example_core_plain)) (length ks + 1) (start_state example_core_plain) =
      Some (ks ++ [commit_of (v_wb c')], s).
Proof.
  destruct (boot_start _ _ example_plain_ok example_program_fits) as (c & Eb & Hst & _ & _ & Hbp & _).
  rewrite example_plain_boot in Eb. apply Some_inj in Eb. subst c.
  destruct (ticks 6 example_core_plain) as [[ks c']|] eqn:E.
  - assert (Hx : match ticks 6 example_core_plain with
      | Some (_, c) => (co_halted_ c, mw_valid (v_wb c)) | None => (true, true) end = (false, true))
      by (vm_compute; reflexivity).
    rewrite E in Hx. injection Hx as Hh Hv.
    destruct (Core_memory_precise example_core_plain 6 ks c' Hst (or_introl (Hbp eq_refl)) E Hh) as (s & Hm & Hs).
    rewrite Hv in Hs. exists ks, c', s. exact (conj eq_refl (conj Hm Hs)).
  - assert (Hx : match ticks 6 example_core_plain with Some _ => true | None => false end = true)
      by (vm_compute; reflexivity).
    by rewrite E in Hx.
Defined.

(** C20: decode, execute, memory access and write-back, composed without overlap,
    are one RV32I instruction: for every instruction word and every state, the
    stages fault exactly when the instruction's access does, and otherwise show
    the same register write, load and store and lead to the same state. *)
Theorem stages_implement_isa (imem : ram) (s : arch) :
  ram_wf imem -> RegFile_wf (a_regs s) ->
  match serial_step imem s with
  | Some (wb, s') => isa_step imem s = Some (commit_of wb, s')
  | None => isa_step imem s = None
  end.
Proof.
  intros Hi Hr. rewrite (serial_step_spec imem s Hi Hr). by destruct (serial_step imem s) as [[wb s']|].
Qed.

Lemma stages_implement_isa_witness :
  match serial_step (program_ram example_config example_program) (boot_state example_config) with
  | Some (wb, s') => isa_step (program_ram example_config example_program) (boot_state example_config) =
      Some (commit_of wb, s')
  | None => isa_step (program_ram example_config example_program) (boot_state example_config) = None
  end.
Proof.
  destruct example_core_start as (Hst & Hs & Hi).
  apply (stages_implement_isa (program_ram example_config example_program) (boot_state example_config)).
  - rewrite <- Hi. exact (mem_ram_wf _ (cw_imem _ (st_wf _ Hst))).
  - exact RegFile_new_wf.
Defined.
