(* ===== verification/Statistics.v ===== *)
(** * The branch statistics

    What [branch_correct] and [branch_mispredicts] count: every control transfer
    that goes through EX, once, however long it is held there.  Over any run the
    two counters together are the control transfers retired and those between
    EX and WB. *)

From S2P Require Import Prelude Isa Config Pipe Memory.
From S2P Require Import BranchPredictor Stages Tracer Core CoreStep IsaSpec Serial CoreInv SerialFacts Refine Shadow Correct Build Program.

(** The operations EX resolves. *)
Definition is_control (op : Op) : bool := is_cond_branch op || op_eqb op JAL || op_eqb op JALR.

(** Control transfers among retired instructions. *)
Definition controls (ks : list commit) : Z := Z.of_nat (length (filter (fun k => is_control (k_op k) = true) ks)).

Lemma controls_app ks1 ks2 : controls (ks1 ++ ks2) = controls ks1 + controls ks2.
Proof. unfold controls. rewrite filter_app, length_app. lia. Qed.

Lemma controls_one (b : bool) k :
  controls (if b then [k] else []) = Z.b2z (b && is_control (k_op k)).
Proof.
  destruct b; [|done]. unfold controls. rewrite filter_cons. cbn [andb].
  destruct (is_control (k_op k)); [|done]. by case_decide.
Qed.

(** What the tool prints as [branches]. *)
Definition branches (st : SimStats) : Z := branch_correct st + branch_mispredicts st.

(** The memories leave it alone. *)
Lemma branches_counters st st' : core_counters st' = core_counters st -> branches st' = branches st.
Proof. unfold core_counters, branches. intros E. simplify_eq. congruence. Qed.

(** Retirement and the cycle count leave it alone; EX adds its transfer. *)
Lemma branches_instruction (v : bool) st : branches (if v then stats_instruction st else st) = branches st.
Proof. by destruct v. Qed.

Lemma branches_executed (control redirect : bool) st :
  u64 (branches (if control then
                   (if redirect then stats_branch_mispredict st else stats_branch_correct st)
                 else st)) = u64 (branches st + Z.b2z control).
Proof. unfold branches. destruct control, redirect; cbn; unfold incr64, u64; zdm. Qed.

Section Statistics.
Context {IM DM : Type} `{MemoryLaws IM} `{MemoryLaws DM}.
Abbreviation core := (Core IM DM).
Implicit Type c : core.

(** Resolved, not yet retired. *)
Definition resolved c : Z :=
  Z.b2z (em_valid (v_ex c) && is_control (em_op (v_ex c))) +
  Z.b2z (mw_valid (v_wb c) && is_control (mw_op (v_wb c))).

Lemma executed_control c :
  ex_control_ (executed c).1 = em_valid (executed c).2 && is_control (em_op (executed c).2).
Proof using Type.
  unfold executed. destruct (ie_valid (v_id c)); [|done]. cbn [negb]. unfold execute.
  by destruct (op_eqb (ie_op (v_id c)) JAL || op_eqb (ie_op (v_id c)) JALR).
Qed.

(** MEM hands its instruction on unchanged. *)
Lemma accessed_control (d : DM) ex d' wb :
  accessed d ex = Some (d', wb) ->
  mw_valid wb && is_control (mw_op wb) = em_valid ex && is_control (em_op ex).
Proof using Type.
  unfold accessed. destruct (em_valid ex); cbn [negb]; [|by intros [= <- <-]].
  intros E. by destruct (mem_perform_fields _ _ _ _ E) as (_ & _ & -> & _ & -> & _).
Qed.

(** A full cycle counts the instruction in EX; a stalled one counts nothing. *)
Lemma cycle_branches c c' :
  core_wf c -> co_halted_ c = false -> cycle c c' ->
  u64 (branches (co_stats_ c')) =
    u64 (branches (co_stats_ c) + controls (retiring c) + resolved c' - resolved c).
Proof using Type.
  intros Hc Hh Hcy.
  assert (Hret : controls (retiring c) = Z.b2z (mw_valid (v_wb c) && is_control (mw_op (v_wb c)))).
  { unfold retiring. rewrite Hh. cbn [negb andb]. exact (controls_one _ (commit_of (v_wb c))). }
  unfold resolved. rewrite Hret. destruct Hcy as
    [served_i st1 dmem1 st2 st3 Hx EI ED ER EM ET ES _ _ Eex Ewb _ _
    | served_i imem1 st1 f next id served_d dmem1 st2 dmem2 st4 st5 st6 Hx EI EF ED EM _ EA EB ET E4 EU ES
      Eex _ _ _];
    apply ready_keeps in EI as (Hi1 & _ & C1); [|apply Hc|apply Hc| |apply Hc|apply Hc];
    apply branches_counters in C1; rewrite ES.
  - apply ready_keeps in EM as (Hd1 & _ & C2); [|apply Hc|apply (cw_ex c Hc)].
    apply tick_keeps in ET as (_ & _ & C3); [|done]. apply branches_counters in C2, C3.
    rewrite branches_instruction in C3. rewrite Eex, Ewb.
    change (branches (stats_cycle st3)) with (branches st3). rewrite C3, C2, C1. f_equal. cbn. lia.
  - apply request_keeps in EM as (Hd1 & _ & C2); [|apply Hc|apply Hc].
    pose proof (accessed_control _ _ _ _ EA) as Hwb. apply accessed_keeps in EA as [Hd2 _]; [|done|apply Hc].
    apply tick_keeps in ET as (_ & _ & C3); [|done]. apply tick_keeps in EU as (_ & _ & C4); [|done].
    apply branches_counters in C2, C3, C4. rewrite Eex, <- executed_control, Hwb.
    change (branches (stats_cycle st6)) with (branches st6). rewrite C4, C3, E4. cbv zeta.
    rewrite branches_executed, branches_instruction, C2, C1. f_equal. lia.
Qed.

Lemma ticks_branches n c ks c' :
  core_wf c -> co_halted_ c = false -> ticks n c = Some (ks, c') ->
  u64 (branches (co_stats_ c')) = u64 (branches (co_stats_ c) + controls ks + resolved c' - resolved c).
Proof using Type.
  revert c ks. induction n as [|n IH]; intros c ks Hc Hh E; cbn [ticks] in E.
  { injection E as <- <-. change (controls []) with 0. f_equal. lia. }
  destruct (Core_tick c) as [[b c1]|] eqn:Et; cbn [mbind option_bind] in E; [|done].
  destruct (ticks n c1) as [[ks1 c2]|] eqn:E1; cbn [mbind option_bind] in E; [|done].
  injection E as <- <-. destruct (Core_tick_cycle c b c1 (cw_quiescent c Hc) Hh Et) as [Hcy _].
  pose proof (cycle_branches c c1 Hc Hh Hcy) as Hb. rewrite controls_app. destruct (co_halted_ c1) eqn:Eh.
  - destruct (halted_ticks n c1 ks1 c2 Eh E1) as [-> ->]. rewrite Hb. change (controls []) with 0. f_equal. lia.
  - pose proof (IH c1 ks1 (proj1 (cycle_wf c c1 Hc Hcy)) Eh E1) as Hi. unfold u64 in *. revert Hb Hi. zdm.
Qed.
End Statistics.

(** C21: the branch counters are exact.  After any number of cycles from a cold
    start the correct and mispredicted counts together are the number of
    branches and jumps retired so far plus those resolved in EX and still on
    their way to WB: none is counted twice while the pipeline is stalled on
    memory, none is lost, and none that is flushed is counted. *)
Theorem Core_branch_statistics {IM DM : Type} `{MemoryLaws IM} `{MemoryLaws DM} (c : Core IM DM) n ks c' :
  Core_start c -> co_stats_ c = SimStats_new -> ticks n c = Some (ks, c') ->
  u64 (branch_correct (co_stats_ c') + branch_mispredicts (co_stats_ c')) =
    u64 (controls ks +
         Z.b2z (em_valid (v_ex c') && is_control (em_op (v_ex c'))) +
         Z.b2z (mw_valid (v_wb c') && is_control (mw_op (v_wb c')))).
Proof.
  intros Hst St E. pose proof (ticks_branches n c ks c' (st_wf _ Hst) (st_running _ Hst) E) as Hb.
  rewrite St in Hb. unfold resolved in Hb. rewrite (st_wb _ Hst), (st_ex _ Hst) in Hb.
  refine (eq_trans Hb _). f_equal. change (branches SimStats_new) with 0. cbn [andb Z.b2z]. lia.
Qed.

Lemma example_stats : co_stats_ example_core = SimStats_new.
Proof. vm_compute. reflexivity. Qed.

(** The example program to its end: the counters say what the RV32I execution
    does. *)
Lemma Core_branch_statistics_witness :
  exists ks c', ticks 60 example_core = Some (ks, c') /\ controls ks = 2 /\
    u64 (branch_correct (co_stats_ c') + branch_mispredicts (co_stats_ c')) = 2.
Proof.
  destruct (ticks 60 example_core) as [[ks c']|] eqn:E.
  - assert (Hx : match ticks 60 example_core with
      | Some (ks, c) => (controls ks, em_valid (v_ex c) && is_control (em_op (v_ex c)),
          mw_valid (v_wb c) && is_control (mw_op (v_wb c)))
      | None => (0, true, true) end = (2, false, false)) by (vm_compute; reflexivity).
    rewrite E in Hx. apply pair_equal_spec in Hx as [Hx X3]. apply pair_equal_spec in Hx as [X1 X2].
    pose proof (Core_branch_statistics example_core 60 ks c' (proj1 example_core_start) example_stats E) as Hb.
    rewrite X1, X2, X3 in Hb. exists ks, c'. exact (conj eq_refl (conj X1 Hb)).
  - assert (Hx : match ticks 60 example_core with Some _ => true | None => false end = true)
      by (vm_compute; reflexivity).
    by rewrite E in Hx.
Defined.
