(* ===== verification/CycleStack.v ===== *)
(** * Where the cycles go

    Over memories of any kind the front end runs into waits that no model of
    the program alone predicts.  Still every cycle is accounted for: it retires
    an instruction, fills the pipeline, or is lost to one of four causes, each
    read off a signal the stages raise in that cycle.  No cycle has two causes
    and none is without. *)

From S2P Require Import Prelude Isa Config Pipe Memory FlatMem.
From S2P Require Import BranchPredictor Stages Tracer Core CoreStep IsaSpec Serial CoreInv SerialFacts.
From S2P Require Import Refine Shadow Correct Progress Termination Build Program Statistics.

(** Cycles lost, by cause: MEM waits for the data memory, the front end is
    redirected, the load-use interlock holds it, IF waits for the instruction
    memory. *)
Record CycleStack := mkCycleStack { s_memory : Z; s_branch : Z; s_load_use : Z; s_fetch : Z }.

Definition stack_zero : CycleStack := mkCycleStack 0 0 0 0.
Definition stack_add (s t : CycleStack) : CycleStack :=
  mkCycleStack (s_memory s + s_memory t) (s_branch s + s_branch t) (s_load_use s + s_load_use t)
    (s_fetch s + s_fetch t).
Definition stack_total (s : CycleStack) : Z := s_memory s + s_branch s + s_load_use s + s_fetch s.

Lemma stack_total_add s t : stack_total (stack_add s t) = stack_total s + stack_total t.
Proof. unfold stack_total. cbn. lia. Qed.

Section CycleStack.
Context {IM DM : Type} `{MemoryLaws IM} `{MemoryLaws DM}.
Abbreviation core := (Core IM DM).
Implicit Type c : core.

(** What a cycle is charged, from the signals after the evaluate phase.  A
    redirect empties IF and ID, but a slot in ID that was empty already has been
    charged before. *)
Definition charge c : CycleStack :=
  match Core_evaluate c with
  | Some c1 =>
      if ma_stalling_ (co_mem_ c1) then mkCycleStack 1 0 0 0
      else if ex_redirect_ (co_ex_ c1) then mkCycleStack 0 (if if_valid (v_if c) then 2 else 1) 0 0
      else if hz_stall_ (co_hazard_ c1) then mkCycleStack 0 0 1 0
      else if ft_fetch_stall_ (co_fetch_ c1) then mkCycleStack 0 0 0 1
      else stack_zero
  | None => stack_zero
  end.

Fixpoint cycle_stack (n : nat) c : CycleStack :=
  match n with
  | O => stack_zero
  | S n =>
      if co_halted_ c then stack_zero else
      match Core_tick c with
      | Some (_, c') => stack_add (charge c) (cycle_stack n c')
      | None => stack_zero
      end
  end.

(** Instructions between IF and WB. *)
Definition in_flight c : Z :=
  Z.b2z (if_valid (v_if c)) + Z.b2z (ie_valid (v_id c)) + Z.b2z (em_valid (v_ex c)) + Z.b2z (mw_valid (v_wb c)).

Lemma in_flight_range c : 0 <= in_flight c <= 4.
Proof using Type.
  unfold in_flight. destruct (if_valid _), (ie_valid _), (em_valid _), (mw_valid _); cbn; lia.
Qed.

Lemma fetched_valid (imem : IM) bp pc served f next :
  fetched imem bp pc served = Some (f, next) -> if_valid f = served.
Proof using Type.
  unfold fetched. destruct served; cbn [negb]; [|by intros [= <- _]].
  destruct (load_word imem pc); cbn [mbind option_bind]; [|done].
  destruct bp as [p|]; [destruct (BranchPredictor_predict p pc) as [[[] t]|]|]; cbn; try done; by intros [= <- _].
Qed.

(** One cycle moves everything one place, but for what it loses. *)
Lemma tick_account c b c' :
  quiescent c -> co_halted_ c = false -> Core_tick c = Some (b, c') ->
  in_flight c' + Z.b2z (mw_valid (v_wb c)) + stack_total (charge c) = in_flight c + 1.
Proof using Type.
  intros Hq Hh E. destruct (Core_tick_cycle c b c' Hq Hh E) as [Hcy _].
  destruct (tick_inv c b c' Hh E) as (c1 & c2 & Eev & _).
  destruct (evaluate_inv c c1 Hq Eev) as (imem & st1 & f & next & id & dmem1 & st2 & dmem2 & wb' &
    served_i & served_d & e & EI & EF & ED & EM & EA & (Hex & _) & Hst & Ec1).
  unfold charge. rewrite Eev, Hst, Ec1. unfold after_evaluate. core_simpl. rewrite Hex. cbn [hz_stall_ ft_fetch_stall_].
  clear Ec1 Eev Hst E. unfold in_flight.
  destruct Hcy as [served_i' st1' dmem1' st2' st3 Hret EI' ED' ER EM' ET ES Eif Eid Eex Ewb _ _
    | served_i' imem1 st1' f' next' id' served_d' dmem1' st2' dmem2' st4 st5 st6 Hret EI' EF' ED' EM' Esv EA' EB ET E4
      EU ES Eex Eid Eif _].
  - rewrite EI in EI'. injection EI' as <- _ <-. rewrite ER, EM' in EM. injection EM as <- _ _. cbn [negb].
    destruct (captured_fields c) as (Cv & _). rewrite Eif, Eid, Eex, Ewb, Cv. unfold stack_total. cbn. lia.
  - rewrite EI in EI'. injection EI' as <- <- <-. rewrite EM in EM'. injection EM' as <- <- <-. subst served_d.
    cbn [negb]. rewrite EF in EF'. injection EF' as <- <-. rewrite ED in ED'. injection ED' as <-.
    apply accessed_valid in EA'. destruct (decoded_shape _ _ _ ED) as [Hdv _]. apply fetched_valid in EF.
    rewrite Eif, Eid, Eex, executed_valid, EA'.
    assert (Hi : interlock c = true -> ie_valid (v_id c) = true) by (unfold interlock; by destruct (ie_valid (v_id c))).
    destruct (ex_redirect_ (executed c).1); cbn [orb].
    + unfold stack_total. destruct (if_valid (v_if c)); cbn; lia.
    + unfold stack_total. destruct (interlock c); [rewrite Hi by done; cbn; lia|].
      rewrite Hdv, EF. destruct served_i; cbn; lia.
Qed.

Lemma ticks_account n c ks c' :
  core_wf c -> co_halted_ c = false -> ticks n c = Some (ks, c') ->
  0 <= cycles (co_stats_ c) -> cycles (co_stats_ c) + Z.of_nat n < 2 ^ 64 ->
  cycles (co_stats_ c') + in_flight c =
    cycles (co_stats_ c) + Z.of_nat (length ks) + in_flight c' + stack_total (cycle_stack n c).
Proof using Type.
  revert c ks. induction n as [|n IH]; intros c ks Hc Hh E Hz Hn; cbn [ticks cycle_stack] in *.
  { injection E as <- <-. unfold stack_total. cbn. lia. }
  rewrite Hh. destruct (Core_tick c) as [[b c1]|] eqn:Et; cbn [mbind option_bind] in E; [|done].
  destruct (ticks n c1) as [[ks1 c2]|] eqn:E1; cbn [mbind option_bind] in E; [|done].
  injection E as <- <-. destruct (tick_counts c b c1 Hc Hh Et ltac:(lia)) as [Hc1 Hcy].
  pose proof (tick_account c b c1 (cw_quiescent c Hc) Hh Et) as Ha. rewrite stack_total_add, length_app.
  assert (Hr : Z.of_nat (length (retiring c)) = Z.b2z (mw_valid (v_wb c)))
    by (unfold retiring; rewrite Hh; by destruct (mw_valid (v_wb c))).
  destruct (co_halted_ c1) eqn:Eh.
  - destruct (halted_ticks n c1 ks1 c2 Eh E1) as [-> ->].
    assert (Hs : cycle_stack n c1 = stack_zero) by (destruct n; cbn; [done|by rewrite Eh]).
    rewrite Hs. change (stack_total stack_zero) with 0. cbn [length]. lia.
  - pose proof (IH c1 ks1 Hc1 Eh E1 ltac:(lia) ltac:(lia)). lia.
Qed.
End CycleStack.

(** C7: every cycle is accounted for, over any memories, caches and predictor and
    whatever the program.  From a cold start the cycle counter is the
    instructions retired, those in flight, and the cycles charged to waiting for
    the data memory, to redirects, to the load-use interlock and to waiting for
    the instruction memory.  A wait of the instruction memory that a stall of MEM,
    a redirect or the interlock hides is charged once, to that one. *)
Theorem Core_cycle_stack {IM DM : Type} `{MemoryLaws IM} `{MemoryLaws DM} (c : Core IM DM) n ks c' :
  Core_start c -> co_stats_ c = SimStats_new -> ticks n c = Some (ks, c') -> Z.of_nat n < 2 ^ 64 ->
  Core_cycles c' = Z.of_nat (length ks) + in_flight c' + stack_total (cycle_stack n c) /\
  0 <= in_flight c' <= 4.
Proof.
  intros Hst St E Hn. split; [|apply in_flight_range]. unfold Core_cycles.
  pose proof (ticks_account n c ks c' (st_wf _ Hst) (st_running _ Hst) E) as Ha. rewrite St in Ha.
  cbn [cycles SimStats_new] in Ha. specialize (Ha ltac:(lia) ltac:(lia)). unfold in_flight at 1 in Ha.
  rewrite (st_if _ Hst), (st_id _ Hst), (st_ex _ Hst), (st_wb _ Hst) in Ha. cbn [Z.b2z] in Ha. lia.
Qed.

(** The example with both caches, prefetch and a predictor, run to its end:
    every kind of loss occurs. *)
Lemma Core_cycle_stack_witness :
  exists ks c', ticks 80 example_core = Some (ks, c') /\ length ks = 12%nat /\
    cycle_stack 80 example_core = mkCycleStack 3 4 1 7 /\ Core_cycles c' = 12 + in_flight c' + 15.
Proof.
  destruct (ticks 80 example_core) as [[ks c']|] eqn:E.
  - assert (Hx : match ticks 80 example_core with
      | Some (ks, _) => (length ks, cycle_stack 80 example_core) | None => (0%nat, stack_zero) end =
      (12%nat, mkCycleStack 3 4 1 7)) by (vm_compute; reflexivity).
    rewrite E in Hx. apply pair_equal_spec in Hx as [X1 X2].
    destruct (Core_cycle_stack example_core 80 ks c' (proj1 example_core_start) example_stats E ltac:(lia)) as [Hc _].
    rewrite X1, X2 in Hc. exists ks, c'. split; [exact eq_refl|]. split; [exact X1|]. split; [exact X2|].
    exact Hc.
  - assert (Hx : match ticks 80 example_core with Some _ => true | None => false end = true)
      by (vm_compute; reflexivity).
    by rewrite E in Hx.
Defined.
