(* ===== verification/DataTiming.v ===== *)
(** * The data memory's share of the cycles

    MEM holds an access until the memory answers.  Over a memory whose timing
    depends on the requests alone ([MemoryTimed]), the cycles lost to this are
    those of the program's accesses made one after the other, in program order,
    with nothing in between ([serve_all]): the rest of the pipeline, flushed
    instructions included, has no influence on the data memory's state. *)

From S2P Require Import Prelude Isa Config Pipe Memory FlatMem MemoryLive MemoryTimed.
From S2P Require Import TreePlru Geometry Cache CacheLaws CacheTiming.
From S2P Require Import Stages Tracer Core CoreStep IsaSpec Serial CoreInv SerialFacts Refine Shadow Correct Progress Build.
From Stdlib Require Import RelationClasses.

(** ** The accesses of a program *)

Definition commit_access (k : commit) : list (Z * bool) :=
  match k_load k, k_store k with
  | Some a, _ => [(a, false)]
  | None, Some (a, _) => [(a, true)]
  | None, None => []
  end.

Definition accesses (ks : list commit) : list (Z * bool) := ks ≫= commit_access.

Lemma accesses_app ks1 ks2 : accesses (ks1 ++ ks2) = accesses ks1 ++ accesses ks2.
Proof. apply bind_app. Qed.

Lemma accesses_length ks : (length (accesses ks) <= length ks)%nat.
Proof.
  induction ks as [|k ks IH]; [done|]. change (accesses (k :: ks)) with (commit_access k ++ accesses ks).
  rewrite length_app. cbn [length]. unfold commit_access.
  destruct (k_load k), (k_store k) as [[]|]; cbn [length]; lia.
Qed.

(** The request of the instruction in MEM. *)
Definition request (ex : ExMem) : list (Z * bool) :=
  if mem_request ex then [(em_alu_out ex, is_store (em_op ex))] else [].

Lemma accessed_request {M} `{IMemory M} (m : M) ex m' wb :
  accessed m ex = Some (m', wb) -> accesses (if mw_valid wb then [commit_of wb] else []) = request ex.
Proof.
  unfold accessed, request, mem_request, mem_perform. destruct (em_valid ex); cbn [negb andb]; [|by intros [= <- <-]].
  destruct (em_op ex) eqn:Eo; intros E; inv_binds; simplify_eq; unfold accesses, commit_of, commit_access;
    cbn; by rewrite ?Eo.
Qed.

Section DataTiming.
Context {IM DM : Type} `{MemoryLive IM} `{MemoryTimed DM}.
Abbreviation core := (Core IM DM).
Implicit Type c : core.

(** Storing moves no clock. *)
Lemma accessed_clock (d : DM) ex d' wb : same_clock d d -> accessed d ex = Some (d', wb) -> same_clock d d'.
Proof using Type.
  intros Hd. unfold accessed, mem_perform. destruct (em_valid ex); cbn [negb]; [|by intros [= <- <-]].
  destruct (em_op ex); intros E; inv_binds; simplify_eq; try done; eapply store_clock; eauto.
Qed.

Lemma accessed_idle (d : DM) ex d' wb : mem_request ex = false -> accessed d ex = Some (d', wb) -> d' = d.
Proof using Type.
  unfold accessed, mem_request, mem_perform. destruct (em_valid ex); cbn [negb andb]; [|by intros _ [= <- <-]].
  destruct (em_op ex); cbn; try done; intros _ E; inv_binds; by simplify_eq.
Qed.

(** Whether MEM will hold its instruction this cycle. *)
Definition stalls c : bool :=
  mem_request (v_ex c) &&
  match ready (co_dmem_ c) SimStats_new (em_alu_out (v_ex c)) (is_store (em_op (v_ex c))) with
  | Some (b, _, _) => negb b
  | None => false
  end.

Lemma stalls_ready c st b d st' :
  same_clock (co_dmem_ c) (co_dmem_ c) -> mem_request (v_ex c) = true ->
  ready (co_dmem_ c) st (em_alu_out (v_ex c)) (is_store (em_op (v_ex c))) = Some (b, d, st') ->
  stalls c = negb b.
Proof using Type.
  intros Hd Hm E. destruct (ready_clock _ _ st SimStats_new _ _ _ _ _ Hd E) as (d' & E' & _).
  unfold stalls. by rewrite Hm, E'.
Qed.

Lemma cycle_clock c c' :
  cycle c c' -> same_clock (co_dmem_ c) (co_dmem_ c) -> same_clock (co_dmem_ c') (co_dmem_ c').
Proof using Type.
  intros Hcy Hd. destruct Hcy as [served_i st1 dmem1 st2 st3 Hret EI ED ER EM ET ES _ _ _ _ _ _
    | served_i imem1 st1 f next id served_d dmem1 st2 dmem2 st4 st5 st6 Hret EI EF ED EM Esv EA EB ET E4 EU ES
      _ _ _ _].
  - apply ready_clock_keeps in EM as [Hc _]; [|done]. by apply tick_clock_keeps in ET as [? _].
  - assert (Hc1 : same_clock dmem1 dmem1).
    { destruct (mem_request (v_ex c)); [|by injection EM as _ <- _]. by apply ready_clock_keeps in EM as [? _]. }
    pose proof (accessed_clock _ _ _ _ Hc1 EA) as Hc2. apply clock_right in Hc2. by apply tick_clock_keeps in ET as [? _].
Qed.

(** A cycle without request leaves a memory at rest where it is. *)
Lemma idle_cycle_clock c c' :
  cycle c c' -> mem_request (v_ex c) = false -> same_clock (co_dmem_ c) (co_dmem_ c) ->
  resting (co_dmem_ c) -> same_clock (co_dmem_ c) (co_dmem_ c').
Proof using Type.
  intros Hcy Hm Hd Hr. destruct Hcy as [? ? ? ? ? ? ? ? ER
    | served_i imem1 st1 f next id served_d dmem1 st2 dmem2 st4 st5 st6 Hret EI EF ED EM Esv EA EB ET];
    [congruence|].
  rewrite Hm in EM. injection EM as _ <- _. rewrite (accessed_idle _ _ _ _ Hm EA) in ET.
  by destruct (resting_tick _ _ _ _ Hd Hr ET).
Qed.

(** ** The account of a run *)

Section Account.
Context (d0 : DM) (F : nat) (HF : worst d0 < Z.of_nat F).

(** After the cycles so far, [w] of them stalled: the data memory is where the
    accesses of the instructions that have passed MEM take it, and [j] rounds
    further with the request of the one in MEM. *)
Record waited (ks : list commit) c (w : Z) : Prop := mkWaited {
  wt_served : exists n j m,
    serve_all F d0 SimStats_new (accesses (ks ++ retiring c)) = Some (n, m, SimStats_new) /\
    mem_inv m /\ live m /\ worst m = worst d0 /\
    w = Z.of_nat n - Z.of_nat (length (accesses (ks ++ retiring c))) + Z.of_nat j /\
    (mw_valid (v_wb c) = true -> j = 0%nat) /\
    if mem_request (v_ex c)
    then awaits m (em_alu_out (v_ex c)) (is_store (em_op (v_ex c))) j (co_dmem_ c)
    else j = 0%nat /\ same_clock m (co_dmem_ c) /\ resting (co_dmem_ c);
}.

Lemma start_waited c :
  mem_inv d0 -> live d0 -> same_clock d0 d0 -> resting d0 -> co_dmem_ c = d0 ->
  em_valid (v_ex c) = false -> mw_valid (v_wb c) = false -> waited [] c 0.
Proof using Type.
  intros Hi Hl Hc Hr Ed Hx Hw. constructor. exists 0%nat, 0%nat, d0. unfold retiring, mem_request.
  rewrite Hx, Hw, andb_false_r, Ed. by split_and!.
Qed.

Lemma waited_clock ks c w : waited ks c w -> same_clock (co_dmem_ c) (co_dmem_ c).
Proof using Type.
  intros [(n & j & m & _ & _ & _ & _ & _ & _ & Hx)]. destruct (mem_request (v_ex c)); [apply Hx|].
  destruct Hx as (_ & Hx & _). by eapply clock_right.
Qed.

(** At rest again, with everything served. *)
Lemma waited_settled ks c w n m :
  serve_all F d0 SimStats_new (accesses (ks ++ retiring c)) = Some (n, m, SimStats_new) ->
  mem_inv m -> live m -> worst m = worst d0 -> same_clock m (co_dmem_ c) -> resting (co_dmem_ c) ->
  w = Z.of_nat n - Z.of_nat (length (accesses (ks ++ retiring c))) -> waited ks c w.
Proof using Type.
  intros E Hi Hl Hw Hc Hr ->. constructor. exists n, 0%nat, m. split_and!; try done; [lia|].
  destruct (mem_request (v_ex c)); [|done]. by apply awaits_start.
Qed.

Lemma waited_cycle ks c c' w :
  core_wf c -> cycle c c' -> co_halted_ c = false -> co_halted_ c' = false -> waited ks c w ->
  waited (ks ++ retiring c) c' (w + Z.b2z (stalls c)).
Proof using HF.
  intros Hc Hcy Hh Hh' Hw. assert (Hself := waited_clock _ _ _ Hw).
  destruct Hw as [(n & j & m & E & Hi & Hl & Hwm & -> & Hj & Hx)].
  destruct Hcy as [served_i st1 dmem1 st2 st3 Hret EI ED ER EM ET ES _ _ Eex Ewb _ _
    | served_i imem1 st1 f next id served_d dmem1 st2 dmem2 st4 st5 st6 Hret EI EF ED EM Esv EA EB ET E4 EU ES
      Eex Eid Eif Epc].
  - rewrite (stalls_ready c _ _ _ _ Hself ER EM), ER in *. constructor. exists n, (S j), m.
    assert (Er : retiring c' = []) by (unfold retiring; rewrite Ewb; by destruct (negb _)).
    rewrite Er, app_nil_r, Eex, ER, Ewb. split_and!; try done; [cbn; lia|].
    by apply (awaits_round _ _ _ _ _ _ _ _ _ _ _ Hx EM ET).
  - assert (Er : accesses (retiring c') = request (v_ex c)).
    { rewrite <- (accessed_request _ _ _ _ EA). unfold retiring. rewrite Hh'. by destruct (mw_valid (v_wb c')). }
    unfold request in Er. subst served_d. destruct (mem_request (v_ex c)) eqn:Em.
    + rewrite (stalls_ready c _ _ _ _ Hself Em EM).
      destruct (ready_clock _ _ _ st1 _ _ _ _ _ Hself EM) as (d1 & _ & Hc1).
      pose proof (accessed_clock _ _ _ _ (clock_left _ _ Hc1) EA) as Hc2.
      destruct (awaits_served _ _ _ _ _ _ _ _ _ _ _ _ SimStats_new Hx EM Hc2 ET) as (m' & Es & Hc3 & Hrest).
      assert (Ha : is_u32 (em_alu_out (v_ex c))) by apply (cw_ex c Hc).
      apply (serve_enough F) in Es; [|done|done|done|lia].
      destruct (serve_keeps _ _ _ _ _ _ _ _ Hi Hl Ha Es) as (Hi' & Hl' & Hw').
      pose proof (serve_all_snoc _ _ _ _ _ _ _ _ _ _ _ _ E Es) as Es'.
      assert (Ea : accesses ((ks ++ retiring c) ++ retiring c') =
        accesses (ks ++ retiring c) ++ [(em_alu_out (v_ex c), is_store (em_op (v_ex c)))])
        by (by rewrite accesses_app, Er).
      apply (waited_settled _ _ _ (n + S j) m'); rewrite ?Ea, ?length_app; try done; [congruence|cbn; lia].
    + destruct Hx as (-> & Hc1 & Hrest). injection EM as <- <-.
      rewrite (accessed_idle _ _ _ _ Em EA) in ET.
      destruct (resting_tick _ _ _ _ Hself Hrest ET) as [Hc2 Hrest'].
      assert (Ea : accesses ((ks ++ retiring c) ++ retiring c') = accesses (ks ++ retiring c))
        by (by rewrite accesses_app, Er, app_nil_r).
      assert (Hst : stalls c = false) by (unfold stalls; by rewrite Em).
      apply (waited_settled _ _ _ n m); rewrite ?Ea, ?Hst; try done; [exact (transitivity Hc1 Hc2)|cbn; lia].
Qed.
End Account.
End DataTiming.

(** ** The data memory of a configuration *)

#[export, refine] Instance Port_timed : MemoryTimed Port := {
  same_clock p q := match p, q with
    | PFlat m, PFlat n => same_clock m n
    | PCache c, PCache d => same_clock c d
    | _, _ => False
    end;
  resting p := match p with PFlat m => resting m | PCache c => resting c end;
}.
Proof.
  - split.
    + intros [m|c] [n|d] Hc; (done || by symmetry).
    + intros [m|c] [n|d] [p|e] Hc1 Hc2; try done; [exact (transitivity Hc1 Hc2)|exact (transitivity Hc1 Hc2)].
  - intros [m|c] [n|d] st1 st2 a w b p' st' Hc E; try done; cbn [ready Port_IMemory] in E |- *;
      match type of E with mbind _ ?r = _ => destruct r as [[[b1 m1] s1]|] eqn:Er end;
      cbn [mbind option_bind] in E; try done; injection E as <- <- <-;
      destruct (ready_clock _ _ _ st2 _ _ _ _ _ Hc Er) as (n1 & -> & Hc1); by eexists.
  - intros [m|c] [n|d] st1 st2 p' st' Hc E; try done; cbn [tick Port_IMemory] in E |- *;
      match type of E with mbind _ ?r = _ => destruct r as [[m1 s1]|] eqn:Et end;
      cbn [mbind option_bind] in E; try done; injection E as <- <-;
      destruct (tick_clock _ _ _ st2 _ _ Hc Et) as (n1 & -> & Hc1); by eexists.
  - intros [m|c] a v p' Hc E; cbn [store_word store_half store_byte Port_IMemory Port_store] in E.
    + assert (Hx : exists m', p' = PFlat m' /\
        (store_word m a v = Some m' \/ store_half m a v = Some m' \/ store_byte m a v = Some m'))
        by (destruct E as [E|[E|E]]; apply fmap_Some in E as (m' & E & ->); eauto).
      destruct Hx as (m' & -> & Hs). exact (store_clock m a v m' Hc Hs).
    + assert (Hx : exists m', p' = PCache m' /\
        (store_word c a v = Some m' \/ store_half c a v = Some m' \/ store_byte c a v = Some m'))
        by (destruct E as [E|[E|E]]; apply fmap_Some in E as (m' & E & ->); eauto).
      destruct Hx as (m' & -> & Hs). exact (store_clock c a v m' Hc Hs).
  - intros [m|c] st p' st' Hc Hr E; cbn [tick Port_IMemory] in E;
      match type of E with mbind _ ?r = _ => destruct r as [[m1 s1]|] eqn:Et end;
      cbn [mbind option_bind] in E; try done; injection E as <- <-; exact (resting_tick _ _ _ _ Hc Hr Et).
  - intros [m|c] st a w p1 st1 p2 st2 p3 st3 Er Hc Et; cbn [ready tick Port_IMemory] in Er, Et;
      match type of Er with mbind _ ?r = _ => destruct r as [[[b1 m1] s1]|] eqn:Er1 end;
      cbn [mbind option_bind] in Er; try done; injection Er as -> <- <-; destruct p2 as [m2|c2]; try done;
      match type of Et with mbind _ ?r = _ => destruct r as [[m3 s3]|] eqn:Et1 end;
      cbn [mbind option_bind] in Et; try done; injection Et as <- <-; exact (served_resting _ _ _ _ _ _ _ _ _ _ Er1 Hc Et1).
Defined.

(** At boot it is at rest. *)
Lemma boot_data cfg words c :
  config_ok cfg -> boot cfg words = Some c ->
  same_clock (co_dmem_ c) (co_dmem_ c) /\ resting (co_dmem_ c) /\
  worst (co_dmem_ c) =
    port_wait (dmem_latency_cycles cfg) (dcache_enabled cfg) (dcache_hit_latency_cycles cfg).
Proof.
  intros Hok E. unfold boot in E. destruct (Core_new cfg) as [c0|] eqn:E0; cbn [mbind option_bind] in E; [|done].
  unfold Core_load_program in E. destruct (store_words _ _ _) as [m|]; cbn [mbind option_bind] in E; [|done].
  injection E as <-. cbn [co_dmem_ setter]. unfold Core_new in E0.
  match type of E0 with mbind _ ?o = _ => destruct o as [ip|] end; cbn [mbind option_bind] in E0; [|done].
  match type of E0 with mbind _ ?o = _ => destruct o as [dp|] eqn:Ed end; cbn [mbind option_bind] in E0; [|done].
  match type of E0 with mbind _ ?o = _ => destruct o as [bp|] end; cbn [mbind option_bind] in E0; [|done].
  injection E0 as <-. cbn [co_dmem_ Core_wire].
  destruct (port_live _ _ _ _ _ _ _ _ _ _ _ _ (proj1 (ok_dlat _ Hok)) (fun Hen => proj1 (proj1 (proj2 (proj2 (proj2 (ok_dcache _ Hok Hen)))))) Ed)
    as [_ Hw].
  enough (same_clock dp dp /\ resting dp) as [? ?] by done. clear Hw. destruct (dcache_enabled cfg); [|by injection Ed as <-].
  destruct (Cache_new _ _ _ _ _ _ _ _) as [c|] eqn:Ec; cbn in Ed; [|done]. injection Ed as <-.
  apply Cache_new_timed in Ec; [done|by split_and!].
Qed.
