(* ===== verification/Timing.v ===== *)
(** * How many cycles a program takes

    The cycle count is the simulator's main result, so it gets a specification
    of its own.  When the instruction memory answers at once, the pipeline costs
    one cycle per instruction of [IsaSpec]'s machine, four to fill, two more per
    mispredicted branch or jump, one more per load whose result the next
    instruction's register fields name, and the cycles the program's data
    accesses wait when they are made one after another ([DataTiming]), whatever
    the latency and the geometry of the data memory.  Without a predictor, the
    mispredicted ones are those taken.  The core takes exactly that long, and
    leaves its data cache in the state of those accesses. *)

From S2P Require Import Prelude Isa Formats DecoderSpec Alu Regfile Config Pipe Memory FlatMem MemoryLive.
From S2P Require Import BranchPredictor Stages Tracer Core CoreStep IsaSpec Serial CoreInv SerialFacts.
From S2P Require Import CoreTotal Refine Shadow Safe Correct Progress Termination Build Program Simulator Statistics.
From S2P Require Import MemoryTimed DataTiming.

(** ** The cost model *)

(** Whether the instruction at [s] is a jump or a branch that is taken. *)
Definition isa_taken (imem : ram) (s : arch) : bool :=
  match ram_load 4 imem (a_pc s) with
  | Some raw =>
      let i := decode raw (a_pc s) in
      match effect_of (i_op i) (a_pc s) (i_imm i) (xreg (a_regs s) (i_rs1 i)) (xreg (a_regs s) (i_rs2 i)) with
      | Branch taken => taken
      | Jump _ => true
      | _ => false
      end
  | None => false
  end.

(** Whether it is a load whose destination is named by a register field of the
    next word, used as a register by that instruction or not. *)
Definition isa_load_use (imem : ram) (s : arch) : bool :=
  match ram_load 4 imem (a_pc s), ram_load 4 imem ((a_pc s + 4) mod 2 ^ 32) with
  | Some raw, Some next =>
      let i := decode raw (a_pc s) in
      is_load (i_op i) && negb (i_rd i =? 0) && ((i_rd i =? rs1 next) || (i_rd i =? rs2 next))
  | _, _ => false
  end.

(** Of the first [n] instructions, those that meet [f]. *)
Fixpoint isa_count (f : ram -> arch -> bool) (imem : ram) (n : nat) (s : arch) : Z :=
  match n with
  | O => 0
  | S n => Z.b2z (f imem s) +
      match isa_step imem s with Some (_, s) => isa_count f imem n s | None => 0 end
  end.

Lemma isa_count_range f imem n s : 0 <= isa_count f imem n s <= Z.of_nat n.
Proof.
  revert s. induction n as [|n IH]; intros s; cbn [isa_count]; [lia|].
  destruct (f imem s), (isa_step imem s) as [[k s']|]; cbn [Z.b2z]; try specialize (IH s'); lia.
Qed.

Lemma isa_count_snoc f imem n s ks s' :
  isa_steps imem n s = Some (ks, s') ->
  isa_count f imem (S n) s = isa_count f imem n s + Z.b2z (f imem s').
Proof.
  revert s ks. induction n as [|n IH]; intros s ks E.
  { injection E as _ <-. cbn [isa_count]. destruct (isa_step imem s) as [[]|]; lia. }
  cbn [isa_steps] in E. destruct (isa_step imem s) as [[k s1]|] eqn:E1; cbn [mbind option_bind] in E; [|done].
  destruct (_ && _); [done|].
  destruct (isa_steps imem n s1) as [[ks1 s2]|] eqn:E2; cbn [mbind option_bind] in E; [|done].
  injection E as _ <-. specialize (IH s1 ks1 E2).
  change (isa_count f imem (S (S n)) s) with (Z.b2z (f imem s) +
    match isa_step imem s with Some (_, s) => isa_count f imem (S n) s | None => 0 end).
  rewrite E1, IH. cbn [isa_count]. rewrite E1. lia.
Qed.

(** ** Cycles without waiting *)

Section Timing.
Context {IM DM : Type} `{MemoryLive IM} `{MemoryTimed DM}.
Abbreviation core := (Core IM DM).
Implicit Type c : core.

(** The instruction memory answers at once, the data memory as its requests
    say, and behind a decoded instruction the next one has been fetched. *)
Record prompt c : Prop := mkPrompt {
  pr_live : core_live c;
  pr_imem : worst (co_imem_ c) = 0;
  pr_dmem : same_clock (co_dmem_ c) (co_dmem_ c);
  pr_next : ie_valid (v_id c) = true -> if_valid (v_if c) = true;
}.

(** Nothing is predicted taken. *)
Record plain c : Prop := mkPlain {
  pl_bpred : co_bpred_ c = None;
  pl_if : if_valid (v_if c) = true -> if_predicted_taken (v_if c) = false;
  pl_id : ie_valid (v_id c) = true -> ie_predicted_taken (v_id c) = false;
}.

(** The branch EX finds mispredicted. *)
Definition mispredicted c : bool := ex_control_ (executed c).1 && ex_redirect_ (executed c).1.

(** What moves when MEM waits: the instruction in MEM/WB, which retires. *)
Record held c c' : Prop := mkHeld {
  hd_wb : v_wb c' = bubble;
  hd_request : mem_request (v_ex c) = true;
  hd_ex : v_ex c' = v_ex c;
  hd_id : v_id c' = captured c;
  hd_if : v_if c' = v_if c;
  hd_mispredicts : branch_mispredicts (co_stats_ c') = branch_mispredicts (co_stats_ c);
  hd_plain : plain c -> plain c';
}.

(** What moves otherwise: everything. *)
Record moves c c' : Prop := mkMoves {
  mv_wb : mw_valid (v_wb c') = em_valid (v_ex c);
  mv_wb_op : em_valid (v_ex c) = true -> mw_op (v_wb c') = em_op (v_ex c);
  mv_ex : v_ex c' = (executed c).2;
  mv_id : ie_valid (v_id c') =
    if_valid (v_if c) && negb (ex_redirect_ (executed c).1 || interlock c);
  mv_if : if_valid (v_if c') = negb (ex_redirect_ (executed c).1) && (if_valid (v_if c) || negb (interlock c));
  mv_mispredicts : branch_mispredicts (co_stats_ c') =
    if mispredicted c then incr64 (branch_mispredicts (co_stats_ c)) else branch_mispredicts (co_stats_ c);
  mv_plain : plain c -> plain c';
}.

Lemma prompt_served {M} `{MemoryLive M} (m : M) st a w b m1 st1 st2 m2 st3 :
  mem_inv m -> live m -> worst m = 0 -> is_u32 a ->
  ready m st a w = Some (b, m1, st1) -> tick m1 st2 = Some (m2, st3) -> b = true.
Proof using Type.
  intros Hm Hl Hw Ha Er Et. destruct b; [done|].
  pose proof (unserved_delay m st a w m1 st1 st2 m2 st3 Hm Hl Ha Er Et) as Hd.
  destruct (round_keeps _ _ _ _ _ _ _ _ _ _ Hm Hl Ha Er Et) as (Hm2 & Hl2 & Hw2 & _).
  pose proof (delay_range m Hm Hl). pose proof (delay_range m2 Hm2 Hl2). lia.
Qed.

Lemma fetched_served (imem : IM) bp pc f next :
  fetched imem bp pc true = Some (f, next) ->
  if_valid f = true /\ (bp = None -> if_predicted_taken f = false).
Proof using Type.
  unfold fetched. cbn [negb]. destruct (load_word imem pc); cbn [mbind option_bind]; [|done].
  destruct bp as [p|]; [|by intros [= <- _]].
  destruct (BranchPredictor_predict p pc) as [[[] t]|]; cbn; [..|done]; by intros [= <- _].
Qed.

(** Only EX counts mispredictions. *)
Lemma counters_mispredicts st st' :
  core_counters st' = core_counters st -> branch_mispredicts st' = branch_mispredicts st.
Proof using Type. unfold core_counters. intros E. by simplify_eq. Qed.

Lemma captured_predicted c : ie_predicted_taken (captured c) = ie_predicted_taken (v_id c).
Proof using Type. unfold captured. by destruct (ie_valid (v_id c)). Qed.

Lemma prompt_held c c' : prompt c -> cycle c c' -> stalls c = true -> prompt c' /\ held c c'.
Proof using Type.
  intros [Hl Wi Wd Hnext] Hcy Hst. destruct (cycle_live c c' Hl Hcy) as (Hl' & Wi' & _).
  pose proof (cycle_clock c c' Hcy Wd) as Wd'. destruct Hl as [Hc Hi Hd].
  destruct Hcy as [served_i st1 dmem1 st2 st3 Hret EI ED ER EM ET ES Eif Eid Eex Ewb Epc Ebp
    | served_i imem1 st1 f next id served_d dmem1 st2 dmem2 st4 st5 st6 Hret EI EF ED EM Esv EA EB ET E4 EU ES
      Eex Eid Eif Epc].
  2:{ assert (Hm : mem_request (v_ex c) = true) by (unfold stalls in Hst; by apply andb_true_iff in Hst as [? _]).
      rewrite Hm in EM. by rewrite (stalls_ready c _ _ _ _ Wd Hm EM), Esv in Hst. }
  destruct (captured_fields c) as (Cv & _). split; [|constructor; try done].
  - constructor; try done; [congruence|]. by rewrite Eif, Eid, Cv.
  - apply ready_keeps in EI as (_ & _ & C1); [|apply Hc..].
    apply ready_keeps in EM as (Hd1 & _ & C2); [|apply Hc|apply (cw_ex c Hc)].
    apply tick_keeps in ET as (_ & _ & C3); [|done].
    apply counters_mispredicts in C1, C2, C3. rewrite ES.
    change (branch_mispredicts (stats_cycle st3)) with (branch_mispredicts st3). rewrite C3, <- C1, <- C2.
    by destruct (mw_valid (v_wb c)).
  - intros [Hbp Hpf Hpd]. constructor; [by rewrite Ebp|by rewrite Eif|]. by rewrite Eid, Cv, captured_predicted.
Qed.

Lemma prompt_moves c c' : prompt c -> cycle c c' -> stalls c = false -> prompt c' /\ moves c c'.
Proof using Type.
  intros [Hl Wi Wd Hnext] Hcy Hst. destruct (cycle_live c c' Hl Hcy) as (Hl' & Wi' & _).
  pose proof (cycle_clock c c' Hcy Wd) as Wd'. destruct Hl as [Hc Hi Hd].
  destruct Hcy as [served_i st1 dmem1 st2 st3 Hret EI ED ER EM ET _ Eif Eid Eex Ewb Epc Ebp
    | served_i imem1 st1 f next id served_d dmem1 st2 dmem2 st4 st5 st6 Hret EI EF ED EM _ EA EB ET E4 EU ES
      Eex Eid Eif Epc].
  { by rewrite (stalls_ready c _ _ _ _ Wd ER EM) in Hst. }
  pose proof (prompt_served _ _ _ _ _ _ _ _ _ _ (cw_imem c Hc) Hi Wi (cw_pc c Hc) EI EU) as ->.
  destruct (fetched_served _ _ _ _ _ EF) as [Hfv Hfp]. destruct (decoded_shape _ _ _ ED) as [Hdv Hdp].
  assert (Hx : interlock c = true -> if_valid (v_if c) = true).
  { intros Hil. apply Hnext. unfold interlock in Hil. by destruct (ie_valid (v_id c)). }
  split; [|constructor].
  - constructor; try done; [congruence..|]; rewrite Eif, Eid;
      destruct (ex_redirect_ (executed c).1), (interlock c); cbn [orb]; try done.
  - by apply accessed_valid in EA.
  - intros Hv. unfold accessed in EA. rewrite Hv in EA. cbn [negb] in EA.
    by apply mem_perform_fields in EA as (_ & _ & ? & _).
  - done.
  - rewrite Eid. destruct (ex_redirect_ (executed c).1), (interlock c); cbn [orb negb];
      by rewrite ?andb_false_r, ?andb_true_r.
  - rewrite Eif. destruct (ex_redirect_ (executed c).1), (interlock c); cbn [negb andb];
      rewrite ?orb_false_r, ?orb_true_r; by auto.
  - apply ready_keeps in EI as (Hi1 & _ & C1); [|apply Hc..].
    apply request_keeps in EM as (Hd1 & _ & C2); [|apply Hc..].
    apply accessed_keeps in EA as [Hd2 _]; [|done|apply Hc].
    apply tick_keeps in ET as (_ & _ & C3); [|done]. apply tick_keeps in EU as (_ & _ & C4); [|done].
    apply counters_mispredicts in C1, C2, C3, C4. rewrite ES.
    change (branch_mispredicts (stats_cycle st6)) with (branch_mispredicts st6). rewrite C4, C3, E4.
    cbv zeta. unfold mispredicted. rewrite <- C1, <- C2.
    by destruct (ex_control_ _), (ex_redirect_ _), (mw_valid (v_wb c)).
  - intros [Hbp Hpf Hpd]. constructor.
    + unfold trained in EB. destruct (ex_train_ _); rewrite Hbp in EB; [done|by injection EB as <-].
    + rewrite Eif. destruct (ex_redirect_ _); [done|]. destruct (interlock c); auto.
    + rewrite Eid. destruct (ex_redirect_ _ || interlock c); [done|]. rewrite Hdv. intros Hv.
      rewrite Hdp by done. auto.
Qed.

(** ** Slots *)

Definition ex_halts c : bool := em_valid (v_ex c) && is_halt_op (em_op (v_ex c)).

(** The empty slots ahead of the youngest instruction of the program. *)
Definition gap_id c : Z := if ie_valid (v_id c) then 0 else if if_valid (v_if c) then 1 else 2.
Definition gap_ex c : Z := if em_valid (v_ex c) then (if ex_halts c then 0 else gap_id c) else 1 + gap_id c.
Definition gap c : Z := if mw_valid (v_wb c) then (if halts (v_wb c) then 0 else gap_ex c) else 1 + gap_ex c.

(** The slots this cycle empties behind the instruction in EX. *)
Definition emptied c : Z :=
  if ex_halts c then 0 else if ex_redirect_ (executed c).1 then 2 else if interlock c then 1 else 0.

(** A branch or jump is what the front end predicted taken. *)
Definition id_direct c : Prop :=
  ie_valid (v_id c) = true -> ie_predicted_taken (v_id c) = true -> is_direct (ie_op (v_id c)) = true.

(** An instruction that ends the program neither redirects nor interlocks. *)
Lemma halt_goes_straight c :
  id_direct c -> ie_valid (v_id c) = true -> is_halt_op (ie_op (v_id c)) = true ->
  ex_redirect_ (executed c).1 = false /\ interlock c = false.
Proof using Type.
  intros Hd Hv Ho. unfold executed, interlock, execute. rewrite Hv. cbn [negb].
  assert (Hp : ie_predicted_taken (v_id c) = false).
  { destruct (ie_predicted_taken (v_id c)) eqn:E; [|done]. by destruct (direct_not_halt _ Ho (Hd Hv E)). }
  destruct (ie_op (v_id c)); try done; cbn; by rewrite Hp.
Qed.

(** What redirects is a branch or a jump. *)
Lemma redirect_control c :
  id_direct c -> ie_valid (v_id c) = true -> ex_redirect_ (executed c).1 = true ->
  ex_control_ (executed c).1 = true.
Proof using Type.
  intros Hd Hv. unfold executed, execute. rewrite Hv. cbn [negb].
  specialize (Hd Hv). destruct (ie_predicted_taken (v_id c)); [specialize (Hd eq_refl)|clear Hd];
    destruct (ie_op (v_id c)); try done.
Qed.

Lemma idle_goes_straight c :
  ie_valid (v_id c) = false -> ex_redirect_ (executed c).1 = false /\ interlock c = false.
Proof using Type. intros Hv. unfold executed, interlock. by rewrite Hv. Qed.

(** Each cycle shifts the slots by one and adds the emptied ones. *)
Lemma gap_moves c c' :
  prompt c -> (ex_halts c = false -> id_direct c) -> moves c c' -> halts (v_wb c) = false ->
  gap c' + 1 = gap c + Z.b2z (mw_valid (v_wb c)) + emptied c.
Proof using Type.
  intros Hp Hd [Mw Mo Mx Mi Mf _ _] Hh.
  assert (Hv : em_valid (v_ex c') = ie_valid (v_id c)) by (by rewrite Mx, executed_valid).
  assert (Ho : ie_valid (v_id c) = true -> em_op (v_ex c') = ie_op (v_id c)).
  { intros Hid. rewrite Mx. unfold executed. rewrite Hid. cbn [negb]. apply execute_fields. }
  assert (Hx : halts (v_wb c') = ex_halts c).
  { unfold halts, ex_halts. rewrite Mw. destruct (em_valid (v_ex c)); [by rewrite Mo|done]. }
  assert (Hg : ex_halts c = false -> ie_valid (v_id c) = true -> is_halt_op (ie_op (v_id c)) = true ->
    ex_redirect_ (executed c).1 = false /\ interlock c = false) by (intros; apply halt_goes_straight; auto).
  pose proof (idle_goes_straight c) as Hn. pose proof (pr_next _ Hp) as Hnext. clear Hd.
  unfold gap, gap_ex, gap_id, emptied. rewrite Hh, Hx, Mw, Mi, Mf. unfold ex_halts in *. rewrite Hv.
  destruct (ie_valid (v_id c)); [rewrite Ho by done|];
    [|destruct (Hn eq_refl) as [-> ->]; destruct (em_valid (v_ex c)), (is_halt_op (em_op (v_ex c))),
      (if_valid (v_if c)), (mw_valid (v_wb c)); cbn; lia].
  rewrite (Hnext eq_refl).
  destruct (em_valid (v_ex c)), (is_halt_op (em_op (v_ex c))); cbn [andb] in *;
    try (destruct (mw_valid (v_wb c)); cbn; lia);
    destruct (is_halt_op (ie_op (v_id c))); try (destruct (Hg eq_refl eq_refl eq_refl) as [-> ->]);
    destruct (mw_valid (v_wb c)); cbn; try lia;
    destruct (ex_redirect_ (executed c).1), (interlock c); cbn; lia.
Qed.

(** A cycle MEM waits adds one slot, in front of it. *)
Lemma gap_held c c' :
  held c c' -> halts (v_wb c) = false -> gap c' + 1 = gap c + Z.b2z (mw_valid (v_wb c)) + 1.
Proof using Type.
  intros [Hw _ Hx Hi Hf _ _] Hh. destruct (captured_fields c) as (Cv & _).
  unfold gap, gap_ex, gap_id, ex_halts. rewrite Hh, Hw, Hx, Hi, Hf, Cv. cbn [mw_valid bubble MemWb_bubble].
  destruct (mw_valid (v_wb c)); cbn [Z.b2z]; lia.
Qed.

(** *** Penalties on the path *)

Section Program.
Context (c0 : core) (Hstart : Core_start c0).
Abbreviation im := (mem_ram (co_imem_ c0)).
Abbreviation s_init := (start_state c0).
Context (Haligned : co_bpred_ c0 = None \/ aligned_run im s_init).
Context (Hsafe : safe_program im (is_Some (co_bpred_ c0)) s_init).
Abbreviation good := (good c0).
Abbreviation tracked := (tracks im good (predicts c0)).

Lemma good_step s : good s -> exists wb s', serial_step im s = Some (wb, s').
Proof using Hstart Hsafe.
  intros Hg. destruct (sf_step _ _ _ (good_safe c0 Hsafe s Hg)) as [[k s'] E].
  rewrite (serial_step_spec im s) in E; [|apply (im_wf c0 Hstart)|apply Hg..].
  destruct (serial_step im s) as [[wb s1]|]; [by exists wb, s1|done].
Qed.

Lemma direction_taken s : arch_wf s -> direction im s = isa_taken im s.
Proof using Hstart.
  clear Haligned. intros Hs. unfold direction, isa_taken. destruct (ram_load 4 im (a_pc s)) as [raw|] eqn:Hraw; [|done].
  pose proof (in_decode_wf im (im_wf c0 Hstart) s Hs raw Hraw false) as Hd.
  destruct (decode_post_ok raw (a_pc s) (raw_u32 im (im_wf c0 Hstart) s raw Hraw)) as (_ & _ & (_ & H1' & H2' & Hi) & _).
  pose proof (execute_effect (in_decode s raw false) _ _ (xreg_u32 _ (aw_regs s Hs) _ H1')
    (xreg_u32 _ (aw_regs s Hs) _ H2') Hi) as He.
  cbn [in_decode ie_op ie_pc ie_imm] in He. unfold in_execute. cbn [in_decode ie_rs1_val ie_rs2_val].
  destruct (effect_of _ _ _ _ _); tauto.
Qed.

(** The state in front of ID/EX. *)
Lemma o_id_next c s0 s1 :
  tracked c s0 s1 -> halts (v_wb c) = false ->
  match o_id im c s1 with
  | Some s => ex_halts c = false /\ good s
  | None => ex_halts c = true
  end.
Proof using Hstart Hsafe.
  intros Ht Hh. destruct (tracks_s1 im (im_wf c0 Hstart) good (predicts c0) (fun s Hg => proj1 Hg)
    (good_advance c0 Hstart) c s0 s1 Ht Hh) as [Hg _].
  assert (Ho : o_ex c s1 = Some s1) by (unfold o_ex; by rewrite Hh).
  unfold o_id, after_ex, ex_halts. rewrite Ho. destruct (em_valid (v_ex c)) eqn:Hv; [|done].
  destruct (tk_ex _ _ _ _ _ _ Ht s1 Hv Ho) as (raw & Hraw & Hex).
  destruct (good_step s1 Hg) as (wb & s2 & Es).
  destruct (serial_step_parts _ _ _ _ Es) as (raw' & Hraw' & Em & _).
  rewrite Hraw in Hraw'. apply Some_inj in Hraw' as <-.
  destruct (mem_perform_fields _ _ _ _ Em) as (_ & _ & Fo & _). rewrite <- Hex in Fo.
  pose proof (good_advance c0 Hstart s1) as Ha.
  unfold advance in *. cbn [mbind option_bind] in *. rewrite Es in *. cbn [mbind option_bind andb] in *.
  rewrite Fo in *. destruct (is_halt_op (em_op (v_ex c))); [done|]. split; [done|]. by apply Ha.
Qed.

(** *** What is predicted taken is a branch or a jump *)

Record flags c (s1 : arch) : Prop := mkFlags {
  fl_if : o_if im c s1 <> None -> if_valid (v_if c) = true -> if_predicted_taken (v_if c) = true ->
    is_direct (i_op (decode (if_raw (v_if c)) (if_pc (v_if c)))) = true;
  fl_id : o_id im c s1 <> None -> id_direct c;
}.

Lemma fetched_direct c s0 s1 (imem1 : IM) f next :
  tracked c s0 s1 -> core_wf c -> halts (v_wb c) = false -> ex_redirect_ (executed c).1 = false ->
  mem_inv imem1 -> mem_ram imem1 = im -> fetched imem1 (co_bpred_ c) (v_pc c) true = Some (f, next) ->
  o_pc im c s1 <> None -> if_predicted_taken f = true ->
  is_direct (i_op (decode (if_raw f) (if_pc f))) = true.
Proof using Hstart Haligned.
  intros Ht Hc Hh Er Hmi Hri EF Ho Hp. destruct (o_pc im c s1) as [s|] eqn:Es; [|done].
  pose proof (no_redirect im good (predicts c0) c s0 s1 Ht Er) as On.
  destruct (fetched_served _ _ _ _ _ EF) as [Hv Hnone].
  destruct (fetched_fields _ _ _ _ _ _ Hmi (cw_pc c Hc) EF Hv) as (_ & -> & Hl & _). rewrite Hri in Hl.
  apply (predicted_branch im c imem1 true f next); try done.
  - apply (tk_bp _ _ _ _ _ _ Ht), o_next_some. unfold o_next. rewrite On. by eapply o_pc_some.
  - rewrite (tk_pc _ _ _ _ _ _ Ht s Es). apply (good_aligned c0 Haligned).
    + unfold o_pc, after_if in Es. rewrite <- On in Es.
      pose proof (o_next_good im (im_wf c0 Hstart) good (predicts c0) (fun s Hg => proj1 Hg)
        (good_advance c0 Hstart) c s0 s1) as Hg.
      destruct (if_valid (v_if c)); [|by apply Hg].
      eapply follow_good; [exact (good_advance c0 Hstart)| |exact Es]. intros s'. by apply Hg.
    + apply (tk_predicts _ _ _ _ _ _ Ht). destruct (co_bpred_ c); [done|]. by rewrite Hnone in Hp.
Qed.

Lemma held_paths c c' s1 s2 s0 :
  held c c' -> halts (v_wb c) = false -> tracked c' s0 s2 -> s0 = s1 ->
  s2 = s1 /\ o_ex c' s2 = o_ex c s1 /\ o_id im c' s2 = o_id im c s1 /\ o_if im c' s2 = o_if im c s1.
Proof using Type.
  intros [Hw _ Hx Hi _ _ _] Hh Ht ->. pose proof (tk_wb _ _ _ _ _ _ Ht) as Hs. rewrite Hw in Hs. cbn in Hs.
  subst s2. destruct (captured_fields c) as (Cv & _).
  unfold o_if, o_id, o_ex, after_id. by rewrite Hw, Hx, Hi, Cv, captured_predicted, Hh.
Qed.

Lemma cycle_flags c c' s0 s1 s2 :
  tracked c s0 s1 -> prompt c -> mem_ram (co_imem_ c) = im -> halts (v_wb c) = false -> flags c s1 ->
  cycle c c' -> tracked c' s1 s2 -> flags c' s2.
Proof using Hstart Haligned.
  intros Ht Hp Him Hh [Fi Fd] Hcy Ht'. destruct (stalls c) eqn:Hst.
  { destruct (prompt_held c c' Hp Hcy Hst) as [_ Hx].
    destruct (held_paths c c' s1 s2 s1 Hx Hh Ht' eq_refl) as (-> & _ & O2 & O3).
    destruct Hx as [_ _ _ Eid Eif _ _]. destruct (captured_fields c) as (Cv & _ & _ & Co).
    constructor; rewrite ?O2, ?O3; unfold id_direct; rewrite ?Eif, ?Eid, ?Cv, ?Co, ?captured_predicted; [exact Fi|exact Fd]. }
  destruct Hp as [[Hc Hi Hd] Wi Wd _]. destruct Hcy as [served_i st1 dmem1 st2 st3 Hret EI ED ER EM ET _ Eif Eid Eex Ewb Epc Ebp
    | served_i imem1 st1 f next id served_d dmem1 st2 dmem2 st4 st5 st6 Hret EI EF ED EM _ EA EB ET _ EU _
      Eex Eid Eif Epc].
  { by rewrite (stalls_ready c _ _ _ _ Wd ER EM) in Hst. }
  pose proof (prompt_served _ _ _ _ _ _ _ _ _ _ (cw_imem c Hc) Hi Wi (cw_pc c Hc) EI EU) as ->.
  apply ready_keeps in EI as (Hi1 & Hir & _); [|apply Hc..].
  pose proof (o_ex_full im good (predicts c0) c c' s0 s1 s2 dmem1 dmem2 Ht Hh Ht' EA) as O1.
  destruct (full_paths im good (predicts c0) c c' s0 s1 s2 id Ht O1 ED Eex Eid) as (O2 & On & O3).
  constructor.
  - rewrite O3, Eif. destruct (ex_redirect_ (executed c).1) eqn:Er; [done|].
    destruct (interlock c); [exact Fi|]. intros Ho _.
    apply (fetched_direct c s0 s1 imem1 f next); try done. congruence.
  - rewrite O2. unfold id_direct. rewrite Eid. destruct (ex_redirect_ (executed c).1) eqn:Er; [done|].
    destruct (interlock c); [done|]. cbn [orb]. rewrite (On eq_refl).
    destruct (decoded_shape _ _ _ ED) as [Hdv Hdp]. rewrite Hdv. intros Ho Hv. rewrite (Hdp Hv).
    destruct (decoded_fields _ _ _ ED Hv) as (_ & _ & _ & ->). by apply Fi.
Qed.

(** *** What each instruction costs *)

(** The interlock sees what the program's next word names. *)
Lemma interlock_load_use c s0 s1 s :
  tracked c s0 s1 -> prompt c -> id_direct c -> ie_valid (v_id c) = true -> o_id im c s1 = Some s -> good s ->
  interlock c = isa_load_use im s.
Proof using Hstart Hsafe.
  intros Ht Hp Hdir Hv Ho Hg. destruct (tk_id _ _ _ _ _ _ Ht s Hv Ho) as (raw & Hraw & Hi & _).
  destruct Hi as (_ & _ & Eo & Erd & _). unfold interlock, isa_load_use. rewrite Hv, Hraw, Eo, Erd. cbn [andb].
  destruct (is_load (i_op (decode raw (a_pc s)))) eqn:El; cbn [andb]; [|by case_match].
  assert (Hpt : ie_predicted_taken (v_id c) = false).
  { destruct (ie_predicted_taken (v_id c)) eqn:E; [|done]. specialize (Hdir Hv E). rewrite Eo in Hdir.
    by destruct (i_op (decode raw (a_pc s))). }
  assert (Hd : em_branch_taken (in_execute s raw) = false).
  { unfold in_execute, execute, in_decode. cbn [ie_op]. by destruct (i_op (decode raw (a_pc s))). }
  destruct (good_step s Hg) as (wb & s2 & Es).
  destruct (serial_step_parts _ _ _ _ Es) as (raw' & Hraw' & Em & _ & Epc).
  rewrite Hraw in Hraw'. apply Some_inj in Hraw' as <-.
  destruct (mem_perform_fields _ _ _ _ Em) as (_ & _ & Fo & _).
  destruct (in_execute_fields s raw) as (_ & _ & Go & _).
  assert (Hnext : o_if im c s1 = Some s2).
  { unfold o_if, after_id. rewrite Hv, Ho, Hpt. unfold follow, direction. cbn [mbind option_bind]. rewrite Hraw, Hd.
    unfold advance. cbn [mbind option_bind Bool.eqb]. rewrite Es. cbn [mbind option_bind].
    rewrite Fo, Go. by destruct (i_op (decode raw (a_pc s))). }
  destruct (tk_if _ _ _ _ _ _ Ht s2 (pr_next _ Hp Hv) Hnext) as [_ Hw].
  unfold next_pc in Epc. rewrite Hd in Epc.
  change (u32 (a_pc s + 4)) with ((a_pc s + 4) mod 2 ^ 32) in Epc. rewrite <- Epc, Hw.
  pose proof (reg_fields_range (if_raw (v_if c))) as (_ & R1 & R2).
  fold (rs1 (if_raw (v_if c))) (rs2 (if_raw (v_if c))). by rewrite !u8_reg.
Qed.

(** The slots emptied behind EX: two per misprediction, one per load-use pair. *)
Lemma emptied_cost c s0 s1 :
  tracked c s0 s1 -> prompt c -> flags c s1 -> core_wf c -> provenance im c -> shadow im c s1 ->
  halts (v_wb c) = false ->
  emptied c = 2 * Z.b2z (mispredicted c) +
    match o_id im c s1 with Some s => Z.b2z (ie_valid (v_id c) && isa_load_use im s) | None => 0 end.
Proof using Hstart Haligned Hsafe.
  intros Ht Hp Hf Hc Hpv Hs Hh. pose proof (o_id_next c s0 s1 Ht Hh) as Hx. unfold emptied, mispredicted.
  destruct (ie_valid (v_id c)) eqn:Hv.
  2:{ assert (ex_control_ (executed c).1 = false) as -> by (unfold executed; by rewrite Hv).
      destruct (idle_goes_straight c Hv) as [-> ->]. by destruct (ex_halts c), (o_id im c s1). }
  destruct (o_id im c s1) as [s|] eqn:Ho.
  - destruct Hx as [-> Hg]. assert (Hd : id_direct c) by (apply (fl_id _ _ Hf); by rewrite Ho).
    pose proof (redirect_control c Hd Hv) as Hctl. rewrite <- (interlock_load_use c s0 s1 s) by done. cbn [andb].
    destruct (ex_redirect_ (executed c).1) eqn:Er; [rewrite Hctl by done|by destruct (ex_control_ _), (interlock c)].
    assert (interlock c = false) as ->; [|done]. unfold interlock. rewrite Hv.
    assert (Hld : ex_control_ (executed c).1 = true -> is_load (ie_op (v_id c)) = false).
    { unfold executed, execute. rewrite Hv. cbn [negb]. by destruct (ie_op (v_id c)). }
    by rewrite Hld by auto.
  - rewrite Hx. destruct (behind_halt im (im_wf c0 Hstart) good (predicts c0) (fun s Hg => proj1 Hg)
      (good_advance c0 Hstart) (good_safe c0 Hsafe) c s0 s1 Ht Hc Hpv Hs Hh Ho Hv) as (_ & _ & Hi).
    assert (ex_control_ (executed c).1 = false) as ->; [|done].
    unfold executed, execute. rewrite Hv. cbn [negb]. by destruct (ie_op (v_id c)).
Qed.

(** Without a predictor the mispredicted are the taken. *)
Lemma mispredicted_taken c s0 s1 s :
  tracked c s0 s1 -> plain c -> ie_valid (v_id c) = true -> o_id im c s1 = Some s -> good s ->
  mispredicted c = isa_taken im s.
Proof using Hstart.
  intros Ht Hp Hv Ho Hg. rewrite <- (direction_taken s (proj1 Hg)).
  destruct (executed_on_path im good (predicts c0) c s0 s1 s Ht Hv Ho) as (raw & _ & _ & Hr & _).
  rewrite (pl_id _ Hp Hv) in Hr.
  assert (Hd : id_direct c) by (intros _; by rewrite (pl_id _ Hp Hv)).
  pose proof (redirect_control c Hd Hv) as Hctl. unfold mispredicted. rewrite Hr in *.
  destruct (direction im s); cbn in *; [by rewrite Hctl|by rewrite andb_false_r].
Qed.

(** *** The clock of a run *)

Abbreviation reached := (reached c0).
Abbreviation count f := (fun ks => isa_count f im (length ks) s_init).

(** Of the instructions in MEM/WB and EX/MEM, those that meet [f]. *)
Definition ahead (f : ram -> arch -> bool) c (s0 s1 : arch) : Z :=
  Z.b2z (mw_valid (v_wb c) && f im s0) +
  match o_ex c s1 with Some s => Z.b2z (em_valid (v_ex c) && f im s) | None => 0 end.

(** Enough rounds for the longest wait of the data memory. *)
Context (F : nat).

(** After [t] cycles, [w] of them stalled: [ks] retired, [m] mispredictions
    counted. *)
Record timed (ks : list commit) c (t m w : Z) : Prop := mkTimed {
  tm_running : running c0 ks c;
  tm_prompt : prompt c;
  tm_plain : co_bpred_ c0 = None -> plain c;
  tm_cycles : cycles (co_stats_ c) = u64 t;
  tm_mispredicts : branch_mispredicts (co_stats_ c) = u64 m;
  tm_nonneg : 0 <= m;
  tm_waited : waited (co_dmem_ c0) F ks c w;
  tm_path s0 s1 : tracked c s0 s1 -> reached ks s0 ->
    flags c s1 /\
    t + gap c = Z.of_nat (length ks) + 4 + 2 * m + count isa_load_use ks + ahead isa_load_use c s0 s1 + w /\
    (co_bpred_ c0 = None -> m = count isa_taken ks + ahead isa_taken c s0 s1);
}.

Lemma reached_unique ks s s' : reached ks s -> reached ks s' -> s' = s.
Proof using Type. intros [E _] [E' _]. rewrite E in E'. by apply Some_inj, pair_equal_spec in E' as [_ ->]. Qed.

(** The retired instruction is counted. *)
Lemma retire_count f ks c s0 :
  reached ks s0 -> co_halted_ c = false ->
  count f (ks ++ retiring c) = count f ks + Z.b2z (mw_valid (v_wb c) && f im s0).
Proof using Type.
  intros [E _] Hh. unfold retiring. rewrite Hh. cbn [negb andb].
  destruct (mw_valid (v_wb c)); cbn [andb Z.b2z]; [|rewrite app_nil_r; lia].
  by rewrite length_app, Nat.add_1_r, (isa_count_snoc f im _ s_init _ _ E).
Qed.

Lemma retire_length ks c :
  co_halted_ c = false ->
  Z.of_nat (length (ks ++ retiring c)) = Z.of_nat (length ks) + Z.b2z (mw_valid (v_wb c)).
Proof using Type.
  intros Hh. unfold retiring. rewrite Hh, length_app. destruct (mw_valid (v_wb c)); cbn; lia.
Qed.

(** A cycle on, the instruction in MEM/WB is counted with the retired ones and
    the one in ID/EX is ahead. *)
Lemma ahead_moves f c c' s0 s1 s1' :
  tracked c s0 s1 -> halts (v_wb c) = false -> moves c c' -> tracked c' s1 s1' ->
  Z.b2z (mw_valid (v_wb c) && f im s0) + ahead f c' s1 s1' =
  ahead f c s0 s1 + match o_id im c s1 with Some s => Z.b2z (ie_valid (v_id c) && f im s) | None => 0 end.
Proof using Type.
  intros Ht Hh Hm Ht'. pose proof (tk_wb _ _ _ _ _ _ Ht') as Hw. rewrite (mv_wb _ _ Hm) in Hw.
  assert (Ho : o_ex c' s1' = o_id im c s1).
  { unfold o_id, o_ex, after_ex, halts in *. rewrite Hh, (mv_wb _ _ Hm).
    destruct (em_valid (v_ex c)); cbn [andb]; [|by subst].
    unfold advance. cbn [mbind option_bind]. by rewrite Hw. }
  unfold ahead. rewrite Ho, (mv_wb _ _ Hm), (mv_ex _ _ Hm), executed_valid. unfold o_ex. rewrite Hh. lia.
Qed.

(** So in a cycle MEM waits, which retires the instruction in MEM/WB. *)
Lemma ahead_held f c c' s0 s1 s1' :
  held c c' -> halts (v_wb c) = false -> tracked c' s1 s1' ->
  Z.b2z (mw_valid (v_wb c) && f im s0) + ahead f c' s1 s1' = ahead f c s0 s1.
Proof using Type.
  intros Hx Hh Ht'. destruct (held_paths c c' s1 s1' s1 Hx Hh Ht' eq_refl) as (-> & O1 & _).
  unfold ahead. by rewrite O1, (hd_ex _ _ Hx), (hd_wb _ _ Hx).
Qed.

(** The state the retired instruction leads to. *)
Lemma next_state ks c s0 s1 s :
  tracked c s0 s1 -> co_halted_ c = false -> halts (v_wb c) = false ->
  reached ks s0 -> reached (ks ++ retiring c) s -> s = s1.
Proof using Hstart.
  intros Ht Hh Hw Hk Hk'. refine (reached_unique _ _ _ _ Hk'). unfold retiring. rewrite Hh. cbn [negb andb].
  destruct (mw_valid (v_wb c)) eqn:Hv; [by apply (retired_state c0 Hstart ks c s0 s1 Ht Hv Hk)|].
  pose proof (tk_wb _ _ _ _ _ _ Ht) as Hx. rewrite Hv in Hx. by rewrite app_nil_r, Hx.
Qed.

(** Mispredictions this cycle. *)
Definition mispredicts c : Z := Z.b2z (negb (stalls c) && mispredicted c).

Lemma timed_tick ks c t m w b c' :
  worst (co_dmem_ c0) < Z.of_nat F -> timed ks c t m w -> Core_tick c = Some (b, c') -> co_halted_ c' = false ->
  timed (ks ++ retiring c) c' (t + 1) (m + mispredicts c) (w + Z.b2z (stalls c)).
Proof using Hstart Haligned Hsafe.
  intros HF [Hr Hp Hpl Hcy Hmi Hm0 Hwt Ht] E Hh'. pose proof (rn_wf _ _ _ Hr) as Hc. pose proof (rn_halted _ _ _ Hr) as Hh.
  destruct (Core_tick_cycle c b c' (cw_quiescent c Hc) Hh E) as [Hcyc _].
  pose proof (running_tick c0 Hstart Haligned ks c b c' Hr E) as Hr'. rewrite Hh' in Hr'.
  assert (Hret : retired c c') by (by destruct Hcyc). pose proof (rt_halted _ _ Hret) as Hw.
  rewrite Hh' in Hw. symmetry in Hw.
  assert (Hpm : prompt c' /\ if stalls c then held c c' else moves c c').
  { destruct (stalls c) eqn:Hst; [by apply prompt_held|by apply prompt_moves]. }
  destruct Hpm as [Hp' Hm]. unfold mispredicts. constructor; try done.
  { intros Hoff. specialize (Hpl Hoff). destruct (stalls c); by apply Hm. }
  { rewrite (proj1 (cycle_counters c c' Hc Hcyc)), Hcy. apply u64_incr. }
  { destruct (stalls c); [rewrite (hd_mispredicts _ _ Hm)|rewrite (mv_mispredicts _ _ Hm)]; rewrite Hmi; cbn [negb andb];
      [|destruct (mispredicted c); [apply u64_incr|]]; f_equal; cbn; lia. }
  { destruct (negb _ && _); cbn; lia. }
  { by apply (waited_cycle _ _ HF). }
  intros s0' s1' Ht' Hk'. destruct (rn_path _ _ _ Hr) as (s0 & s1 & Htr & Hs & Hk).
  assert (s0' = s1) as -> by by apply (next_state ks c s0).
  destruct (Ht s0 s1 Htr Hk) as (Hf & Htime & Htaken).
  split; [by apply (cycle_flags c c' s0 s1 s1' Htr Hp (rn_imem _ _ _ Hr) Hw Hf Hcyc Ht')|].
  rewrite !(retire_count _ ks c s0 Hk Hh), (retire_length ks c Hh). destruct (stalls c); cbn [negb andb Z.b2z].
  { pose proof (gap_held c c' Hm Hw) as Hg.
    pose proof (ahead_held isa_load_use c c' s0 s1 s1' Hm Hw Ht') as Hlu.
    pose proof (ahead_held isa_taken c c' s0 s1 s1' Hm Hw Ht') as Htk.
    split; [lia|]. intros Hoff. specialize (Htaken Hoff). lia. }
  pose proof (o_id_next c s0 s1 Htr Hw) as Hx.
  assert (Hd : ex_halts c = false -> id_direct c).
  { intros Hxh. apply (fl_id _ _ Hf). destruct (o_id im c s1); [done|congruence]. }
  pose proof (gap_moves c c' Hp Hd Hm Hw) as Hg.
  pose proof (emptied_cost c s0 s1 Htr Hp Hf Hc (rn_provenance _ _ _ Hr) Hs Hw) as Hem.
  pose proof (ahead_moves isa_load_use c c' s0 s1 s1' Htr Hw Hm Ht') as Hlu.
  pose proof (ahead_moves isa_taken c c' s0 s1 s1' Htr Hw Hm Ht') as Htk.
  split; [lia|]. intros Hoff. specialize (Htaken Hoff).
  enough (Z.b2z (mispredicted c) = match o_id im c s1 with
    | Some s => Z.b2z (ie_valid (v_id c) && isa_taken im s) | None => 0 end) by lia.
  destruct (o_id im c s1) as [s|] eqn:Ho.
  - destruct (ie_valid (v_id c)) eqn:Hv; cbn [andb]; [by rewrite (mispredicted_taken c s0 s1 s Htr (Hpl Hoff) Hv Ho (proj2 Hx))|].
    unfold mispredicted, executed. by rewrite Hv.
  - unfold emptied in Hem. rewrite Hx in Hem. destruct (mispredicted c); cbn in *; lia.
Qed.

(** What the clock, the counters and the data memory show at the end: a branch
    behind the instruction that ends the program may be resolved in the last
    cycle. *)
Definition timed_end (ks : list commit) c (t m : Z) : Prop :=
  cycles (co_stats_ c) = u64 t /\ 0 <= m /\
  (exists n d, serve_all F (co_dmem_ c0) SimStats_new (accesses ks) = Some (n, d, SimStats_new) /\
     same_clock d (co_dmem_ c) /\
     t = Z.of_nat (length ks) + 4 + 2 * m + count isa_load_use ks +
         (Z.of_nat n - Z.of_nat (length (accesses ks)))) /\
  (co_bpred_ c0 = None -> m = count isa_taken ks) /\
  (branch_mispredicts (co_stats_ c) = u64 m \/
   em_valid (v_ex c) && is_control (em_op (v_ex c)) = true /\ branch_mispredicts (co_stats_ c) = u64 (m + 1)).

(** The instruction behind the one that ends the program makes no access. *)
Lemma behind_idle c s0 s1 :
  tracked c s0 s1 -> provenance im c -> shadow im c s1 -> halts (v_wb c) = true -> mem_request (v_ex c) = false.
Proof using Hstart Hsafe.
  intros Ht Hpv Hs Hh. unfold mem_request. destruct (em_valid (v_ex c)) eqn:Hv; [|done]. cbn [andb].
  assert (Hwv := Hh). unfold halts in Hwv. apply andb_true_iff in Hwv as [Hwv Hop].
  pose proof (tk_wb _ _ _ _ _ _ Ht) as Es. rewrite Hwv in Es.
  destruct (serial_step_parts _ _ _ _ Es) as (raw & Hraw & Em & _).
  destruct (mem_perform_fields _ _ _ _ Em) as (Fpc & _ & Fo & _).
  destruct (in_execute_fields s0 raw) as (Gpc & _ & Go & _).
  destruct (pv_ex _ _ Hpv Hv) as [Hl ->]. pose proof (sh_ex _ _ _ Hs Hh Hv) as Epc. rewrite Fpc, Gpc in Epc.
  rewrite Epc in *. rewrite Fo, Go in Hop.
  pose proof (sf_shadow _ _ _ (good_safe c0 Hsafe s0 (tk_good _ _ _ _ _ _ Ht)) raw (em_raw (v_ex c)) Hraw) as Hi.
  rewrite <- is_halt_op_eq in Hi. specialize (Hi Hop Hl). cbv zeta in Hi.
  change ((a_pc s0 + 4) mod 2 ^ 32) with (u32 (a_pc s0 + 4)) in Hi. by destruct (i_op (decode (em_raw (v_ex c)) (u32 (a_pc s0 + 4)))).
Qed.

(** The tick that halts. *)
Lemma timed_halt ks c t m w b c' :
  timed ks c t m w -> Core_tick c = Some (b, c') -> co_halted_ c' = true ->
  timed_end (ks ++ retiring c) c' (t + 1) m.
Proof using Hstart Hsafe.
  intros [Hr Hp _ Hcy Hmi Hm0 Hwt Ht] E Hh'. pose proof (rn_wf _ _ _ Hr) as Hc. pose proof (rn_halted _ _ _ Hr) as Hh.
  destruct (Core_tick_cycle c b c' (cw_quiescent c Hc) Hh E) as [Hcyc _].
  assert (Hret : retired c c') by (by destruct Hcyc). pose proof (rt_halted _ _ Hret) as Hw.
  rewrite Hh' in Hw. symmetry in Hw.
  assert (Hv : mw_valid (v_wb c) = true) by (unfold halts in Hw; by apply andb_true_iff in Hw as [? _]).
  destruct (rn_path _ _ _ Hr) as (s0 & s1 & Htr & Hs & Hk). destruct (Ht s0 s1 Htr Hk) as (_ & Htime & Htaken).
  pose proof (behind_idle c s0 s1 Htr (rn_provenance _ _ _ Hr) Hs Hw) as Hidle.
  destruct (prompt_moves c c' Hp Hcyc ltac:(unfold stalls; by rewrite Hidle)) as [_ Hm].
  destruct Hwt as [(n & j & d & Es & _ & _ & _ & Ew & _ & Hrest)]. rewrite Hidle in Hrest.
  destruct Hrest as (-> & Hcl & Hrest). pose proof (idle_cycle_clock c c' Hcyc Hidle (pr_dmem _ Hp) Hrest) as Hcl'.
  unfold timed_end. rewrite !(retire_count _ ks c s0 Hk Hh), (retire_length ks c Hh).
  unfold ahead, gap, o_ex in Htime, Htaken. rewrite Hw, Hv in *. cbn [andb Z.b2z] in *. split_and!.
  - by rewrite (proj1 (cycle_counters c c' Hc Hcyc)), Hcy, u64_incr.
  - done.
  - exists n, d. split_and!; [done|exact (transitivity Hcl Hcl')|]. lia.
  - intros Hoff. specialize (Htaken Hoff). lia.
  - rewrite (mv_mispredicts _ _ Hm), Hmi, (mv_ex _ _ Hm), <- executed_control. unfold mispredicted.
    destruct (ex_control_ (executed c).1); [|by left]. destruct (ex_redirect_ (executed c).1); cbn [andb]; [|by left].
    right. split; [done|]. apply u64_incr.
Qed.

Lemma timed_ticks n ks c t m w ls c' :
  worst (co_dmem_ c0) < Z.of_nat F -> timed ks c t m w -> ticks n c = Some (ls, c') -> co_halted_ c' = true ->
  exists t' m', timed_end (ks ++ ls) c' t' m' /\ t' <= t + Z.of_nat n.
Proof using Hstart Haligned Hsafe.
  intros HF. revert ks c t m w ls. induction n as [|n IH]; intros ks c t m w ls Ht E Hh; cbn [ticks] in E.
  { injection E as <- <-. by rewrite (rn_halted _ _ _ (tm_running _ _ _ _ _ Ht)) in Hh. }
  destruct (Core_tick c) as [[b c1]|] eqn:Et; cbn [mbind option_bind] in E; [|done].
  destruct (ticks n c1) as [[ls1 c2]|] eqn:E1; cbn [mbind option_bind] in E; [|done].
  injection E as <- <-. rewrite app_assoc. destruct (co_halted_ c1) eqn:Eh.
  - destruct (halted_ticks n c1 ls1 c2 Eh E1) as [-> ->]. rewrite app_nil_r. exists (t + 1), m.
    split; [by apply (timed_halt ks c t m w b)|lia].
  - destruct (IH _ c1 (t + 1) _ _ ls1 (timed_tick ks c t m w b c1 HF Ht Et Eh) E1 Hh) as (t' & m' & He & Hle).
    exists t', m'. split; [done|lia].
Qed.

Lemma start_timed : prompt c0 -> resting (co_dmem_ c0) -> co_stats_ c0 = SimStats_new -> timed [] c0 0 0 0.
Proof using Hstart Haligned.
  intros Hp Hrest St. constructor; rewrite ?St; try done; [by apply start_running|..].
  - intros Hoff. by constructor; rewrite ?(st_if _ Hstart), ?(st_id _ Hstart).
  - apply start_waited; try done; [apply Hstart|apply Hp|apply Hp|apply Hstart..].
  - intros s0 s1 Ht Hk. split.
    { constructor; unfold id_direct; rewrite ?(st_if _ Hstart), ?(st_id _ Hstart); done. }
    unfold gap, gap_ex, gap_id, ahead. rewrite (st_wb _ Hstart), (st_ex _ Hstart), (st_id _ Hstart), (st_if _ Hstart).
    destruct (o_ex c0 s1); cbn; lia.
Qed.
End Program.
End Timing.

(** ** The cycle count *)

(** An instruction memory that answers in the same cycle. *)
Definition prompt_fetch (cfg : SimConfig) : Prop :=
  icache_enabled cfg = false /\ imem_latency_cycles cfg <= 1.

(** Rounds for the longest wait of the data memory. *)
Definition data_rounds (cfg : SimConfig) : nat :=
  Z.to_nat (port_wait (dmem_latency_cycles cfg) (dcache_enabled cfg) (dcache_hit_latency_cycles cfg) + 1).

Lemma boot_prompt cfg words c :
  config_ok cfg -> program_fits cfg words -> boot cfg words = Some c -> prompt_fetch cfg ->
  prompt c /\ resting (co_dmem_ c) /\ worst (co_dmem_ c) < Z.of_nat (data_rounds cfg).
Proof.
  intros Hok Hfit E [Hi Li]. destruct (boot_live cfg words c 1 Hok Hfit E) as [Hl Hb].
  destruct (boot_data cfg words c Hok E) as (Hd & Hr & Hw).
  destruct (boot_start cfg words Hok Hfit) as (c1 & E1 & Hst & _). rewrite E in E1. injection E1 as <-.
  pose proof (delay_range _ (cw_dmem _ (lv_wf _ Hl)) (lv_dmem _ Hl)).
  split; [|split; [done|rewrite Hw; unfold data_rounds; lia]]. constructor; [done| |done|by rewrite (st_id _ Hst)].
  unfold cycle_bound, budget in Hb. rewrite Hw in Hb. unfold port_wait at 2 in Hb. rewrite Hi, Z.max_l in Hb by lia. lia.
Qed.

Lemma cycle_count cfg words c n ks k s max fuel :
  config_ok cfg -> program_fits cfg words -> boot cfg words = Some c -> prompt_fetch cfg ->
  bpred_enabled cfg = false \/ aligned_run (program_ram cfg words) (boot_state cfg) ->
  safe_program (program_ram cfg words) (bpred_enabled cfg = true) (boot_state cfg) ->
  isa_steps (program_ram cfg words) n (boot_state cfg) = Some (ks ++ [k], s) ->
  Forall (fun k => is_halt (k_op k) = false) ks -> is_halt (k_op k) = true ->
  cycle_bound cfg n <= max < 2 ^ 64 -> cycle_bound cfg n <= Z.of_nat fuel ->
  exists c' m w d, Core_run fuel c max = Some c' /\ isa_result c' n k s /\
    serve_all (data_rounds cfg) (co_dmem_ c) SimStats_new (accesses (ks ++ [k])) = Some (w, d, SimStats_new) /\
    same_clock d (co_dmem_ c') /\
    cycles (co_stats_ c') =
      Z.of_nat n + 4 + 2 * m + isa_count isa_load_use (program_ram cfg words) n (boot_state cfg) +
      (Z.of_nat w - Z.of_nat (length (accesses (ks ++ [k])))) /\
    (bpred_enabled cfg = false -> m = isa_count isa_taken (program_ram cfg words) n (boot_state cfg)) /\
    (branch_mispredicts (co_stats_ c') = m \/
     em_valid (v_ex c') && is_control (em_op (v_ex c')) = true /\
     branch_mispredicts (co_stats_ c') = m + 1).
Proof.
  intros Hok Hfit E Hsc Ha Hs Es Hf Hk Hm Hfuel.
  destruct (boot_prompt cfg words c Hok Hfit E Hsc) as (Hp & Hrest & HF).
  destruct (boot_start cfg words Hok Hfit) as (c1 & E1 & Hst & I1 & M1 & Hbp & St).
  rewrite E in E1. injection E1 as <-. destruct (boot_live cfg words c n Hok Hfit E) as [Hl Hb].
  rewrite <- Hb in *. rewrite <- I1, <- M1 in *. change ((budget c + 1) * Z.of_nat n) with (enough c n) in *.
  assert (Ha' : co_bpred_ c = None \/ aligned_run (mem_ram (co_imem_ c)) (start_state c))
    by (destruct Ha as [Ha|Ha]; [left; by apply Hbp|by right]).
  assert (Hs' : safe_program (mem_ram (co_imem_ c)) (is_Some (co_bpred_ c)) (start_state c)).
  { revert Hs. apply safe_program_weaken. intros [p Ep]. destruct (bpred_enabled cfg); [done|].
    by rewrite Hbp in Ep. }
  destruct (run_computes c n ks k s max fuel) as (c' & r & Hr & Hi & _ & Et & Hle); try done.
  destruct (timed_ticks c Hst Ha' Hs' _ r [] c 0 0 0 (ks ++ [k]) c' HF (start_timed c Hst Ha' _ Hp Hrest St) Et (proj1 Hi))
    as (t & m & (Ht & Hm0 & (w & d & Ew & Hcl & Htime) & Htaken & Hmis) & Htr).
  cbn [app] in *. rewrite (isa_steps_length _ _ _ _ _ Es) in *.
  pose proof (isa_count_range isa_load_use (mem_ram (co_imem_ c)) n (start_state c)).
  pose proof (serve_all_min _ _ _ _ _ _ _ Ew).
  assert (U : forall z, 0 <= z <= t -> u64 z = z) by (intros z Hz; apply Z.mod_small; lia).
  rewrite !U in * by lia. exists c', m, w, d. split_and!; try done; [lia|]. intros Hoff. by apply Htaken, Hbp.
Qed.

(** C6: the cycle count, exactly, over any data memory and data cache.  With an
    instruction memory that answers at once, a safe program that ends with its
    [n]-th instruction takes one cycle per instruction, four to fill the
    pipeline, two per mispredicted branch or jump, one per load whose destination
    the next word's register fields name, and what its loads and stores wait when
    they are made one after the other, in program order, on the data memory
    alone.  No other hazard costs anything, and none of these is ever hidden.
    Flushed instructions leave no trace: the data cache ends with the tags, dirty
    bits and replacement state of those accesses.  Without a predictor the
    mispredicted ones are exactly those taken; with one they are what the counter
    shows, but for a branch behind the end of the program that EX resolves in the
    last cycle. *)
Theorem Core_cycle_count cfg words c n ks k s max fuel :
  config_ok cfg -> program_fits cfg words -> boot cfg words = Some c -> prompt_fetch cfg ->
  bpred_enabled cfg = false \/ aligned_run (program_ram cfg words) (boot_state cfg) ->
  safe_program (program_ram cfg words) (bpred_enabled cfg = true) (boot_state cfg) ->
  isa_steps (program_ram cfg words) n (boot_state cfg) = Some (ks ++ [k], s) ->
  Forall (fun k => is_halt (k_op k) = false) ks -> is_halt (k_op k) = true ->
  cycle_bound cfg n <= max < 2 ^ 64 -> cycle_bound cfg n <= Z.of_nat fuel ->
  exists c' m w d, Core_run fuel c max = Some c' /\ isa_result c' n k s /\
    serve_all (data_rounds cfg) (co_dmem_ c) SimStats_new (accesses (ks ++ [k])) = Some (w, d, SimStats_new) /\
    same_clock d (co_dmem_ c') /\
    cycles (co_stats_ c') =
      Z.of_nat n + 4 + 2 * m + isa_count isa_load_use (program_ram cfg words) n (boot_state cfg) +
      (Z.of_nat w - Z.of_nat (length (accesses (ks ++ [k])))) /\
    (bpred_enabled cfg = false -> m = isa_count isa_taken (program_ram cfg words) n (boot_state cfg)) /\
    (branch_mispredicts (co_stats_ c') = m \/
     em_valid (v_ex c') && is_control (em_op (v_ex c')) = true /\
     branch_mispredicts (co_stats_ c') = m + 1).
Proof. apply cycle_count. Qed.

(** The example over a data memory of latency 5 with a data cache, without and
    with a predictor: twelve instructions, one load-use pair, a store that misses
    (six cycles) and a load that hits; the loop branch is taken, then falls
    through, and is mispredicted both times once it has been trained. *)
Definition example_config_dcached (predictor : bool) : SimConfig :=
  let d := SimConfig_default in
  mkSimConfig 0x80000000 64 5 true 16 2 1 1 1 false
    (icache_line_bytes d) (icache_sets d) 1 1 false 1 predictor 4 4.

Lemma example_dcached_ok predictor : config_ok (example_config_dcached predictor).
Proof.
  constructor; try (unfold is_u32; cbn; lia); intros He; cbn in He; try discriminate He;
    unfold cache_ok, predictor_ok, is_u32; cbn; split_and!; (lia || reflexivity).
Qed.

(** Booted, its RV32I execution, and the accesses of that one on its data memory. *)
Lemma example_dcached predictor :
  exists c ks k s w d,
    boot (example_config_dcached predictor) example_program = Some c /\
    isa_steps (program_ram (example_config_dcached predictor) example_program) 12
      (boot_state (example_config_dcached predictor)) = Some (ks ++ [k], s) /\
    Forall (fun k => is_halt (k_op k) = false) ks /\ is_halt (k_op k) = true /\
    aligned_run (program_ram (example_config_dcached predictor) example_program)
      (boot_state (example_config_dcached predictor)) /\
    safe_program (program_ram (example_config_dcached predictor) example_program)
      (bpred_enabled (example_config_dcached predictor) = true) (boot_state (example_config_dcached predictor)) /\
    length (accesses (ks ++ [k])) = 2%nat /\
    serve_all (data_rounds (example_config_dcached predictor)) (co_dmem_ c) SimStats_new (accesses (ks ++ [k])) =
      Some (w, d, SimStats_new) /\ w = 7%nat.
Proof.
  destruct example_execution as (ks & k & s & Es & Hf & Hk & _).
  assert (R : program_ram (example_config_dcached predictor) example_program = program_ram example_config example_program)
    by (destruct predictor; vm_compute; reflexivity).
  assert (B : boot_state (example_config_dcached predictor) = boot_state example_config)
    by (destruct predictor; vm_compute; reflexivity).
  assert (Hx : match boot (example_config_dcached predictor) example_program,
        isa_steps (program_ram example_config example_program) 12 (boot_state example_config) with
      | Some c, Some (ls, _) => (length (accesses ls),
          match serve_all (data_rounds (example_config_dcached predictor)) (co_dmem_ c) SimStats_new (accesses ls) with
          | Some (w, _, st) => (w, st) | None => (0%nat, SimStats_new) end)
      | _, _ => (0%nat, (0%nat, SimStats_new)) end = (2%nat, (7%nat, SimStats_new)))
    by (destruct predictor; vm_compute; reflexivity).
  rewrite Es in Hx. destruct (boot (example_config_dcached predictor) example_program) as [c|]; [|discriminate Hx].
  apply pair_equal_spec in Hx as [Hl Hx].
  destruct (serve_all _ _ _ _) as [[[w d] st]|] eqn:Ew; [|discriminate Hx].
  apply pair_equal_spec in Hx as [Hw ->]. exists c, ks, k, s, w, d. rewrite R, B.
  assert (Hs : safe_program (program_ram example_config example_program)
    (bpred_enabled (example_config_dcached predictor) = true) (boot_state example_config))
    by (apply (safe_program_weaken _ (bpred_enabled example_config = true)); [by intros _|exact example_safe]).
  exact (conj eq_refl (conj Es (conj Hf (conj Hk (conj example_boot_aligned (conj Hs (conj Hl (conj Ew Hw)))))))).
Qed.

Lemma Core_cycle_count_witness :
  (exists c c', boot (example_config_dcached false) example_program = Some c /\
     Core_run 200 c 200 = Some c' /\ cycles (co_stats_ c') = 24) /\
  exists c c' m, boot (example_config_dcached true) example_program = Some c /\
    Core_run 200 c 200 = Some c' /\ co_halted_ c' = true /\ cycles (co_stats_ c') = 22 + 2 * m.
Proof.
  assert (C : forall predictor, (isa_count isa_load_use
    (program_ram (example_config_dcached predictor) example_program) 12 (boot_state (example_config_dcached predictor)),
    isa_count isa_taken
    (program_ram (example_config_dcached predictor) example_program) 12 (boot_state (example_config_dcached predictor)),
    cycle_bound (example_config_dcached predictor) 12) = (1, 1, 180)) by (intros []; vm_compute; reflexivity).
  split.
  - destruct (example_dcached false) as (c & ks & k & s & w & d & Eb & Es & Hf & Hk & _ & Hs & Hl & Ew & Hw).
    pose proof (C false) as Hc. apply pair_equal_spec in Hc as [Hc C3]. apply pair_equal_spec in Hc as [C1 C2].
    destruct (Core_cycle_count (example_config_dcached false) example_program c 12 ks k s 200 200
      (example_dcached_ok false) example_program_fits Eb ltac:(split; cbn; (reflexivity || lia)) (or_introl eq_refl)
      Hs Es Hf Hk ltac:(rewrite C3; lia) ltac:(rewrite C3; lia)) as (c' & m & w' & d' & Er & _ & Ew' & _ & Hcy & Hm & _).
    rewrite Ew in Ew'. apply Some_inj, pair_equal_spec in Ew' as [Ew' _]. apply pair_equal_spec in Ew' as [<- _].
    exists c, c'. split; [exact Eb|]. split; [exact Er|]. rewrite C1, (Hm eq_refl), C2, Hl, Hw in Hcy. exact Hcy.
  - destruct (example_dcached true) as (c & ks & k & s & w & d & Eb & Es & Hf & Hk & Ha & Hs & Hl & Ew & Hw).
    pose proof (C true) as Hc. apply pair_equal_spec in Hc as [Hc C3]. apply pair_equal_spec in Hc as [C1 C2].
    destruct (Core_cycle_count (example_config_dcached true) example_program c 12 ks k s 200 200
      (example_dcached_ok true) example_program_fits Eb ltac:(split; cbn; (reflexivity || lia)) (or_intror Ha)
      Hs Es Hf Hk ltac:(rewrite C3; lia) ltac:(rewrite C3; lia)) as (c' & m & w' & d' & Er & (Hh & _) & Ew' & _ & Hcy & _).
    rewrite Ew in Ew'. apply Some_inj, pair_equal_spec in Ew' as [Ew' _]. apply pair_equal_spec in Ew' as [<- _].
    exists c, c', m. split; [exact Eb|]. split; [exact Er|]. split; [exact Hh|].
    rewrite C1, Hl, Hw in Hcy. lia.
Defined.

(** ** Special cases *)

(** A flat memory at rest serves every access in its latency. *)
Lemma serve_all_flat f (m : FlatMem) st l :
  FlatMem_inv m -> fm_serving_ m = false -> (Z.to_nat (fm_latency_ m) <= f)%nat ->
  exists p, serve_all f (PFlat m) st l = Some ((Z.to_nat (fm_latency_ m) * length l)%nat, p, st).
Proof.
  assert (Hp : forall g (m : FlatMem) st a w, serve g (PFlat m) st a w =
    '(n, m, st) ← serve g m st a w; Some (n, PFlat m, st)).
  { intros g. induction g as [|g IH]; intros m1 st1 a w; [done|]. cbn [serve ready tick Port_IMemory].
    destruct (ready m1 st1 a w) as [[[[] m2] st2]|]; cbn [mbind option_bind]; try done;
      destruct (tick m2 st2) as [[m3 st3]|]; cbn [mbind option_bind]; try done.
    rewrite IH. by destruct (serve g m3 st3 a w) as [[[]]|]. }
  revert m. induction l as [|[a w] l IH]; intros m Hm Hs Hf; cbn [serve_all length].
  { exists (PFlat m). by rewrite Nat.mul_0_r. }
  rewrite Hp, (FlatMem_latency m st a w f Hm Hs Hf). cbn [mbind option_bind].
  destruct (IH (fm_with_timer m false 0)) as (p & ->); [by destruct Hm; constructor|done|done|].
  cbn [mbind option_bind]. exists p. do 3 f_equal. cbn. lia.
Qed.

(** Without a data cache a load or a store costs the latency, less one. *)
Corollary flat_cycle_count cfg words c n ks k s max fuel :
  config_ok cfg -> program_fits cfg words -> boot cfg words = Some c -> prompt_fetch cfg ->
  dcache_enabled cfg = false ->
  bpred_enabled cfg = false \/ aligned_run (program_ram cfg words) (boot_state cfg) ->
  safe_program (program_ram cfg words) (bpred_enabled cfg = true) (boot_state cfg) ->
  isa_steps (program_ram cfg words) n (boot_state cfg) = Some (ks ++ [k], s) ->
  Forall (fun k => is_halt (k_op k) = false) ks -> is_halt (k_op k) = true ->
  cycle_bound cfg n <= max < 2 ^ 64 -> cycle_bound cfg n <= Z.of_nat fuel ->
  exists c' m, Core_run fuel c max = Some c' /\ isa_result c' n k s /\
    cycles (co_stats_ c') =
      Z.of_nat n + 4 + 2 * m + isa_count isa_load_use (program_ram cfg words) n (boot_state cfg) +
      (Z.max 1 (dmem_latency_cycles cfg) - 1) * Z.of_nat (length (accesses (ks ++ [k]))) /\
    (bpred_enabled cfg = false -> m = isa_count isa_taken (program_ram cfg words) n (boot_state cfg)) /\
    (branch_mispredicts (co_stats_ c') = m \/
     em_valid (v_ex c') && is_control (em_op (v_ex c')) = true /\
     branch_mispredicts (co_stats_ c') = m + 1).
Proof.
  intros Hok Hfit E Hpf Hd Ha Hs Es Hf Hk Hm Hfuel.
  destruct (cycle_count cfg words c n ks k s max fuel) as (c' & m & w & d & Hr & Hi & Ew & _ & Hc & Ht & Hx); try done.
  exists c', m. split_and!; try done. rewrite Hc. f_equal.
  destruct (FlatMem_new_ok (ram_base_addr cfg) (ram_size_bytes cfg) (dmem_latency_cycles cfg) (ok_base _ Hok) (ok_dlat _ Hok))
    as [Hinv _].
  destruct (serve_all_flat (data_rounds cfg) _ SimStats_new (accesses (ks ++ [k])) Hinv eq_refl) as (p & Ep).
  { cbn. unfold data_rounds, port_wait. rewrite Hd. pose proof (ok_dlat _ Hok). rewrite max_1 by lia. lia. }
  assert (Em : co_dmem_ c = PFlat (FlatMem_new (ram_base_addr cfg) (ram_size_bytes cfg) (dmem_latency_cycles cfg))).
  { clear -E Hd. unfold boot, Core_new, Core_load_program in E. rewrite Hd in E. inv_binds. by simplify_eq. }
  rewrite <- Em, Ew in Ep. apply Some_inj, pair_equal_spec in Ep as [Ep _]. apply pair_equal_spec in Ep as [-> _].
  cbn [FlatMem_new fm_latency_]. pose proof (ok_dlat _ Hok). rewrite max_1 by lia. nia.
Qed.

(** Single-cycle memories, no cache: nothing but the pipeline's own hazards. *)
Definition single_cycle (cfg : SimConfig) : Prop :=
  icache_enabled cfg = false /\ dcache_enabled cfg = false /\
  imem_latency_cycles cfg <= 1 /\ dmem_latency_cycles cfg <= 1.

Lemma single_cycle_bound cfg n : single_cycle cfg -> cycle_bound cfg n = 5 * Z.of_nat n.
Proof.
  intros (Hi & Hd & Li & Ld). unfold cycle_bound, port_wait. rewrite Hi, Hd.
  rewrite !Z.max_l by lia. lia.
Qed.

Corollary single_cycle_count cfg words c n ks k s max fuel :
  config_ok cfg -> program_fits cfg words -> boot cfg words = Some c -> single_cycle cfg ->
  bpred_enabled cfg = false \/ aligned_run (program_ram cfg words) (boot_state cfg) ->
  safe_program (program_ram cfg words) (bpred_enabled cfg = true) (boot_state cfg) ->
  isa_steps (program_ram cfg words) n (boot_state cfg) = Some (ks ++ [k], s) ->
  Forall (fun k => is_halt (k_op k) = false) ks -> is_halt (k_op k) = true ->
  5 * Z.of_nat n <= max < 2 ^ 64 -> 5 * Z.of_nat n <= Z.of_nat fuel ->
  exists c' m, Core_run fuel c max = Some c' /\ isa_result c' n k s /\
    cycles (co_stats_ c') =
      Z.of_nat n + 4 + 2 * m + isa_count isa_load_use (program_ram cfg words) n (boot_state cfg) /\
    (bpred_enabled cfg = false -> m = isa_count isa_taken (program_ram cfg words) n (boot_state cfg)) /\
    (branch_mispredicts (co_stats_ c') = m \/
     em_valid (v_ex c') && is_control (em_op (v_ex c')) = true /\
     branch_mispredicts (co_stats_ c') = m + 1).
Proof.
  intros Hok Hfit E Hsc Ha Hs Es Hf Hk. rewrite <- (single_cycle_bound cfg n Hsc).
  destruct Hsc as (Hi & Hd & Li & Ld). intros Hm Hfuel.
  destruct (flat_cycle_count cfg words c n ks k s max fuel) as (c' & m & Hr & Hx & Hc & Ht & Hb); try done.
  exists c', m. split_and!; try done. rewrite Hc, Z.max_l by lia. lia.
Qed.
