(* ===== verification/PrefetchRuns.v ===== *)
(** * The prefetch counters of a run

    The account of [PrefetchStats], carried through the clock: the instruction
    memory is asked once per cycle and ticked in the cycles that MEM does not
    stall, the stages and the data memory leave the prefetch counters alone. *)

From S2P Require Import Prelude Isa Config Pipe Memory FlatMem TreePlru Cache CacheTiming PrefetchStats.
From S2P Require Import MemoryLive MemoryTimed BranchPredictor Stages Tracer Core CoreStep IsaSpec Serial.
From S2P Require Import CoreInv SerialFacts Refine Shadow Correct Progress Build Program DataTiming.

(** ** The account of a port *)

Definition Port_probed (p : Port) : Prop := match p with PFlat _ => True | PCache k => probed k end.
Definition Port_unjudged (p : Port) : Z := match p with PFlat _ => 0 | PCache k => unjudged k end.
Definition Port_completes (p : Port) (st : SimStats) : bool :=
  match p with PFlat _ => false | PCache k => completes k st end.

Record Port_grows (p : Port) st (n : Z) (p' : Port) st' : Prop := mkPortGrows {
  pg_probed : Port_probed p';
  pg_account : u64 (judged st' + Port_unjudged p') = u64 (judged st + Port_unjudged p + n);
}.

Lemma Port_grows_trans p1 st1 n p2 st2 m p3 st3 :
  Port_grows p1 st1 n p2 st2 -> Port_grows p2 st2 m p3 st3 -> Port_grows p1 st1 (n + m) p3 st3.
Proof. intros [_ E1] [Hp E2]. split; [done|]. rewrite E2. unfold u64 in *. revert E1. zdm. Qed.

(** Only the prefetch counters matter. *)
Lemma Port_grows_stats p st n p' st' st1 st1' :
  judged st1 = judged st -> judged st1' = judged st' -> Port_grows p st n p' st' -> Port_grows p st1 n p' st1'.
Proof. intros E E' [Hp Ha]. split; [done|]. by rewrite E, E'. Qed.

Lemma Port_grows_refl p st st' : Port_probed p -> judged st' = judged st -> Port_grows p st 0 p st'.
Proof. intros Hp E. split; [done|]. by rewrite E, Z.add_0_r. Qed.

Lemma Port_grows_flat m st m' : Port_grows (PFlat m) st 0 (PFlat m') st.
Proof. split; [done|]. cbn. by rewrite !Z.add_0_r. Qed.

Lemma Port_completes_stats p st st' : Port_completes p st = Port_completes p st'.
Proof.
  destruct p as [m|k]; [done|]. cbn. unfold completes, served. cbn [ready FlatMem_IMemory].
  by destruct (cc_phase_ k), (FlatMem_ready (cc_backing_ k) (cc_pf_addr_ k) false),
    (FlatMem_ready (cc_backing_ k) (cc_cur_addr_ k) false).
Qed.

Lemma Port_ready_grows (p : Port) st a w b p' st' :
  Port_probed p -> ready p st a w = Some (b, p', st') -> Port_grows p st 0 p' st'.
Proof.
  destruct p as [m|k]; intros Hp E; cbn [ready Port_IMemory] in E;
    match type of E with mbind _ ?r = _ => destruct r as [[[b1 q] st1]|] eqn:Er end;
    cbn [mbind option_bind] in E; try done; injection E as <- <- <-.
  - apply flat_statistics in Er as ->. apply Port_grows_flat.
  - by apply ready_grows in Er as [Hq Ha].
Qed.

Lemma Port_tick_grows (p : Port) st p' st' :
  Port_probed p -> tick p st = Some (p', st') -> Port_grows p st (Z.b2z (Port_completes p st)) p' st'.
Proof.
  destruct p as [m|k]; intros Hp E; cbn [tick Port_IMemory] in E;
    match type of E with mbind _ ?r = _ => destruct r as [[q st1]|] eqn:Et end;
    cbn [mbind option_bind] in E; try done; injection E as <- <-.
  - injection Et as <- <-. apply Port_grows_flat.
  - by apply tick_grows in Et as [Hq Ha].
Qed.

(** ** The account of a core *)

Section Runs.
Context {DM : Type} `{MemoryTimed DM}.
Abbreviation core := (Core Port DM).
Implicit Type c : core.

(** Whether the cycle from [c] completes a prefetch: its latch phase ticks the
    instruction memory in a state that does. *)
Definition prefetch_done c : bool :=
  match Core_evaluate c with
  | Some c1 => negb (ma_stalling_ (co_mem_ c1)) && Port_completes (co_imem_ c1) (co_stats_ c1)
  | None => false
  end.

Fixpoint prefetches (n : nat) c : Z :=
  match n with
  | O => 0
  | S n =>
      if co_halted_ c then 0 else
      match Core_tick c with
      | Some (_, c') => Z.b2z (prefetch_done c) + prefetches n c'
      | None => 0
      end
  end.

(** At most one in a cycle. *)
Lemma prefetches_range n c : 0 <= prefetches n c <= Z.of_nat n.
Proof using Type.
  revert c. induction n as [|n IH]; intros c; cbn [prefetches]; [lia|].
  destruct (co_halted_ c); [lia|]. destruct (Core_tick c) as [[b c']|]; [|lia].
  specialize (IH c'). destruct (prefetch_done c); cbn [Z.b2z]; lia.
Qed.

(** A cycle adds the prefetch it completes, and no other. *)
Lemma tick_prefetches c b c' :
  quiescent c -> co_halted_ c = false -> Port_probed (co_imem_ c) ->
  same_clock (co_dmem_ c) (co_dmem_ c) -> Core_tick c = Some (b, c') ->
  quiescent c' /\ same_clock (co_dmem_ c') (co_dmem_ c') /\
  Port_grows (co_imem_ c) (co_stats_ c) (Z.b2z (prefetch_done c)) (co_imem_ c') (co_stats_ c').
Proof using Type.
  intros Hq Hh Hp Hd E. destruct (Core_tick_cycle c b c' Hq Hh E) as [Hcy _].
  destruct (tick_inv c b c' Hh E) as (c1 & c2 & Eev & _).
  pose proof (cycle_clock c c' Hcy Hd) as Hd'. assert (Hret : retired c c') by (by destruct Hcy).
  split; [apply Hret|]. split; [done|]. unfold prefetch_done. rewrite Eev.
  destruct (evaluate_inv c c1 Hq Eev) as (imem & st1 & f & next & id & dmem1 & st2 & dmem2 & wb' &
    served_i & served_d & e & EI & _ & _ & EM & _ & _ & Hst & Ec1).
  apply Port_ready_grows in EI as G; [|done]. assert (Him : co_imem_ c1 = imem) by (by rewrite Ec1).
  rewrite Hst, Him. clear Ec1 Eev Hst Him E Hret.
  destruct Hcy as [si st1' d1 st2' st3 _ EI' _ ER EM' ET ES
    | si imem1 st1' f' next' id' sd d1 st2' d2 st4 st5 st6 _ EI' _ _ EM' Esv EA' _ ET E4 EU ES].
  - rewrite EI in EI'. injection EI' as <- -> <-. rewrite ER, EM' in EM. injection EM as <- <- <-.
    apply ready_clock_keeps in EM' as [Hd1 ->]; [|done]. apply tick_clock_keeps in ET as [_ ->]; [|done].
    rewrite ES. cbn [negb andb Z.b2z]. apply (Port_grows_stats _ (co_stats_ c) _ _ st1); [done|by destruct (mw_valid _)|exact G].
  - rewrite EI in EI'. injection EI' as <- <- <-. rewrite EM in EM'. injection EM' as <- <- <-. subst served_d.
    assert (Hk : same_clock dmem1 dmem1 /\ st2 = st1).
    { destruct (mem_request (v_ex c)); [by apply ready_clock_keeps in EM|by injection EM as <- <-]. }
    destruct Hk as [Hd1 ->]. apply accessed_clock in EA'; [|done]. apply clock_right in EA'.
    apply tick_clock_keeps in ET as [_ ->]; [|done]. cbn [negb andb].
    apply Port_tick_grows in EU; [|apply G]. rewrite (Port_completes_stats imem _ st4).
    assert (Hj : judged st4 = judged st1)
      by (rewrite E4; cbv zeta; by destruct (ex_control_ _), (ex_redirect_ _), (mw_valid _)).
    rewrite <- (Z.add_0_l (Z.b2z _)). eapply Port_grows_trans; [exact G|].
    apply (Port_grows_stats _ st4 _ _ st6); [by rewrite Hj|by rewrite ES|exact EU].
Qed.

Lemma ticks_prefetches n c ks c' :
  quiescent c -> Port_probed (co_imem_ c) -> same_clock (co_dmem_ c) (co_dmem_ c) ->
  ticks n c = Some (ks, c') ->
  Port_grows (co_imem_ c) (co_stats_ c) (prefetches n c) (co_imem_ c') (co_stats_ c').
Proof using Type.
  revert c ks. induction n as [|n IH]; intros c ks Hq Hp Hd E; cbn [prefetches].
  { injection E as _ <-. by apply Port_grows_refl. }
  destruct (co_halted_ c) eqn:Hh.
  { destruct (halted_ticks (S n) c ks c' Hh E) as [_ ->]. by apply Port_grows_refl. }
  cbn [ticks] in E. destruct (Core_tick c) as [[b c1]|] eqn:Et; cbn [mbind option_bind] in E; [|done].
  destruct (ticks n c1) as [[ks1 c2]|] eqn:E1; cbn [mbind option_bind] in E; [|done].
  injection E as _ <-. destruct (tick_prefetches c b c1 Hq Hh Hp Hd Et) as (Hq1 & Hd1 & G).
  eapply Port_grows_trans; [exact G|]. apply (IH c1 ks1); (done || apply G).
Qed.
End Runs.

Lemma boot_probed cfg words c :
  boot cfg words = Some c -> Port_probed (co_imem_ c) /\ Port_unjudged (co_imem_ c) = 0.
Proof.
  intros E. unfold boot in E. destruct (Core_new cfg) as [c0|] eqn:E0; cbn [mbind option_bind] in E; [|done].
  unfold Core_load_program in E. destruct (store_words _ _ _) as [m|]; cbn [mbind option_bind] in E; [|done].
  injection E as <-. cbn [co_imem_ setter].
  enough (Port_probed (co_imem_ c0) /\ Port_unjudged (co_imem_ c0) = 0) as Hp by (by destruct (co_imem_ c0)).
  unfold Core_new in E0.
  match type of E0 with mbind _ ?o = _ => destruct o as [ip|] eqn:Ei end; cbn [mbind option_bind] in E0; [|done].
  do 2 (match type of E0 with mbind _ ?o = _ => destruct o end; cbn [mbind option_bind] in E0; [|done]).
  injection E0 as <-. cbn [co_imem_ Core_wire].
  destruct (icache_enabled cfg); [|by injection Ei as <-].
  destruct (Cache_new _ _ _ _ _ _ _ _) as [k|] eqn:Ek; cbn in Ei; [|done]. injection Ei as <-.
  by apply Cache_new_probed in Ek.
Qed.

(** C25: the prefetch counters a run reports are exact.  In a core built from any
    configuration, after any number of cycles of any program, the prefetched lines
    counted useful, those counted useless and those still cached and not yet
    judged are together the prefetches its instruction cache has completed, one in
    each cycle that ticks the cache in a state that completes one.  The stages, the
    data cache and the stalls neither count a line nor lose one. *)
Theorem Core_prefetch_outcomes cfg words c n ks c' :
  config_ok cfg -> program_fits cfg words -> boot cfg words = Some c -> ticks n c = Some (ks, c') ->
  Z.of_nat n < 2 ^ 64 ->
  u64 (icache_prefetch_useful (co_stats_ c') + icache_prefetch_useless (co_stats_ c') +
       Port_unjudged (co_imem_ c')) = prefetches n c /\
  0 <= Port_unjudged (co_imem_ c').
Proof.
  intros Hok Hfit Eb E Hn. destruct (boot_start cfg words Hok Hfit) as (c0 & E0 & Hst & _ & _ & _ & Hs).
  rewrite Eb in E0. injection E0 as <-. destruct (boot_data cfg words c Hok Eb) as (Hd & _).
  destruct (boot_probed cfg words c Eb) as [Hp Hz].
  pose proof (cw_quiescent c (st_wf c Hst)) as Hq.
  destruct (ticks_prefetches n c ks c' Hq Hp Hd E) as [_ Ha]. fold (judged (co_stats_ c')). split.
  - rewrite Ha, Hs, Hz. change (judged SimStats_new) with 0. pose proof (prefetches_range n c).
    unfold u64. apply Z.mod_small. lia.
  - destruct (co_imem_ c') as [m|k]; cbn; [done|apply marks_range].
Qed.

(** The example with both caches: its instruction cache prefetches. *)
Lemma Core_prefetch_outcomes_witness :
  exists ks c', ticks 80 example_core = Some (ks, c') /\
    u64 (icache_prefetch_useful (co_stats_ c') + icache_prefetch_useless (co_stats_ c') +
         Port_unjudged (co_imem_ c')) = prefetches 80 example_core /\
    (prefetches 80 example_core, icache_prefetch_useful (co_stats_ c'), icache_prefetch_useless (co_stats_ c'),
      Port_unjudged (co_imem_ c')) = (8, 6, 2, 0).
Proof.
  destruct (ticks 80 example_core) as [[ks c']|] eqn:E.
  - assert (Hx : (match ticks 80 example_core with
      | Some (_, c') => (prefetches 80 example_core, icache_prefetch_useful (co_stats_ c'),
          icache_prefetch_useless (co_stats_ c'), Port_unjudged (co_imem_ c'))
      | None => (0, 0, 0, 0) end) = (8, 6, 2, 0)) by (vm_compute; reflexivity).
    rewrite E in Hx. destruct (Core_prefetch_outcomes example_config example_program example_core 80 ks c'
      example_config_ok example_program_fits example_boot E ltac:(lia)) as [Hc _].
    exists ks, c'. exact (conj eq_refl (conj Hc Hx)).
  - assert (Hx : match ticks 80 example_core with Some _ => true | None => false end = true)
      by (vm_compute; reflexivity).
    by rewrite E in Hx.
Defined.
