(* ===== verification/Trace.v ===== *)
(** * The trace of a run

    With a tracer attached, the log a core writes is determined by the
    instructions it retires: in the commit format it is the log of the RV32I
    execution, line by line, whatever the timing of the pipeline. *)

From Stdlib Require Import Ascii.
From S2P Require Import Prelude Isa Formats DecoderSpec Alu Regfile Config Pipe Memory.
From S2P Require Import BranchPredictor Stages Tracer Core CoreStep IsaSpec Serial CoreInv SerialFacts.
From S2P Require Import Refine Shadow Correct Build Program.
Local Open Scope string_scope.
Local Open Scope Z_scope.

(** ** The log of an execution *)

(** A line of Spike's commit log. *)
Definition commit_line (k : commit) : string :=
  "core   0: 3 0x" ++ fmt_hex 8 (k_pc k) ++ " (0x" ++ fmt_hex 8 (k_raw k) ++ ")" ++
  match k_store k, k_reg k with
  | Some (a, v), _ => " mem 0x" ++ fmt_hex 8 a ++ " 0x" ++ fmt_hex (store_hex_digits (k_op k)) v
  | None, Some (rd, v) =>
      " x" ++ pad_right 2 (fmt_d rd) ++ " 0x" ++ fmt_hex 8 v ++
      match k_load k with Some a => " mem 0x" ++ fmt_hex 8 a | None => "" end
  | None, None => ""
  end.

Fixpoint commit_log (ks : list commit) : string :=
  match ks with [] => "" | k :: ks => commit_line k ++ newline ++ commit_log ks end.

Lemma commit_log_app ks1 ks2 : commit_log (ks1 ++ ks2) = (commit_log ks1 ++ commit_log ks2)%string.
Proof.
  induction ks1 as [|k ks1 IH]; [done|]. cbn [app commit_log]. by rewrite IH, !app_assoc_string.
Qed.

Lemma commit_text_line wb :
  (has_writeback (mw_op wb) = false -> mw_rd wb = 0) -> commit_text wb = commit_line (commit_of wb).
Proof.
  intros Hrd. unfold commit_text, commit_effect, commit_line, commit_of.
  cbn [k_pc k_raw k_op k_store k_reg k_load]. destruct (mw_is_store wb); [done|].
  destruct (has_writeback (mw_op wb)) eqn:Hw; [|by rewrite (Hrd eq_refl)].
  destruct (mw_rd wb =? 0); cbn [andb negb]; [done|]. by destruct (mw_op wb).
Qed.

Section Trace.
Context {IM DM : Type} `{MemoryLaws IM} `{MemoryLaws DM}.
Abbreviation core := (Core IM DM).
Implicit Type c : core.

(** ** A tick and its tracer *)

Lemma retire_tracer c c1 :
  Core_retire c = Some c1 ->
  match co_tracer_ c with
  | Some t => exists t', Tracer_record t (v_wb c) (cycles (co_stats_ c)) = Some t' /\ co_tracer_ c1 = Some t'
  | None => co_tracer_ c1 = None
  end.
Proof using Type.
  unfold Core_retire, v_wb. destruct (co_tracer_ c) as [t|]; cbn [mbind option_bind].
  - destruct (Tracer_record t (Latch_read (co_mem_wb_ c)) (cycles (co_stats_ c))) as [t'|];
      cbn [mbind option_bind]; [|done].
    intros [= <-]. exists t'. split; [done|]. destruct c. core_simpl.
    by destruct (mw_valid _ && is_halt_op _), (mw_valid _).
  - intros [= <-]. destruct c. core_simpl. by destruct (mw_valid _ && is_halt_op _), (mw_valid _).
Qed.

Lemma latch_tracer (stall : bool) c c' :
  (if stall then Core_latch_stalled c else Core_latch_all c) = Some c' -> co_tracer_ c' = co_tracer_ c.
Proof using Type.
  destruct stall; intros E.
  - by apply latch_stalled_inv in E as (wb & rf & dmem & st & mem_wb & _ & _ & ->).
  - apply latch_all_inv in E as (wb & rf & e & fetch & dec & bp & st1 & ex_mem & dmem & st2 & mem_wb &
      fetch' & imem & st3 & if_id & E).
    destruct (HazardUnit_latch _ _ _) as [[? ?] ?], (DecodeStage_latch _ _) as [? ?].
    by destruct E as (_ & _ & _ & _ & ->).
Qed.

Lemma tick_tracer c b c' :
  core_wf c -> co_halted_ c = false -> Core_tick c = Some (b, c') ->
  match co_tracer_ c with
  | Some t => exists t', Tracer_record t (v_wb c) (cycles (co_stats_ c)) = Some t' /\ co_tracer_ c' = Some t'
  | None => co_tracer_ c' = None
  end.
Proof using Type.
  intros Hc Hh E. destruct (tick_inv c b c' Hh E) as (c1 & c2 & Eev & Ert & Els & Ela & _). clear E.
  assert (El : (if ma_stalling_ (co_mem_ c1) then Core_latch_stalled c2 else Core_latch_all c2) = Some c')
    by (by destruct (ma_stalling_ (co_mem_ c1)); [apply Els|apply Ela]).
  rewrite (latch_tracer _ _ _ El). apply retire_tracer in Ert.
  destruct (evaluate_inv c c1 (cw_quiescent c Hc) Eev) as (imem & st1 & f & next & id & dmem1 & st2 & dmem2 &
    wb' & served_i & served_d & e & EI & EF & ED & EM & EA & Hex & Hst & Ec1).
  apply ready_keeps in EI as (_ & _ & C1); [|apply (cw_imem c Hc)|apply (cw_pc c Hc)].
  apply request_keeps in EM as (_ & _ & C2); [|apply (cw_dmem c Hc)|apply (cw_ex c Hc)].
  assert (E1 : co_tracer_ c1 = co_tracer_ c) by (rewrite Ec1; by destruct c).
  assert (E2 : v_wb c1 = v_wb c) by (rewrite Ec1; by destruct c).
  assert (E3 : cycles (co_stats_ c1) = cycles (co_stats_ c)).
  { assert (co_stats_ c1 = st2) as -> by (rewrite Ec1; by destruct c).
    unfold core_counters in C1, C2. congruence. }
  by rewrite E1, E2, E3 in Ert.
Qed.

(** ** The commit log *)

Lemma record_commit out wb cycle t :
  MemWb_wf wb -> (mw_valid wb = true -> has_writeback (mw_op wb) = false -> mw_rd wb = 0) ->
  Tracer_record (mkTracer out FormatCommit) wb cycle = Some t ->
  t = mkTracer (out ++ (if mw_valid wb then commit_log [commit_of wb] else "")) FormatCommit.
Proof using Type.
  intros Hwf Hrd E. destruct (mw_valid wb) eqn:Hv.
  - rewrite (record_line out wb cycle Hwf Hv) in E. injection E as <-.
    rewrite (commit_text_line wb) by auto. cbn [commit_log]. by rewrite app_empty_string.
  - unfold Tracer_record in E. cbn [tr_fmt_] in E. rewrite Hv in E. injection E as <-.
    by rewrite app_empty_string.
Qed.

(** On the path only an unrecognised word carries a register it does not write. *)
Lemma on_path_rd (c0 : core) (Hstart : Core_start c0) ks c :
  running c0 ks c -> mw_valid (v_wb c) = true -> mw_op (v_wb c) <> ILLEGAL ->
  has_writeback (mw_op (v_wb c)) = false -> mw_rd (v_wb c) = 0.
Proof using Type.
  intros Hr Hv Hi Hw. destruct (rn_path _ _ _ Hr) as (s0 & s1 & Ht & _).
  pose proof (tk_wb _ _ _ _ _ _ Ht) as Es. rewrite Hv in Es.
  destruct (serial_step_parts _ _ _ _ Es) as (raw & Hraw & Em & _).
  destruct (mem_perform_fields _ _ _ _ Em) as (_ & _ & Fo & Fd & _).
  destruct (in_execute_fields s0 raw) as (_ & _ & Go & Gd & _).
  rewrite Fd, Gd. rewrite Fo, Go in Hi, Hw.
  pose proof (ram_load_range _ (im_wf c0 Hstart) _ _ _ Hraw) as Hu.
  destruct (decode_post_ok raw (a_pc s0) Hu) as (_ & _ & _ & _ & _ & Hrd).
  apply Hrd; [|done]. by destruct (i_op (decode raw (a_pc s0))).
Qed.

Lemma ticks_log (c0 : core) (Hstart : Core_start c0)
    (Ha : co_bpred_ c0 = None \/ aligned_run (mem_ram (co_imem_ c0)) (start_state c0)) n ks c ls c' out :
  running c0 ks c -> co_tracer_ c = Some (mkTracer out FormatCommit) ->
  ticks n c = Some (ls, c') -> Forall (fun k => k_op k <> ILLEGAL) ls ->
  co_tracer_ c' = Some (mkTracer (out ++ commit_log ls) FormatCommit).
Proof using Type.
  revert ks c ls out. induction n as [|n IH]; intros ks c ls out Hr Et E Hf; cbn [ticks] in E.
  { injection E as <- <-. cbn [commit_log]. by rewrite app_empty_string. }
  destruct (Core_tick c) as [[b c1]|] eqn:E1; cbn [mbind option_bind] in E; [|done].
  destruct (ticks n c1) as [[ls1 c2]|] eqn:E2; cbn [mbind option_bind] in E; [|done].
  injection E as <- <-. apply Forall_app in Hf as [Hf1 Hf2].
  pose proof (tick_tracer c b c1 (rn_wf _ _ _ Hr) (rn_halted _ _ _ Hr) E1) as Ht. rewrite Et in Ht.
  destruct Ht as (t' & Erec & Et1).
  assert (Er : retiring c = if mw_valid (v_wb c) then [commit_of (v_wb c)] else [])
    by (unfold retiring; by rewrite (rn_halted _ _ _ Hr)).
  apply record_commit in Erec; [|apply (cw_wb _ (rn_wf _ _ _ Hr))|].
  2:{ intros Hv. apply (on_path_rd c0 Hstart ks c Hr Hv). rewrite Er, Hv in Hf1.
      by apply Forall_cons in Hf1 as [? _]. }
  assert (Hlog : (if mw_valid (v_wb c) then commit_log [commit_of (v_wb c)] else "") = commit_log (retiring c))
    by (rewrite Er; by destruct (mw_valid (v_wb c))).
  rewrite Hlog in Erec. rewrite commit_log_app, <- app_assoc_string.
  pose proof (running_tick c0 Hstart Ha ks c b c1 Hr E1) as Hr1. rewrite Erec in Et1.
  destruct (co_halted_ c1) eqn:Eh.
  - destruct (halted_ticks n c1 ls1 c2 Eh E2) as [-> ->]. cbn [commit_log]. by rewrite app_empty_string.
  - by apply (IH (ks ++ retiring c)%list c1).
Qed.

Lemma set_tracer_start c t : Core_start c -> Core_start (Core_set_tracer c t).
Proof using Type. intros [[]]. constructor; try done; constructor; done. Qed.
End Trace.

(** C15: the commit log is that of the RV32I execution.  With a tracer in the
    commit format attached, what a run has written after any number of cycles is
    one line per retired instruction, in order, each a function of the RV32I
    commit alone (PC, encoding, register write, load and store): stalls, flushes,
    caches and predictors leave no trace in it.  Unrecognised words, which end
    the run, are logged differently. *)
Theorem Core_commit_log {IM DM : Type} `{MemoryLaws IM} `{MemoryLaws DM} (c : Core IM DM) n ks c' out :
  Core_start c ->
  co_bpred_ c = None \/ aligned_run (mem_ram (co_imem_ c)) (start_state c) ->
  co_tracer_ c = Some (mkTracer out FormatCommit) ->
  ticks n c = Some (ks, c') -> Forall (fun k => k_op k <> ILLEGAL) ks ->
  co_tracer_ c' = Some (mkTracer (out ++ commit_log ks) FormatCommit) /\
  exists s, isa_steps (mem_ram (co_imem_ c)) (length ks) (start_state c) = Some (ks, s).
Proof.
  intros Hst Ha Et E Hf. pose proof (start_running c Hst Ha) as Hr. split.
  - by apply (ticks_log c Hst Ha n [] c ks c' out Hr Et E).
  - pose proof (run_state c n ks c' Hst Ha E) as Hr'. destruct (co_halted_ c').
    + destruct Hr' as [_ _ _ (ks1 & k & s & _ & _ & _ & Es & _)]. by exists s.
    + destruct (rn_path _ _ _ Hr') as (s0 & _ & _ & _ & Es & _). by exists s0.
Qed.

Definition traced_core : Core Port Port := Core_set_tracer example_core (Some (mkTracer "" FormatCommit)).

Lemma Core_commit_log_witness :
  exists ks c', ticks 8 traced_core = Some (ks, c') /\
    co_tracer_ c' = Some (mkTracer (commit_log ks) FormatCommit) /\
    commit_log ks = ("core   0: 3 0x80000000 (0x800001b7) x3  0x80000000" ++ newline ++
                     "core   0: 3 0x80000004 (0x00200093) x1  0x00000002" ++ newline)%string.
Proof.
  destruct (ticks 8 traced_core) as [[ks c']|] eqn:E.
  - assert (Hx : match ticks 8 traced_core with
      | Some (ks, _) => (forallb (fun k => negb (op_eqb (k_op k) ILLEGAL)) ks, commit_log ks)
      | None => (false, ""%string) end =
      (true, ("core   0: 3 0x80000000 (0x800001b7) x3  0x80000000" ++ newline ++
              "core   0: 3 0x80000004 (0x00200093) x1  0x00000002" ++ newline)%string))
      by (vm_compute; reflexivity).
    rewrite E in Hx. apply pair_equal_spec in Hx as [X1 X2].
    assert (Hf : Forall (fun k => k_op k <> ILLEGAL) ks).
    { apply Forall_forall. intros k Hk Ek. rewrite forallb_forall in X1.
      specialize (X1 k ltac:(by apply list_elem_of_In)). by rewrite Ek in X1. }
    destruct (Core_commit_log traced_core 8 ks c' "" (set_tracer_start _ _ (proj1 example_core_start))
      (or_intror example_aligned) eq_refl E Hf) as [Et _].
    exists ks, c'. exact (conj eq_refl (conj Et X2)).
  - assert (Hx : match ticks 8 traced_core with Some _ => true | None => false end = true)
      by (vm_compute; reflexivity).
    by rewrite E in Hx.
Defined.

(** ** The line of an unrecognised word *)

Definition illegal_core : Core Port Port :=
  match boot example_config_plain [0x00700093; 0x000100FF] with
  | Some c => Core_set_tracer c (Some (mkTracer "" FormatCommit))
  | None => example_core
  end.

(** The log of the word 0x000100FF, which no instruction has: it claims a
    write of x1 although the run ends with x1 unchanged. *)
Example illegal_log :
  match ticks 12 illegal_core with
  | Some (_, c) =>
      (co_halt_reason_ c, Core_read_reg c 1, tr_out_ <$> co_tracer_ c) =
      (HaltIllegal, Some 7, Some ("core   0: 3 0x80000000 (0x00700093) x1  0x00000007" ++ newline ++
        "core   0: 3 0x80000004 (0x000100ff) x1  0x00000000" ++ newline)%string)
  | None => False
  end.
Proof. vm_compute. reflexivity. Qed.

(** C40: an unrecognised word is logged as a register write that does not happen.
    If its rd field is not 0, the commit line of the cycle in which it retires
    names that register and a value for it, while the register file keeps its
    contents. *)
Theorem illegal_logged_with_write {IM DM : Type} `{MemoryLaws IM} `{MemoryLaws DM} (c : Core IM DM) out b c' :
  core_wf c -> co_halted_ c = false -> co_tracer_ c = Some (mkTracer out FormatCommit) ->
  mw_valid (v_wb c) = true -> mw_op (v_wb c) = ILLEGAL -> mw_is_store (v_wb c) = false -> mw_rd (v_wb c) <> 0 ->
  Core_tick c = Some (b, c') ->
  co_rf_ c' = co_rf_ c /\
  co_tracer_ c' = Some (mkTracer (out ++ "core   0: 3 0x" ++ fmt_hex 8 (mw_pc (v_wb c)) ++
    " (0x" ++ fmt_hex 8 (mw_raw (v_wb c)) ++ ") x" ++ pad_right 2 (fmt_d (mw_rd (v_wb c))) ++
    " 0x" ++ fmt_hex 8 (mw_wb_val (v_wb c)) ++ newline) FormatCommit).
Proof.
  intros Hc Hh Et Hv Ho Hs Hrd E. destruct (Core_tick_cycle c b c' (cw_quiescent c Hc) Hh E) as [Hcy _].
  assert (Hret : retired c c') by (by destruct Hcy). split.
  - pose proof (rt_rf _ _ Hret) as Hw. unfold written in Hw. rewrite Ho, andb_false_r in Hw. by injection Hw.
  - pose proof (tick_tracer c b c' Hc Hh E) as Ht. rewrite Et in Ht. destruct Ht as (t & Er & ->).
    rewrite (record_line out _ _ (cw_wb c Hc) Hv) in Er. injection Er as <-.
    unfold commit_text, commit_effect. rewrite Hs, Ho. apply Z.eqb_neq in Hrd. rewrite Hrd.
    cbn [is_load_op]. by rewrite app_empty_string, !app_assoc_string.
Qed.

Lemma illegal_logged_with_write_witness :
  let c := ticked 5 illegal_core in
  exists b c', Core_tick c = Some (b, c') /\ co_rf_ c' = co_rf_ c /\
    tr_out_ <$> co_tracer_ c' = Some ("core   0: 3 0x80000000 (0x00700093) x1  0x00000007" ++ newline ++
      "core   0: 3 0x80000004 (0x000100ff) x1  0x00000000" ++ newline)%string.
Proof.
  cbv zeta. set (c := ticked 5 illegal_core).
  assert (Hc : core_wf c).
  { apply ticked_wf. assert (Hfit : program_fits example_config_plain [0x00700093; 0x000100FF])
      by (unfold program_fits; cbn; lia).
    destruct (boot_start _ _ example_plain_ok Hfit) as (d & E & Hst & _).
    assert (Es : Some illegal_core = (fun d => Core_set_tracer d (Some (mkTracer "" FormatCommit))) <$>
      boot example_config_plain [0x00700093; 0x000100FF]) by (vm_compute; reflexivity).
    rewrite E in Es. apply Some_inj in Es. rewrite Es. exact (st_wf _ (set_tracer_start d _ Hst)). }
  destruct (Core_tick c) as [[b c']|] eqn:E.
  - assert (X : (co_halted_ c, mw_valid (v_wb c), mw_op (v_wb c), mw_is_store (v_wb c), mw_rd (v_wb c)) =
      (false, true, ILLEGAL, false, 1)) by (vm_compute; reflexivity).
    assert (T : co_tracer_ c = Some (mkTracer ("core   0: 3 0x80000000 (0x00700093) x1  0x00000007" ++ newline)%string
      FormatCommit)) by (vm_compute; reflexivity).
    assert (Y : match Core_tick c with Some (_, c') => tr_out_ <$> co_tracer_ c' | None => None end =
      Some ("core   0: 3 0x80000000 (0x00700093) x1  0x00000007" ++ newline ++
        "core   0: 3 0x80000004 (0x000100ff) x1  0x00000000" ++ newline)%string) by (vm_compute; reflexivity).
    rewrite E in Y. apply pair_equal_spec in X as [X X5]. apply pair_equal_spec in X as [X X4].
    apply pair_equal_spec in X as [X X3]. apply pair_equal_spec in X as [X1 X2].
    assert (X6 : mw_rd (v_wb c) <> 0) by (rewrite X5; discriminate).
    destruct (illegal_logged_with_write c _ b c' Hc X1 T X2 X3 X4 X6 E) as (Hrf & _).
    exists b, c'. exact (conj eq_refl (conj Hrf Y)).
  - assert (Y : match Core_tick c with Some _ => true | None => false end = true) by (vm_compute; reflexivity).
    by rewrite E in Y.
Defined.
