(* ===== verification/CycleTrace.v ===== *)
(** * The cycle-format trace

    The tracer's other format has one line per clock cycle, with the
    disassembly of the instruction in WB.  The cycle counter is printed into a
    16-byte buffer: the lines are complete for as long as it has at most
    thirteen digits. *)

From Stdlib Require Import Ascii.
From S2P Require Import Prelude Isa Formats DecoderSpec Regfile Config Pipe Memory.
From S2P Require Import BranchPredictor Stages Tracer Core CoreStep IsaSpec Serial CoreInv SerialFacts.
From S2P Require Import CoreTotal Refine Shadow Correct Termination Build Program Trace.
Local Open Scope string_scope.
Local Open Scope Z_scope.

(** ** The lines *)

(** The line of cycle [t], in which [slot] retires; no buffer cuts it. *)
Definition cycle_line (t : Z) (slot : option commit) : string :=
  pad_left 6 (fmt_u t) ++ " |" ++
  match slot with
  | Some k => " 0x" ++ fmt_hex 8 (k_pc k) ++ "  " ++ default "" (disasm 40 (k_raw k) (k_pc k))
  | None => ""
  end.

(** Consecutive cycles from [t] on. *)
Fixpoint cycle_log (t : Z) (slots : list (option commit)) : string :=
  match slots with
  | [] => ""
  | slot :: slots => cycle_line t slot ++ newline ++ cycle_log (t + 1) slots
  end.

(** The instruction a cycle retires, if it retires one. *)
Definition slot_of (wb : MemWb) : option commit := if mw_valid wb then Some (commit_of wb) else None.

Lemma cycle_log_app t slots1 slots2 :
  cycle_log t (slots1 ++ slots2)%list =
    (cycle_log t slots1 ++ cycle_log (t + Z.of_nat (length slots1)) slots2)%string.
Proof.
  revert t. induction slots1 as [|s slots1 IH]; intros t; cbn [app cycle_log length].
  - rewrite Z.add_0_r. reflexivity.
  - rewrite IH, !app_assoc_string. do 3 f_equal. f_equal. lia.
Qed.

(** A number below [10 ^ n] has at most [n] digits. *)
Lemma dec_digits_fits n fuel v :
  (0 < n)%nat -> 0 <= v < 10 ^ Z.of_nat n -> (String.length (dec_digits fuel v) <= n)%nat.
Proof.
  intros Hn. revert n v Hn. induction fuel as [|fuel IH]; intros n v Hn Hv; cbn [dec_digits]; [cbn; lia|].
  rewrite length_app_string. cbn [String.length]. destruct (Z.ltb_spec v 10); [cbn; lia|].
  destruct n as [|[|n]]; [lia|cbn in Hv; lia|].
  rewrite Nat2Z.inj_succ, Z.pow_succ_r in Hv by lia.
  assert (0 <= v / 10 < 10 ^ Z.of_nat (S n)).
  { split; [apply Z.div_pos; lia|]. apply Z.div_lt_upper_bound; lia. }
  specialize (IH (S n) (v / 10)). lia.
Qed.

Lemma counter_length t : 0 <= t < 10 ^ 13 -> (String.length (pad_left 6 (fmt_u t)) <= 13)%nat.
Proof.
  intros Ht. unfold pad_left. rewrite length_app_string, spaces_length.
  pose proof (dec_digits_fits 13 20 t ltac:(lia) Ht) as Hl. unfold fmt_u. lia.
Qed.

Lemma disasm_length size raw pc s : disasm size raw pc = Some s -> (String.length s <= size - 1)%nat.
Proof.
  unfold disasm. destruct (abi_name (i_rd _)); [|done]. destruct (abi_name (i_rs1 _)); [|done].
  destruct (abi_name (i_rs2 _)); [|done]. intros [= <-]. apply snprintf_length.
Qed.

Lemma record_cycle out wb t :
  MemWb_wf wb -> 0 <= t < 10 ^ 13 ->
  Tracer_record (mkTracer out FormatCycle) wb t =
    Some (mkTracer (out ++ cycle_log t [slot_of wb]) FormatCycle).
Proof.
  intros (Hpc & Hraw & _) Ht. pose proof (counter_length t Ht).
  unfold Tracer_record, Tracer_line, slot_of, cycle_log, cycle_line. cbn [tr_fmt_ tr_out_].
  destruct (mw_valid wb); cbn [negb].
  - destruct (disasm_total 40 (mw_raw wb) (mw_pc wb) Hraw) as [dis E]. rewrite E. cbn [mbind option_bind].
    unfold commit_of. cbn [k_pc k_raw]. rewrite E. cbn [default]. apply disasm_length in E.
    rewrite snprintf_fits, !app_empty_string; [by rewrite !app_assoc_string|].
    rewrite !length_app_string, (fmt_hex_u32 _ Hpc), hex_fixed_length. cbn [String.length] in *. lia.
  - rewrite snprintf_fits, !app_empty_string; [by rewrite !app_assoc_string|].
    rewrite length_app_string. cbn [String.length]. lia.
Qed.

(** ** Runs *)

Section CycleTrace.
Context {IM DM : Type} `{MemoryLaws IM} `{MemoryLaws DM}.
Abbreviation core := (Core IM DM).
Implicit Type c : core.

Lemma retiring_slot c : co_halted_ c = false -> retiring c = omap id [slot_of (v_wb c)].
Proof using Type. intros Hh. unfold retiring, slot_of. rewrite Hh. by destruct (mw_valid (v_wb c)). Qed.

(** C16: the cycle trace is the run, one line per cycle.  With a tracer in the
    cycle format attached, the log holds exactly one complete line for every
    cycle simulated, numbered consecutively; the lines that carry an instruction
    are the instructions retired, in order, and every other line is a bubble.
    The counter must stay within thirteen digits, the room its buffer has. *)
Theorem Core_cycle_log n c ks c' out :
  core_wf c -> co_halted_ c = false -> co_tracer_ c = Some (mkTracer out FormatCycle) ->
  ticks n c = Some (ks, c') -> 0 <= cycles (co_stats_ c) -> cycles (co_stats_ c) + Z.of_nat n <= 10 ^ 13 ->
  exists slots, omap id slots = ks /\
    cycles (co_stats_ c') = cycles (co_stats_ c) + Z.of_nat (length slots) /\
    (length slots <= n)%nat /\ (co_halted_ c' = false -> length slots = n) /\
    co_tracer_ c' = Some (mkTracer (out ++ cycle_log (cycles (co_stats_ c)) slots) FormatCycle).
Proof using All.
  revert c ks out. induction n as [|n IH]; intros c ks out Hc Hh Et E Hpos Hn; cbn [ticks] in E.
  { injection E as <- <-. exists []. cbn [cycle_log length omap list_omap]. rewrite app_empty_string.
    split_and!; [done|lia|lia|done|done]. }
  destruct (Core_tick c) as [[b c1]|] eqn:E1; cbn [mbind option_bind] in E; [|done].
  destruct (ticks n c1) as [[ks1 c2]|] eqn:E2; cbn [mbind option_bind] in E; [|done].
  injection E as <- <-.
  destruct (tick_counts c b c1 Hc Hh E1 ltac:(lia)) as [Hc1 Hcy].
  pose proof (tick_tracer c b c1 Hc Hh E1) as Ht. rewrite Et in Ht. destruct Ht as (t' & Er & Et1).
  rewrite record_cycle in Er; [|apply (cw_wb _ Hc)|lia]. injection Er as <-.
  destruct (co_halted_ c1) eqn:Hh1.
  - destruct (halted_ticks n c1 ks1 c2 Hh1 E2) as [-> ->]. exists [slot_of (v_wb c)].
    rewrite app_nil_r, retiring_slot by done. split_and!; [done|cbn [length]; lia|cbn [length]; lia|congruence|done].
  - destruct (IH c1 ks1 _ Hc1 Hh1 Et1 E2 ltac:(lia) ltac:(lia)) as (slots & <- & Hs & Hl & Hl' & Et2).
    exists (slot_of (v_wb c) :: slots). rewrite retiring_slot by done. split_and!.
    + rewrite <- omap_app. done.
    + cbn [length]. lia.
    + cbn [length]. lia.
    + intros Hf. cbn [length]. f_equal. by apply Hl'.
    + rewrite Et2, Hcy, app_assoc_string. f_equal. f_equal. f_equal.
      symmetry. apply (cycle_log_app _ [slot_of (v_wb c)] slots).
Qed.
End CycleTrace.

Definition cycle_traced_core : Core Port Port :=
  Core_set_tracer example_core (Some (mkTracer "" FormatCycle)).

Lemma Core_cycle_log_witness :
  exists ks c' slots, ticks 6 cycle_traced_core = Some (ks, c') /\ omap id slots = ks /\
    co_tracer_ c' = Some (mkTracer (cycle_log 0 slots) FormatCycle).
Proof.
  destruct (ticks 6 cycle_traced_core) as [[ks c']|] eqn:E.
  - destruct (Core_cycle_log 6 cycle_traced_core ks c' ""
      (st_wf _ (set_tracer_start _ _ (proj1 example_core_start))) eq_refl eq_refl E) as (slots & Hk & _ & _ & _ & Et);
      [vm_compute; discriminate|vm_compute; discriminate|].
    exists ks, c', slots. exact (conj eq_refl (conj Hk Et)).
  - assert (Hx : match ticks 6 cycle_traced_core with Some _ => true | None => false end = true)
      by (vm_compute; reflexivity).
    by rewrite E in Hx.
Defined.
