(* ===== verification/ElfBoot.v ===== *)
(** * Running an ELF file

    The path of [tools/bench_run.cpp] and of the ISA tests: a core is built from
    a configuration, an executable is loaded into both memories, and the core
    runs it from the entry point. *)

From S2P Require Import Prelude Isa Regfile Config Pipe Memory FlatMem MemoryLive.
From S2P Require Import BranchPredictor Stages Tracer Elf Core CoreStep IsaSpec Serial CoreInv SerialFacts.
From S2P Require Import CoreTotal Refine Shadow Safe Correct Progress Termination Build Program Simulator Trace.

(** ** Loading keeps the memories live *)

Section Load.
Context {IM DM : Type} `{MemoryLive IM} `{MemoryLive DM}.

Definition same_waits (i i' : IM) (d d' : DM) : Prop :=
  (live i -> live i' /\ worst i' = worst i) /\ (live d -> live d' /\ worst d' = worst d).

Lemma store_byte_waits {M} `{MemoryLive M} (m : M) a v m' :
  store_byte m a v = Some m' -> live m -> live m' /\ worst m' = worst m.
Proof. intros E Hl. eapply store_live; [exact Hl|by eauto]. Qed.

Lemma store_data_waits i d base b data i' d' :
  store_data i d base b data = Some (i', d') -> same_waits i i' d d'.
Proof using Type.
  revert i d b. induction data as [|v data IH]; intros i d b E; cbn [store_data] in E.
  { injection E as <- <-. by split. }
  destruct (store_byte i _ v) as [i1|] eqn:Ei; cbn [mbind option_bind] in E; [|done].
  destruct (store_byte d _ v) as [d1|] eqn:Ed; cbn [mbind option_bind] in E; [|done].
  destruct (IH _ _ _ E) as [I1 I2]. split.
  - intros Hl. destruct (store_byte_waits _ _ _ _ Ei Hl) as [Hl1 <-]. by apply I1.
  - intros Hl. destruct (store_byte_waits _ _ _ _ Ed Hl) as [Hl1 <-]. by apply I2.
Qed.

Lemma store_zeros_waits (d : DM) base b n d' :
  store_zeros d base b n = Some d' -> live d -> live d' /\ worst d' = worst d.
Proof using Type.
  revert d b. induction n as [|n IH]; intros d b E Hl; cbn [store_zeros] in E; [by injection E as <-|].
  destruct (store_byte d _ 0) as [d1|] eqn:Ed; cbn [mbind option_bind] in E; [|done].
  destruct (store_byte_waits _ _ _ _ Ed Hl) as [Hl1 <-]. by apply (IH _ _ E).
Qed.

Lemma load_phdr_waits f h n (i : IM) (d : DM) f' i' d' :
  load_phdr f h n i d = Ok (f', i', d') -> same_waits i i' d d'.
Proof using Type.
  unfold load_phdr. destruct (ifstream_read _ 32) as [bytes f1].
  destruct (_ || _); [by intros [= _ <- <-]|]. destruct (ifstream_read _ _) as [data f2].
  destruct (fs_fail f2); cbn [negb ensure mbind outcome_bind]; [done|].
  destruct (store_data i d _ _ data) as [[i1 d1]|] eqn:E1; cbn [of_option mbind outcome_bind]; [|done].
  destruct (store_zeros d1 _ _ _) as [d2|] eqn:E2; cbn [of_option mbind outcome_bind]; [|done].
  intros [= _ <- <-]. destruct (store_data_waits _ _ _ _ _ _ _ E1) as [I1 I2]. split; [done|].
  intros Hl. destruct (I2 Hl) as [Hl1 <-]. by eapply store_zeros_waits.
Qed.

Lemma load_phdrs_waits n k f h (i : IM) (d : DM) i' d' :
  load_phdrs n k f h i d = Ok (i', d') -> same_waits i i' d d'.
Proof using Type.
  revert k f i d. induction n as [|n IH]; intros k f i d E; cbn [load_phdrs] in E.
  { injection E as <- <-. by split. }
  destruct (load_phdr f h k i d) as [[[f1 i1] d1]|e1 s1|] eqn:E1; cbn [mbind outcome_bind] in E; try done.
  destruct (load_phdr_waits _ _ _ _ _ _ _ _ E1) as [I1 I2]. destruct (IH _ _ _ _ E) as [J1 J2]. split.
  - intros Hl. destruct (I1 Hl) as [Hl1 <-]. by apply J1.
  - intros Hl. destruct (I2 Hl) as [Hl1 <-]. by apply J2.
Qed.

Lemma load_elf_waits file (i : IM) (d : DM) e i' d' :
  load_elf file i d = Ok (e, i', d') -> same_waits i i' d d'.
Proof using Type.
  unfold load_elf. destruct file as [data|]; [|done]. destruct (ifstream_read _ 52) as [bytes f].
  intros E. repeat match type of E with mbind _ (ensure ?b ?x ?s) = _ =>
    destruct b; cbn [ensure mbind outcome_bind] in E; [|done] end.
  destruct (load_phdrs _ _ _ _ i d) as [[i1 d1]|e1 s1|] eqn:E1; cbn [mbind outcome_bind] in E; try done.
  injection E as _ <- <-. by eapply load_phdrs_waits.
Qed.
End Load.

(** ** The loaded core *)

(** The segments of the file over a memory. *)
Definition elf_ram (bytes_of : list Z -> Elf32Phdr -> list Z) (data : list Z) (r : ram) : ram :=
  foldl (place_seg bytes_of data) r (phdr_at data <$> seqZ 0 (e_phnum (ehdr_in data))).

Definition elf_fits (cfg : SimConfig) (data : list Z) : Prop :=
  Forall is_u8 data /\ header_ok data = true /\
  forall i, 0 <= i < e_phnum (ehdr_in data) -> phdr_fits data i /\
    segment_ok data (blank_ram cfg) (phdr_at data i).

(** ... and starts where the core does. *)
Definition elf_ok (cfg : SimConfig) (data : list Z) : Prop :=
  elf_fits cfg data /\ e_entry (ehdr_in data) = ram_base_addr cfg.

(** The state before the first instruction. *)
Definition elf_state (cfg : SimConfig) (data : list Z) : arch :=
  mkArch (ram_base_addr cfg) RegFile_new (elf_ram seg_image data (blank_ram cfg)).

Lemma load_elf_start cfg data c0 :
  config_ok cfg -> elf_ok cfg data -> Core_new cfg = Some c0 ->
  exists c, Core_load_elf c0 (Some data) = Ok c /\ Core_start c /\ core_live c /\
    co_stats_ c = SimStats_new /\ (forall n, enough c n = cycle_bound cfg n) /\
    start_state c = elf_state cfg data /\
    mem_ram (co_imem_ c) = elf_ram seg_bytes data (blank_ram cfg) /\
    (bpred_enabled cfg = false -> co_bpred_ c = None) /\ co_halt_reason_ c = HaltNone.
Proof.
  intros Hok [(Hu & Hh & Hseg) Hent] E0.
  destruct (Core_new_start cfg Hok) as (c & E & Hst & Hbase & Hpc & Hrf & Him & Hdm & Hbp & Hflat & Hreason).
  rewrite E0 in E. injection E as <-. destruct (new_live cfg c0 Hok E0) as (Hi & Hd & Hs & Hb).
  assert (Hfr : mem_ram (Port_flat (co_imem_ c0)) = mem_ram (co_imem_ c0)) by (by destruct (co_imem_ c0)).
  destruct (load_elf_ok (Port_flat (co_imem_ c0)) (co_dmem_ c0) data Hflat
    (cw_dmem _ (st_wf _ Hst)) Hu Hh) as (m & d & El & Hm & Hd' & Rm & Rd).
  { intros i Hr. rewrite Hfr, Him, Hdm. destruct (Hseg i Hr). by split_and!. }
  destruct (load_elf_waits _ _ _ _ _ _ El) as [W1 W2].
  assert (Hlat : fm_latency_ m = fm_latency_ (Port_flat (co_imem_ c0))).
  { destruct (W1 I) as [_ Hw]. cbn in Hw. lia. }
  destruct (W2 Hd) as [Hdl Wd]. destruct (set_flat_live (co_imem_ c0) m Hlat Hi) as [Hil Wi].
  destruct (Port_set_flat_ok (co_imem_ c0) m (cw_imem _ (st_wf _ Hst)) Hm) as [Hi' Hr'].
  eexists. split.
  { unfold Core_load_elf. rewrite El. cbn [mbind outcome_bind]. rewrite Hent, Hbase, Z.eqb_refl. reflexivity. }
  assert (Hst' : Core_start (c0 <| co_imem_ := Port_set_flat (co_imem_ c0) m |> <| co_dmem_ := d |>)).
  { destruct Hst as [[]]. constructor; try done; constructor; done. }
  split; [exact Hst'|]. split; [constructor; [apply Hst'|exact Hil|exact Hdl]|]. split; [exact Hs|].
  split; [|split; [|split; [|split; [exact Hbp|exact Hreason]]]].
  - intros n. rewrite <- Hb. unfold enough, budget. f_equal. f_equal. f_equal; [f_equal; exact Wi|exact Wd].
  - unfold start_state, elf_state, elf_ram. f_equal; [exact Hpc|exact Hrf|]. rewrite <- Hdm. exact Rd.
  - refine (eq_trans Hr' (eq_trans Rm _)). unfold elf_ram. by rewrite Hfr, Him.
Qed.

(** A tracer changes neither. *)
Lemma set_tracer_live {IM DM : Type} `{MemoryLive IM} `{MemoryLive DM} (c : Core IM DM) t :
  core_live c -> core_live (Core_set_tracer c t).
Proof. intros [[] ? ?]. constructor; try done; constructor; done. Qed.

Lemma set_tracer_same {IM DM : Type} `{IMemory IM} `{IMemory DM} (c : Core IM DM) :
  Core_set_tracer c (co_tracer_ c) = c.
Proof. by destruct c. Qed.

(** An executable that fits the configuration and holds a safe program. *)
Record elf_safe (cfg : SimConfig) (data : list Z) : Prop := mkElfSafe {
  es_config : config_ok cfg;
  es_file : elf_ok cfg data;
  es_aligned : bpred_enabled cfg = false \/
    aligned_run (elf_ram seg_bytes data (blank_ram cfg)) (elf_state cfg data);
  es_safe : safe_program (elf_ram seg_bytes data (blank_ram cfg)) (bpred_enabled cfg = true) (elf_state cfg data);
}.

(** The program runs [ks], then ends with [k] in the state [s]. *)
Record elf_program (cfg : SimConfig) (data : list Z) (n : nat) (ks : list commit) (k : commit) (s : arch) :
    Prop := mkElfProgram {
  ep_safe : elf_safe cfg data;
  ep_steps : isa_steps (elf_ram seg_bytes data (blank_ram cfg)) n (elf_state cfg data) = Some (ks ++ [k], s);
  ep_running : Forall (fun k => is_halt (k_op k) = false) ks;
  ep_halt : is_halt (k_op k) = true;
}.
Arguments ep_safe {_ _ _ _ _ _}.
Arguments ep_running {_ _ _ _ _ _}.

(** The core such a file is loaded in, with any tracer. *)
Record loaded (cfg : SimConfig) (data : list Z) (c : Core Port Port) : Prop := mkLoaded {
  ld_start : Core_start c;
  ld_live : core_live c;
  ld_reason : co_halt_reason_ c = HaltNone;
  ld_stats : co_stats_ c = SimStats_new;
  ld_enough n : enough c n = cycle_bound cfg n;
  ld_state : start_state c = elf_state cfg data;
  ld_imem : mem_ram (co_imem_ c) = elf_ram seg_bytes data (blank_ram cfg);
  ld_aligned : co_bpred_ c = None \/ aligned_run (mem_ram (co_imem_ c)) (start_state c);
  ld_safe : safe_program (mem_ram (co_imem_ c)) (is_Some (co_bpred_ c)) (start_state c);
}.

Lemma elf_loaded cfg data c0 :
  elf_safe cfg data -> Core_new cfg = Some c0 ->
  exists c, Core_load_elf c0 (Some data) = Ok c /\ forall t, loaded cfg data (Core_set_tracer c t).
Proof.
  intros [Hok Helf Ha Hs] E0.
  destruct (load_elf_start cfg data c0 Hok Helf E0) as (c & El & Hst & Hl & St & Hb & I1 & M1 & Hbp & Hreason).
  rewrite <- I1, <- M1 in Ha, Hs. exists c. split; [done|]. intros t.
  pose proof (set_tracer_start c t Hst) as Hst'. pose proof (set_tracer_live c t Hl) as Hl'.
  constructor; try done.
  - destruct Ha as [Ha|Ha]; [left; by apply Hbp|by right].
  - revert Hs. apply safe_program_weaken. intros [p Ep]. destruct (bpred_enabled cfg); [done|].
    cbn in Ep. by rewrite Hbp in Ep.
Qed.

Lemma loaded_computes cfg data c n ks k s max fuel :
  loaded cfg data c -> elf_program cfg data n ks k s ->
  cycle_bound cfg n <= max < 2 ^ 64 -> cycle_bound cfg n <= Z.of_nat fuel ->
  exists c' m, Core_run fuel c max = Some c' /\ isa_result c' n k s /\
    cycles (co_stats_ c') <= cycle_bound cfg n /\ ticks m c = Some (ks ++ [k], c').
Proof.
  intros [Hst Hl _ St Hb I1 M1 Ha Hs] [_ Es Hf Hk] Hm Hfuel. rewrite <- I1, <- M1 in Es. rewrite <- Hb in *.
  destruct (run_computes c n ks k s max fuel) as (c' & m & ? & ? & ? & ? & _); try done. by exists c', m.
Qed.

(** C8: the ELF path, end to end.  A well-formed executable whose entry point is
    the base of the RAM is loaded without an exception, and if the program it
    holds is safe and ends with its [n]-th instruction, running it gives the
    RV32I result: code is fetched from the file bytes of the segments, data
    from the segments with their BSS zeroed. *)
Theorem Core_runs_elf cfg data c0 n ks k s max fuel :
  elf_program cfg data n ks k s -> Core_new cfg = Some c0 ->
  cycle_bound cfg n <= max < 2 ^ 64 -> cycle_bound cfg n <= Z.of_nat fuel ->
  exists c c', Core_load_elf c0 (Some data) = Ok c /\ Core_run fuel c max = Some c' /\
    isa_result c' n k s /\ cycles (co_stats_ c') <= cycle_bound cfg n.
Proof.
  intros Hp E0 Hm Hfuel. destruct (elf_loaded cfg data c0 (ep_safe Hp) E0) as (c & El & Hld).
  specialize (Hld (co_tracer_ c)). rewrite set_tracer_same in Hld.
  destruct (loaded_computes cfg data c n ks k s max fuel Hld Hp Hm Hfuel) as (c' & _ & Hr & Hi & Hc & _).
  by exists c, c'.
Qed.

(** [example_elf] on the plain configuration: one EBREAK. *)
Lemma example_elf_ok : elf_ok example_config_plain example_elf.
Proof.
  split; [|reflexivity]. split; [repeat constructor; unfold is_u8; lia|]. split; [reflexivity|].
  intros i Hi. change (e_phnum (ehdr_in example_elf)) with 1 in Hi. assert (i = 0) as -> by lia.
  unfold phdr_fits, segment_ok, ram_covers. vm_compute. split_and!; intuition discriminate.
Qed.

(** Its execution: one instruction, the EBREAK. *)
Lemma example_elf_program :
  exists k s, elf_program example_config_plain example_elf 1 [] k s /\ k_op k = EBREAK.
Proof.
  destruct (isa_steps (elf_ram seg_bytes example_elf (blank_ram example_config_plain)) 1
    (elf_state example_config_plain example_elf)) as [[ls s]|] eqn:Es; [|vm_compute in Es; discriminate Es].
  assert (Hk : exists k, ls = [] ++ [k] /\ k_op k = EBREAK).
  { vm_compute in Es. injection Es as <- _. eexists. split; reflexivity. }
  destruct Hk as (k & -> & Hk). exists k, s. split; [|exact Hk].
  constructor; [|exact Es|by constructor|by rewrite Hk].
  constructor; [exact example_plain_ok|exact example_elf_ok|by left|].
  apply (safe_check_sound _ _ 3). vm_compute. reflexivity.
Qed.

Lemma Core_runs_elf_witness :
  exists c0 c c', Core_new example_config_plain = Some c0 /\ Core_load_elf c0 (Some example_elf) = Ok c /\
    Core_run 10 c 10 = Some c' /\ co_halted_ c' = true /\ instructions (co_stats_ c') = 1.
Proof.
  destruct (Core_new_start _ example_plain_ok) as (c0 & E0 & _).
  destruct example_elf_program as (k & s & Hp & _).
  assert (Hb : cycle_bound example_config_plain 1 = 5) by reflexivity.
  destruct (Core_runs_elf example_config_plain example_elf c0 1 [] k s 10 10 Hp E0)
    as (c & c' & El & Er & (Hh & Hi & _) & _); [rewrite Hb; lia|rewrite Hb; lia|].
  exists c0, c, c'. exact (conj E0 (conj El (conj Er (conj Hh Hi)))).
Defined.
