(* ===== verification/Report.v ===== *)
(** * The report of a run

    Models [Core::read_regs] of [src/sim/core.cpp] and the report
    [tools/bench_run.cpp] prints after a run, as text.  How floating-point
    figures are printed is a parameter ([Figures]); the wall-clock ones also
    depend on the host. *)

From Stdlib Require Import Ascii.
From S2P Require Import Prelude Isa Regfile Config Pipe Memory FlatMem TreePlru Cache BranchPredictor.
From S2P Require Import Stages Tracer Core.
Local Open Scope string_scope.
Local Open Scope Z_scope.

(** ** core.cpp: read_regs *)

(** [%08X] *)
Definition upper (c : ascii) : ascii :=
  let n := N_of_ascii c in if (97 <=? n)%N && (n <=? 122)%N then ascii_of_N (n - 32) else c.

Fixpoint map_string (f : ascii -> ascii) (s : string) : string :=
  match s with String c r => String (f c) (map_string f r) | EmptyString => "" end.

Definition fmt_HEX (width : nat) (v : Z) : string := map_string upper (fmt_hex width v).

Definition read_regs_line (rf : RegFile) (i : Z) : option string :=
  let j := i + 16 in
  ni ← abi_name i;
  vi ← RegFile_read rf i;
  nj ← abi_name j;
  vj ← RegFile_read rf j;
  Some (" x" ++ pad_right 2 (fmt_d i) ++ " " ++ pad_left 4 ni ++ " = 0x" ++ fmt_HEX 8 vi
        ++ "    x" ++ pad_right 2 (fmt_d j) ++ " " ++ pad_left 4 nj ++ " = 0x" ++ fmt_HEX 8 vj ++ newline).

(** [n] iterations of the loop, from [i]. *)
Fixpoint read_regs_loop (rf : RegFile) (n : nat) (i : Z) : option string :=
  match n with
  | O => Some ""
  | S n => l ← read_regs_line rf i; r ← read_regs_loop rf n (i + 1); Some (l ++ r)
  end.

Definition read_regs (rf : RegFile) : option string := read_regs_loop rf 16 0.
Definition Core_read_regs {IM DM} (c : Core IM DM) : option string := read_regs (co_rf_ c).

(** ** bench_run.cpp: the report *)

(** [%.2f] of a percentage, [%.3f] of a quotient, and the two clock figures. *)
Record Figures := mkFigures {
  percentage : Z -> Z -> string;
  quotient : Z -> Z -> string;
  wall_time : string;
  sim_speed : string;
}.

Definition on_off (b : bool) : string := if b then "on" else "off".
Definition when (b : bool) (s : string) : string := if b then s else "".

Section Report.
Context {IM DM : Type} (fig : Figures).
Implicit Type c : Core IM DM.

(** The lines about the options. *)
Definition report_config (elf_path : string) (mem_latency : Z) (dcache : bool) (dcache_ways : Z)
    (imem_latency : Z) (icache : bool) (icache_ways : Z) (iprefetch : bool) (iprefetch_degree : Z)
    (bpred : bool) : string :=
  "elf:       " ++ elf_path ++ newline ++
  "mem lat:   " ++ fmt_u mem_latency ++ " cycle(s)" ++ when dcache " (miss penalty)" ++ newline ++
  "dcache:    " ++ on_off dcache ++ when dcache (" (" ++ fmt_u dcache_ways ++ "-way)") ++ newline ++
  "imem lat:  " ++ fmt_u imem_latency ++ " cycle(s)" ++ when icache " (miss penalty)" ++ newline ++
  "icache:    " ++ on_off icache ++ when icache (" (" ++ fmt_u icache_ways ++ "-way)") ++ newline ++
  "iprefetch: " ++ on_off iprefetch ++ when iprefetch (" (degree " ++ fmt_u iprefetch_degree ++ ")") ++ newline ++
  "bpred:     " ++ on_off bpred ++ newline.

(** The lines about branches and prefetches. *)
Definition report_branches (iprefetch : bool) (s : SimStats) : string :=
  let correct := branch_correct s in
  let mispred := branch_mispredicts s in
  let total := u64 (correct + mispred) in
  "branches:  " ++ fmt_u total ++ newline ++
  "correct:   " ++ fmt_u correct ++ newline ++
  "mispred:   " ++ fmt_u mispred ++ newline ++
  when iprefetch ("pf useful/useless: " ++ fmt_u (icache_prefetch_useful s) ++ "/" ++
                  fmt_u (icache_prefetch_useless s) ++ newline) ++
  when (negb (total =? 0)) ("accuracy:  " ++ percentage fig correct total ++ "%" ++ newline).

Definition report_halted c : string :=
  match Core_halt_reason c with
  | HaltIllegal =>
      "halted:    ILLEGAL INSTRUCTION 0x" ++ fmt_hex 8 (Core_halt_raw c) ++ " at pc 0x" ++
      fmt_hex 8 (Core_halt_pc c) ++ newline
  | _ => "halted:    " ++ (if Core_halted c then "yes" else "no (cycle limit)") ++ newline
  end.

Definition report_counts (s : SimStats) : string :=
  "cycles:    " ++ fmt_u (cycles s) ++ newline ++
  "insts:     " ++ fmt_u (instructions s) ++ newline ++
  when (negb (cycles s =? 0)) ("IPC:       " ++ quotient fig (instructions s) (cycles s) ++ newline) ++
  "wall time: " ++ wall_time fig ++ " s" ++ newline ++
  "sim speed: " ++ sim_speed fig ++ " Mcycles/s" ++ newline ++
  newline.
End Report.

(** ** The dump is total *)

Lemma read_regs_total rf : RegFile_wf rf -> is_Some (read_regs rf).
Proof.
  intros Hrf. unfold read_regs.
  assert (Hl : forall n i, 0 <= i -> i + Z.of_nat n <= 16 -> is_Some (read_regs_loop rf n i)).
  { induction n as [|n IH]; intros i Hi Hn; [by eexists|]. cbn [read_regs_loop].
    assert (Hline : is_Some (read_regs_line rf i)).
    { unfold read_regs_line.
      destruct (abi_name_Some i) as [a ->]; [lia|]. destruct (RegFile_read_Some rf Hrf i) as (v & -> & _); [lia|].
      destruct (abi_name_Some (i + 16)) as [a' ->]; [lia|].
      destruct (RegFile_read_Some rf Hrf (i + 16)) as (v' & -> & _); [lia|]. by eexists. }
    destruct Hline as [l ->]. cbn [mbind option_bind]. destruct (IH (i + 1)) as [r ->]; [lia|lia|].
    by eexists. }
  by apply Hl.
Qed.
