(* ===== verification/BenchRun.v ===== *)
(** * The command-line runner

    Models [tools/bench_run.cpp]: the options, the configuration they make, the
    run, the trace file, the report and the exit code.  The contents of the ELF
    file, whether the trace file can be opened, and the printed form of the
    floating-point and wall-clock figures are parameters. *)

From Stdlib Require Import Ascii.
From S2P Require Import Prelude Config Pipe Memory FlatMem TreePlru Cache BranchPredictor Stages Tracer Elf Core Report.
Local Open Scope string_scope.
Local Open Scope Z_scope.

(** ** [strtoul] and [strtoull] in base 10, on 64-bit types *)

Definition is_space (c : ascii) : bool :=
  let n := Z.of_N (N_of_ascii c) in (n =? 32) || ((9 <=? n) && (n <=? 13)).

Definition digit_value (c : ascii) : option Z :=
  let n := Z.of_N (N_of_ascii c) - 48 in
  if (0 <=? n) && (n <? 10) then Some n else None.

Fixpoint skip_spaces (s : string) : string :=
  match s with
  | String c r => if is_space c then skip_spaces r else s
  | EmptyString => s
  end.

(** The longest prefix of digits, as a number. *)
Fixpoint digits_value (acc : Z) (s : string) : Z :=
  match s with
  | String c r => match digit_value c with Some d => digits_value (10 * acc + d) r | None => acc end
  | EmptyString => acc
  end.

Definition strtoul (s : string) : Z :=
  let s := skip_spaces s in
  let '(neg, s) :=
    match s with
    | String "-" r => (true, r)
    | String "+" r => (false, r)
    | _ => (false, s)
    end in
  let v := digits_value 0 s in
  if 2 ^ 64 <=? v then 2 ^ 64 - 1 else if neg : bool then u64 (- v) else v.

(** ** Options *)

Record Options := mkOptions {
  op_trace_path : option string;
  op_cycles_path : option string;
  op_elf_path : option string;
  op_max_cycles : Z;
  op_mem_latency : Z;
  op_dcache : bool;
  op_dcache_ways : Z;
  op_imem_latency : Z;
  op_icache : bool;
  op_icache_ways : Z;
  op_iprefetch : bool;
  op_iprefetch_degree : Z;
  op_bpred : bool;
}.

#[export] Instance Options_eta : Eta Options := fun o =>
  mkOptions (op_trace_path o) (op_cycles_path o) (op_elf_path o) (op_max_cycles o) (op_mem_latency o)
    (op_dcache o) (op_dcache_ways o) (op_imem_latency o) (op_icache o) (op_icache_ways o)
    (op_iprefetch o) (op_iprefetch_degree o) (op_bpred o).

Definition Options_default : Options :=
  mkOptions None None None (2 ^ 64 - 1) 5 false 1 1 false 1 false 1 false.

Fixpoint drop_chars (n : nat) (s : string) : string :=
  match n, s with
  | S n, String _ r => drop_chars n r
  | _, _ => s
  end.

(** [strncmp(arg, name, strlen(name)) == 0]: the rest of the argument. *)
Definition option_value (name arg : string) : option string :=
  if String.prefix name arg then Some (drop_chars (String.length name) arg) else None.

(** [static_cast<unsigned>(strtoul(..))] *)
Definition unsigned_value (v : string) : Z := u32 (strtoul v).

(** The body of the argument loop. *)
Definition parse_arg (o : Options) (arg : string) : Options :=
  match option_value "--trace=" arg with
  | Some v => o <| op_trace_path := Some v |>
  | None =>
  match option_value "--cycles=" arg with
  | Some v => o <| op_cycles_path := Some v |>
  | None =>
  match option_value "--mem-latency=" arg with
  | Some v => o <| op_mem_latency := unsigned_value v |>
  | None =>
  if String.eqb arg "--dcache" then o <| op_dcache := true |> else
  match option_value "--dcache-ways=" arg with
  | Some v => o <| op_dcache_ways := unsigned_value v |>
  | None =>
  match option_value "--imem-latency=" arg with
  | Some v => o <| op_imem_latency := unsigned_value v |>
  | None =>
  if String.eqb arg "--icache" then o <| op_icache := true |> else
  match option_value "--icache-ways=" arg with
  | Some v => o <| op_icache_ways := unsigned_value v |>
  | None =>
  if String.eqb arg "--iprefetch" then o <| op_iprefetch := true |> else
  match option_value "--iprefetch-degree=" arg with
  | Some v => o <| op_iprefetch_degree := unsigned_value v |>
  | None =>
  if String.eqb arg "--bpred" then o <| op_bpred := true |> else
  match op_elf_path o with
  | None => o <| op_elf_path := Some arg |>
  | Some _ => o <| op_max_cycles := strtoul arg |>
  end end end end end end end end.

Definition parse_args (args : list string) : Options := foldl parse_arg Options_default args.

Definition config_of (o : Options) : SimConfig :=
  let d := SimConfig_default in
  mkSimConfig (ram_base_addr d) (ram_size_bytes d) (op_mem_latency o) (op_dcache o)
    (dcache_line_bytes d) (dcache_sets d) (dcache_hit_latency_cycles d) (op_dcache_ways o)
    (op_imem_latency o) (op_icache o) (icache_line_bytes d) (icache_sets d)
    (icache_hit_latency_cycles d) (op_icache_ways o) (op_iprefetch o) (op_iprefetch_degree o)
    (op_bpred o) (bpred_bht_entries d) (bpred_btb_entries d).

(** ** main *)

Section Main.
Context (read_file : string -> option (list Z)) (can_open : string -> bool) (fig : Figures).

(** One tracer at a time; [--cycles] takes priority. *)
Definition attach_tracer (o : Options) (c : Core Port Port) : Core Port Port :=
  let out_path := match op_cycles_path o with Some p => Some p | None => op_trace_path o end in
  let fmt := match op_cycles_path o with Some _ => FormatCycle | None => FormatCommit end in
  match out_path with
  | Some p => if can_open p then Core_set_tracer c (Some (mkTracer "" fmt)) else c
  | None => c
  end.

Definition exit_code (c : Core Port Port) : Z :=
  match Core_halt_reason c with
  | HaltIllegal => 3
  | _ => if Core_halted c then 0 else 1
  end.

(** What is printed after the run. *)
Definition report (o : Options) (elf_path : string) (c : Core Port Port) : option string :=
  regs ← Core_read_regs c;
  Some (report_config elf_path (op_mem_latency o) (op_dcache o) (op_dcache_ways o) (op_imem_latency o)
          (op_icache o) (op_icache_ways o) (op_iprefetch o) (op_iprefetch_degree o) (op_bpred o) ++
        report_branches fig (op_iprefetch o) (Core_stats c) ++ report_halted c ++
        report_counts fig (Core_stats c) ++ regs).

(** The exit code, and after a run the core and the standard output; [None] when
    the process is aborted (or [fuel] is too small for the run). *)
Definition bench_main (fuel : nat) (args : list string)
    : option (Z * option (Core Port Port * string)) :=
  match args with
  | [] => Some (1, None)
  | _ =>
      let o := parse_args args in
      match op_elf_path o with
      | None => Some (1, None)
      | Some path =>
          core ← Core_new (config_of o);
          match Core_load_elf core (read_file path) with
          | Throw _ _ => Some (2, None)
          | Fault => None
          | Ok core =>
              core ← Core_run fuel (attach_tracer o core) (op_max_cycles o);
              out ← report o path core;
              Some (exit_code core, Some (core, out))
          end
      end
  end.
End Main.

Example parse_example :
  parse_args ["--dcache"; "--dcache-ways=4"; "prog.elf"; "--mem-latency=10"; "5000"; "--bpred"] =
    mkOptions None None (Some "prog.elf") 5000 10 true 4 1 false 1 false 1 true.
Proof. vm_compute. reflexivity. Qed.

(** A negative number wraps around, junk after the digits is ignored. *)
Example strtoul_examples :
  strtoul "  -1" = 2 ^ 64 - 1 /\ strtoul "12ab" = 12 /\ strtoul "x" = 0 /\
  strtoul "99999999999999999999" = 2 ^ 64 - 1.
Proof. vm_compute. split_and!; reflexivity. Qed.
