(* ===== verification/BenchSpec.v ===== *)
(** * What the command-line runner promises

    The options round-trip through the argument vector, and a run of the tool
    on a well-formed executable ends with the exit code, the final state, the
    report and the trace file of the RV32I execution. *)

From Stdlib Require Import Ascii.
From S2P Require Import Prelude Isa Regfile Config Pipe Memory FlatMem TreePlru Cache BranchPredictor.
From S2P Require Import Stages Tracer Elf Core IsaSpec Serial CoreInv Refine Shadow Correct Termination Build Program Simulator.
From S2P Require Import Trace ElfBoot Report BenchRun.
Local Open Scope string_scope.
Local Open Scope Z_scope.

(** ** Decimal numbers *)

Lemma digit_value_digit d : 0 <= d < 10 -> digit_value (hex_digit d) = Some d.
Proof.
  intros Hd. assert (d = 0 \/ d = 1 \/ d = 2 \/ d = 3 \/ d = 4 \/ d = 5 \/ d = 6 \/ d = 7 \/ d = 8 \/ d = 9)
    as Hx by lia.
  by repeat (destruct Hx as [->|Hx]); subst.
Qed.

(** Digits are read to the end of the string. *)
Fixpoint all_digits (s : string) : bool :=
  match s with
  | String c r => bool_decide (is_Some (digit_value c)) && all_digits r
  | EmptyString => true
  end.

Lemma digits_value_app acc s t :
  all_digits s = true -> digits_value acc (s ++ t) = digits_value (digits_value acc s) t.
Proof.
  revert acc. induction s as [|c s IH]; intros acc Hs; [done|].
  cbn [all_digits] in Hs. apply andb_true_iff in Hs as [Hc Hs].
  change (String c s ++ t) with (String c (s ++ t)).
  cbn [digits_value]. destruct (digit_value c); [by rewrite IH|done].
Qed.

Lemma all_digits_app s t : all_digits (s ++ t) = all_digits s && all_digits t.
Proof.
  induction s as [|c s IH]; [done|]. change (String c s ++ t) with (String c (s ++ t)).
  cbn [all_digits]. by rewrite IH, andb_assoc.
Qed.

Lemma dec_digits_all fuel v : 0 <= v -> all_digits (dec_digits fuel v) = true.
Proof.
  revert v. induction fuel as [|fuel IH]; intros v Hv; [done|]. cbn [dec_digits].
  rewrite all_digits_app. cbn [all_digits].
  rewrite digit_value_digit by (apply Z.mod_pos_bound; lia).
  change (bool_decide (is_Some (Some (v mod 10)))) with true. cbn [andb].
  destruct (v <? 10); [done|]. by rewrite IH by (apply Z.div_pos; lia).
Qed.

Lemma dec_digits_value fuel v :
  0 <= v < 10 ^ Z.of_nat fuel -> digits_value 0 (dec_digits fuel v) = v.
Proof.
  revert v. induction fuel as [|fuel IH]; intros v Hv; [cbn in Hv; cbn; lia|].
  cbn [dec_digits]. assert (0 <= v mod 10 < 10) by (apply Z.mod_pos_bound; lia).
  rewrite digits_value_app by (destruct (v <? 10); [done|]; apply dec_digits_all, Z.div_pos; lia).
  cbn [digits_value]. rewrite digit_value_digit by done.
  destruct (Z.ltb_spec v 10); [cbn [digits_value]; rewrite Z.mod_small; lia|].
  rewrite IH; [pose proof (Z.div_mod v 10); lia|].
  rewrite Nat2Z.inj_succ, Z.pow_succ_r in Hv by lia. split; [apply Z.div_pos; lia|].
  apply Z.div_lt_upper_bound; lia.
Qed.

(** A digit is neither a space nor a sign. *)
Lemma strtoul_digits c s d :
  digit_value c = Some d ->
  strtoul (String c s) = Z.min (digits_value 0 (String c s)) (2 ^ 64 - 1).
Proof.
  intros Hd. unfold strtoul. cbn [skip_spaces].
  assert (is_space c = false /\ c <> "-"%char /\ c <> "+"%char) as (-> & H1 & H2).
  { unfold digit_value, is_space in *. destruct (Z.leb_spec 0 (Z.of_N (N_of_ascii c) - 48)); [|done].
    split; [|by split; intros ->].
    destruct (Z.eqb_spec (Z.of_N (N_of_ascii c)) 32); [lia|].
    destruct (Z.leb_spec 9 (Z.of_N (N_of_ascii c))); [|done].
    destruct (Z.leb_spec (Z.of_N (N_of_ascii c)) 13); [lia|done]. }
  assert (Hm : match String c s with
    | String "-" r => (true, r) | String "+" r => (false, r) | _ => (false, String c s)
    end = (false, String c s)).
  { by destruct c as [[] [] [] [] [] [] [] []]. }
  rewrite Hm. destruct (Z.leb_spec (2 ^ 64) (digits_value 0 (String c s))); lia.
Qed.

Lemma dec_digits_cons fuel v :
  (0 < fuel)%nat -> 0 <= v -> exists c s d, dec_digits fuel v = String c s /\ digit_value c = Some d.
Proof.
  intros Hf Hv. pose proof (dec_digits_all fuel v Hv) as Ha.
  destruct (dec_digits fuel v) as [|c s] eqn:E.
  - destruct fuel; [lia|]. cbn [dec_digits] in E.
    by destruct (if v <? 10 then "" else dec_digits fuel (v / 10)).
  - cbn [all_digits] in Ha. apply andb_true_iff in Ha as [Hc _].
    apply bool_decide_eq_true_1 in Hc as [d Hd]. by exists c, s, d.
Qed.

Lemma strtoul_fmt_u v : 0 <= v < 2 ^ 64 -> strtoul (fmt_u v) = v.
Proof.
  intros Hv. unfold fmt_u. destruct (dec_digits_cons 20 v) as (c & s & d & E & Hd); [lia|lia|].
  pose proof (dec_digits_value 20 v ltac:(lia)) as Hx. rewrite E in *.
  rewrite (strtoul_digits c s d Hd), Hx. lia.
Qed.

Lemma digit_value_range c d : digit_value c = Some d -> 0 <= d < 10.
Proof.
  unfold digit_value. destruct (Z.leb_spec 0 (Z.of_N (N_of_ascii c) - 48)); [|done].
  destruct (Z.ltb_spec (Z.of_N (N_of_ascii c) - 48) 10); [|done]. intros [= <-]. lia.
Qed.

Lemma digits_value_nonneg acc s : 0 <= acc -> 0 <= digits_value acc s.
Proof.
  revert acc. induction s as [|c s IH]; intros acc Ha; [done|]. cbn [digits_value].
  destruct (digit_value c) as [d|] eqn:E; [|done]. apply digit_value_range in E. apply IH. lia.
Qed.

Lemma strtoul_range s : 0 <= strtoul s < 2 ^ 64.
Proof.
  unfold strtoul.
  destruct (match skip_spaces s with
    | String "-" r => (true, r) | String "+" r => (false, r) | _ => (false, skip_spaces s)
    end) as [neg r].
  pose proof (digits_value_nonneg 0 r ltac:(lia)). destruct (Z.leb_spec (2 ^ 64) (digits_value 0 r)); [lia|].
  destruct neg; [|lia]. apply Z.mod_pos_bound. lia.
Qed.

Lemma unsigned_value_fmt_u v : is_u32 v -> unsigned_value (fmt_u v) = v.
Proof.
  intros Hv. unfold is_u32 in Hv. unfold unsigned_value. rewrite strtoul_fmt_u by lia.
  apply Z.mod_small. lia.
Qed.

(** ** Options *)

(** What the command line can express: an ELF path that is not taken for an
    option, 32-bit counts and a 64-bit limit. *)
Record Options_ok (o : Options) : Prop := mkOptionsOk {
  oo_elf : exists p, op_elf_path o = Some p /\ String.prefix "--" p = false;
  oo_max : 0 <= op_max_cycles o < 2 ^ 64;
  oo_mem : is_u32 (op_mem_latency o);
  oo_imem : is_u32 (op_imem_latency o);
  oo_dways : is_u32 (op_dcache_ways o);
  oo_iways : is_u32 (op_icache_ways o);
  oo_degree : is_u32 (op_iprefetch_degree o);
}.

Definition flag (b : bool) (name : string) : list string := if b then [name] else [].
Definition path_arg (name : string) (p : option string) : list string :=
  match p with Some v => [(name ++ v)%string] | None => [] end.

(** The argument vector that says [o]. *)
Definition render_args (o : Options) : list string :=
  (path_arg "--trace=" (op_trace_path o) ++ path_arg "--cycles=" (op_cycles_path o) ++
   ["--mem-latency=" ++ fmt_u (op_mem_latency o)]%string ++ flag (op_dcache o) "--dcache" ++
   ["--dcache-ways=" ++ fmt_u (op_dcache_ways o)]%string ++
   ["--imem-latency=" ++ fmt_u (op_imem_latency o)]%string ++ flag (op_icache o) "--icache" ++
   ["--icache-ways=" ++ fmt_u (op_icache_ways o)]%string ++ flag (op_iprefetch o) "--iprefetch" ++
   ["--iprefetch-degree=" ++ fmt_u (op_iprefetch_degree o)]%string ++ flag (op_bpred o) "--bpred" ++
   path_arg "" (op_elf_path o) ++ [fmt_u (op_max_cycles o)])%list.

Lemma prefix_weaken a b s : String.prefix a s = false -> String.prefix (a ++ b) s = false.
Proof.
  revert s. induction a as [|c a IH]; intros s Hs; [by destruct s|]. destruct s as [|c' s]; [done|].
  change (String c a ++ b) with (String c (a ++ b)). cbn [String.prefix] in *.
  destruct (Ascii.ascii_dec c c'); [by apply IH|done].
Qed.

(** An argument that is no option: the ELF path first, then the cycle limit. *)
Lemma parse_positional o arg :
  String.prefix "--" arg = false ->
  parse_arg o arg =
    match op_elf_path o with
    | None => o <| op_elf_path := Some arg |>
    | Some _ => o <| op_max_cycles := strtoul arg |>
    end.
Proof.
  intros Hp.
  assert (Hn : forall name, option_value ("--" ++ name) arg = None)
    by (intros name; unfold option_value; by rewrite (prefix_weaken "--" name arg Hp)).
  assert (He : forall name, String.eqb arg ("--" ++ name) = false).
  { intros name. apply String.eqb_neq. intros ->. by destruct name. }
  unfold parse_arg.
  rewrite (Hn "trace=" : option_value "--trace=" arg = None),
    (Hn "cycles=" : option_value "--cycles=" arg = None),
    (Hn "mem-latency=" : option_value "--mem-latency=" arg = None),
    (He "dcache" : String.eqb arg "--dcache" = false),
    (Hn "dcache-ways=" : option_value "--dcache-ways=" arg = None),
    (Hn "imem-latency=" : option_value "--imem-latency=" arg = None),
    (He "icache" : String.eqb arg "--icache" = false),
    (Hn "icache-ways=" : option_value "--icache-ways=" arg = None),
    (He "iprefetch" : String.eqb arg "--iprefetch" = false),
    (Hn "iprefetch-degree=" : option_value "--iprefetch-degree=" arg = None),
    (He "bpred" : String.eqb arg "--bpred" = false).
  done.
Qed.

Lemma fmt_u_positional v : 0 <= v -> String.prefix "--" (fmt_u v) = false.
Proof.
  intros Hv. unfold fmt_u. destruct (dec_digits_cons 20 v) as (c & s & d & -> & Hd); [lia|done|].
  cbn [String.prefix]. by destruct (Ascii.ascii_dec "-" c) as [<-|]; [vm_compute in Hd|].
Qed.

(** Each kind of argument sets its field. *)
Section Fields.
Context (o : Options).

Lemma parse_path_args p c :
  foldl parse_arg o (path_arg "--trace=" p ++ path_arg "--cycles=" c)%list =
  o <| op_trace_path := match p with Some _ => p | None => op_trace_path o end |>
    <| op_cycles_path := match c with Some _ => c | None => op_cycles_path o end |>.
Proof. by destruct o, p as [[]|], c as [[]|]. Qed.

Lemma parse_flags :
  (forall b, foldl parse_arg o (flag b "--dcache") = o <| op_dcache := b || op_dcache o |>) /\
  (forall b, foldl parse_arg o (flag b "--icache") = o <| op_icache := b || op_icache o |>) /\
  (forall b, foldl parse_arg o (flag b "--iprefetch") = o <| op_iprefetch := b || op_iprefetch o |>) /\
  (forall b, foldl parse_arg o (flag b "--bpred") = o <| op_bpred := b || op_bpred o |>).
Proof. destruct o. split_and!; by intros []. Qed.

Lemma parse_counts v :
  parse_arg o ("--mem-latency=" ++ v)%string = o <| op_mem_latency := unsigned_value v |> /\
  parse_arg o ("--dcache-ways=" ++ v)%string = o <| op_dcache_ways := unsigned_value v |> /\
  parse_arg o ("--imem-latency=" ++ v)%string = o <| op_imem_latency := unsigned_value v |> /\
  parse_arg o ("--icache-ways=" ++ v)%string = o <| op_icache_ways := unsigned_value v |> /\
  parse_arg o ("--iprefetch-degree=" ++ v)%string = o <| op_iprefetch_degree := unsigned_value v |>.
Proof. by destruct v. Qed.
End Fields.

(** C31: the options round-trip through the command line.  Parsing the
    arguments that spell a set of options gives these options back: every
    option sets its own field and no other, the numbers are read in full, the
    first positional argument is the executable and the second the limit. *)
Theorem parse_render o : Options_ok o -> parse_args (render_args o) = o.
Proof.
  intros [(p & Hp & Hpre) Hmax Hm Hi Hdw Hiw Hdeg]. unfold parse_args, render_args.
  rewrite app_assoc, Hp. cbn [path_arg]. change (("" ++ p)%string) with p.
  rewrite foldl_app, parse_path_args. rewrite !foldl_app. cbn [foldl].
  repeat match goal with
  | |- context [parse_arg ?x (?n ++ ?v)%string] =>
      destruct (parse_counts x v) as (-> & _) || destruct (parse_counts x v) as (_ & -> & _) ||
      destruct (parse_counts x v) as (_ & _ & -> & _) || destruct (parse_counts x v) as (_ & _ & _ & -> & _) ||
      destruct (parse_counts x v) as (_ & _ & _ & _ & ->)
  | |- context [foldl parse_arg ?x (flag ?b ?n)] =>
      destruct (parse_flags x) as (F1 & F2 & F3 & F4); rewrite F1 || rewrite F2 || rewrite F3 || rewrite F4;
      clear F1 F2 F3 F4
  end.
  rewrite (parse_positional _ p Hpre), (parse_positional _ _ (fmt_u_positional _ (proj1 Hmax))).
  rewrite !unsigned_value_fmt_u, strtoul_fmt_u by done.
  destruct o as [tr cy elf ? ? ? ? ? ? ? ? ? ?]. cbn in *. subst elf. rewrite !orb_false_r.
  by destruct tr, cy.
Qed.

Lemma parse_render_witness :
  let o := mkOptions (Some "log") None (Some "prog.elf") 5000 10 true 4 1 false 1 true 2 true in
  render_args o = ["--trace=log"; "--mem-latency=10"; "--dcache"; "--dcache-ways=4"; "--imem-latency=1";
    "--icache-ways=1"; "--iprefetch"; "--iprefetch-degree=2"; "--bpred"; "prog.elf"; "5000"] /\
  parse_args (render_args o) = o.
Proof.
  intros o. split; [vm_compute; reflexivity|]. apply parse_render.
  constructor; unfold is_u32; cbn; try lia. by exists "prog.elf".
Defined.

(** The limit a command line sets is a 64-bit number. *)
Lemma parse_args_max args : 0 <= op_max_cycles (parse_args args) < 2 ^ 64.
Proof.
  unfold parse_args.
  assert (H0 : 0 <= op_max_cycles Options_default < 2 ^ 64) by done. revert H0.
  generalize Options_default as o. induction args as [|a args IH]; intros o Ho; [done|].
  cbn [foldl]. apply IH. unfold parse_arg.
  repeat match goal with
  | |- context [option_value ?n a] => destruct (option_value n a); [by destruct o|]
  | |- context [String.eqb a ?n] => destruct (String.eqb a n); [by destruct o|]
  end.
  destruct (op_elf_path o); [|by destruct o]. destruct o. apply strtoul_range.
Qed.

(** ** A run of the tool *)

Section Main.
Context (read_file : string -> option (list Z)) (can_open : string -> bool) (fig : Figures).

(** [--trace] is honoured when the file opens and [--cycles] is not given. *)
Definition commit_trace (o : Options) : bool :=
  match op_cycles_path o, op_trace_path o with None, Some p => can_open p | _, _ => false end.

Lemma attach_tracer_eq o c :
  exists t, attach_tracer can_open o c = Core_set_tracer c t /\
    (commit_trace o = true -> t = Some (mkTracer "" FormatCommit)).
Proof using Type.
  unfold attach_tracer, commit_trace.
  destruct (op_cycles_path o) as [p|], (op_trace_path o) as [q|]; cbv zeta iota;
    try (destruct (can_open _); [by eexists|]; by exists (co_tracer_ c); rewrite set_tracer_same).
  by exists (co_tracer_ c); rewrite set_tracer_same.
Qed.

(** On an executable with a safe program the tool gets to the simulation loop. *)
Lemma bench_main_loaded args path data fuel :
  let o := parse_args args in
  op_elf_path o = Some path -> read_file path = Some data -> elf_safe (config_of o) data ->
  exists c t, loaded (config_of o) data (Core_set_tracer c t) /\
    bench_main read_file can_open fig fuel args =
      (c' ← Core_run fuel (Core_set_tracer c t) (op_max_cycles o);
       out ← report fig o path c'; Some (exit_code c', Some (c', out))) /\
    (commit_trace o = true -> t = Some (mkTracer "" FormatCommit)).
Proof using Type.
  intros o Hpath Hfile Hp. destruct (Core_new_start _ (es_config _ _ Hp)) as (c0 & E0 & _).
  destruct (elf_loaded _ data c0 Hp E0) as (c & El & Hld).
  destruct (attach_tracer_eq o c) as (t & Et & Hlog). exists c, t. split; [done|]. split; [|done].
  unfold bench_main. destruct args as [|a args]; [done|]. fold o. cbv zeta.
  rewrite Hpath, E0. cbn [mbind option_bind]. by rewrite Hfile, El, Et.
Qed.
End Main.

(** The report on a program that has ended. *)
Lemma report_result fig o path (c : Core Port Port) n k s regs :
  isa_result c n k s -> Core_read_regs c = Some regs ->
  exists out, report fig o path c = Some out /\
    exists head ncycles figures,
      out = head ++ (if op_eqb (k_op k) EBREAK then "halted:    yes"
                     else "halted:    ILLEGAL INSTRUCTION 0x" ++ fmt_hex 8 (k_raw k) ++
                          " at pc 0x" ++ fmt_hex 8 (k_pc k)) ++ newline ++
            "cycles:    " ++ fmt_u ncycles ++ newline ++
            "insts:     " ++ fmt_u (Z.of_nat n) ++ newline ++ figures ++ regs.
Proof.
  intros (Hh & Hn & _ & _ & Hreason & Hpc & Hraw) Hregs. unfold report. rewrite Hregs.
  cbn [mbind option_bind]. eexists. split; [reflexivity|].
  set (A := report_config _ _ _ _ _ _ _ _ _ _). set (B := report_branches _ _ _).
  unfold report_halted, report_counts, Core_halt_reason, Core_halted, Core_halt_raw, Core_halt_pc, Core_stats.
  rewrite Hreason, Hh, Hpc, Hraw, Hn.
  exists (A ++ B), (cycles (co_stats_ c)), (
    when (negb (cycles (co_stats_ c) =? 0))
      ("IPC:       " ++ quotient fig (Z.of_nat n) (cycles (co_stats_ c)) ++ newline) ++
    "wall time: " ++ wall_time fig ++ " s" ++ newline ++
    "sim speed: " ++ sim_speed fig ++ " Mcycles/s" ++ newline ++ newline).
  destruct (op_eqb (k_op k) EBREAK); by rewrite !app_assoc_string.
Qed.

(** What every run leaves can be dumped. *)
Lemma read_regs_after cfg data c m ks c' :
  loaded cfg data c -> ticks m c = Some (ks, c') -> exists regs, Core_read_regs c' = Some regs.
Proof.
  intros [Hst _ _ _ _ _ _ Ha _] E. pose proof (run_state c m ks c' Hst Ha E) as Hr.
  apply read_regs_total. destruct (co_halted_ c').
  - apply (cw_rf _ (fn_wf _ _ _ Hr)).
  - apply (cw_rf _ (rn_wf _ _ _ Hr)).
Qed.

(** C14: the tool, end to end.  When the executable named on the command line
    is well-formed for the configuration the options make, and its program is
    safe and ends with its [n]-th instruction within the cycle limit, the tool
    exits with 0 after an EBREAK and 3 after an unrecognised word; the core it
    leaves has the registers, memory and counts of the RV32I execution, the
    report ends with how the program halted, its instruction count and the
    dump of its registers, and a commit trace asked for with [--trace] is the
    log of that execution. *)
Theorem bench_main_computes read_file can_open fig args path data n ks k s fuel :
  let o := parse_args args in
  op_elf_path o = Some path -> read_file path = Some data ->
  elf_program (config_of o) data n ks k s ->
  cycle_bound (config_of o) n <= op_max_cycles o -> cycle_bound (config_of o) n <= Z.of_nat fuel ->
  exists c out, bench_main read_file can_open fig fuel args =
      Some (if op_eqb (k_op k) EBREAK then 0 else 3, Some (c, out)) /\
    isa_result c n k s /\
    (exists head ncycles figures regs, read_regs (a_regs s) = Some regs /\
       out = head ++ (if op_eqb (k_op k) EBREAK then "halted:    yes"
                      else "halted:    ILLEGAL INSTRUCTION 0x" ++ fmt_hex 8 (k_raw k) ++
                           " at pc 0x" ++ fmt_hex 8 (k_pc k)) ++ newline ++
             "cycles:    " ++ fmt_u ncycles ++ newline ++
             "insts:     " ++ fmt_u (Z.of_nat n) ++ newline ++ figures ++ regs) /\
    (commit_trace can_open o = true -> k_op k = EBREAK ->
     co_tracer_ c = Some (mkTracer (commit_log (ks ++ [k])) FormatCommit)).
Proof.
  intros o Hpath Hfile Hp Hmax Hfuel. pose proof (parse_args_max args) as Hr. fold o in Hr.
  destruct (bench_main_loaded read_file can_open fig args path data fuel Hpath Hfile (ep_safe Hp))
    as (c & t & Hld & Hmain & Hlog). fold o in Hld, Hmain, Hlog.
  destruct (loaded_computes _ _ _ n ks k s (op_max_cycles o) fuel Hld Hp) as (c' & m & Er & Hi & _ & Hm);
    [lia|lia|].
  destruct (read_regs_after _ _ _ m _ c' Hld Hm) as [regs Hregs].
  destruct (report_result fig o path c' n k s regs Hi Hregs) as (out & Hout & Htext).
  exists c', out. rewrite Hmain, Er. cbn [mbind option_bind]. rewrite Hout. split; [|split; [done|split]].
  - destruct Hi as (Hh & _ & _ & _ & Hreason & _). cbn [mbind option_bind].
    unfold exit_code, Core_halt_reason, Core_halted.
    rewrite Hreason, Hh. by destruct (op_eqb (k_op k) EBREAK).
  - destruct Htext as (head & ncycles & figures & ->). exists head, ncycles, figures, regs. split; [|done].
    destruct Hi as (_ & _ & <- & _). exact Hregs.
  - intros Hc Hk. apply Hlog in Hc as ->. destruct Hld.
    pose proof (start_running _ ld_start ld_aligned) as Hrun.
    apply (ticks_log _ ld_start ld_aligned m [] _ _ c' "" Hrun eq_refl Hm).
    apply Forall_app. split; [|constructor; [by rewrite Hk|constructor]].
    apply (Forall_impl _ _ _ (ep_running Hp)). intros x Hx Ex. by rewrite Ex in Hx.
Qed.

(** C17: the tool never aborts on an executable with a safe program, terminating
    or not: within the cycle limit it returns, with exit code 0 after an EBREAK,
    3 after an unrecognised word, and 1 exactly when the program was still
    running after as many cycles as the limit. *)
Theorem bench_main_total read_file can_open fig args path data fuel :
  let o := parse_args args in
  op_elf_path o = Some path -> read_file path = Some data -> elf_safe (config_of o) data ->
  op_max_cycles o <= Z.of_nat fuel ->
  exists c out code, bench_main read_file can_open fig fuel args = Some (code, Some (c, out)) /\
    if co_halted_ c then code = 0 /\ co_halt_reason_ c = HaltEbreak \/
                         code = 3 /\ co_halt_reason_ c = HaltIllegal
    else code = 1 /\ cycles (co_stats_ c) = op_max_cycles o.
Proof.
  intros o Hpath Hfile Hp Hfuel. pose proof (parse_args_max args) as Hr. fold o in Hr.
  destruct (bench_main_loaded read_file can_open fig args path data fuel Hpath Hfile Hp)
    as (c & t & Hld & Hmain & _). fold o in Hld, Hmain. destruct (Hld) as [Hst Hl Hre St _ _ _ Ha Hs]. rewrite Hmain. clear Hmain.
  set (c1 := Core_set_tracer c t) in *.
  destruct (run_ends fuel c1 (op_max_cycles o) (st_wf _ Hst)) as (n & ks & c' & En & _ & _ & Hend);
    [rewrite St; cbn; lia|lia|rewrite St; cbn; lia|].
  destruct (secure_ticks c1 Hst Ha Hs n [] c1 (start_secure c1 Hst Ha)) as (ks' & c2 & E2 & Hr2).
  rewrite En in E2. apply Some_inj, pair_equal_spec in E2 as [<- <-].
  destruct (Core_run fuel c1 (op_max_cycles o)) as [c2|]; cbn [mbind option_bind].
  - destruct Hend as [-> Hend]. destruct (read_regs_after _ _ _ n ks c' Hld En) as [regs Hregs].
    unfold report. rewrite Hregs. cbn [mbind option_bind]. eexists c', _, (exit_code c'). split; [done|].
    unfold exit_code, Core_halted, Core_halt_reason. destruct (co_halted_ c') eqn:Hh.
    + destruct Hr2 as [_ _ _ (ks1 & k & s & _ & _ & _ & _ & _ & Hk & _)]. rewrite Hk.
      destruct (op_eqb (k_op k) EBREAK); [by left|by right].
    + destruct Hend as [Hend|(_ & Hend & _)]; [done|]. split; [|done].
      by rewrite (ticks_reason n c1 ks c' (st_wf _ Hst) (st_running _ Hst) En Hh), Hre.
  - destruct Hend as [Hh Ht]. rewrite Hh in Hr2.
    destruct (secure_tick c1 Hst Ha Hs _ c' Hr2) as (b & c3 & E3 & _). by rewrite E3 in Ht.
Qed.

(** C36: bad invocations.  No argument at all or none that names a file ends with
    exit code 1; a file that cannot be opened, is not a RISC-V ELF32 file, or
    starts elsewhere than at the RAM base ends with exit code 2; in none of
    these cases is a single cycle simulated. *)
Theorem bench_main_rejects read_file can_open fig fuel args :
  let o := parse_args args in
  config_ok (config_of o) ->
  match op_elf_path o with
  | None => bench_main read_file can_open fig fuel args = Some (1, None)
  | Some path =>
      match read_file path with Some data => header_ok data = false | None => True end \/
      (exists data, read_file path = Some data /\ elf_fits (config_of o) data /\
         e_entry (ehdr_in data) <> ram_base_addr (config_of o)) ->
      bench_main read_file can_open fig fuel args = Some (2, None)
  end.
Proof.
  intros o Hok. unfold bench_main.
  destruct (op_elf_path o) as [path|] eqn:Hpath; [|by destruct args; [|fold o; cbv zeta; rewrite Hpath]].
  intros Hbad. destruct args as [|a args]; [done|]. fold o. cbv zeta. rewrite Hpath.
  destruct (Core_new_start _ Hok) as (c & -> & Hst & Hbase & _ & _ & Him & Hdm & _ & Hflat & _).
  cbn [mbind option_bind]. destruct Hbad as [Hbad|(data & -> & (Hu & Hh & Hseg) & Hne)].
  - destruct (load_elf_header (Port_flat (co_imem_ c)) (co_dmem_ c) (read_file path) Hbad) as (e & He).
    unfold Core_load_elf. by rewrite He.
  - assert (Hfr : mem_ram (Port_flat (co_imem_ c)) = mem_ram (co_imem_ c)) by (by destruct (co_imem_ c)).
    destruct (load_elf_ok (Port_flat (co_imem_ c)) (co_dmem_ c) data Hflat
      (cw_dmem _ (st_wf _ Hst)) Hu Hh) as (m & d & El & _).
    { intros i Hr. rewrite Hfr, Him, Hdm. destruct (Hseg i Hr). by split_and!. }
    unfold Core_load_elf. rewrite El. cbn [mbind outcome_bind]. rewrite Hbase.
    by destruct (Z.eqb_spec (e_entry (ehdr_in data)) (ram_base_addr (config_of o))).
Qed.

(** ** An example invocation *)

Definition example_args : list string := ["--trace=log"; "--dcache"; "a.elf"; "1000"].
Definition example_options : Options := parse_args example_args.
Definition example_files (name : string) : option (list Z) :=
  if String.eqb name "a.elf" then Some example_elf else None.

(** Figures printed as truncated integers. *)
Definition example_figures : Figures :=
  mkFigures (fun a b => fmt_u (100 * a / b)) (fun a b => fmt_u (a / b)) "0" "0".

Lemma example_options_ok : config_ok (config_of example_options).
Proof.
  constructor; try (unfold is_u32; cbn; lia); intros Hx; try discriminate Hx.
  unfold cache_ok, is_u32; cbn; split_and!; (lia || reflexivity).
Qed.

Lemma example_options_elf : elf_ok (config_of example_options) example_elf.
Proof.
  split; [|reflexivity]. split; [repeat constructor; unfold is_u8; lia|]. split; [reflexivity|].
  intros i Hi. change (e_phnum (ehdr_in example_elf)) with 1 in Hi. assert (i = 0) as -> by lia.
  unfold phdr_fits, segment_ok, ram_covers. vm_compute. split_and!; intuition discriminate.
Qed.

Lemma example_options_program :
  exists k s, elf_program (config_of example_options) example_elf 1 [] k s /\ k_op k = EBREAK.
Proof.
  assert (Hk : match isa_steps (elf_ram seg_bytes example_elf (blank_ram (config_of example_options))) 1
      (elf_state (config_of example_options) example_elf) with
    | Some (ls, _) => k_op <$> ls | None => [] end = [EBREAK]) by (vm_compute; reflexivity).
  destruct (isa_steps (elf_ram seg_bytes example_elf (blank_ram (config_of example_options))) 1
    (elf_state (config_of example_options) example_elf)) as [[ls s]|] eqn:Es; [|discriminate Hk].
  destruct ls as [|k [|? ?]]; [discriminate Hk| |discriminate Hk]. injection Hk as Hk.
  exists k, s. split; [|exact Hk]. constructor; [|exact Es|by constructor|by rewrite Hk].
  constructor; [exact example_options_ok|exact example_options_elf|by left|].
  apply (safe_check_sound _ _ 3). vm_compute. reflexivity.
Qed.

Lemma bench_main_computes_witness :
  exists k c out, bench_main example_files (fun _ => true) example_figures 100 example_args =
      Some (0, Some (c, out)) /\
    co_tracer_ c = Some (mkTracer (commit_log [k]) FormatCommit) /\ instructions (co_stats_ c) = 1.
Proof.
  destruct example_options_program as (k & s & Hp & Hk).
  assert (Hb : cycle_bound (config_of example_options) 1 = 15) by reflexivity.
  assert (Hm : op_max_cycles example_options = 1000) by reflexivity.
  destruct (bench_main_computes example_files (fun _ => true) example_figures example_args "a.elf" example_elf 1 [] k s 100
    eq_refl eq_refl Hp) as (c & out & E & (_ & Hi & _) & _ & Ht); fold example_options;
    [rewrite Hb, Hm; lia|rewrite Hb; lia|].
  rewrite Hk in E. exists k, c, out. exact (conj E (conj (Ht eq_refl Hk) Hi)).
Defined.

Lemma bench_main_total_witness :
  exists c out code, bench_main example_files (fun _ => false) example_figures 1000 example_args =
      Some (code, Some (c, out)) /\
    if co_halted_ c then code = 0 /\ co_halt_reason_ c = HaltEbreak \/
                         code = 3 /\ co_halt_reason_ c = HaltIllegal
    else code = 1 /\ cycles (co_stats_ c) = 1000.
Proof.
  destruct example_options_program as (k & s & Hp & _).
  assert (Hm : op_max_cycles example_options = 1000) by reflexivity.
  destruct (bench_main_total example_files (fun _ => false) example_figures example_args "a.elf" example_elf 1000
    eq_refl eq_refl (ep_safe Hp)) as (c & out & code & E & Hc); fold example_options; [rewrite Hm; lia|].
  fold example_options in Hc. rewrite Hm in Hc. exists c, out, code. exact (conj E Hc).
Defined.

(** The file the command line names does not exist. *)
Lemma bench_main_rejects_witness :
  bench_main (fun _ => None) (fun _ => true) example_figures 100 example_args = Some (2, None) /\
  bench_main example_files (fun _ => true) example_figures 100 ["--icache"] = Some (1, None).
Proof.
  split.
  - exact (bench_main_rejects (fun _ => None) (fun _ => true) example_figures 100 example_args example_options_ok (or_introl I)).
  - refine (bench_main_rejects example_files (fun _ => true) example_figures 100 ["--icache"] _).
    constructor; try (unfold is_u32; cbn; lia); intros Hx; try discriminate Hx.
    unfold cache_ok, is_u32; cbn; split_and!; (lia || reflexivity).
Defined.
